(* ===== verification/_CoqProject ===== *)
-Q . S2P
Prelude.v
GoStrings.v
GoTime.v
Regex.v
Guard.v
Mode.v
Annotations.v
ExoConfig.v
Auth.v
Evaluator.v
Sha256.v
Identity.v
Effects.v
K8sOps.v
Unstructured.v
Json.v
GoUrl.v
Proxy.v
Psa.v
Sql.v
PgRegistrar.v
NatsRegistrar.v
RustfsRegistrar.v
SpireRegistrar.v
Injector.v
Contract.v
Controller.v
Scheduler.v
AuthzHelpers.v
EnclaveTools.v
PsaDefaults.v
Enrich.v
Egress.v
Process.v
Deploy.v
WfApply.v
Run.v
WfHealth.v
Workflow.v
Discover.v
AuditTools.v
Quantity.v
Float64.v
Profile.v
Health.v
ClusterOps.v
Concurrent.v
Overlap.v
Server.v
System.v
