(* ===== verification/Prelude.v ===== *)
(** * tentacular-mcp: a verification development

    tentacular-mcp is a server that lets agents manage "enclaves" - labelled and
    annotated Kubernetes namespaces with an owner and members - and the workflows
    ("tentacles") deployed in them.  A request passes an HTTP middleware that
    establishes who calls (pkg/auth, pkg/exoskeleton/auth.go), reaches a tool
    handler (pkg/tools) that asks the evaluator whether the caller may act
    (pkg/authz), and works on the cluster (pkg/k8s) and on the backing services of
    the tentacle, the "exoskeleton" (pkg/exoskeleton: Postgres, NATS, RustFS,
    SPIRE).  This library models that path; this file is its root.

    ** How the program is modelled

    Pure Go code is translated to functions.  Strings are lists of bytes, and the
    Unicode tables of Go's standard library are a parameter ([GoStrings.Unicode])
    that no theorem constrains: statements that depend on case folding of
    non-ASCII text say so.  Errors are kept symbolic: the format and its operands,
    with the Kubernetes reason that [errors.As] would find.

    Effectful code is a [prog] ([Effects]): a tree of requests to the Kubernetes
    API, Postgres, the object store, the clock and the random source, with a
    continuation for every possible answer.  Nothing is assumed of the answers, so
    a theorem about all of them covers failures at any point and every
    interleaving with other clients.  [holds R Q h p] says that every request of
    [p] satisfies [R] in the history of requests and answers so far and every
    result satisfies [Q]; every path through a program is finite, whatever the
    answers, so all of them end.  The same programs run on an in-memory cluster
    ([exec]) for examples and witnesses.

    Libraries the repository only calls are type classes whose instances the
    theorems quantify over: OIDC ([Auth.OidcLib]), MinIO errors
    ([RustfsRegistrar.MinioLib]), the accessors of unstructured manifests
    ([Unstructured.UnstructuredLib], with their documented behaviour as
    [UnstructuredLaws]), the cron library ([Scheduler.CronLib], [CronLaws]), the
    YAML library ([Contract.YamlLib], [YamlLaws], [Discover.DescribeYaml]), the
    quantities of Kubernetes ([Quantity.QuantityLib], [QuantityLaws]), and, of the
    standard library, bracketed URL hosts ([GoUrl.UrlLib]).  Each has a small concrete instance on
    which witnesses are evaluated.

    ** The files

    - [Prelude], [GoStrings], [GoTime], [Regex], [Sha256]: results and errors, Go's
      string functions and their laws, RFC 3339 times, regular expressions with a
      verified derivative matcher, SHA-256.
    - [Json], [GoUrl]: encoding/json with the round trip of string maps, and net/url
      as far as the program uses it, with [parseHostPort] (enrich.go).
    - [Guard] (pkg/guard), [Mode] (mode.go, presets.go), [Annotations]
      (annotations.go, enclave_annotations.go), [Evaluator] (evaluator.go): names,
      permission modes, the metadata kept in annotations, and the decisions.
    - [ExoConfig] (config.go), [Auth] (pkg/auth, exoskeleton/auth.go), [Identity]
      (identity.go): configuration, authentication, and the names of a tentacle's
      role, schema, user, prefix and policy.
    - [Effects], [K8sOps] (client.go, namespace.go, quota.go, netpol.go, rbac.go),
      [Unstructured], [Psa] (psa.go): requests, the objects of a namespace,
      manifests, and the security checks on them.
    - [PgRegistrar], [NatsRegistrar], [RustfsRegistrar], [SpireRegistrar]
      (registrar_*.go), [Controller] (controller.go): registering and
      unregistering a tentacle with each service, and cleaning up after it; [Sql] is
      the lexical structure of SQL that the statements are read by.
    - [Injector] (injector.go), [Contract], [Egress], [Enrich] (enrich.go),
      [Process] (ProcessManifests in controller.go): from the dependencies a
      workflow declares to manifests that carry its credentials.
    - [Scheduler] (pkg/scheduler), [Proxy] (pkg/proxy): the table of cron schedules,
      and the reconciler of the module proxy.
    - [AuthzHelpers], [EnclaveTools] (pkg/tools/authz_helpers.go, enclave.go),
      [PsaDefaults], [Deploy], [WfApply] (pkg/tools/deploy.go, pkg/k8s/prewarm.go):
      the tool handlers and what they do to manifests.
    - [Run] (pkg/k8s/run.go, pkg/tools/run.go, trigger in scheduler.go), [WfHealth]
      (wf_health.go), [Workflow] (workflow.go), [Discover] (discover.go): running a
      workflow, its health, its pods, logs, events and jobs, and the listing and
      description of workflows.
    - [AuditTools] (audit.go), [Profile] (pkg/k8s/profile.go), [Health] (health.go),
      [ClusterOps] (preflight.go, clusterops.go, proxy.go): what the read-only tools
      report of an enclave and of the cluster; [Quantity] and [Float64] are the
      numbers they compute with.
    - [Concurrent], [Overlap]: an object of the cluster with its versions under
      programs that run at the same time, each suspended between its requests
      ([Concurrent.step]); the abstract system in which one call changes the object
      at once ([Concurrent.atomic]) and the simulation between the two, applied to
      the authorization file of NATS and to the namespace of an enclave.
    - [Server] (server.go, main.go, register.go, platform.go): the HTTP handler, the
      start from the environment, the registered tools with their annotations, and
      [Server.invoke], what a call does to the server.
    - [System]: what holds of a started server in every state it reaches.

    A Go method [T.M] is the definition [M]; a handler registered as the tool
    [enclave_sync] is the definition of that name, and loop bodies, switch arms and
    closures that deserve a name of their own follow the function they belong to.

    ** What the theorems show

    - The whole system: from the start of the server on, whatever was asked before
      and whatever the cluster answers, no call of a tool changes a protected
      namespace, every job the scheduler runs is that of a workflow it lists, a call
      without an identity changes nothing where authorization is on, and a tool
      annotated read-only changes nothing at all.
    - Decisions: [CheckEnclave] and [CheckTentacle] implement a specification in
      terms of principals and permission bits; a tentacle never opens more than
      its enclave does.
    - Authentication: with OIDC the MCP endpoint gets no request without the
      identity of a validated token or of the shared one; a validated token has a
      subject and a trusted client.
    - Ownership: every change [enclave_sync] and [enclave_deprovision] make for an
      OIDC caller follows a fetch that showed the caller as owner; transfers touch
      only tentacles of removed members; nobody is dropped when an enclave changes
      hands; provisioning is all or nothing, limited and attributed.
    - Overlapping calls: however the requests of any number of calls interleave and
      whichever fail, registrations with NATS lose nothing, and synchronisations of
      one enclave change its Namespace atomically, each checked against the owner in
      the object it replaces (the transfers and the quota are other objects).
    - Isolation: identities of different tentacles do not share a NATS user or
      prefix, and the object-store policy grants exactly the tentacle's own keys;
      every SQL statement reads as the intended one with the names in it quoted, and
      registration commits all or nothing.
    - Delivery: for every service a workflow declares, successful processing puts
      that service's credentials into the workflow's secret; enrichment of its
      contract sets the fields of each registered dependency and nothing else; each
      endpoint gets its egress rule, as narrow as the endpoint, and none where a host
      does not resolve; none of it depends on
      the iteration order of Go maps.
    - Workflows: nothing is written before the caller was found entitled, or the
      cluster answered that there is no object to ask the permission of; the
      schedules follow the Deployment; applying stays in a managed namespace, applies every manifest,
      and deletes only leftovers of its own release; security defaults are enough
      and never override the author; re-applying keeps the ownership of the
      existing Deployment; removal follows the check on the Deployment, if
      there is one.
    - Runs: a workflow whose Deployment is found is run only for a caller entitled to
      it, never on a frozen enclave, with the caller's input and nothing else; the retry loop ends by the
      deadline of its context.
    - Reports: the listings and the health report contain exactly what the caller
      may read; a profile tells of every request that failed, but for those it names as
      dispensable; the audit of
      roles finds what it names and nothing else, what the server creates for an
      enclave passes its own audits, a passing preflight is one in which every check
      was answered, and the percentages of a quota are finite numbers.
    - Round trips of modes, annotations and the NATS authorization file, the
      exact behaviour of the validators, and cleanup that is complete whatever
      fails on the way; a proxy reconciler that writes only to repair what it just saw
      broken, and whose every pass ends settled or with a failed request.
    - A few theorems record where the code falls short of its intent, for example
      [Scheduler.Register_rejected_disables], [Overlap.deprovision_stale_owner],
      [Deploy.wf_remove_not_found_unchecked], [AuditTools.allow_all_unreported] and
      [Profile.quota_guidance_blank].

    ** Bounds and fuel

    [EnclaveTools.sync_retries] takes the code's own bound of three attempts.
    [Sha256.groups] cuts the padded message with its length as fuel, one unit per
    block and so always enough.  [Json.parse_json] takes twice the length of its text and two as
    fuel ([Json.parse_json_total]: enough for every text).  [Run.RunWorkflow] takes
    one attempt more than there are retry intervals before the deadline of its
    context ([Run.attempts]); [Run.RunWorkflow_terminates] shows that it is enough
    whenever the clock does not run backwards, and that more changes nothing.  All other recursion is structural.  Counters the
    code keeps in [int] are integers without wrap-around: they count elements of
    lists held in memory.

    ** What is not modelled

    Logging, contexts and time-outs of single calls, tool descriptions and the
    JSON decoding of parameters; sockets, drivers and the MCP, HTTP and cron
    machinery itself, with listening, signals and shutdown.  Requests that the code
    issues concurrently (the prewarming of modules) are issued one after the
    other.  In the theorems about the whole server, calls share the table of
    schedules, which each changes by one step under its mutex ([System.moved]); the
    scan at startup is cut into such steps as well ([System.serving]).
    [Concurrent] follows one object at a time. *)

From stdpp Require Export base tactics list gmap strings pretty sorting.
From Stdlib Require Export ZArith Lia Ascii String.
(** [String] shadows list functions of the same name. *)
Abbreviation length := Datatypes.length.

#[global] Set Default Goal Selector "!".

(** ** Results *)

(** Go errors, kept symbolic: [ErrorNew] is [errors.New], [Errorf] is
    [fmt.Errorf] with its format and its operands, and [APIError] is an error
    value made by the Kubernetes API machinery, of which the code inspects the
    reason only. *)
Inductive api_reason :=
  | NotFound
  | AlreadyExists
  | Conflict
  | OtherReason.

Inductive error :=
  | ErrorNew (msg : string)
  | Errorf (fmt : string) (args : list errarg)
  | APIError (reason : api_reason) (msg : string)
with errarg :=
  | AStr (s : string)
  | AInt (z : Z)
  | AErr (e : error).

#[export] Instance api_reason_eq_dec : EqDecision api_reason.
Proof. solve_decision. Defined.

(** A Go call that returns [(T, error)] and whose value is used only when the
    error is nil. *)
Inductive res (A : Type) :=
  | Ok (a : A)
  | Err (e : error).
Arguments Ok {_} _.
Arguments Err {_} _.

#[export] Instance res_ret : MRet res := fun A a => Ok a.
#[export] Instance res_bind : MBind res := fun A B f m =>
  match m with
  | Ok a => f a
  | Err e => Err e
  end.

Definition is_ok {A} (r : res A) : bool :=
  match r with
  | Ok _ => true
  | Err _ => false
  end.

(** The API error [errors.As] finds in a wrapped error: the error itself, or the
    first one among the operands wrapped with [%w] ([AErr]). *)
Fixpoint api_reason_of (e : error) : option api_reason :=
  match e with
  | ErrorNew _ => None
  | APIError r _ => Some r
  | Errorf _ args =>
      (fix first (l : list errarg) : option api_reason :=
         match l with
         | [] => None
         | AErr e' :: l' =>
             match api_reason_of e' with
             | Some r => Some r
             | None => first l'
             end
         | _ :: l' => first l'
         end) args
  end.

(** [apierrors.IsNotFound] and its siblings: the reason of an API error. *)
Definition reason_is (why : api_reason) (e : error) : bool :=
  bool_decide (api_reason_of e = Some why).

(** ** Tactics *)

(** Case analysis on every [match] and [if] in the goal. *)
Ltac split_matches :=
  repeat (case_match; simplify_eq/=).

(** Reduce a monadic computation whose head results are known. *)
Ltac res_simpl :=
  unfold mbind, mret, res_bind, res_ret in *; simpl in *.

(** A hypothesis [x ∈ [a; b; ...]] by cases. *)
Ltac in_cases H := rewrite !elem_of_cons, elem_of_nil in H; destruct_or! H; simplify_eq.

(** ** Shared lemmas on lists *)

Lemma elem_of_snoc {A} (x y : A) l : x ∈ (l ++ [y])%list <-> x ∈ l \/ x = y.
Proof. by rewrite elem_of_app, list_elem_of_singleton. Qed.

Lemma is_ok_true {A} (r : res A) : is_ok r = true <-> exists a, r = Ok a.
Proof.
  destruct r; simpl; split; [by eauto|done|done|]. by intros [? ?].
Qed.

Lemma forallb_True {A} (f : A -> bool) (l : list A) :
  forallb f l = true <-> Forall (fun x => f x = true) l.
Proof. rewrite forallb_forall, List.Forall_forall. done. Qed.

Lemma existsb_In {A} (f : A -> bool) (l : list A) :
  existsb f l = true <-> exists x, x ∈ l /\ f x = true.
Proof.
  rewrite existsb_exists. split; intros (x & Hx & Hf); exists x;
    rewrite ?list_elem_of_In in *; done.
Qed.


(** [m] answers to the elements of [l] that satisfy [P], in their order. *)
Inductive selects {A B} (P : A -> Prop) (E : A -> B -> Prop) : list A -> list B -> Prop :=
  | selects_nil : selects P E [] []
  | selects_keep x y l m : P x -> E x y -> selects P E l m -> selects P E (x :: l) (y :: m)
  | selects_drop x l m : ~ P x -> selects P E l m -> selects P E (x :: l) m.

Lemma selects_snoc_keep {A B} (P : A -> Prop) (E : A -> B -> Prop) l m x y :
  selects P E l m -> P x -> E x y -> selects P E (l ++ [x]) (m ++ [y]).
Proof. intros H Hx He. induction H; cbn; by repeat constructor. Qed.
Lemma selects_snoc_drop {A B} (P : A -> Prop) (E : A -> B -> Prop) l m x :
  selects P E l m -> ~ P x -> selects P E (l ++ [x]) m.
Proof. intros H Hx. induction H; cbn; by repeat constructor. Qed.
