(* ===== verification/GoStrings.v ===== *)
(** * Go strings

    The parts of Go's [strings], [strconv] and [fmt] packages the program
    uses, on strings as byte sequences.  The Unicode tables of the Go library
    are a parameter ([Unicode]): as in Go, [ToLower] and [Quote] consult them
    only for strings that hold a byte outside ASCII. *)

From S2P Require Import Prelude.
#[local] Open Scope string_scope.
#[local] Open Scope nat_scope.

(** ** Characters *)

Definition code (c : ascii) : nat := nat_of_ascii c.
Definition is_ascii_char (c : ascii) : bool := code c <? 128.
Definition between (lo hi c : ascii) : bool := (code lo <=? code c) && (code c <=? code hi).
Definition is_upper (c : ascii) : bool := between "A" "Z" c.
Definition is_lower (c : ascii) : bool := between "a" "z" c.
Definition is_digit (c : ascii) : bool := between "0" "9" c.
Definition is_alnum (c : ascii) : bool := is_lower c || is_upper c || is_digit c.

Definition lower_char (c : ascii) : ascii :=
  if is_upper c then ascii_of_nat (code c + 32) else c.

Definition nl : string := String (ascii_of_nat 10) "".
Definition dquote : ascii := ascii_of_nat 34.
Definition backslash : ascii := ascii_of_nat 92.

(** ** Traversals *)

Fixpoint str_forallb (p : ascii -> bool) (s : string) : bool :=
  match s with
  | EmptyString => true
  | String c s' => p c && str_forallb p s'
  end.

Fixpoint str_map (f : ascii -> ascii) (s : string) : string :=
  match s with
  | EmptyString => ""
  | String c s' => String (f c) (str_map f s')
  end.

Fixpoint str_filter (p : ascii -> bool) (s : string) : string :=
  match s with
  | EmptyString => ""
  | String c s' => if p c then String c (str_filter p s') else str_filter p s'
  end.

Definition is_ascii (s : string) : bool := str_forallb is_ascii_char s.

(** The bytes of [s] that satisfy [p] up to the first that does not, and the rest. *)
Fixpoint str_drop (n : nat) (s : string) : string :=
  match n, s with
  | 0, _ => s
  | S n', String _ s' => str_drop n' s'
  | S _, EmptyString => ""
  end.

Fixpoint str_take (n : nat) (s : string) : string :=
  match n, s with
  | 0, _ => ""
  | S n', String c s' => String c (str_take n' s')
  | S _, EmptyString => ""
  end.

Fixpoint str_rev_app (s acc : string) : string :=
  match s with
  | EmptyString => acc
  | String c s' => str_rev_app s' (String c acc)
  end.
Definition str_rev (s : string) : string := str_rev_app s "".

(** [s[i]], which panics out of range in Go. *)
Definition byte_at (s : string) (i : nat) : option ascii := String.get i s.

(** ** The [strings] package *)

Fixpoint HasPrefix (s prefix : string) {struct prefix} : bool :=
  match prefix, s with
  | EmptyString, _ => true
  | String p prefix', String c s' => Ascii.eqb p c && HasPrefix s' prefix'
  | String _ _, EmptyString => false
  end.

Definition HasSuffix (s suffix : string) : bool := HasPrefix (str_rev s) (str_rev suffix).

Definition TrimPrefix (s prefix : string) : string :=
  if HasPrefix s prefix then str_drop (String.length prefix) s else s.

(** [strings.Contains]: some suffix of [s] starts with [sub]. *)
Fixpoint Contains (s sub : string) : bool :=
  HasPrefix s sub ||
  match s with
  | EmptyString => false
  | String _ s' => Contains s' sub
  end.

(** [strings.Split] on a one-byte separator. *)
Fixpoint Split (s : string) (sep : ascii) : list string :=
  match s with
  | EmptyString => [""]
  | String c s' =>
      if Ascii.eqb c sep then "" :: Split s' sep
      else match Split s' sep with
           | [] => [String c ""]
           | h :: t => String c h :: t
           end
  end.

Fixpoint Join (elems : list string) (sep : string) : string :=
  match elems with
  | [] => ""
  | [x] => x
  | x :: rest => x +:+ sep +:+ Join rest sep
  end.

(** [strings.ReplaceAll] on one-byte operands. *)
Definition ReplaceByte (old new : ascii) (s : string) : string :=
  str_map (fun c => if Ascii.eqb c old then new else c) s.

(** [strings.ReplaceAll s old new] where [old] is one byte. *)
Fixpoint ReplaceAll1 (s : string) (old : ascii) (new : string) : string :=
  match s with
  | EmptyString => ""
  | String c s' =>
      if Ascii.eqb c old then new +:+ ReplaceAll1 s' old new
      else String c (ReplaceAll1 s' old new)
  end.

(** [strings.TrimLeft] with a one-byte cutset, and [strings.Trim], [strings.TrimRight]. *)
Fixpoint TrimLeftByte (cut : ascii) (s : string) : string :=
  match s with
  | String c s' => if Ascii.eqb c cut then TrimLeftByte cut s' else s
  | EmptyString => ""
  end.
Definition TrimRightByte (cut : ascii) (s : string) : string :=
  str_rev (TrimLeftByte cut (str_rev s)).
Definition TrimByte (cut : ascii) (s : string) : string :=
  TrimRightByte cut (TrimLeftByte cut s).

(** [strings.Index] and [strings.LastIndex] of one byte; [None] is -1. *)
Fixpoint IndexByte (s : string) (c : ascii) : option nat :=
  match s with
  | EmptyString => None
  | String a s' => if Ascii.eqb a c then Some 0 else S <$> IndexByte s' c
  end.
Fixpoint LastIndexByte (s : string) (c : ascii) : option nat :=
  match s with
  | EmptyString => None
  | String a s' =>
      match LastIndexByte s' c with
      | Some i => Some (S i)
      | None => if Ascii.eqb a c then Some 0 else None
      end
  end.

(** The UTF-8 encodings of the runes [unicode.IsSpace] accepts. *)
Definition bytes_of (l : list nat) : string :=
  fold_right (fun n s => String (ascii_of_nat n) s) "" l.
Definition space_runes : list string :=
  bytes_of <$>
  ([[9]; [10]; [11]; [12]; [13]; [32]; [194; 133]; [194; 160]; [225; 154; 128]]
   ++ ((fun k => [226; 128; 128 + k]) <$> seq 0 11)
   ++ [[226; 128; 168]; [226; 128; 169]; [226; 128; 175]; [226; 129; 159]; [227; 128; 128]])%list.

(** Remove one encoded rune of [toks] from the front of [s]. *)
Definition strip_one (toks : list string) (s : string) : option string :=
  (fun tok => str_drop (String.length tok) s) <$> find (HasPrefix s) toks.

(** Every step removes at least one byte, so [String.length s] steps are enough. *)
Fixpoint strip_all (fuel : nat) (toks : list string) (s : string) : string :=
  match fuel with
  | 0 => s
  | S fuel' =>
      match strip_one toks s with
      | Some s' => strip_all fuel' toks s'
      | None => s
      end
  end.

Definition TrimSpaceLeft (s : string) : string := strip_all (String.length s) space_runes s.
Definition TrimSpaceRight (s : string) : string :=
  str_rev (strip_all (String.length s) (str_rev <$> space_runes) (str_rev s)).
Definition TrimSpace (s : string) : string := TrimSpaceRight (TrimSpaceLeft s).

(** ** Go's order on strings (bytewise) and [sort.Strings] *)

Fixpoint str_leb (a b : string) : bool :=
  match a, b with
  | EmptyString, _ => true
  | String _ _, EmptyString => false
  | String x a', String y b' =>
      if Ascii.eqb x y then str_leb a' b' else code x <? code y
  end.

Section insertion_sort.
Context {A : Type} (le : A -> A -> bool).
Fixpoint insert_sorted (x : A) (l : list A) : list A :=
  match l with
  | [] => [x]
  | y :: l' => if le x y then x :: l else y :: insert_sorted x l'
  end.
Fixpoint isort (l : list A) : list A :=
  match l with
  | [] => []
  | x :: l' => insert_sorted x (isort l')
  end.
End insertion_sort.

Definition SortStrings : list string -> list string := isort str_leb.

(** [slices.Contains], or membership in a map used as a set. *)
Definition str_in (s : string) (l : list string) : bool := existsb (String.eqb s) l.

(** ** Unicode tables *)

Class Unicode := {
  uni_to_lower : string -> string;
  uni_quote : string -> string;
  uni_range : string -> list string;
}.

(** Tables that leave every byte outside ASCII unchanged, for evaluation. *)
Definition ascii_tables : Unicode :=
  {| uni_to_lower := fun s => s; uni_quote := fun s => s;
     uni_range := fun s => (fun c => String c "") <$> list_ascii_of_string s |}.

Section unicode.
Context `{U : Unicode}.

(** The runes a [for range] loop over a string yields, each in its UTF-8
    encoding (U+FFFD for an invalid byte): the bytes of an ASCII string. *)
Definition runes (s : string) : list string :=
  if is_ascii s then (fun c => String c "") <$> list_ascii_of_string s else uni_range s.

(** [strings.ToLower]: Go's ASCII fast path, the Unicode tables otherwise. *)
Definition ToLower (s : string) : string :=
  if is_ascii s then str_map lower_char s else uni_to_lower s.

(** [strconv.Quote]. *)
Definition hex_digit (n : nat) : ascii :=
  ascii_of_nat (if n <? 10 then 48 + n else 87 + n).
Definition quote_char (c : ascii) : string :=
  let n := code c in
  if n =? 34 then bytes_of [92; 34]
  else if n =? 92 then bytes_of [92; 92]
  else if n =? 7 then bytes_of [92; 97]
  else if n =? 8 then bytes_of [92; 98]
  else if n =? 12 then bytes_of [92; 102]
  else if n =? 10 then bytes_of [92; 110]
  else if n =? 13 then bytes_of [92; 114]
  else if n =? 9 then bytes_of [92; 116]
  else if n =? 11 then bytes_of [92; 118]
  else if (n <? 32) || (n =? 127)
       then bytes_of [92; 120] +:+ String (hex_digit (n / 16)) (String (hex_digit (n mod 16)) "")
  else String c "".
Fixpoint quote_body (s : string) : string :=
  match s with
  | EmptyString => ""
  | String c s' => quote_char c +:+ quote_body s'
  end.
Definition Quote (s : string) : string :=
  if is_ascii s then String dquote (quote_body s +:+ String dquote "") else uni_quote s.

(** [fmt.Sprintf] with the verbs the program uses: %s, %v, %w, %d plain, %q quoted.
    The operands are given as text; those left over are reported at the end. *)
Definition extra_args (args : list string) : string :=
  match args with
  | [] => ""
  | _ => "%!(EXTRA " +:+ Join ((fun a => "string=" +:+ a) <$> args) ", " +:+ ")"
  end.
Fixpoint Sprintf (f : string) (args : list string) : string :=
  match f with
  | String "%" (String "q" f') =>
      match args with
      | a :: args' => Quote a +:+ Sprintf f' args'
      | [] => "%!q(MISSING)" +:+ Sprintf f' []
      end
  | String "%" (String "%" f') => String "%" (Sprintf f' args)
  | String "%" (String _ f') =>
      match args with
      | a :: args' => a +:+ Sprintf f' args'
      | [] => "%!(MISSING)" +:+ Sprintf f' []
      end
  | String c f' => String c (Sprintf f' args)
  | EmptyString => extra_args args
  end.

(** [err.Error()]. *)
Fixpoint ErrorText (e : error) : string :=
  match e with
  | ErrorNew msg => msg
  | APIError _ msg => msg
  | Errorf f args =>
      Sprintf f (map (fun a => match a with
                               | AStr s => s
                               | AInt z => pretty z
                               | AErr e' => ErrorText e'
                               end) args)
  end.

End unicode.

(** ** Lemmas *)

#[local] Arguments String.append !_ _ / : simpl nomatch.

Lemma str_app_nil_r s : s +:+ "" = s.
Proof. induction s; simpl; congruence. Qed.

Lemma str_app_assoc a b c : (a +:+ b) +:+ c = a +:+ (b +:+ c).
Proof. induction a; simpl; congruence. Qed.

Lemma str_length_app a b : String.length (a +:+ b) = String.length a + String.length b.
Proof. induction a; simpl; congruence. Qed.

Lemma str_forallb_app p a b : str_forallb p (a +:+ b) = str_forallb p a && str_forallb p b.
Proof. induction a as [|c a IH]; simpl; [done|]. by rewrite IH, andb_assoc. Qed.

Lemma str_take_app p r : str_take (String.length p) (p +:+ r) = p.
Proof. induction p as [|c p IH]; simpl; [by destruct r|]. by rewrite IH. Qed.

Lemma str_drop_app p r : str_drop (String.length p) (p +:+ r) = r.
Proof. induction p; simpl; congruence. Qed.

Lemma str_length_take n s : String.length (str_take n s) = Nat.min n (String.length s).
Proof. revert s. induction n; intros [|c s]; simpl; congruence. Qed.

Lemma str_take_drop n s : str_take n s +:+ str_drop n s = s.
Proof. revert s. induction n; intros [|c s]; simpl; congruence. Qed.

Lemma str_app_inj_l a b c : a +:+ b = a +:+ c -> b = c.
Proof. induction a; simpl; intros; [done|]. simplify_eq. auto. Qed.

Lemma str_app_inj_len a b c d :
  String.length a = String.length c -> a +:+ b = c +:+ d -> a = c /\ b = d.
Proof.
  revert c. induction a as [|x a IH]; intros [|y c]; simpl; intros Hl Heq; simplify_eq; [done|].
  destruct (IH c) as [-> ->]; [done..|]. done.
Qed.

Lemma str_forallb_impl (p q : ascii -> bool) s :
  (forall c, p c = true -> q c = true) -> str_forallb p s = true -> str_forallb q s = true.
Proof.
  intros Hpq. induction s as [|c s IH]; simpl; [done|].
  rewrite !andb_true_iff. intros [Hc Hs]. split; [by apply Hpq|by apply IH].
Qed.

Lemma str_forallb_map p f s : str_forallb p (str_map f s) = str_forallb (fun c => p (f c)) s.
Proof. induction s; simpl; congruence. Qed.

Lemma str_length_map f s : String.length (str_map f s) = String.length s.
Proof. induction s; simpl; congruence. Qed.

Lemma str_forallb_filter p s : str_forallb p (str_filter p s) = true.
Proof. induction s as [|c s IH]; simpl; [done|]. destruct (p c) eqn:E; simpl; by rewrite ?E. Qed.

Lemma str_filter_all p s : str_forallb p s = true -> str_filter p s = s.
Proof.
  induction s as [|c s IH]; simpl; [done|]. rewrite andb_true_iff.
  intros [-> Hs]. by rewrite IH.
Qed.

Lemma str_filter_length p s : String.length (str_filter p s) <= String.length s.
Proof. induction s as [|c s IH]; simpl; [done|]. case_match; simpl; lia. Qed.

Lemma str_map_id (f : ascii -> ascii) (p : ascii -> bool) s :
  (forall c, p c = true -> f c = c) -> str_forallb p s = true -> str_map f s = s.
Proof.
  intros Hf. induction s as [|c s IH]; simpl; [done|]. rewrite andb_true_iff.
  intros [Hc Hs]. by rewrite Hf, IH.
Qed.

Lemma HasPrefix_app p r : HasPrefix (p +:+ r) p = true.
Proof. induction p; simpl; [done|]. by rewrite Ascii.eqb_refl. Qed.

Lemma HasPrefix_true s p : HasPrefix s p = true <-> exists r, s = p +:+ r.
Proof.
  split.
  - revert s. induction p as [|a p IH]; intros s; simpl; [by exists s|].
    destruct s as [|c s]; [done|]. rewrite andb_true_iff, Ascii.eqb_eq.
    intros [-> Hp]. destruct (IH s Hp) as [r ->]. by exists r.
  - intros [r ->]. apply HasPrefix_app.
Qed.

Lemma TrimPrefix_app p r : TrimPrefix (p +:+ r) p = r.
Proof. unfold TrimPrefix. by rewrite HasPrefix_app, str_drop_app. Qed.

(** A byte occurs in a string when [Contains] finds the one-byte string. *)
Lemma Contains_byte s c :
  Contains s (String c "") = negb (str_forallb (fun a => negb (Ascii.eqb a c)) s).
Proof.
  induction s as [|a s IH]; [done|]. simpl Contains. rewrite IH. simpl.
  rewrite negb_andb, negb_involutive, (Ascii.eqb_sym c a).
  by destruct (Ascii.eqb a c).
Qed.

(** *** Split and Join *)

Definition no_byte (sep : ascii) (s : string) : bool := str_forallb (fun c => negb (Ascii.eqb c sep)) s.

Lemma Split_not_nil s sep : Split s sep <> [].
Proof. destruct s as [|c s]; simpl; [done|]. by repeat case_match. Qed.

Lemma Split_no_byte s sep : no_byte sep s = true -> Split s sep = [s].
Proof.
  unfold no_byte. induction s as [|c s IH]; simpl; [done|].
  rewrite andb_true_iff, negb_true_iff. intros [-> Hs]. by rewrite IH.
Qed.

Lemma Split_app a b sep :
  no_byte sep a = true -> Split (a +:+ String sep b) sep = a :: Split b sep.
Proof.
  unfold no_byte. induction a as [|c a IH]; simpl.
  - by rewrite Ascii.eqb_refl.
  - rewrite andb_true_iff, negb_true_iff. intros [-> Ha]. by rewrite IH.
Qed.

Lemma Split_app_any a b sep : Split (a +:+ String sep b) sep = (Split a sep ++ Split b sep)%list.
Proof.
  induction a as [|c a IH]; simpl; [by rewrite Ascii.eqb_refl|].
  destruct (Ascii.eqb c sep); [by rewrite IH|]. rewrite IH.
  destruct (Split a sep) as [|p ps] eqn:Hs; [by apply Split_not_nil in Hs|]. done.
Qed.

Lemma Split_Join parts sep :
  parts <> [] -> Forall (fun s => no_byte sep s = true) parts ->
  Split (Join parts (String sep "")) sep = parts.
Proof.
  intros Hne Hall. induction Hall as [|x l Hx Hl IH]; [done|].
  destruct l as [|y l].
  - simpl. by apply Split_no_byte.
  - change (Join (x :: y :: l) (String sep ""))
      with (x +:+ String sep (Join (y :: l) (String sep ""))).
    rewrite Split_app by done. by rewrite IH.
Qed.

Lemma Split_parts_no_byte s sep : Forall (fun x => no_byte sep x = true) (Split s sep).
Proof.
  unfold no_byte. induction s as [|c s IH]; simpl; [by constructor|].
  destruct (Ascii.eqb c sep) eqn:E; [by constructor|].
  destruct (Split s sep) as [|h t]; [constructor; simpl; by rewrite ?E|].
  apply Forall_cons in IH as [Hh Ht]. constructor; [|done]. simpl. by rewrite E.
Qed.

Lemma Join_Split s sep : Join (Split s sep) (String sep "") = s.
Proof.
  induction s as [|c s IH]; simpl; [done|].
  pose proof (Split_not_nil s sep) as Hne.
  destruct (Ascii.eqb c sep) eqn:E.
  - apply Ascii.eqb_eq in E as ->. destruct (Split s sep) as [|h t]; [done|].
    simpl. f_equal. exact IH.
  - destruct (Split s sep) as [|h t]; [done|]. rewrite <- IH.
    by destruct t.
Qed.

(** *** The order on strings *)

Lemma str_leb_refl a : str_leb a a = true.
Proof. induction a; simpl; [done|]. by rewrite Ascii.eqb_refl. Qed.

Lemma code_inj a b : code a = code b -> a = b.
Proof. unfold code. intros H. by rewrite <- (ascii_nat_embedding a), H, ascii_nat_embedding. Qed.

Lemma str_leb_total a b : str_leb a b = true \/ str_leb b a = true.
Proof.
  revert b. induction a as [|x a IH]; intros [|y b]; simpl; auto.
  rewrite (Ascii.eqb_sym y x). destruct (Ascii.eqb x y) eqn:E; [apply IH|].
  apply Ascii.eqb_neq in E. rewrite !Nat.ltb_lt.
  destruct (decide (code x = code y)) as [He|]; [by apply code_inj in He|]. lia.
Qed.

Lemma str_leb_trans a b c : str_leb a b = true -> str_leb b c = true -> str_leb a c = true.
Proof.
  revert b c. induction a as [|x a IH]; intros [|y b] [|z c]; simpl; try done.
  destruct (Ascii.eqb_spec x y) as [->|Hxy], (Ascii.eqb_spec y z) as [->|Hyz];
    try destruct (Ascii.eqb_spec x z) as [->|]; rewrite ?Ascii.eqb_refl, ?Nat.ltb_lt;
    try (by eauto); try done; intros; try lia; try congruence.
Qed.

Lemma str_leb_antisym a b : str_leb a b = true -> str_leb b a = true -> a = b.
Proof.
  revert b. induction a as [|x a IH]; intros [|y b]; simpl; try done.
  rewrite (Ascii.eqb_sym y x). destruct (Ascii.eqb_spec x y) as [->|].
  - intros. by rewrite (IH b).
  - rewrite !Nat.ltb_lt. lia.
Qed.

(** *** Insertion sort *)

Section isort_lemmas.
Context {A : Type} (le : A -> A -> bool).
Hypothesis le_total : forall a b, le a b = true \/ le b a = true.
Hypothesis le_trans : forall a b c, le a b = true -> le b c = true -> le a c = true.

Abbreviation sorted := (Sorted (fun a b => le a b = true)).
Abbreviation strongly := (StronglySorted (fun a b => le a b = true)).

Lemma insert_sorted_perm x l : insert_sorted le x l ≡ₚ x :: l.
Proof.
  induction l as [|y l IH]; simpl; [done|].
  destruct (le x y); [done|]. rewrite IH. apply Permutation_swap.
Qed.

Lemma isort_perm l : isort le l ≡ₚ l.
Proof. induction l as [|x l IH]; simpl; [done|]. by rewrite insert_sorted_perm, IH. Qed.

Lemma insert_sorted_ok x l : strongly l -> strongly (insert_sorted le x l).
Proof.
  induction 1 as [|y l Hl IH Hy]; simpl; [by repeat constructor|].
  destruct (le x y) eqn:E.
  - constructor; [by constructor|]. constructor; [done|].
    eapply Forall_impl; [exact Hy|]. simpl. intros. by eapply le_trans.
  - constructor; [exact IH|]. rewrite insert_sorted_perm. constructor; [|exact Hy].
    destruct (le_total x y); congruence.
Qed.

Lemma isort_strongly l : strongly (isort le l).
Proof. induction l; simpl; [constructor|]. by apply insert_sorted_ok. Qed.

Lemma isort_sorted_id l : strongly l -> isort le l = l.
Proof.
  induction 1 as [|x l Hl IH Hx]; simpl; [done|]. rewrite IH.
  destruct l as [|y l]; simpl; [done|]. apply Forall_cons in Hx as [-> _]. done.
Qed.
End isort_lemmas.

Lemma isort_fmap {A B} (f : A -> B) (le : B -> B -> bool) l :
  isort le (f <$> l) = f <$> isort (fun x y => le (f x) (f y)) l.
Proof.
  induction l as [|x l IH]; [done|]. rewrite fmap_cons. cbn [isort]. rewrite IH. clear IH.
  induction (isort _ l) as [|y l' IH]; [done|]. rewrite fmap_cons. cbn [insert_sorted].
  destruct (le (f x) (f y)); [done|]. by rewrite fmap_cons, IH.
Qed.

Lemma SortStrings_perm l : SortStrings l ≡ₚ l.
Proof. apply isort_perm. Qed.

Lemma SortStrings_sorted l : StronglySorted (fun a b => str_leb a b = true) (SortStrings l).
Proof. apply isort_strongly; eauto using str_leb_total, str_leb_trans. Qed.

(** Two sorted lists with the same elements are equal, so [sort.Strings] does
    not depend on the order its input was collected in (Go map iteration). *)
Lemma SortStrings_ext l1 l2 : l1 ≡ₚ l2 -> SortStrings l1 = SortStrings l2.
Proof.
  intros Hp. assert (Hp' : SortStrings l1 ≡ₚ SortStrings l2) by by rewrite !SortStrings_perm.
  pose proof (SortStrings_sorted l1) as H1. pose proof (SortStrings_sorted l2) as H2.
  revert Hp' H1 H2. generalize (SortStrings l1) (SortStrings l2). clear.
  induction l as [|x l IH]; intros l' Hp H1 H2; [by apply Permutation_nil_l in Hp|].
  destruct l' as [|y l']; [by apply Permutation_nil_r in Hp|].
  assert (x = y) as ->.
  { apply StronglySorted_inv in H1 as [_ H1]. apply StronglySorted_inv in H2 as [_ H2].
    rewrite Forall_forall in H1, H2.
    assert (Hx : x ∈ y :: l') by (rewrite <- Hp; left).
    assert (Hy : y ∈ x :: l) by (rewrite Hp; left).
    apply elem_of_cons in Hx as [->|Hx]; [done|].
    apply elem_of_cons in Hy as [->|Hy]; [done|].
    apply str_leb_antisym; auto. }
  f_equal. apply IH; [by apply Permutation_cons_inv in Hp| |];
    by (apply StronglySorted_inv in H1; apply StronglySorted_inv in H2; intuition).
Qed.

(** *** Lower case *)

Lemma is_upper_lower_char c : is_upper (lower_char c) = false.
Proof.
  revert c. assert (forall n, n < 256 -> is_upper (lower_char (ascii_of_nat n)) = false) as H.
  { intros n Hn. do 256 (destruct n as [|n]; [reflexivity|]). lia. }
  intros c. rewrite <- (ascii_nat_embedding c). apply H, nat_ascii_bounded.
Qed.

Lemma lower_char_ascii c : is_ascii_char c = true -> is_ascii_char (lower_char c) = true.
Proof.
  destruct c as [[] [] [] [] [] [] [] []]; intros H; try discriminate H; reflexivity.
Qed.

Section lower_lemmas.
Context `{U : Unicode}.

Lemma ToLower_no_upper s :
  is_ascii s = true -> str_forallb (fun c => negb (is_upper c)) s = true -> ToLower s = s.
Proof.
  intros Ha Hs. unfold ToLower. rewrite Ha. eapply str_map_id; [|exact Hs].
  intros c Hc. unfold lower_char. by rewrite negb_true_iff in Hc; rewrite Hc.
Qed.

Lemma ToLower_ascii_idem s : is_ascii s = true -> ToLower (ToLower s) = ToLower s.
Proof.
  intros Ha. apply ToLower_no_upper; unfold ToLower; rewrite Ha.
  - unfold is_ascii in *. rewrite str_forallb_map.
    eapply str_forallb_impl; [|exact Ha]. apply lower_char_ascii.
  - rewrite str_forallb_map. clear Ha. induction s; simpl; [done|].
    by rewrite is_upper_lower_char.
Qed.
End lower_lemmas.

Create Rewrite HintDb gostr.
#[export] Hint Rewrite str_app_nil_r str_app_assoc str_length_app str_forallb_app
  str_drop_app TrimPrefix_app HasPrefix_app Join_Split : gostr.

(** *** Reversal and trimming *)

Lemma str_rev_app_spec s acc : str_rev_app s acc = str_rev s +:+ acc.
Proof.
  unfold str_rev. revert acc. induction s as [|c s IH]; intros acc; simpl; [done|].
  rewrite IH, (IH (String c "")), str_app_assoc. done.
Qed.

Lemma str_rev_cons c s : str_rev (String c s) = str_rev s +:+ String c "".
Proof. unfold str_rev at 1. simpl. apply str_rev_app_spec. Qed.

Lemma str_rev_snoc s c : str_rev (s +:+ String c "") = String c (str_rev s).
Proof.
  induction s as [|a s IH]; [done|]. simpl (String a s +:+ _).
  by rewrite str_rev_cons, IH, str_rev_cons.
Qed.

Lemma str_rev_involutive s : str_rev (str_rev s) = s.
Proof. induction s as [|c s IH]; [done|]. by rewrite str_rev_cons, str_rev_snoc, IH. Qed.

Lemma str_forallb_rev p s : str_forallb p (str_rev s) = str_forallb p s.
Proof.
  induction s as [|c s IH]; [done|].
  rewrite str_rev_cons, str_forallb_app, IH. simpl. by rewrite andb_true_r, andb_comm.
Qed.

Lemma str_rev_map f s : str_rev (str_map f s) = str_map f (str_rev s).
Proof.
  assert (forall a b, str_map f (a +:+ b) = str_map f a +:+ str_map f b) as Happ.
  { intros a b. induction a; simpl; congruence. }
  induction s as [|c s IH]; [done|]. simpl. by rewrite !str_rev_cons, Happ, IH.
Qed.

Lemma str_length_rev s : String.length (str_rev s) = String.length s.
Proof.
  induction s as [|c s IH]; [done|]. rewrite str_rev_cons, str_length_app, IH. simpl. lia.
Qed.

(** Every non-empty string ends in a byte. *)
Lemma str_snoc_inv s : s = "" \/ exists t c, s = t +:+ String c "".
Proof.
  rewrite <- (str_rev_involutive s). destruct (str_rev s) as [|c t]; [by left|right].
  exists (str_rev t), c. apply str_rev_cons.
Qed.

(** The ASCII bytes [unicode.IsSpace] accepts. *)
Definition ascii_space (c : ascii) : bool := between "009" "013" c || Ascii.eqb c " ".

Definition head_ok (s : string) : bool :=
  match s with
  | EmptyString => true
  | String c _ => negb (ascii_space c)
  end.

(** A trimmed ASCII string: no blank at either end. *)
Definition trimmed (s : string) : bool := is_ascii s && head_ok s && head_ok (str_rev s).

Fixpoint ltrim (s : string) : string :=
  match s with
  | EmptyString => ""
  | String c s' => if ascii_space c then ltrim s' else s
  end.

Lemma strip_one_ascii (rev : bool) c s :
  is_ascii_char c = true ->
  strip_one (if rev then str_rev <$> space_runes else space_runes) (String c s)
  = if ascii_space c then Some s else None.
Proof.
  destruct rev; destruct c as [[] [] [] [] [] [] [] []]; intros H; try discriminate H; reflexivity.
Qed.

Lemma strip_one_empty (rev : bool) :
  strip_one (if rev then str_rev <$> space_runes else space_runes) "" = None.
Proof. by destruct rev. Qed.

Lemma strip_all_ascii (rev : bool) n s :
  is_ascii s = true -> String.length s <= n ->
  strip_all n (if rev then str_rev <$> space_runes else space_runes) s = ltrim s.
Proof.
  revert s. induction n as [|n IH]; intros [|c s] Ha Hl; try done; cbn [strip_all].
  - simpl in Hl. lia.
  - by rewrite strip_one_empty.
  - unfold is_ascii in *. simpl in Ha, Hl. apply andb_true_iff in Ha as [Hc Ha].
    rewrite strip_one_ascii by done. simpl. destruct (ascii_space c); [|done].
    apply IH; [done|lia].
Qed.

Lemma ltrim_ascii s : is_ascii s = true -> is_ascii (ltrim s) = true.
Proof.
  unfold is_ascii. induction s as [|c s IH]; simpl; [done|]. intros H.
  destruct (ascii_space c); [|done]. apply andb_true_iff in H as [_ H]. auto.
Qed.

Lemma ltrim_head s : head_ok (ltrim s) = true.
Proof. induction s as [|c s IH]; simpl; [done|]. destruct (ascii_space c) eqn:E; simpl; by rewrite ?E. Qed.

Lemma ltrim_id s : head_ok s = true -> ltrim s = s.
Proof. destruct s as [|c s]; simpl; [done|]. by destruct (ascii_space c). Qed.

(** Trimming on the left keeps the last byte unless it empties the string. *)
Lemma ltrim_last s : head_ok (str_rev s) = true -> head_ok (str_rev (ltrim s)) = true.
Proof.
  induction s as [|c s IH]; [done|]. simpl. destruct (ascii_space c) eqn:E; [|done].
  rewrite str_rev_cons. intros H. apply IH. destruct (str_rev s) as [|d t]; [done|]. exact H.
Qed.

Lemma TrimSpace_ascii s : is_ascii s = true -> TrimSpace s = str_rev (ltrim (str_rev (ltrim s))).
Proof.
  intros Ha. unfold TrimSpace, TrimSpaceRight, TrimSpaceLeft.
  rewrite (strip_all_ascii false) by done. f_equal.
  apply (strip_all_ascii true).
  - unfold is_ascii. rewrite str_forallb_rev. by apply ltrim_ascii.
  - by rewrite str_length_rev.
Qed.

Lemma TrimSpace_trimmed s : is_ascii s = true -> trimmed (TrimSpace s) = true.
Proof.
  intros Ha. rewrite TrimSpace_ascii by done. unfold trimmed, is_ascii.
  rewrite !andb_true_iff, str_forallb_rev, str_rev_involutive. split; [split|].
  - apply ltrim_ascii. unfold is_ascii. rewrite str_forallb_rev. by apply ltrim_ascii.
  - apply ltrim_last. rewrite str_rev_involutive. apply ltrim_head.
  - apply ltrim_head.
Qed.

Lemma trimmed_TrimSpace s : trimmed s = true -> TrimSpace s = s.
Proof.
  unfold trimmed. rewrite !andb_true_iff. intros [[Ha Hh] Hl].
  by rewrite TrimSpace_ascii, (ltrim_id s), ltrim_id, str_rev_involutive.
Qed.

Lemma ascii_space_lower c : ascii_space (lower_char c) = ascii_space c.
Proof. destruct c as [[] [] [] [] [] [] [] []]; reflexivity. Qed.

Lemma trimmed_lower s : trimmed s = true -> trimmed (str_map lower_char s) = true.
Proof.
  unfold trimmed, is_ascii. rewrite !andb_true_iff, str_forallb_map, str_rev_map.
  assert (forall s, head_ok (str_map lower_char s) = head_ok s) as Hh.
  { intros [|c t]; simpl; by rewrite ?ascii_space_lower. }
  rewrite !Hh. intros [[Ha ?] ?]. repeat split; try done.
  eapply str_forallb_impl; [|exact Ha]. apply lower_char_ascii.
Qed.

Lemma str_in_spec s l : str_in s l = true <-> s ∈ l.
Proof.
  unfold str_in. rewrite existsb_In. split.
  - by intros (x & Hx & ->%String.eqb_eq).
  - intros Hs. exists s. by rewrite String.eqb_refl.
Qed.

(** ** [net/url] *)

(** [url.QueryEscape] *)
Definition upper_hex (n : nat) : ascii := ascii_of_nat (if n <? 10 then 48 + n else 55 + n).
Definition query_unreserved (c : ascii) : bool :=
  is_alnum c || Ascii.eqb c "-" || Ascii.eqb c "_" || Ascii.eqb c "." || Ascii.eqb c "~".
Fixpoint QueryEscape (s : string) : string :=
  match s with
  | EmptyString => ""
  | String c s' =>
      (if query_unreserved c then String c ""
       else if Ascii.eqb c " " then "+"
       else String "%" (String (upper_hex (code c / 16)) (String (upper_hex (code c mod 16)) "")))
      +:+ QueryEscape s'
  end.

(** [url.Values.Encode] on single-valued keys: sorted by key. *)
Definition Encode (q : list (string * string)) : string :=
  Join ((fun kv => QueryEscape kv.1 +:+ "=" +:+ QueryEscape kv.2)
          <$> isort (fun a b => str_leb a.1 b.1) q) "&".
