(* ===== verification/GoTime.v ===== *)
(** * Time

    [time.Now().UTC().Format(time.RFC3339)] on a time given in seconds since
    the epoch: the civil calendar of Go's [time] package. *)

From S2P Require Import Prelude GoStrings.
#[local] Open Scope string_scope.
#[local] Open Scope Z_scope.

(** Year, month and day of a day number counted from 1970-01-01, by shifting to
    years that start in March. *)
Definition civil (day : Z) : Z * Z * Z :=
  let z := day + 719468 in
  let era := z / 146097 in
  let doe := z mod 146097 in
  let yoe := (doe - doe / 1460 + doe / 36524 - doe / 146096) / 365 in
  let doy := doe - (365 * yoe + yoe / 4 - yoe / 100) in
  let mp := (5 * doy + 2) / 153 in
  let d := doy - (153 * mp + 2) / 5 + 1 in
  let m := if mp <? 10 then mp + 3 else mp - 9 in
  (yoe + era * 400 + (if m <=? 2 then 1 else 0), m, d).

(** A number in [w] decimal digits, zero-padded. *)
Fixpoint digits (w : nat) (z : Z) : string :=
  match w with
  | O => ""
  | S w' => digits w' (z / 10) +:+ String (ascii_of_nat (48 + Z.to_nat (z mod 10))) ""
  end.

Definition FormatRFC3339 (t : Z) : string :=
  let day := t / 86400 in
  let s := t mod 86400 in
  let '(y, m, d) := civil day in
  digits 4 y +:+ "-" +:+ digits 2 m +:+ "-" +:+ digits 2 d +:+ "T"
  +:+ digits 2 (s / 3600) +:+ ":" +:+ digits 2 (s / 60 mod 60) +:+ ":" +:+ digits 2 (s mod 60) +:+ "Z".

Example FormatRFC3339_epoch : FormatRFC3339 0 = "1970-01-01T00:00:00Z".
Proof. vm_compute. reflexivity. Qed.
Example FormatRFC3339_leap : FormatRFC3339 1709210096 = "2024-02-29T12:34:56Z".
Proof. vm_compute. reflexivity. Qed.

(** [Duration.Round(time.Second)] of a duration in milliseconds, in seconds: half
    a second is rounded away from zero. *)
Definition round_seconds (ms : Z) : Z := if 0 <=? ms then (ms + 500) / 1000 else - ((- ms + 500) / 1000).

(** [Duration.String] of a whole number of seconds. *)
Definition FormatSeconds (s : Z) : string :=
  let n := Z.abs s in
  let h := n / 3600 in
  let m := n / 60 mod 60 in
  let text := (if 0 <? h then pretty h +:+ "h" else "") +:+
              (if (0 <? h) || (0 <? m) then pretty m +:+ "m" else "") +:+ pretty (n mod 60) +:+ "s" in
  if s <? 0 then "-" +:+ text else text.

Example FormatSeconds_examples :
  FormatSeconds 0 = "0s" /\ FormatSeconds 65 = "1m5s" /\ FormatSeconds 7203 = "2h0m3s" /\ FormatSeconds (-5) = "-5s".
Proof. vm_compute. done. Qed.

(** ** Formatted times sort like times *)

Definition year_start (y : Z) : Z := 365 * y + y / 4 - y / 100.

Lemma year_start_mono a b : a <= b -> year_start a + 365 * (b - a) <= year_start b.
Proof. unfold year_start. intros. Z.to_euclidean_division_equations; lia. Qed.

(** The year of a day of the era: the one the day falls in. *)
Lemma year_of_era doe :
  0 <= doe <= 146096 ->
  let yoe := (doe - doe / 1460 + doe / 36524 - doe / 146096) / 365 in
  0 <= yoe <= 399 /\ 0 <= doe - year_start yoe <= 365 /\ (yoe < 399 -> doe < year_start (yoe + 1)).
Proof.
  intros H yoe. unfold year_start. subst yoe.
  assert (doe / 146096 = 0 \/ doe / 146096 = 1) as [E|E] by (Z.to_euclidean_division_equations; lia); rewrite E.
  - assert (doe / 36524 = 0 \/ doe / 36524 = 1 \/ doe / 36524 = 2 \/ doe / 36524 = 3) as [F|[F|[F|F]]]
      by (Z.to_euclidean_division_equations; lia); rewrite F; Z.to_euclidean_division_equations; lia.
  - assert (doe = 146096) as -> by (Z.to_euclidean_division_equations; lia). vm_compute. intuition discriminate.
Qed.

(** A date by era, year of the era and day of the year, which starts in March. *)
Lemma civil_parts day :
  -719468 <= day ->
  exists era yoe doy, day + 719468 = 146097 * era + year_start yoe + doy /\
    0 <= era /\ 0 <= yoe <= 399 /\ 0 <= doy <= 365 /\ (yoe < 399 -> year_start yoe + doy < year_start (yoe + 1)) /\
    year_start yoe + doy < 146097 /\
    let mp := (5 * doy + 2) / 153 in
    let '(y, m, d) := civil day in
    12 * y + m = 12 * (yoe + 400 * era) + mp + 3 /\ d = doy - (153 * mp + 2) / 5 + 1 /\ 1 <= m <= 12 /\ 1 <= d <= 31.
Proof.
  intros H. unfold civil. set (z := day + 719468). assert (0 <= z) as Hz by lia.
  pose proof (Z.div_mod z 146097 ltac:(lia)) as Hdm. pose proof (Z.mod_pos_bound z 146097 ltac:(lia)) as Hm.
  assert (0 <= z / 146097) as He by (apply Z.div_pos; lia).
  set (era := z / 146097) in *. set (doe := z mod 146097) in *.
  pose proof (year_of_era doe ltac:(lia)) as Hy. cbv zeta in Hy.
  set (yoe := (doe - doe / 1460 + doe / 36524 - doe / 146096) / 365) in *.
  change (365 * yoe + yoe / 4 - yoe / 100) with (year_start yoe). set (doy := doe - year_start yoe) in *.
  exists era, yoe, doy. clearbody era yoe. assert (doe = year_start yoe + doy) as Hdoe by lia.
  clearbody doy doe. subst doe. split_and!; try lia; clear Hdm Hm Hz.
  - repeat case_match; Z.to_euclidean_division_equations; lia.
  - repeat case_match; Z.to_euclidean_division_equations; lia.
  - repeat case_match; Z.to_euclidean_division_equations; lia.
  - Z.to_euclidean_division_equations; lia.
  - Z.to_euclidean_division_equations; lia.
Qed.

Lemma civil_mono a b :
  -719468 <= a -> a < b ->
  let '(y, m, d) := civil a in
  let '(y', m', d') := civil b in
  y < y' \/ y = y' /\ (m < m' \/ m = m' /\ d < d').
Proof.
  intros Ha Hab. destruct (civil_parts a Ha) as (e & y & r & Hz & He & Hy & Hr & Hn & He2 & Hc).
  destruct (civil_parts b ltac:(lia)) as (e' & y' & r' & Hz' & He' & Hy' & Hr' & Hn' & He2' & Hc').
  cbv zeta in Hc, Hc'. destruct (civil a) as [[ca ma] da], (civil b) as [[cb mb] db].
  assert (e < e' \/ e = e' /\ (y < y' \/ y = y' /\ r < r')) as Hlt.
  { assert (0 <= year_start y) by (unfold year_start; Z.to_euclidean_division_equations; lia).
    assert (0 <= year_start y') by (unfold year_start; Z.to_euclidean_division_equations; lia).
    destruct (Z.lt_trichotomy e e') as [?|[->|?]]; [by left| |lia]. right. split; [done|].
    destruct (Z.lt_trichotomy y y') as [?|[->|Hgt]]; [by left|right; lia|].
    pose proof (year_start_mono (y' + 1) y ltac:(lia)). lia. }
  clear - Hlt Hr Hr' Hy Hy' Hc Hc'. Z.to_euclidean_division_equations; lia.
Qed.

Lemma str_leb_common p x y : str_leb (p +:+ x) (p +:+ y) = str_leb x y.
Proof. induction p as [|c p IH]; simpl; [done|]. by rewrite Ascii.eqb_refl. Qed.

Lemma str_leb_head c d x y : (code c < code d)%nat -> str_leb (String c x) (String d y) = true.
Proof.
  intros H. simpl. destruct (Ascii.eqb_spec c d) as [->|_]; [lia|]. by apply Nat.ltb_lt.
Qed.

Lemma digit_code z : 0 <= z < 10 -> Z.of_nat (code (ascii_of_nat (48 + Z.to_nat z))) = 48 + z.
Proof. intros H. unfold code. rewrite nat_ascii_embedding by lia. lia. Qed.

Lemma digits_lt w a b x y :
  0 <= a < b -> b < 10 ^ Z.of_nat w -> str_leb (digits w a +:+ x) (digits w b +:+ y) = true.
Proof.
  revert a b x y. induction w as [|w IH]; intros a b x y Ha Hb; [simpl in Hb; lia|].
  rewrite Nat2Z.inj_succ, Z.pow_succ_r in Hb by lia. cbn [digits]. rewrite !str_app_assoc.
  assert (a / 10 < b / 10 \/ a / 10 = b / 10 /\ a mod 10 < b mod 10) as [H|[-> H]]
    by (Z.to_euclidean_division_equations; lia).
  - apply IH; [split; [apply Z.div_pos; lia|done]|]. apply Z.div_lt_upper_bound; lia.
  - rewrite str_leb_common. apply str_leb_head.
    pose proof (digit_code (a mod 10) ltac:(apply Z.mod_pos_bound; lia)).
    pose proof (digit_code (b mod 10) ltac:(apply Z.mod_pos_bound; lia)). lia.
Qed.

(** A field followed by the rest of the text. *)
Lemma field_leb w a b x y :
  0 <= a -> a < b \/ a = b /\ str_leb x y = true -> b < 10 ^ Z.of_nat w ->
  str_leb (digits w a +:+ x) (digits w b +:+ y) = true.
Proof. intros Ha [H|[-> H]] Hb; [by apply digits_lt|]. by rewrite str_leb_common. Qed.

(** The fields of a date and time, most significant first. *)
Lemma stamp_leb (y m d h i s y' m' d' h' i' s' : Z) :
  0 <= y < 10000 -> 0 <= m < 100 -> 0 <= d < 100 -> 0 <= h < 100 -> 0 <= i < 100 -> 0 <= s < 100 ->
  0 <= y' < 10000 -> 0 <= m' < 100 -> 0 <= d' < 100 -> 0 <= h' < 100 -> 0 <= i' < 100 -> 0 <= s' < 100 ->
  y < y' \/ y = y' /\ (m < m' \/ m = m' /\ (d < d' \/ d = d' /\ (h < h' \/ h = h' /\ (i < i' \/ i = i' /\ s <= s')))) ->
  str_leb (digits 4 y +:+ "-" +:+ digits 2 m +:+ "-" +:+ digits 2 d +:+ "T" +:+ digits 2 h +:+ ":" +:+ digits 2 i +:+ ":" +:+ digits 2 s +:+ "Z")
          (digits 4 y' +:+ "-" +:+ digits 2 m' +:+ "-" +:+ digits 2 d' +:+ "T" +:+ digits 2 h' +:+ ":" +:+ digits 2 i' +:+ ":" +:+ digits 2 s' +:+ "Z") = true.
Proof.
  intros Hy Hm Hd Hh Hi Hs Hy' Hm' Hd' Hh' Hi' Hs' Hlex.
  do 5 (apply field_leb; [lia| |simpl; lia]; destruct Hlex as [?|[-> Hlex]]; [by left|right; split; [done|]; rewrite str_leb_common]).
  apply field_leb; [lia| |simpl; lia]. assert (s < s' \/ s = s') as [?| ->] by lia; [by left|right]. by split.
Qed.

(** Days until the end of the year 9999. *)
Lemma civil_range day :
  0 <= day < 2932897 -> let '(y, m, d) := civil day in 0 <= y < 10000 /\ 1 <= m <= 12 /\ 1 <= d <= 31.
Proof.
  intros Hday. pose proof (civil_parts day ltac:(lia)) as (e & y & r & _ & He & Hy & Hr & _ & _ & Hc).
  assert (day = 2932896 \/ day < 2932896) as [->|Hlt] by lia; [by vm_compute|].
  pose proof (civil_mono day 2932896 ltac:(lia) Hlt) as Hm. cbv zeta in Hc. destruct (civil day) as [[cy cm] cd].
  change (civil 2932896) with (9999, 12, 31) in Hm. cbv iota beta in Hm. clear Hlt Hday.
  split_and!; (lia || (Z.to_euclidean_division_equations; lia)).
Qed.

(** Until the year 10000, formatted times are in the order of the times. *)
Lemma FormatRFC3339_mono s t :
  0 <= s <= t -> t < 253402300800 -> str_leb (FormatRFC3339 s) (FormatRFC3339 t) = true.
Proof.
  intros Hs Ht. unfold FormatRFC3339.
  assert (s / 86400 < t / 86400 \/ s / 86400 = t / 86400 /\ s mod 86400 <= t mod 86400) as Hst
    by (Z.to_euclidean_division_equations; lia).
  assert (0 <= s / 86400 <= t / 86400 /\ t / 86400 < 2932897) as [H1 H2] by (Z.to_euclidean_division_equations; lia).
  pose proof (civil_range (s / 86400) ltac:(lia)) as Rs. pose proof (civil_range (t / 86400) ltac:(lia)) as Rt.
  assert (let '(y, m, d) := civil (s / 86400) in let '(y', m', d') := civil (t / 86400) in
    y < y' \/ y = y' /\ (m < m' \/ m = m' /\ (d < d' \/ d = d' /\ s mod 86400 <= t mod 86400))) as Hlex.
  { destruct Hst as [Hlt|[Heq Hle]].
    - pose proof (civil_mono (s / 86400) (t / 86400) ltac:(lia) Hlt) as Hm.
      destruct (civil (s / 86400)) as [[y m] d], (civil (t / 86400)) as [[y' m'] d']. lia.
    - rewrite Heq. destruct (civil (t / 86400)) as [[y' m'] d']. lia. }
  destruct (civil (s / 86400)) as [[y m] d], (civil (t / 86400)) as [[y' m'] d'].
  pose proof (Z.mod_pos_bound s 86400 ltac:(lia)). pose proof (Z.mod_pos_bound t 86400 ltac:(lia)).
  set (a := s mod 86400) in *. set (b := t mod 86400) in *. clearbody a b. clear Hst H1 H2 Hs Ht.
  apply stamp_leb; try lia; Z.to_euclidean_division_equations; lia.
Qed.

(** *** Distinct times have distinct texts *)

Lemma digits_length w z : String.length (digits w z) = w.
Proof. revert z. induction w as [|w IH]; intros z; [done|]. cbn [digits]. rewrite str_length_app, IH. simpl. lia. Qed.

Lemma digits_inj w a b : 0 <= a < 10 ^ Z.of_nat w -> 0 <= b < 10 ^ Z.of_nat w -> digits w a = digits w b -> a = b.
Proof.
  revert a b. induction w as [|w IH]; intros a b Ha Hb H; [simpl in *; lia|].
  rewrite Nat2Z.inj_succ, Z.pow_succ_r in * by lia. cbn [digits] in H.
  apply str_app_inj_len in H as [Hq Hr]; [|by rewrite !digits_length].
  apply IH in Hq; [|split; [apply Z.div_pos|apply Z.div_lt_upper_bound]; lia..].
  apply (f_equal (fun s => match s with String c _ => Z.of_nat (code c) | EmptyString => 0 end)) in Hr. cbv beta iota in Hr.
  rewrite !digit_code in Hr by (apply Z.mod_pos_bound; lia). Z.to_euclidean_division_equations; lia.
Qed.

Lemma field_inj w a b p x y :
  0 <= a < 10 ^ Z.of_nat w -> 0 <= b < 10 ^ Z.of_nat w ->
  digits w a +:+ p +:+ x = digits w b +:+ p +:+ y -> a = b /\ x = y.
Proof.
  intros Ha Hb H. apply str_app_inj_len in H as [H Hx]; [|by rewrite !digits_length].
  split; [by eapply digits_inj|by eapply str_app_inj_l].
Qed.

Lemma FormatRFC3339_inj s t :
  0 <= s < 253402300800 -> 0 <= t < 253402300800 -> FormatRFC3339 s = FormatRFC3339 t -> s = t.
Proof.
  assert (forall s t, 0 <= s < t -> t < 253402300800 -> FormatRFC3339 s <> FormatRFC3339 t) as Hlt.
  2: { intros Hs Ht H. destruct (Z.lt_trichotomy s t) as [?|[?|?]]; [|done|]; [edestruct (Hlt s t)|edestruct (Hlt t s)]; lia || done. }
  clear s t. intros s t Hs Ht. unfold FormatRFC3339.
  assert (0 <= s / 86400 < 2932897 /\ 0 <= t / 86400 < 2932897) as [H1 H2] by (Z.to_euclidean_division_equations; lia).
  pose proof (civil_range _ H1) as Rs. pose proof (civil_range _ H2) as Rt.
  assert (s / 86400 < t / 86400 -> civil (s / 86400) <> civil (t / 86400)) as Hne.
  { intros Hl Heq. pose proof (civil_mono (s / 86400) (t / 86400) ltac:(lia) Hl) as Hm. rewrite Heq in Hm.
    destruct (civil (t / 86400)) as [[y m] d]. lia. }
  destruct (civil (s / 86400)) as [[y m] d], (civil (t / 86400)) as [[y' m'] d'].
  pose proof (Z.mod_pos_bound s 86400 ltac:(lia)). pose proof (Z.mod_pos_bound t 86400 ltac:(lia)).
  intros Heq. assert (y = y' /\ m = m' /\ d = d' /\ s mod 86400 = t mod 86400) as (-> & -> & -> & Hmod).
  { revert Heq. set (a := s mod 86400) in *. set (b := t mod 86400) in *. clearbody a b. clear - Rs Rt H H0.
    intros Heq.
    apply field_inj in Heq as [-> Heq]; [|simpl; lia..]. apply field_inj in Heq as [-> Heq]; [|simpl; lia..].
    apply field_inj in Heq as [-> Heq]; [|simpl; lia..]. do 3 (split; [done|]).
    apply field_inj in Heq as [Eh Heq]; [|simpl; Z.to_euclidean_division_equations; lia..].
    apply field_inj in Heq as [Em Heq]; [|simpl; Z.to_euclidean_division_equations; lia..].
    apply (field_inj _ _ _ "Z" "" "") in Heq as [Es _]; [|simpl; Z.to_euclidean_division_equations; lia..].
    Z.to_euclidean_division_equations; lia. }
  assert (~ s / 86400 < t / 86400) as Hd by (intros Hl; by apply (Hne Hl)).
  Z.to_euclidean_division_equations; lia.
Qed.

(** The order of the texts is the order of the times. *)
Lemma FormatRFC3339_order s t :
  0 <= s < 253402300800 -> 0 <= t < 253402300800 ->
  str_leb (FormatRFC3339 s) (FormatRFC3339 t) = true <-> s <= t.
Proof.
  intros Hs Ht. split; [|intros; apply FormatRFC3339_mono; lia]. intros H.
  destruct (Z.le_gt_cases s t) as [|Hgt]; [done|]. enough (s = t) by lia.
  apply FormatRFC3339_inj; [done..|]. apply str_leb_antisym; [done|]. apply FormatRFC3339_mono; lia.
Qed.
