(* ===== verification/Regex.v ===== *)
(** * Regular expressions

    The fragment of Go's [regexp] the program's patterns use, anchored at both
    ends: a matcher by derivatives, its meaning as a relation, and the theorem
    that they agree.  All classes of the program's patterns are ASCII, so
    matching runes and matching bytes coincide. *)

From S2P Require Import Prelude GoStrings.
#[local] Open Scope string_scope.
#[local] Open Scope nat_scope.
#[local] Arguments String.append !_ _ / : simpl nomatch.

Inductive re :=
  | RNone
  | REps
  | RClass (p : ascii -> bool)
  | RCat (a b : re)
  | RAlt (a b : re)
  | RUpTo (n : nat) (r : re).   (** [r{0,n}] *)

Definition ROpt (r : re) : re := RAlt REps r.

Fixpoint nullable (r : re) : bool :=
  match r with
  | RNone => false
  | REps => true
  | RClass _ => false
  | RCat a b => nullable a && nullable b
  | RAlt a b => nullable a || nullable b
  | RUpTo _ _ => true
  end.

Fixpoint deriv (c : ascii) (r : re) : re :=
  match r with
  | RNone | REps => RNone
  | RClass p => if p c then REps else RNone
  | RCat a b =>
      if nullable a then RAlt (RCat (deriv c a) b) (deriv c b) else RCat (deriv c a) b
  | RAlt a b => RAlt (deriv c a) (deriv c b)
  | RUpTo 0 _ => RNone
  | RUpTo (S n) r' => RCat (deriv c r') (RUpTo n r')
  end.

(** [re.MatchString] for a pattern of the form [^...$]. *)
Fixpoint re_match (r : re) (s : string) : bool :=
  match s with
  | EmptyString => nullable r
  | String c s' => re_match (deriv c r) s'
  end.

(** The meaning of a pattern. *)
Inductive matches : re -> string -> Prop :=
  | m_eps : matches REps ""
  | m_class p c : p c = true -> matches (RClass p) (String c "")
  | m_cat a b s t : matches a s -> matches b t -> matches (RCat a b) (s +:+ t)
  | m_alt_l a b s : matches a s -> matches (RAlt a b) s
  | m_alt_r a b s : matches b s -> matches (RAlt a b) s
  | m_upto_nil n r : matches (RUpTo n r) ""
  | m_upto_cons n r s t :
      matches r s -> matches (RUpTo n r) t -> matches (RUpTo (S n) r) (s +:+ t).

(** A label: [^first([mid]{0,n}first)?$]. *)
Definition label_re (first mid : ascii -> bool) (n : nat) : re :=
  RCat (RClass first) (ROpt (RCat (RUpTo n (RClass mid)) (RClass first))).

Definition last_char (s : string) : option ascii := String.get (String.length s - 1) s.

(** The same set of strings, checked directly. *)
Definition label_check (first mid : ascii -> bool) (n : nat) (s : string) : bool :=
  match s with
  | EmptyString => false
  | String c rest =>
      first c &&
      (match str_rev rest with
       | EmptyString => true
       | String d _ => first d && str_forallb mid (str_take (String.length rest - 1) rest)
                       && (String.length rest - 1 <=? n)
       end)
  end.

(** ** The matcher is correct *)

Lemma class_inv p s : matches (RClass p) s -> exists c, s = String c "" /\ p c = true.
Proof. inversion 1; subst. eauto. Qed.

Lemma eps_inv s : matches REps s -> s = "".
Proof. by inversion 1. Qed.

Lemma cat_inv a b s :
  matches (RCat a b) s -> exists u t, s = u +:+ t /\ matches a u /\ matches b t.
Proof. inversion 1; subst. eauto. Qed.

Lemma alt_inv a b s : matches (RAlt a b) s -> matches a s \/ matches b s.
Proof. inversion 1; subst; auto. Qed.

Lemma upto_inv n r s :
  matches (RUpTo n r) s ->
  s = "" \/ exists m u t, n = S m /\ s = u +:+ t /\ matches r u /\ matches (RUpTo m r) t.
Proof. inversion 1; subst; [by left|right]. by eauto 8. Qed.

Lemma nullable_matches r : nullable r = true <-> matches r "".
Proof.
  induction r as [| |p|a IHa b IHb|a IHa b IHb|n r IH]; simpl.
  - split; [done|]. by inversion 1.
  - split; [constructor|done].
  - split; [done|]. by intros (? & ? & _)%class_inv.
  - rewrite andb_true_iff, IHa, IHb. split.
    + intros [Ha Hb]. exact (m_cat a b "" "" Ha Hb).
    + intros (u & t & Heq & ? & ?)%cat_inv. destruct u; [|done]. by simpl in *; subst.
  - rewrite orb_true_iff, IHa, IHb. split.
    + intros [?|?]; by constructor.
    + apply alt_inv.
  - split; [constructor|done].
Qed.

(** Dropping empty iterations, [r{0,n}] only grows with [n]. *)
Lemma upto_S n r s : matches (RUpTo n r) s -> matches (RUpTo (S n) r) s.
Proof.
  remember (RUpTo n r) as q eqn:Hq. intros H. revert n Hq.
  induction H; intros m Hq; simplify_eq; constructor; auto.
Qed.

Lemma deriv_cat_sound c a b s :
  (forall u, matches (deriv c a) u -> matches a (String c u)) ->
  matches (RCat (deriv c a) b) s -> matches (RCat a b) (String c s).
Proof.
  intros IHa (u & t & -> & Ha & Hb)%cat_inv. exact (m_cat a b (String c u) t (IHa u Ha) Hb).
Qed.

Lemma deriv_sound c r s : matches (deriv c r) s -> matches r (String c s).
Proof.
  revert s. induction r as [| |p|a IHa b IHb|a IHa b IHb|n r IH]; simpl; intros s H.
  - inversion H.
  - inversion H.
  - destruct (p c) eqn:E; [|by inversion H]. apply eps_inv in H as ->. by constructor.
  - destruct (nullable a) eqn:E; [|by apply deriv_cat_sound].
    apply alt_inv in H as [H|H]; [by apply deriv_cat_sound|].
    apply nullable_matches in E. exact (m_cat a b "" (String c s) E (IHb s H)).
  - apply alt_inv in H as [H|H]; [apply m_alt_l|apply m_alt_r]; auto.
  - destruct n as [|n]; [by inversion H|].
    apply cat_inv in H as (u & t & -> & Ha & Hb).
    exact (m_upto_cons n r (String c u) t (IH u Ha) Hb).
Qed.

Lemma deriv_upto c r n s :
  (forall s, matches r (String c s) -> matches (deriv c r) s) ->
  matches (RUpTo n r) (String c s) -> matches (deriv c (RUpTo n r)) s.
Proof.
  intros IH. revert s. induction n as [|n IHn]; intros s H;
    apply upto_inv in H as [H|(m & u & t & Hm & Heq & Hu & Ht)]; simplify_eq.
  destruct u as [|c' u]; simpl in *.
  - subst. specialize (IHn s Ht). destruct m as [|m]; simpl in *; [by inversion IHn|].
    apply cat_inv in IHn as (v & w & -> & Hv & Hw). constructor; [done|]. by apply upto_S.
  - injection Heq as -> ->. constructor; auto.
Qed.

Lemma deriv_complete c r s : matches r (String c s) -> matches (deriv c r) s.
Proof.
  revert s. induction r as [| |p|a IHa b IHb|a IHa b IHb|n r IH]; intros s H.
  - inversion H.
  - inversion H.
  - apply class_inv in H as (? & ? & Hp). simplify_eq. simpl. rewrite Hp. constructor.
  - apply cat_inv in H as (u & t & Heq & Ha & Hb). simpl.
    destruct u as [|c' u]; simpl in *.
    + subst. rewrite (proj2 (nullable_matches a) Ha). apply m_alt_r. auto.
    + injection Heq as -> ->.
      destruct (nullable a); [apply m_alt_l|]; constructor; auto.
  - simpl. apply alt_inv in H as [H|H]; [apply m_alt_l|apply m_alt_r]; auto.
  - by apply deriv_upto.
Qed.

Lemma re_match_correct r s : re_match r s = true <-> matches r s.
Proof.
  revert r. induction s as [|c s IH]; intros r; simpl; [apply nullable_matches|].
  rewrite IH. split; [apply deriv_sound|apply deriv_complete].
Qed.

(** ** Labels *)

Lemma matches_upto_class n p s :
  matches (RUpTo n (RClass p)) s <-> str_forallb p s = true /\ String.length s <= n.
Proof.
  split.
  - revert s. induction n as [|n IH]; intros s [->|(m & u & t & Hm & -> & Hu & Ht)]%upto_inv;
      simplify_eq; simpl; try (split; [done|lia]).
    apply class_inv in Hu as (c & -> & Hc). destruct (IH t Ht) as [H1 H2].
    simpl. rewrite Hc, H1. split; [done|lia].
  - revert n. induction s as [|c s IH]; simpl; intros n [H Hl]; [constructor|].
    apply andb_true_iff in H as [Hc Hs]. destruct n as [|n]; [lia|].
    apply (m_upto_cons n (RClass p) (String c "") s); [by constructor|].
    apply IH. split; [done|lia].
Qed.

Lemma str_take_snoc t c :
  str_take (String.length (t +:+ String c "") - 1) (t +:+ String c "") = t.
Proof.
  rewrite str_length_app. simpl. rewrite Nat.add_sub.
  induction t as [|a t IH]; simpl; [done|]. by rewrite IH.
Qed.

Lemma label_re_spec first mid n s :
  matches (label_re first mid n) s <->
  (exists c, s = String c "" /\ first c = true) \/
  (exists c m d, s = String c (m +:+ String d "") /\ first c = true /\ first d = true
                 /\ str_forallb mid m = true /\ String.length m <= n).
Proof.
  unfold label_re, ROpt. split.
  - intros (u & t & -> & (c & -> & Hc)%class_inv & [->%eps_inv|Ht]%alt_inv)%cat_inv.
    + left. eauto.
    + apply cat_inv in Ht as (m & v & -> & Hm & (d & -> & Hd)%class_inv).
      apply matches_upto_class in Hm as [? ?]. right. exists c, m, d. done.
  - intros [(c & -> & Hc)|(c & m & d & -> & Hc & Hd & Hm & Hl)].
    + apply (m_cat _ _ (String c "") ""); [by constructor|]. apply m_alt_l. constructor.
    + apply (m_cat _ _ (String c "") (m +:+ String d "")); [by constructor|].
      apply m_alt_r. constructor; [by apply matches_upto_class|by constructor].
Qed.

(** The derivative matcher on a label pattern and the direct check agree. *)
Lemma label_check_spec first mid n s :
  label_check first mid n s = true <-> matches (label_re first mid n) s.
Proof.
  rewrite label_re_spec. unfold label_check. destruct s as [|c rest].
  { split; [done|]. by intros [(? & ? & _)|(? & ? & ? & ? & _)]. }
  destruct (str_snoc_inv rest) as [->|(t & d & ->)].
  - simpl. rewrite andb_true_r. split; [by left; eauto|].
    intros [(? & ? & ?)|(? & m & ? & Heq & _)]; [by simplify_eq|]. by destruct m; simplify_eq.
  - rewrite str_rev_snoc, str_take_snoc, str_length_app. simpl (_ + String.length (String d "") - 1).
    rewrite Nat.add_sub, !andb_true_iff, Nat.leb_le. split.
    + intros (Hc & (Hd & Hm) & Hl). right. exists c, t, d. done.
    + intros [(? & Heq & ?)|(c' & m & d' & Heq & ? & ? & ? & ?)].
      * by destruct t; simplify_eq.
      * injection Heq as -> Heq.
        assert (String.length t = String.length m) as Hlen.
        { apply (f_equal String.length) in Heq. rewrite !str_length_app in Heq. simpl in Heq. lia. }
        destruct (str_app_inj_len _ _ _ _ Hlen Heq) as [-> Hd]. by simplify_eq.
Qed.

Lemma label_match_check first mid n s :
  re_match (label_re first mid n) s = label_check first mid n s.
Proof.
  apply eq_true_iff_eq. by rewrite re_match_correct, label_check_spec.
Qed.

Lemma label_check_length first mid n s :
  label_check first mid n s = true -> 1 <= String.length s <= n + 2.
Proof.
  rewrite label_check_spec, label_re_spec.
  intros [(c & -> & _)|(c & m & d & -> & _ & _ & _ & Hl)]; simpl; [lia|].
  rewrite str_length_app. simpl. lia.
Qed.

Lemma label_check_chars (first mid : ascii -> bool) n s :
  (forall c, first c = true -> mid c = true) ->
  label_check first mid n s = true -> str_forallb mid s = true.
Proof.
  intros Hsub. rewrite label_check_spec, label_re_spec.
  intros [(c & -> & Hc)|(c & m & d & -> & Hc & Hd & Hm & _)]; simpl.
  - by rewrite Hsub.
  - rewrite str_forallb_app, Hm. simpl. by rewrite !Hsub.
Qed.
