(* ===== verification/Guard.v ===== *)
(** * Name guards (pkg/guard/guard.go)

    The namespaces no tool may touch, and the check of names that end up in
    label selectors. *)

From S2P Require Import Prelude GoStrings Regex.
#[local] Open Scope string_scope.
#[local] Open Scope nat_scope.

Definition systemNamespaces : gset string :=
  list_to_set ["tentacular-system"; "tentacular-support"; "tentacular-exoskeleton";
               "kube-system"; "kube-public"; "kube-node-lease"; "default"].

Definition IsSystemNamespace (ns : string) : bool := bool_decide (ns ∈ systemNamespaces).

(** A Go [error] result: [None] is nil. *)
Definition CheckNamespace (namespace : string) : option error :=
  if String.eqb namespace "" then Some (ErrorNew "namespace must not be empty")
  else if IsSystemNamespace namespace
       then Some (Errorf "operations on namespace %q are not permitted" [AStr namespace])
  else None.

(** [^[a-zA-Z0-9]([a-zA-Z0-9._-]{0,61}[a-zA-Z0-9])?$] *)
Definition label_mid (c : ascii) : bool :=
  is_alnum c || Ascii.eqb c "." || Ascii.eqb c "_" || Ascii.eqb c "-".
Definition validLabelValue : re := label_re is_alnum label_mid 61.

Definition CheckName (name : string) : option error :=
  if String.eqb name "" then Some (ErrorNew "name must not be empty")
  else if negb (re_match validLabelValue name)
       then Some (Errorf "name %q is not a valid Kubernetes label value" [AStr name])
  else None.

(** ** Lemmas *)

Lemma CheckNamespace_None ns :
  CheckNamespace ns = None <-> ns <> "" /\ IsSystemNamespace ns = false.
Proof.
  unfold CheckNamespace. destruct (String.eqb_spec ns "") as [->|Hne]; [by split; [|intros [? _]]|].
  destruct (IsSystemNamespace ns); by split; [|intros [_ ?]].
Qed.

Lemma CheckName_None_match n : CheckName n = None <-> re_match validLabelValue n = true.
Proof.
  unfold CheckName. destruct (String.eqb_spec n "") as [->|Hne]; [by vm_compute|].
  by destruct (re_match validLabelValue n).
Qed.

Lemma label_mid_alnum c : is_alnum c = true -> label_mid c = true.
Proof. unfold label_mid. by intros ->. Qed.

(** ** Properties *)

(** A name passes [CheckName] exactly when it is 1 to 63 bytes
    long, starts and ends with an alphanumeric byte and holds only
    alphanumerics, dots, underscores and hyphens in between. *)
Theorem CheckName_spec n :
  CheckName n = None <->
  (exists c, n = String c "" /\ is_alnum c = true) \/
  (exists c m d, n = String c (m +:+ String d "") /\ is_alnum c = true /\ is_alnum d = true
                 /\ str_forallb label_mid m = true /\ String.length m <= 61).
Proof.
  rewrite CheckName_None_match. unfold validLabelValue.
  by rewrite re_match_correct, label_re_spec.
Qed.
