(* ===== verification/Mode.v ===== *)
(** * Permission modes and presets (pkg/authz/mode.go, pkg/authz/presets.go)

    A mode is a 9-bit mask kept in a [uint16]; its text form is the usual
    [rwxrwxrwx] string. *)

From S2P Require Import Prelude GoStrings Regex.
#[local] Open Scope string_scope.
#[local] Open Scope Z_scope.

(** A [uint16]. *)
Abbreviation Mode := Z (only parsing).

Definition ModeOwnerRead : Mode := Z.shiftl 1 8.
Definition ModeOwnerWrite : Mode := Z.shiftl 1 7.
Definition ModeOwnerExecute : Mode := Z.shiftl 1 6.
Definition ModeGroupRead : Mode := Z.shiftl 1 5.
Definition ModeGroupWrite : Mode := Z.shiftl 1 4.
Definition ModeGroupExecute : Mode := Z.shiftl 1 3.
Definition ModeOtherRead : Mode := Z.shiftl 1 2.
Definition ModeOtherWrite : Mode := Z.shiftl 1 1.
Definition ModeOtherExecute : Mode := Z.shiftl 1 0.

Definition has_bit (m b : Mode) : bool := negb (Z.eqb (Z.land m b) 0).
Definition OwnerRead (m : Mode) : bool := has_bit m ModeOwnerRead.
Definition OwnerWrite (m : Mode) : bool := has_bit m ModeOwnerWrite.
Definition OwnerExecute (m : Mode) : bool := has_bit m ModeOwnerExecute.
Definition GroupRead (m : Mode) : bool := has_bit m ModeGroupRead.
Definition GroupWrite (m : Mode) : bool := has_bit m ModeGroupWrite.
Definition GroupExecute (m : Mode) : bool := has_bit m ModeGroupExecute.
Definition OtherRead (m : Mode) : bool := has_bit m ModeOtherRead.
Definition OtherWrite (m : Mode) : bool := has_bit m ModeOtherWrite.
Definition OtherExecute (m : Mode) : bool := has_bit m ModeOtherExecute.

(** [Mode.String] *)
Definition ModeString (m : Mode) : string :=
  let bit (set : bool) (ch : ascii) := if set then ch else "-"%char in
  string_of_list_ascii
    [bit (OwnerRead m) "r"%char; bit (OwnerWrite m) "w"%char; bit (OwnerExecute m) "x"%char;
     bit (GroupRead m) "r"%char; bit (GroupWrite m) "w"%char; bit (GroupExecute m) "x"%char;
     bit (OtherRead m) "r"%char; bit (OtherWrite m) "w"%char; bit (OtherExecute m) "x"%char].

(** The rows of [ParseMode]'s table: position, character, bit. *)
Definition parse_table : list (nat * ascii * Mode) :=
  [(0%nat, "r"%char, ModeOwnerRead); (1%nat, "w"%char, ModeOwnerWrite);
   (2%nat, "x"%char, ModeOwnerExecute); (3%nat, "r"%char, ModeGroupRead);
   (4%nat, "w"%char, ModeGroupWrite); (5%nat, "x"%char, ModeGroupExecute);
   (6%nat, "r"%char, ModeOtherRead); (7%nat, "w"%char, ModeOtherWrite);
   (8%nat, "x"%char, ModeOtherExecute)].

(** The loop of [ParseMode] over the rows, accumulating the mode.  The length
    guard keeps every position in range, so the [None] case is not reached. *)
Fixpoint parse_rows (s : string) (rows : list (nat * ascii * Mode)) (m : Mode) : res Mode :=
  match rows with
  | [] => Ok m
  | (pos, char, bit) :: rows' =>
      match byte_at s pos with
      | None => Err (ErrorNew "index out of range")
      | Some c =>
          if Ascii.eqb c char then parse_rows s rows' (Z.lor m bit)
          else if negb (Ascii.eqb c "-"%char)
               then Err (Errorf "invalid character %q at position %d in mode string %q"
                           [AStr (String c ""); AInt (Z.of_nat pos); AStr s])
          else parse_rows s rows' m
      end
  end.

Definition ParseMode (s : string) : res Mode :=
  if negb (Nat.eqb (String.length s) 9)
  then Err (Errorf "mode string must be 9 characters, got %d: %q"
              [AInt (Z.of_nat (String.length s)); AStr s])
  else parse_rows s parse_table 0.

(** ** Presets *)

Definition owner_all : Mode := Z.lor (Z.lor ModeOwnerRead ModeOwnerWrite) ModeOwnerExecute.
Definition group_all : Mode := Z.lor (Z.lor ModeGroupRead ModeGroupWrite) ModeGroupExecute.

Definition presets : gmap string Mode :=
  list_to_map
    [("private", owner_all);
     ("group-read", Z.lor (Z.lor owner_all ModeGroupRead) ModeGroupExecute);
     ("group-run", Z.lor owner_all ModeGroupExecute);
     ("group-edit", Z.lor owner_all group_all);
     ("public-read", Z.lor (Z.lor owner_all ModeGroupRead) ModeOtherRead);
     ("member-read", Z.lor (Z.lor owner_all ModeGroupRead) ModeGroupExecute);
     ("member-edit", Z.lor owner_all group_all);
     ("open-read", Z.lor (Z.lor owner_all group_all) ModeOtherRead);
     ("open-run", Z.lor (Z.lor (Z.lor owner_all group_all) ModeOtherRead) ModeOtherExecute)].

(** A map read in Go yields the zero value for an absent key. *)
Definition DefaultMode : Mode := default 0 (presets !! "group-read").
Definition DefaultEnclaveMode : Mode := default 0 (presets !! "member-edit").

Definition PresetFromName (name : string) : Mode * bool :=
  match presets !! name with
  | Some m => (m, true)
  | None => (0, false)
  end.

Definition presetPriority : list string :=
  ["private"; "member-edit"; "member-read"; "group-run"; "open-read"; "open-run";
   "public-read"; "group-edit"; "group-read"].

Definition PresetName (m : Mode) : string :=
  match find (fun name => match presets !! name with
                          | Some mode => Z.eqb mode m
                          | None => false
                          end) presetPriority with
  | Some name => name
  | None => ""
  end.

Definition presetNames : list string := SortStrings (fst <$> map_to_list presets).
Definition ValidPresetNames : string := Join presetNames ", ".

(** The pattern of enclave_annotations.go for a mode string:
    [^[r\-][w\-][x\-][r\-][w\-][x\-][r\-][w\-][x\-]$]. *)
Definition rwx_class (c : ascii) : re := RClass (fun a => Ascii.eqb a c || Ascii.eqb a "-").
Definition validRwxRe : re :=
  foldr (fun c r => RCat (rwx_class c) r) REps
    ["r"; "w"; "x"; "r"; "w"; "x"; "r"; "w"; "x"]%char.

(** ** Lemmas *)

(** The nine bits, most significant first. *)
Definition mode_of_bits (b : list bool) : Mode :=
  fold_left (fun m (x : bool) => 2 * m + (if x then 1 else 0)) b 0.

Definition rwx_chars : list ascii := ["r"; "w"; "x"; "r"; "w"; "x"; "r"; "w"; "x"]%char.
Definition rwx_text (b : list bool) : string :=
  string_of_list_ascii (zip_with (fun (x : bool) c => if x then c else "-"%char) b rwx_chars).

Fixpoint all_bits (n : nat) : list (list bool) :=
  match n with
  | O => [[]]
  | S n' => (cons true <$> all_bits n') ++ (cons false <$> all_bits n')
  end%list.

Lemma all_bits_complete n b : length b = n -> b ∈ all_bits n.
Proof.
  revert b. induction n as [|n IH]; intros [|x b] Hl; simplify_eq/=; [by left|].
  apply elem_of_app. destruct x; [left|right]; apply list_elem_of_fmap; eauto.
Qed.

(** A decidable statement about 9-bit masks holds if it evaluates to true on all of them. *)
Lemma all_bits_forall (f : list bool -> bool) :
  forallb f (all_bits 9) = true -> forall b, length b = 9%nat -> f b = true.
Proof.
  rewrite forallb_True, Forall_forall. intros H b Hb. by apply H, all_bits_complete.
Qed.

Lemma byte_at_some s i : (i < String.length s)%nat -> exists c, byte_at s i = Some c.
Proof.
  unfold byte_at. revert i. induction s as [|c s IH]; simpl; intros [|i] Hi; try lia; eauto.
  apply IH. lia.
Qed.

Lemma ParseMode_text b : length b = 9%nat -> ParseMode (rwx_text b) = Ok (mode_of_bits b).
Proof.
  intros Hb.
  assert (match ParseMode (rwx_text b) with Ok m => Z.eqb m (mode_of_bits b) | Err _ => false end
          = true) as H.
  { revert b Hb. apply all_bits_forall. vm_compute. reflexivity. }
  destruct (ParseMode (rwx_text b)); [|done]. by apply Z.eqb_eq in H as ->.
Qed.

Lemma ModeString_bits b : length b = 9%nat -> ModeString (mode_of_bits b) = rwx_text b.
Proof.
  intros Hb. apply String.eqb_eq. revert b Hb. apply all_bits_forall. vm_compute. reflexivity.
Qed.

Lemma bits_of_mode m : 0 <= m < 512 -> exists b, length b = 9%nat /\ m = mode_of_bits b.
Proof.
  intros Hm. assert (existsb (fun b => Z.eqb m (mode_of_bits b)) (all_bits 9) = true) as H.
  { rewrite <- (Z2Nat.id m) by lia. assert (Z.to_nat m < 512)%nat as Hk by lia. revert Hk.
    generalize (Z.to_nat m). intros k Hk.
    assert (forallb (fun k => existsb (fun b => Z.eqb (Z.of_nat k) (mode_of_bits b)) (all_bits 9))
              (seq 0 512) = true) as Hall by (vm_compute; reflexivity).
    rewrite forallb_True, Forall_forall in Hall. apply Hall, elem_of_seq. lia. }
  apply existsb_In in H as (b & Hb & ->%Z.eqb_eq). exists b. split; [|done].
  assert (Forall (fun b => length b = 9%nat) (all_bits 9)) as Hlen.
  { apply Forall_forall. intros x Hx.
    assert (forallb (fun b => Nat.eqb (length b) 9) (all_bits 9) = true) as Hf by reflexivity.
    rewrite forallb_True, Forall_forall in Hf. by apply Nat.eqb_eq, Hf. }
  rewrite Forall_forall in Hlen. by apply Hlen.
Qed.

Lemma mode_of_bits_range b : length b = 9%nat -> 0 <= mode_of_bits b < 512.
Proof.
  intros Hb.
  assert (((0 <=? mode_of_bits b) && (mode_of_bits b <? 512))%Z = true) as H.
  { revert b Hb. apply all_bits_forall. vm_compute. reflexivity. }
  apply andb_true_iff in H as [?%Z.leb_le ?%Z.ltb_lt]. lia.
Qed.

(** What the loop accepts: at each row's position the row's character or a hyphen. *)
Lemma parse_rows_ok s rows m m' :
  parse_rows s rows m = Ok m' ->
  Forall (fun '(pos, c, _) => byte_at s pos = Some c \/ byte_at s pos = Some "-"%char) rows.
Proof.
  revert m. induction rows as [|[[pos c] bit] rows IH]; simpl; intros m H; [constructor|].
  destruct (byte_at s pos) as [a|] eqn:E; [|done].
  destruct (Ascii.eqb_spec a c) as [->|]; [constructor; [rewrite E; auto|eauto]|].
  destruct (Ascii.eqb_spec a "-"%char) as [->|]; simpl in H; [|done].
  constructor; [rewrite E; auto|eauto].
Qed.

Lemma nine_bytes s :
  String.length s = 9%nat ->
  Forall (fun '(pos, c, _) => byte_at s pos = Some c \/ byte_at s pos = Some "-"%char) parse_table ->
  exists b, length b = 9%nat /\ s = rwx_text b.
Proof.
  intros Hl Hall.
  do 9 (destruct s as [|? s]; [discriminate Hl|]). destruct s; [|discriminate Hl].
  repeat (apply Forall_cons in Hall as [? Hall]). unfold byte_at in *. simpl in *.
  exists ((fun a => negb (Ascii.eqb a "-"%char)) <$> [a; a0; a1; a2; a3; a4; a5; a6; a7]).
  split; [done|].
  repeat match goal with H : Some _ = Some _ \/ Some _ = Some _ |- _ =>
    destruct H as [H|H]; injection H as -> end; reflexivity.
Qed.

Lemma ParseMode_inv s m : ParseMode s = Ok m -> exists b, length b = 9%nat /\ s = rwx_text b.
Proof.
  unfold ParseMode. destruct (Nat.eqb_spec (String.length s) 9) as [Hl|]; cbn [negb]; [|done].
  intros H%parse_rows_ok. by apply nine_bytes.
Qed.

Lemma validRwxRe_text s :
  matches validRwxRe s <-> exists b, length b = 9%nat /\ s = rwx_text b.
Proof.
  assert (forall cs s, matches (foldr (fun c r => RCat (rwx_class c) r) REps cs) s <->
    exists b, length b = length cs /\
      s = string_of_list_ascii (zip_with (fun (x : bool) c => if x then c else "-"%char) b cs)) as H;
    [|exact (H rwx_chars s)].
  clear s. induction cs as [|c cs IH]; intros s; simpl.
  - split; [intros ->%eps_inv; by exists []|]. intros (b & Hb & ->). destruct b; [constructor|done].
  - split.
    + intros (u & t & -> & (a & -> & Ha)%class_inv & (b & Hb & ->)%IH)%cat_inv.
      apply orb_true_iff in Ha as [->%Ascii.eqb_eq| ->%Ascii.eqb_eq];
        [exists (true :: b)|exists (false :: b)]; (split; [simpl; by rewrite Hb|done]).
    + intros (b & Hb & ->). destruct b as [|x b]; [done|]. simpl.
      apply (m_cat _ _ (String (if x then c else "-"%char) "")).
      * constructor. destruct x; by rewrite Ascii.eqb_refl, ?orb_true_r.
      * apply IH. eauto.
Qed.

Lemma presets_priority name m : presets !! name = Some m -> name ∈ presetPriority.
Proof.
  unfold presets. intros H%elem_of_list_to_map_2.
  match type of H with _ ∈ ?l =>
    assert (forallb (fun kv => bool_decide (kv.1 ∈ presetPriority)) l = true) as Hall
      by (vm_compute; reflexivity) end.
  rewrite forallb_True, Forall_forall in Hall. apply Hall in H. by apply bool_decide_eq_true in H.
Qed.

Lemma PresetName_found m :
  (exists name, presets !! name = Some m) -> presets !! PresetName m = Some m.
Proof.
  intros (name & H). unfold PresetName.
  match goal with |- context [find ?f presetPriority] => destruct (find f presetPriority) eqn:E end.
  - apply find_some in E as [_ E]. destruct (presets !! s) as [m'|]; [|done].
    by apply Z.eqb_eq in E as ->.
  - pose proof (find_none _ _ E name) as Hn. cbv beta in Hn. rewrite H, Z.eqb_refl in Hn.
    discriminate Hn. apply list_elem_of_In. by eapply presets_priority.
Qed.

(** ** Properties *)

(** [ParseMode] and [Mode.String] are inverse: a string parses to a mode
    exactly when the mode is a 9-bit mask and the string is its text. *)
Theorem ParseMode_spec s m : ParseMode s = Ok m <-> (0 <= m < 512) /\ s = ModeString m.
Proof.
  split.
  - intros H. destruct (ParseMode_inv s m H) as (b & Hb & ->).
    rewrite ParseMode_text in H by done. injection H as <-.
    rewrite ModeString_bits by done. split; [by apply mode_of_bits_range|done].
  - intros [Hm ->]. destruct (bits_of_mode m Hm) as (b & Hb & ->).
    rewrite ModeString_bits by done. by apply ParseMode_text.
Qed.

(** The two validators of mode strings agree: [ParseMode] accepts a string
    exactly when the pattern [validRwxRe] of the enclave checks matches it. *)
Theorem ParseMode_validRwxRe s : is_ok (ParseMode s) = re_match validRwxRe s.
Proof.
  apply eq_true_iff_eq. rewrite re_match_correct, validRwxRe_text. split.
  - intros [m H]%is_ok_true. by eapply ParseMode_inv.
  - intros (b & Hb & ->). by rewrite ParseMode_text.
Qed.

(** The reverse lookup of presets inverts the lookup: the name found for a
    preset's mode is again a preset with that mode, and an empty name means no
    preset has the mode. *)
Theorem PresetName_inverse m :
  (forall name, PresetFromName name = (m, true) -> PresetFromName (PresetName m) = (m, true)) /\
  (PresetName m = "" <-> forall name, PresetFromName name <> (m, true)).
Proof.
  assert (forall name, PresetFromName name = (m, true) <-> presets !! name = Some m) as Hp.
  { intros name. unfold PresetFromName. destruct (presets !! name); split; intros; simplify_eq; done. }
  split.
  - intros name H%Hp. apply Hp, PresetName_found. eauto.
  - split.
    + intros He name H%Hp. assert (presets !! PresetName m = Some m) as Hf
        by (apply PresetName_found; eauto). by rewrite He in Hf.
    + intros Hn. unfold PresetName. destruct (find _ _) as [name|] eqn:E; [|done].
      apply find_some in E as [_ E]. exfalso. apply (Hn name). apply Hp.
      destruct (presets !! name); [|done]. by apply Z.eqb_eq in E as ->.
Qed.
