(* ===== verification/Annotations.v ===== *)
(** * Annotations (pkg/authz/annotations.go, pkg/authz/enclave_annotations.go)

    Ownership and enclave metadata as they are written to and read back from
    the string annotations of Deployments and Namespaces.  A Go [map[string]string]
    is a [gmap]; a read of an absent key yields the empty string, so a nil map
    and an empty one read alike. *)

From S2P Require Import Prelude GoStrings Regex Mode.
#[local] Open Scope string_scope.
#[local] Open Scope Z_scope.

Abbreviation annotations := (gmap string string).

(** [m[k]] on a [map[string]string]. *)
Definition ann_get (ann : annotations) (k : string) : string := default "" (ann !! k).

Definition AnnotationOwner : string := "tentacular.io/owner".
Definition AnnotationOwnerSub : string := "tentacular.io/owner-sub".
Definition AnnotationOwnerEmail : string := "tentacular.io/owner-email".
Definition AnnotationOwnerName : string := "tentacular.io/owner-name".
Definition AnnotationGroup : string := "tentacular.io/group".
Definition AnnotationMode : string := "tentacular.io/mode".
Definition AnnotationAuthProvider : string := "tentacular.io/auth-provider".
Definition AnnotationDefaultMode : string := "tentacular.io/default-mode".
Definition AnnotationDefaultGroup : string := "tentacular.io/default-group".

Record OwnerInfo := {
  oi_OwnerSub : string;
  oi_OwnerEmail : string;
  oi_OwnerName : string;
  oi_Group : string;
  oi_AuthProvider : string;
  oi_PresetName : string;
  oi_Mode : Mode;
}.

(** The mode of an annotation map; [dflt] when absent, empty or unparseable. *)
Definition resolve_mode (dflt : Mode) (ann : annotations) : Mode :=
  match ann !! AnnotationMode with
  | Some raw =>
      if String.eqb raw "" then dflt
      else match ParseMode raw with
           | Ok m => m
           | Err _ => dflt
           end
  | None => dflt
  end.

Definition ReadOwnerInfo (ann : annotations) : OwnerInfo :=
  let mode := resolve_mode DefaultMode ann in
  {| oi_OwnerSub := ann_get ann AnnotationOwnerSub;
     oi_OwnerEmail := ann_get ann AnnotationOwnerEmail;
     oi_OwnerName := ann_get ann AnnotationOwnerName;
     oi_Group := ann_get ann AnnotationGroup;
     oi_AuthProvider := ann_get ann AnnotationAuthProvider;
     oi_PresetName := PresetName mode;
     oi_Mode := mode |}.

Definition GetAnnotation (ann : annotations) (newKey : string) : string :=
  let v := ann_get ann newKey in
  if negb (String.eqb v "") then v
  else if (14 <? String.length newKey)%nat && String.eqb (str_take 14 newKey) "tentacular.io/"
       then ann_get ann ("tentacular.dev/" +:+ str_drop 14 newKey)
  else "".

Definition WriteOwnerAnnotations (ownerSub ownerEmail ownerName : string) (mode : Mode) : annotations :=
  list_to_map
    [(AnnotationOwner, ownerEmail); (AnnotationOwnerSub, ownerSub);
     (AnnotationOwnerEmail, ownerEmail); (AnnotationOwnerName, ownerName);
     (AnnotationMode, ModeString mode)].

Definition WriteNamespaceAnnotations (ownerSub ownerEmail ownerName : string)
    (mode defaultMode : Mode) : annotations :=
  let ann := WriteOwnerAnnotations ownerSub ownerEmail ownerName mode in
  if negb (Z.eqb defaultMode 0)
  then <[AnnotationDefaultMode := ModeString defaultMode]> ann
  else ann.

(** The source repeats the body of [ReadOwnerInfo]. *)
Definition ReadNamespaceOwnerInfo (ann : annotations) : OwnerInfo :=
  let mode := resolve_mode DefaultMode ann in
  {| oi_OwnerSub := ann_get ann AnnotationOwnerSub;
     oi_OwnerEmail := ann_get ann AnnotationOwnerEmail;
     oi_OwnerName := ann_get ann AnnotationOwnerName;
     oi_Group := ann_get ann AnnotationGroup;
     oi_AuthProvider := ann_get ann AnnotationAuthProvider;
     oi_PresetName := PresetName mode;
     oi_Mode := mode |}.

(** ** Enclave annotations *)

Definition AnnotationEnclave : string := "tentacular.io/enclave".
Definition AnnotationEnclaveOwner : string := "tentacular.io/enclave-owner".
Definition AnnotationEnclaveOwnerSub : string := "tentacular.io/enclave-owner-sub".
Definition AnnotationEnclaveMembers : string := "tentacular.io/enclave-members".
Definition AnnotationEnclavePlatform : string := "tentacular.io/enclave-platform".
Definition AnnotationEnclaveChannelID : string := "tentacular.io/enclave-channel-id".
Definition AnnotationEnclaveChannelName : string := "tentacular.io/enclave-channel-name".
Definition AnnotationEnclaveStatus : string := "tentacular.io/enclave-status".
Definition AnnotationEnclaveDefaultMode : string := "tentacular.io/enclave-default-mode".
Definition AnnotationEnclaveCreatedAt : string := "tentacular.io/enclave-created-at".
Definition AnnotationEnclaveUpdatedAt : string := "tentacular.io/enclave-updated-at".

(** [^[a-z0-9]([a-z0-9-]{0,61}[a-z0-9])?$] *)
Definition dns_char (c : ascii) : bool := is_lower c || is_digit c.
Definition dns_mid (c : ascii) : bool := dns_char c || Ascii.eqb c "-".
Definition dns1123LabelRe : re := label_re dns_char dns_mid 61.

(** A package variable no code of the repository assigns. *)
Definition MaxEnclaveMembers : nat := 100.

Record EnclaveInfo := {
  ei_Enclave : string;
  ei_Owner : string;
  ei_OwnerSub : string;
  ei_Platform : string;
  ei_ChannelID : string;
  ei_ChannelName : string;
  ei_Status : string;
  ei_DefaultMode : string;
  ei_CreatedAt : string;
  ei_UpdatedAt : string;
  ei_Members : list string;
}.

Section enclave.
Context `{U : Unicode}.

(** The loop body of [ParseMembers]: trim, then lower. *)
Definition member_norm (part : string) : string := ToLower (TrimSpace part).

Definition ParseMembers (csv : string) : list string :=
  if String.eqb csv "" then []
  else List.filter (fun m => negb (String.eqb m "")) (member_norm <$> Split csv ",").

Definition FormatMembers (members : list string) : string := Join members ",".

Definition ReadEnclaveInfo (ann : annotations) : EnclaveInfo :=
  {| ei_Enclave := ann_get ann AnnotationEnclave;
     ei_Owner := ann_get ann AnnotationEnclaveOwner;
     ei_OwnerSub := ann_get ann AnnotationEnclaveOwnerSub;
     ei_Members := ParseMembers (ann_get ann AnnotationEnclaveMembers);
     ei_Platform := ann_get ann AnnotationEnclavePlatform;
     ei_ChannelID := ann_get ann AnnotationEnclaveChannelID;
     ei_ChannelName := ann_get ann AnnotationEnclaveChannelName;
     ei_Status := ann_get ann AnnotationEnclaveStatus;
     ei_DefaultMode := ann_get ann AnnotationEnclaveDefaultMode;
     ei_CreatedAt := ann_get ann AnnotationEnclaveCreatedAt;
     ei_UpdatedAt := ann_get ann AnnotationEnclaveUpdatedAt |}.

Definition WriteEnclaveAnnotations (info : EnclaveInfo) : annotations :=
  list_to_map
    [(AnnotationEnclave, ei_Enclave info);
     (AnnotationEnclaveOwner, ei_Owner info);
     (AnnotationEnclaveOwnerSub, ei_OwnerSub info);
     (AnnotationEnclaveMembers, FormatMembers (ei_Members info));
     (AnnotationEnclavePlatform, ei_Platform info);
     (AnnotationEnclaveChannelID, ei_ChannelID info);
     (AnnotationEnclaveChannelName, ei_ChannelName info);
     (AnnotationEnclaveStatus, ei_Status info);
     (AnnotationEnclaveDefaultMode, ei_DefaultMode info);
     (AnnotationEnclaveCreatedAt, ei_CreatedAt info);
     (AnnotationEnclaveUpdatedAt, ei_UpdatedAt info)].

Definition ValidateMembers (members : list string) : option error :=
  if (MaxEnclaveMembers <? length members)%nat
  then Some (Errorf "enclave member count %d exceeds maximum of %d"
               [AInt (Z.of_nat (length members)); AInt (Z.of_nat MaxEnclaveMembers)])
  else None.

Definition ValidateEnclaveName (name : string) : option error :=
  if negb (re_match dns1123LabelRe name)
  then Some (Errorf "enclave name %q is not a valid DNS-1123 label: must match ^[a-z0-9]([a-z0-9-]{0,61}[a-z0-9])?$" [AStr name])
  else if Contains name "."
       then Some (Errorf "enclave name %q must not contain '.' (NATS safety)" [AStr name])
  else None.

(** The member loop of [ValidateEnclaveInfo], from index [i]. *)
Fixpoint validate_each_member (i : nat) (members : list string) : option error :=
  match members with
  | [] => None
  | m :: rest =>
      if String.eqb m ""
      then Some (Errorf "enclave member at index %d must not be empty" [AInt (Z.of_nat i)])
      else if negb (Contains m "@")
           then Some (Errorf "enclave member %q at index %d must contain '@'" [AStr m; AInt (Z.of_nat i)])
      else validate_each_member (S i) rest
  end.


Definition dquotes : string := String dquote (String dquote "").
Definition ValidateEnclaveInfo (info : EnclaveInfo) : option error :=
  match ValidateEnclaveName (ei_Enclave info) with
  | Some err => Some err
  | None =>
    let owner := ToLower (ei_Owner info) in
    if String.eqb owner "" then Some (ErrorNew "enclave owner must not be empty")
    else if negb (Contains owner "@")
         then Some (Errorf "enclave owner %q must contain '@'" [AStr owner])
    else
    match validate_each_member 0 (ei_Members info) with
    | Some err => Some err
    | None =>
      if negb (str_in (ei_Platform info) ["slack"; ""])
      then Some (Errorf ("enclave platform %q is not in allowed set: slack, " +:+ dquotes) [AStr (ei_Platform info)])
      else if negb (str_in (ei_Status info) ["active"; "provisioning"; "frozen"; ""])
      then Some (Errorf ("enclave status %q is not in allowed set: active, provisioning, frozen, " +:+ dquotes) [AStr (ei_Status info)])
      else if negb (String.eqb (ei_DefaultMode info) "") && negb (re_match validRwxRe (ei_DefaultMode info))
      then Some (Errorf ("enclave default-mode %q must be a valid 9-character rwx string (e.g. " +:+ String dquote ("rwxr-x---" +:+ String dquote ")")) [AStr (ei_DefaultMode info)])
      else ValidateMembers (ei_Members info)
    end
  end.

Definition IsEnclave (ann : annotations) : bool := negb (String.eqb (ann_get ann AnnotationEnclave) "").

End enclave.

(** ** Lemmas *)

Lemma ann_get_insert ann k v : ann_get (<[k := v]> ann) k = v.
Proof. unfold ann_get. by rewrite lookup_insert_eq. Qed.

Lemma ann_get_insert_ne ann k k' v : k <> k' -> ann_get (<[k := v]> ann) k' = ann_get ann k'.
Proof. intros. unfold ann_get. by rewrite lookup_insert_ne. Qed.

#[export] Hint Rewrite ann_get_insert : gostr.

(** Look a literal key up in a literal list of annotations. *)
Ltac ann_lookup :=
  unfold ann_get; simpl list_to_map;
  repeat (first [ rewrite lookup_insert_eq | rewrite lookup_insert_ne by discriminate ]);
  simpl.

Lemma resolve_mode_written dflt ann m :
  ann !! AnnotationMode = Some (ModeString m) -> 0 <= m < 512 -> resolve_mode dflt ann = m.
Proof.
  intros Ha Hm. unfold resolve_mode. rewrite Ha.
  destruct (String.eqb_spec (ModeString m) "") as [He|_]; [done|].
  destruct (bits_of_mode m Hm) as (b & Hb & ->).
  by rewrite ModeString_bits, ParseMode_text.
Qed.

(** A mode annotation that does not parse is the default. *)
Lemma resolve_mode_range dflt ann :
  0 <= dflt < 512 -> 0 <= resolve_mode dflt ann < 512.
Proof.
  intros Hd. unfold resolve_mode. destruct (ann !! AnnotationMode) as [raw|]; [|done].
  destruct (String.eqb raw ""); [done|]. destruct (ParseMode raw) as [m|] eqn:E; [|done].
  destruct (ParseMode_inv _ _ E) as (b & Hb & ->). rewrite ParseMode_text in E by done.
  injection E as <-. by apply mode_of_bits_range.
Qed.

Section enclave_lemmas.
Context `{U : Unicode}.

(** A member entry as [ParseMembers] leaves it. *)
Definition canonical_member (m : string) : Prop :=
  m <> "" /\ no_byte "," m = true /\ member_norm m = m.

Lemma ParseMembers_Format ms : Forall canonical_member ms -> ParseMembers (FormatMembers ms) = ms.
Proof.
  intros Hall. unfold ParseMembers, FormatMembers.
  destruct ms as [|m ms]; [done|].
  assert (Join (m :: ms) "," <> "") as Hne.
  { apply Forall_cons in Hall as [[Hm _] _]. destruct ms; simpl; [done|].
    destruct m; [done|]. discriminate. }
  rewrite (proj2 (String.eqb_neq _ _) Hne).
  rewrite Split_Join; [|done|eapply Forall_impl; [exact Hall|by intros ? (? & ? & ?)]].
  generalize (m :: ms) Hall. clear. induction 1 as [|m ms (Hm & _ & Hn) _ IH]; [done|].
  rewrite fmap_cons, Hn. cbn [List.filter]. rewrite (proj2 (String.eqb_neq _ _) Hm).
  cbn [negb]. by rewrite IH.
Qed.

Lemma member_norm_ascii p :
  is_ascii p = true ->
  is_ascii (member_norm p) = true /\ member_norm (member_norm p) = member_norm p.
Proof.
  intros Ha. unfold member_norm.
  pose proof (TrimSpace_trimmed p Ha) as Ht. pose proof Ht as Hta.
  unfold trimmed in Hta. rewrite !andb_true_iff in Hta. destruct Hta as [[Hta _] _].
  assert (ToLower (TrimSpace p) = str_map lower_char (TrimSpace p)) as Hl
    by (unfold ToLower; by rewrite Hta).
  pose proof (trimmed_lower _ Ht) as Htl. rewrite Hl. split.
  - unfold trimmed in Htl. rewrite !andb_true_iff in Htl. by destruct Htl as [[? _] _].
  - rewrite (trimmed_TrimSpace _ Htl), <- Hl. by apply ToLower_ascii_idem.
Qed.

Lemma no_byte_comma_lower c : Ascii.eqb (lower_char c) "," = Ascii.eqb c ",".
Proof. destruct c as [[] [] [] [] [] [] [] []]; reflexivity. Qed.

Lemma str_forallb_ltrim p s : str_forallb p s = true -> str_forallb p (ltrim s) = true.
Proof.
  induction s as [|c s IH]; simpl; [done|]. intros H.
  destruct (ascii_space c); [|done]. apply andb_true_iff in H as [_ H]. auto.
Qed.

Lemma member_norm_no_comma p :
  is_ascii p = true -> no_byte "," p = true -> no_byte "," (member_norm p) = true.
Proof.
  intros Ha Hp. unfold member_norm.
  assert (no_byte "," (TrimSpace p) = true) as Ht.
  { rewrite TrimSpace_ascii by done. unfold no_byte in *. rewrite str_forallb_rev.
    apply str_forallb_ltrim. rewrite str_forallb_rev. by apply str_forallb_ltrim. }
  pose proof (TrimSpace_trimmed p Ha) as Hta. unfold trimmed in Hta.
  rewrite !andb_true_iff in Hta. destruct Hta as [[Hta _] _].
  unfold ToLower. rewrite Hta. unfold no_byte in *. rewrite str_forallb_map.
  eapply str_forallb_impl; [|exact Ht]. intros c. by rewrite no_byte_comma_lower.
Qed.

Lemma Split_ascii s sep : is_ascii s = true -> Forall (fun x => is_ascii x = true) (Split s sep).
Proof.
  unfold is_ascii. induction s as [|c s IH]; simpl; [by repeat constructor|].
  rewrite andb_true_iff. intros [Hc Hs]. specialize (IH Hs).
  destruct (Ascii.eqb c sep); [by constructor|].
  destruct (Split s sep) as [|h t]; [repeat constructor; simpl; by rewrite Hc|].
  apply Forall_cons in IH as [Hh Ht]. constructor; [|done]. simpl. by rewrite Hc.
Qed.

Lemma ParseMembers_canonical csv :
  is_ascii csv = true -> Forall canonical_member (ParseMembers csv).
Proof.
  intros Ha. unfold ParseMembers. destruct (String.eqb csv ""); [constructor|].
  apply Forall_forall. intros m Hm. apply list_elem_of_In, filter_In in Hm as [Hm Hne].
  apply list_elem_of_In, list_elem_of_fmap in Hm as (p & -> & Hp).
  pose proof (Split_ascii csv "," Ha) as Has. pose proof (Split_parts_no_byte csv ",") as Hnb.
  rewrite Forall_forall in Has, Hnb. specialize (Has p Hp). specialize (Hnb p Hp).
  split; [|split].
  - intros He. by rewrite He in Hne.
  - by apply member_norm_no_comma.
  - by apply member_norm_ascii.
Qed.

Lemma validate_each_member_None i ms :
  validate_each_member i ms = None <->
  Forall (fun m => m <> "" /\ Contains m "@" = true) ms.
Proof.
  revert i. induction ms as [|m ms IH]; intros i; simpl; [by split|].
  rewrite Forall_cons, <- (IH (S i)). destruct (String.eqb_spec m "") as [->|Hm].
  - split; [done|]. by intros [[? _] _].
  - destruct (Contains m "@"); simpl; [by split; [|intros [_ ?]]|]. split; [done|].
    by intros [[_ ?] _].
Qed.


(** The dot test after the pattern never fires: a label holds no dot. *)
Lemma dns_label_no_dot name : re_match dns1123LabelRe name = true -> Contains name "." = false.
Proof.
  unfold dns1123LabelRe. rewrite label_match_check. intros H.
  apply label_check_chars in H; [|by unfold dns_mid; intros c ->].
  rewrite Contains_byte, negb_false_iff. eapply str_forallb_impl; [|exact H].
  intros c Hc. destruct (Ascii.eqb_spec c ".") as [->|]; [discriminate Hc|done].
Qed.

Lemma ValidateEnclaveName_None name :
  ValidateEnclaveName name = None <-> re_match dns1123LabelRe name = true.
Proof.
  unfold ValidateEnclaveName. destruct (re_match dns1123LabelRe name) eqn:E; simpl; [|by split].
  by rewrite dns_label_no_dot.
Qed.

(** ** Properties *)

(** Enclave metadata survives the annotations: reading back what was
    written gives the same record, provided the members are in the form
    [ParseMembers] produces (non-empty, trimmed, lower case, no comma). *)
Theorem ReadEnclaveInfo_Write info :
  Forall canonical_member (ei_Members info) ->
  ReadEnclaveInfo (WriteEnclaveAnnotations info) = info.
Proof.
  intros Hm. unfold ReadEnclaveInfo, WriteEnclaveAnnotations. ann_lookup.
  rewrite ParseMembers_Format by done. by destruct info.
Qed.

(** For annotations in ASCII, what [ReadEnclaveInfo] returns is a fixed point:
    writing it and reading it again changes nothing, whatever the raw member
    list looked like (blank entries, upper case, spaces). *)
Theorem ReadEnclaveInfo_stable ann :
  is_ascii (ann_get ann AnnotationEnclaveMembers) = true ->
  ReadEnclaveInfo (WriteEnclaveAnnotations (ReadEnclaveInfo ann)) = ReadEnclaveInfo ann.
Proof.
  intros Ha. unfold ReadEnclaveInfo at 1. unfold WriteEnclaveAnnotations. ann_lookup.
  rewrite ParseMembers_Format by by apply ParseMembers_canonical. done.
Qed.

(** [ValidateEnclaveInfo] accepts exactly the records whose name is a DNS
    label, whose owner and members are non-empty and hold an at sign, whose
    platform and status are known, whose default mode is empty or a mode
    string, and that hold at most [MaxEnclaveMembers] members. *)
Theorem ValidateEnclaveInfo_spec info :
  ValidateEnclaveInfo info = None <->
  re_match dns1123LabelRe (ei_Enclave info) = true /\
  ToLower (ei_Owner info) <> "" /\ Contains (ToLower (ei_Owner info)) "@" = true /\
  Forall (fun m => m <> "" /\ Contains m "@" = true) (ei_Members info) /\
  ei_Platform info ∈ ["slack"; ""] /\
  ei_Status info ∈ ["active"; "provisioning"; "frozen"; ""] /\
  (ei_DefaultMode info = "" \/ exists m, ParseMode (ei_DefaultMode info) = Ok m) /\
  (length (ei_Members info) <= MaxEnclaveMembers)%nat.
Proof.
  rewrite <- ValidateEnclaveName_None, <- (validate_each_member_None 0), <- !str_in_spec.
  assert ((ei_DefaultMode info = "" \/ exists m, ParseMode (ei_DefaultMode info) = Ok m) <->
    negb (String.eqb (ei_DefaultMode info) "") && negb (re_match validRwxRe (ei_DefaultMode info))
    = false) as ->.
  { rewrite andb_false_iff, !negb_false_iff, String.eqb_eq, re_match_correct, validRwxRe_text.
    split; (intros [H|H]; [by left|right]).
    - destruct H as [m H]. by eapply ParseMode_inv.
    - destruct H as (b & Hb & ->). rewrite ParseMode_text by done. eauto. }
  unfold ValidateEnclaveInfo, ValidateMembers. cbn zeta.
  destruct (ValidateEnclaveName _); [by split; [|intros [? _]]|].
  destruct (String.eqb_spec (ToLower (ei_Owner info)) "") as [He|He];
    [by split; [|intros (_ & ? & _)]|].
  destruct (Contains (ToLower (ei_Owner info)) "@"); cbn [negb];
    [|by split; [|intros (_ & _ & ? & _)]].
  destruct (validate_each_member 0 _); [by split; [|intros (_ & _ & _ & ? & _)]|].
  destruct (str_in (ei_Platform info) _); cbn [negb];
    [|by split; [|intros (_ & _ & _ & _ & ? & _)]].
  destruct (str_in (ei_Status info) _); cbn [negb];
    [|by split; [|intros (_ & _ & _ & _ & _ & ? & _)]].
  destruct (_ && _); [by split; [|intros (_ & _ & _ & _ & _ & _ & ? & _)]|].
  destruct (Nat.ltb_spec MaxEnclaveMembers (length (ei_Members info))).
  - split; [done|]. intros (_ & _ & _ & _ & _ & _ & _ & ?). lia.
  - split; [|done]. intros _. repeat split; done.
Qed.

End enclave_lemmas.

(** Ownership survives the annotations: reading back what
    [WriteOwnerAnnotations] stamped gives the same owner, mode and preset. *)
Theorem ReadOwnerInfo_Write sub email name mode :
  0 <= mode < 512 ->
  ReadOwnerInfo (WriteOwnerAnnotations sub email name mode) =
    {| oi_OwnerSub := sub; oi_OwnerEmail := email; oi_OwnerName := name; oi_Group := "";
       oi_AuthProvider := ""; oi_PresetName := PresetName mode; oi_Mode := mode |}.
Proof.
  intros Hm. unfold ReadOwnerInfo.
  assert (resolve_mode DefaultMode (WriteOwnerAnnotations sub email name mode) = mode) as ->.
  { apply resolve_mode_written; [|done]. unfold WriteOwnerAnnotations. by ann_lookup. }
  unfold WriteOwnerAnnotations. by ann_lookup.
Qed.

(** ** Witnesses *)

Definition ann_example : annotations :=
  list_to_map [(AnnotationEnclave, "team"); (AnnotationEnclaveOwner, "Ada@x.org");
               (AnnotationEnclaveMembers, " Bob@X.org,, eve@x.org ")].

Lemma ReadEnclaveInfo_Write_witness :
  ReadEnclaveInfo (U := ascii_tables)
    (WriteEnclaveAnnotations (ReadEnclaveInfo (U := ascii_tables) ann_example))
  = ReadEnclaveInfo (U := ascii_tables) ann_example.
Proof.
  apply (ReadEnclaveInfo_Write (U := ascii_tables)).
  apply (ParseMembers_canonical (U := ascii_tables)). vm_compute. reflexivity.
Defined.

Lemma ReadEnclaveInfo_stable_witness :
  ei_Members (ReadEnclaveInfo (U := ascii_tables) ann_example) = ["bob@x.org"; "eve@x.org"] /\
  ReadEnclaveInfo (U := ascii_tables)
    (WriteEnclaveAnnotations (ReadEnclaveInfo (U := ascii_tables) ann_example))
  = ReadEnclaveInfo (U := ascii_tables) ann_example.
Proof.
  split; [vm_compute; reflexivity|].
  apply (ReadEnclaveInfo_stable (U := ascii_tables)). vm_compute. reflexivity.
Defined.

Lemma ReadOwnerInfo_Write_witness :
  oi_PresetName (ReadOwnerInfo (WriteOwnerAnnotations "1" "a@x" "A" DefaultMode)) = "member-read".
Proof.
  rewrite (ReadOwnerInfo_Write "1" "a@x" "A" DefaultMode) by (vm_compute; split; congruence).
  vm_compute. reflexivity.
Defined.
