(* ===== verification/ExoConfig.v ===== *)
(** * Exoskeleton configuration (pkg/exoskeleton/config.go)

    The configuration read from the process environment, the predicates that
    switch each backing service on, and the check for partial configuration.
    The environment is a function from variable names to values, empty for an
    unset variable ([os.Getenv]). *)

From S2P Require Import Prelude GoStrings.
#[local] Open Scope string_scope.

Record SPIREConfig := { spire_ClassName : string; spire_Enabled : bool }.

Record PostgresConfig := {
  pg_Host : string;
  pg_Port : string;
  pg_Database : string;
  pg_User : string;
  pg_Password : string;
  pg_SSLMode : string;
}.

Record NATSConfig := {
  nats_URL : string;
  nats_Token : string;
  nats_AuthzConfigMap : string;
  nats_AuthzNamespace : string;
  nats_SPIFFEEnabled : bool;
}.

Record RustFSConfig := {
  rfs_Endpoint : string;
  rfs_AccessKey : string;
  rfs_SecretKey : string;
  rfs_Bucket : string;
  rfs_Region : string;
}.

Record AuthConfig := {
  auth_IssuerURL : string;
  auth_ClientID : string;
  auth_ClientSecret : string;
  auth_TrustedAZPs : list string;
  auth_Enabled : bool;
}.

Record Config := {
  c_Postgres : PostgresConfig;
  c_RustFS : RustFSConfig;
  c_NATS : NATSConfig;
  c_SPIRE : SPIREConfig;
  c_Auth : AuthConfig;
  c_Enabled : bool;
  c_CleanupOnUndeploy : bool;
}.

(** [s != ""] *)
Definition set (s : string) : bool := negb (String.eqb s "").

(** [parseTrustedAZPs] *)
Definition parseTrustedAZPs (val : string) : list string :=
  if String.eqb val "" then [] else List.filter set (TrimSpace <$> Split val ",").

Section environment.
Context `{U : Unicode} (getenv : string -> string).

Definition envBool (key : string) : bool :=
  let v := ToLower (getenv key) in
  String.eqb v "true" || String.eqb v "1" || String.eqb v "yes".

Definition envDefault (key dflt : string) : string :=
  let v := getenv key in if String.eqb v "" then dflt else v.

Definition LoadFromEnv : Config :=
  {| c_Enabled := envBool "TENTACULAR_EXOSKELETON_ENABLED";
     c_CleanupOnUndeploy := envBool "TENTACULAR_EXOSKELETON_CLEANUP_ON_UNDEPLOY";
     c_Postgres :=
       {| pg_Host := getenv "TENTACULAR_POSTGRES_ADMIN_HOST";
          pg_Port := envDefault "TENTACULAR_POSTGRES_ADMIN_PORT" "5432";
          pg_Database := envDefault "TENTACULAR_POSTGRES_ADMIN_DATABASE" "tentacular";
          pg_User := getenv "TENTACULAR_POSTGRES_ADMIN_USER";
          pg_Password := getenv "TENTACULAR_POSTGRES_ADMIN_PASSWORD";
          pg_SSLMode := envDefault "TENTACULAR_POSTGRES_SSLMODE" "disable" |};
     c_NATS :=
       {| nats_URL := getenv "TENTACULAR_NATS_URL";
          nats_Token := getenv "TENTACULAR_NATS_TOKEN";
          nats_SPIFFEEnabled := envBool "TENTACULAR_NATS_SPIFFE_ENABLED";
          nats_AuthzConfigMap := envDefault "TENTACULAR_NATS_AUTHZ_CONFIGMAP" "nats-tentacular-authz";
          nats_AuthzNamespace := envDefault "TENTACULAR_NATS_AUTHZ_NAMESPACE" "tentacular-exoskeleton" |};
     c_RustFS :=
       {| rfs_Endpoint := getenv "TENTACULAR_RUSTFS_ENDPOINT";
          rfs_AccessKey := getenv "TENTACULAR_RUSTFS_ACCESS_KEY";
          rfs_SecretKey := getenv "TENTACULAR_RUSTFS_SECRET_KEY";
          rfs_Bucket := envDefault "TENTACULAR_RUSTFS_BUCKET" "tentacular";
          rfs_Region := envDefault "TENTACULAR_RUSTFS_REGION" "us-east-1" |};
     c_Auth :=
       {| auth_Enabled := envBool "TENTACULAR_EXOSKELETON_AUTH_ENABLED";
          auth_IssuerURL := getenv "TENTACULAR_KEYCLOAK_ISSUER";
          auth_ClientID := getenv "TENTACULAR_KEYCLOAK_CLIENT_ID";
          auth_ClientSecret := getenv "TENTACULAR_KEYCLOAK_CLIENT_SECRET";
          auth_TrustedAZPs := parseTrustedAZPs (getenv "TENTACULAR_KEYCLOAK_TRUSTED_AZPS") |};
     c_SPIRE :=
       {| spire_Enabled := envBool "TENTACULAR_EXOSKELETON_SPIRE_ENABLED";
          spire_ClassName := envDefault "TENTACULAR_SPIRE_CLASS_NAME" "tentacular-system-spire" |} |}.
End environment.

Definition PostgresEnabled (c : Config) : bool :=
  c_Enabled c && set (pg_Host (c_Postgres c)) && set (pg_User (c_Postgres c))
  && set (pg_Password (c_Postgres c)).
Definition NATSEnabled (c : Config) : bool := c_Enabled c && set (nats_URL (c_NATS c)).
Definition RustFSEnabled (c : Config) : bool :=
  c_Enabled c && set (rfs_Endpoint (c_RustFS c)) && set (rfs_AccessKey (c_RustFS c))
  && set (rfs_SecretKey (c_RustFS c)).
Definition AuthEnabled (c : Config) : bool :=
  auth_Enabled (c_Auth c) && set (auth_IssuerURL (c_Auth c)) && set (auth_ClientID (c_Auth c)).
Definition SPIREEnabled (c : Config) : bool := c_Enabled c && spire_Enabled (c_SPIRE c).

(** The names of the unset variables of a table, in order. *)
Definition missing_vars (vars : list (string * string)) : list string :=
  snd <$> List.filter (fun v => negb (set (fst v))) vars.

(** The [problems] slice of [Validate]. *)
Definition config_problems (c : Config) : list string :=
  let pg := c_Postgres c in
  let rfs := c_RustFS c in
  let auth := c_Auth c in
  let pgPartial := set (pg_Host pg) || set (pg_User pg) || set (pg_Password pg) in
  let rustPartial := set (rfs_Endpoint rfs) || set (rfs_AccessKey rfs) || set (rfs_SecretKey rfs) in
  ((if pgPartial && negb (PostgresEnabled c)
    then ["postgres partially configured, missing: " +:+
          Join (missing_vars [(pg_Host pg, "TENTACULAR_POSTGRES_ADMIN_HOST");
                              (pg_User pg, "TENTACULAR_POSTGRES_ADMIN_USER");
                              (pg_Password pg, "TENTACULAR_POSTGRES_ADMIN_PASSWORD")]) ", "]
    else [])
   ++ (if set (nats_URL (c_NATS c)) && negb (nats_SPIFFEEnabled (c_NATS c))
          && negb (set (nats_Token (c_NATS c)))
       then ["nats URL configured but no auth method set; provide TENTACULAR_NATS_TOKEN or enable TENTACULAR_NATS_SPIFFE_ENABLED"]
       else [])
   ++ (if rustPartial && negb (RustFSEnabled c)
       then ["rustfs partially configured, missing: " +:+
             Join (missing_vars [(rfs_Endpoint rfs, "TENTACULAR_RUSTFS_ENDPOINT");
                                 (rfs_AccessKey rfs, "TENTACULAR_RUSTFS_ACCESS_KEY");
                                 (rfs_SecretKey rfs, "TENTACULAR_RUSTFS_SECRET_KEY")]) ", "]
       else [])
   ++ (if auth_Enabled auth && negb (AuthEnabled c)
       then ["auth enabled but missing: " +:+
             Join (missing_vars [(auth_IssuerURL auth, "TENTACULAR_KEYCLOAK_ISSUER");
                                 (auth_ClientID auth, "TENTACULAR_KEYCLOAK_CLIENT_ID")]) ", "]
       else []))%list.

Definition Validate (c : Config) : option error :=
  if negb (c_Enabled c) then None
  else match config_problems c with
       | [] => None
       | problems => Some (Errorf "exoskeleton config: %s" [AStr (Join problems "; ")])
       end.

(** ** Lemmas *)

Lemma set_true s : set s = true <-> s <> "".
Proof. unfold set. by rewrite negb_true_iff, String.eqb_neq. Qed.

Lemma if_nil {A} (b : bool) (x : A) : (if b then [x] else []) = [] <-> b = false.
Proof. by destruct b. Qed.

Lemma andb_negb_false b c : b && negb c = false <-> (b = true -> c = true).
Proof. by destruct b, c; simpl; intuition. Qed.

(** An enabled configuration passes [Validate] exactly when no service is
    half configured: a Postgres or RustFS setting that is present implies the
    service is fully configured, a NATS URL comes with a token or SPIFFE, and
    enabled OIDC has an issuer and a client. *)
Theorem Validate_spec c :
  Validate c = None <->
  (c_Enabled c = true ->
     ((pg_Host (c_Postgres c) <> "" \/ pg_User (c_Postgres c) <> "" \/ pg_Password (c_Postgres c) <> "") ->
        PostgresEnabled c = true) /\
     (NATSEnabled c = true -> nats_SPIFFEEnabled (c_NATS c) = true \/ nats_Token (c_NATS c) <> "") /\
     ((rfs_Endpoint (c_RustFS c) <> "" \/ rfs_AccessKey (c_RustFS c) <> "" \/ rfs_SecretKey (c_RustFS c) <> "") ->
        RustFSEnabled c = true) /\
     (auth_Enabled (c_Auth c) = true -> AuthEnabled c = true)).
Proof.
  assert (Validate c = None <-> (c_Enabled c = true -> config_problems c = [])) as ->.
  { unfold Validate. destruct (c_Enabled c); simpl; [|done].
    destruct (config_problems c); split; try done. intros H. by specialize (H eq_refl). }
  assert (forall P Q : Prop, (c_Enabled c = true -> (P <-> Q)) ->
            ((c_Enabled c = true -> P) <-> (c_Enabled c = true -> Q))) as Hcong.
  { intros P Q HPQ. split; intros H He; specialize (HPQ He); tauto. }
  apply Hcong. intros He. unfold config_problems.
  rewrite !app_nil, !if_nil, !andb_negb_false, !orb_true_iff, !set_true.
  unfold NATSEnabled. rewrite He. cbn [andb].
  rewrite andb_true_iff, negb_true_iff, !set_true.
  assert (forall b (P : Prop), (P /\ b = false -> nats_Token (c_NATS c) <> "") <->
            (P -> b = true \/ nats_Token (c_NATS c) <> "")) as Hnats.
  { intros [] P; split; [by auto| |by intuition|intros H [HP _]; by destruct (H HP)]. by intros _ [_ ?]. }
  by rewrite Hnats, <- (or_assoc (pg_Host _ <> _)), <- (or_assoc (rfs_Endpoint _ <> _)).
Qed.
