(* ===== verification/Auth.v ===== *)
(** * Authentication (pkg/exoskeleton/auth.go, pkg/auth/auth.go)

    OIDC token validation and the HTTP middleware that authenticates every
    request.  The go-oidc library is a parameter: discovery of a provider, the
    verification of a token's signature, expiry and issuer, and the decoding of
    its claims. *)

From S2P Require Import Prelude GoStrings ExoConfig.
#[local] Open Scope string_scope.

Record DeployerInfo := {
  d_Email : string;
  d_DisplayName : string;
  d_Subject : string;
  d_Provider : string;
  d_AgentType : string;
  d_SessionID : string;
}.

Record keycloakClaims := {
  kc_Email : string;
  kc_Name : string;
  kc_PreferredUser : string;
  kc_AZP : string;
  kc_IdentityProvider : string;
  kc_Groups : list string;
}.

Definition determineProvider (claims : keycloakClaims) : string :=
  if set (kc_IdentityProvider claims) then kc_IdentityProvider claims else "keycloak".

(** The go-oidc library. *)
Class OidcLib := {
  oidc_Provider : Type;
  oidc_IDToken : Type;
  oidc_NewProvider : string -> res oidc_Provider;
  oidc_Verify : oidc_Provider -> string -> res oidc_IDToken;
  oidc_Subject : oidc_IDToken -> string;
  oidc_Claims : oidc_IDToken -> res keycloakClaims;
}.

Section oidc.
Context `{L : OidcLib}.

Record OIDCValidator := {
  ov_trustedAZPs : gmap string bool;
  ov_provider : oidc_Provider;
  ov_clientID : string;
}.

(** The trusted set: the client itself and the configured parties. *)
Definition trusted_azps (cfg : AuthConfig) : gmap string bool :=
  foldl (fun m azp => <[azp := true]> m) {[auth_ClientID cfg := true]} (auth_TrustedAZPs cfg).

Definition NewOIDCValidator (cfg : AuthConfig) : res OIDCValidator :=
  if negb (auth_Enabled cfg) then Err (ErrorNew "OIDC auth is not enabled")
  else if negb (set (auth_IssuerURL cfg)) then Err (ErrorNew "OIDC issuer URL is required")
  else if negb (set (auth_ClientID cfg)) then Err (ErrorNew "OIDC client ID is required")
  else match oidc_NewProvider (auth_IssuerURL cfg) with
       | Err err => Err (Errorf "OIDC provider discovery for %s: %w" [AStr (auth_IssuerURL cfg); AErr err])
       | Ok provider =>
           Ok {| ov_provider := provider; ov_clientID := auth_ClientID cfg;
                 ov_trustedAZPs := trusted_azps cfg |}
       end.

(** [fmt]'s rendering of a [map[string]bool]: keys in order. *)
Definition fmt_bool_map (m : gmap string bool) : string :=
  "map[" +:+
  Join ((fun k => k +:+ ":" +:+ (if default false (m !! k) then "true" else "false"))
          <$> SortStrings (map_to_list m).*1) " " +:+ "]".

Definition ValidateToken (v : OIDCValidator) (tokenString : string) : res DeployerInfo :=
  match oidc_Verify (ov_provider v) tokenString with
  | Err err => Err (Errorf "OIDC token verification failed: %w" [AErr err])
  | Ok idToken =>
      match oidc_Claims idToken with
      | Err err => Err (Errorf "OIDC claims extraction failed: %w" [AErr err])
      | Ok claims =>
          if negb (default false (ov_trustedAZPs v !! kc_AZP claims))
          then Err (Errorf "OIDC token azp %q is not a trusted client (expected one of %v)"
                      [AStr (kc_AZP claims); AStr (fmt_bool_map (ov_trustedAZPs v))])
          else if negb (set (oidc_Subject idToken))
               then Err (ErrorNew "OIDC token missing required sub claim")
          else
            let displayName := if set (kc_Name claims) then kc_Name claims else kc_PreferredUser claims in
            Ok {| d_Email := kc_Email claims; d_DisplayName := displayName;
                  d_Subject := oidc_Subject idToken; d_Provider := determineProvider claims;
                  d_AgentType := ""; d_SessionID := "" |}
      end
  end.
End oidc.

(** ** HTTP middleware *)

(** What the middleware reads of a request, and the deployer its context carries. *)
Record request := {
  rq_Method : string;
  rq_Path : string;
  rq_Authorization : string;
  rq_deployer : option DeployerInfo;
}.

Record http_response := {
  rs_status : Z;
  rs_headers : gmap string string;
  rs_body : string;
}.

Abbreviation Handler := (request -> http_response) (only parsing).

(** [DeployerFromContext]: the value [context.WithValue] attached last. *)
Definition DeployerFromContext (r : request) : option DeployerInfo := rq_deployer r.
Definition WithDeployer (r : request) (d : DeployerInfo) : request :=
  {| rq_Method := rq_Method r; rq_Path := rq_Path r; rq_Authorization := rq_Authorization r; rq_deployer := Some d |}.

(** [LoadToken], given what [os.ReadFile] returned. *)
Definition LoadToken (path : string) (ReadFile : string -> res string) : res string :=
  match ReadFile path with
  | Err err => Err (Errorf "read token file %s: %w" [AStr path; AErr err])
  | Ok data =>
      let token := TrimSpace data in
      if String.eqb token "" then Err (Errorf "token file %s is empty" [AStr path]) else Ok token
  end.

Definition bypassAuth (path : string) : bool :=
  String.eqb path "/healthz" || String.eqb path "/.well-known/oauth-protected-resource".

(** Three non-empty segments between dots. *)
Definition looksLikeJWT (token : string) : bool :=
  match Split token "." with
  | [a; b; c] => (0 <? String.length a)%nat && (0 <? String.length b)%nat && (0 <? String.length c)%nat
  | _ => false
  end.

Definition BearerDeployer : DeployerInfo :=
  {| d_Email := ""; d_DisplayName := ""; d_Subject := ""; d_Provider := "bearer-token";
     d_AgentType := ""; d_SessionID := "" |}.

Section middleware.
Context `{U : Unicode} `{L : OidcLib}.

(** [writeUnauthorized]; [http.Error] sets the two content headers and ends the body with a newline. *)
Definition writeUnauthorized (resourceMetadataURL msg : string) : http_response :=
  let base : gmap string string :=
    {["Content-Type" := "text/plain; charset=utf-8"; "X-Content-Type-Options" := "nosniff"]} in
  {| rs_status := 401;
     rs_headers :=
       if set resourceMetadataURL
       then <["WWW-Authenticate" := Sprintf "Bearer resource_metadata=%q" [resourceMetadataURL]]> base
       else base;
     rs_body := msg +:+ nl |}.

Definition Middleware (token resourceMetadataURL : string) (next : Handler) : Handler := fun r =>
  if bypassAuth (rq_Path r) then next r
  else if String.eqb (rq_Authorization r) ""
       then writeUnauthorized resourceMetadataURL "missing authorization header"
  else if negb (HasPrefix (rq_Authorization r) "Bearer ")
       then writeUnauthorized resourceMetadataURL "invalid authorization header format"
  else
    let provided := TrimPrefix (rq_Authorization r) "Bearer " in
    if negb (String.eqb provided token) then writeUnauthorized resourceMetadataURL "invalid token"
    else next r.

Definition DualAuthMiddleware (token : string) (validator : option OIDCValidator)
    (resourceMetadataURL : string) (next : Handler) : Handler :=
  match validator with
  | None => Middleware token resourceMetadataURL next
  | Some v => fun r =>
      if bypassAuth (rq_Path r) then next r
      else if String.eqb (rq_Authorization r) ""
           then writeUnauthorized resourceMetadataURL "missing authorization header"
      else if negb (HasPrefix (rq_Authorization r) "Bearer ")
           then writeUnauthorized resourceMetadataURL "invalid authorization header format"
      else
        let provided := TrimPrefix (rq_Authorization r) "Bearer " in
        let fallback :=
          if negb (String.eqb provided token)
          then writeUnauthorized resourceMetadataURL "invalid token"
          else next (WithDeployer r BearerDeployer) in
        if looksLikeJWT provided
        then match ValidateToken v provided with
             | Ok deployer => next (WithDeployer r deployer)
             | Err _ => fallback
             end
        else fallback
  end.

(** ** Lemmas *)

Lemma trusted_azps_lookup cfg azp :
  trusted_azps cfg !! azp = Some true <-> azp = auth_ClientID cfg \/ azp ∈ auth_TrustedAZPs cfg.
Proof.
  unfold trusted_azps.
  assert (forall l m, foldl (fun (m : gmap string bool) azp => <[azp := true]> m) m l !! azp = Some true
            <-> m !! azp = Some true \/ azp ∈ l) as H.
  { induction l as [|x l IH]; intros m; simpl.
    - rewrite elem_of_nil. tauto.
    - rewrite IH, elem_of_cons, lookup_insert_Some. destruct (decide (x = azp)) as [->|]; intuition congruence. }
  rewrite H, lookup_singleton_Some. intuition congruence.
Qed.

(** The credentials a handler accepts for a request, and the request it passes on. *)
Inductive authenticated (token : string) (v : option OIDCValidator) (r : request) : request -> Prop :=
  | auth_bypass : bypassAuth (rq_Path r) = true -> authenticated token v r r
  | auth_plain : v = None -> rq_Authorization r = "Bearer " +:+ token -> authenticated token v r r
  | auth_oidc o jwt d :
      v = Some o -> rq_Authorization r = "Bearer " +:+ jwt -> looksLikeJWT jwt = true ->
      ValidateToken o jwt = Ok d -> authenticated token v r (WithDeployer r d)
  | auth_bearer o :
      v = Some o -> rq_Authorization r = "Bearer " +:+ token ->
      authenticated token v r (WithDeployer r BearerDeployer).

Lemma bearer_header h : HasPrefix h "Bearer " = true -> h = "Bearer " +:+ TrimPrefix h "Bearer ".
Proof. intros [r ->]%HasPrefix_true. by rewrite TrimPrefix_app. Qed.

Lemma Middleware_cases token url next r :
  (exists msg, Middleware token url next r = writeUnauthorized url msg) \/
  (authenticated token None r r /\ Middleware token url next r = next r).
Proof.
  unfold Middleware. destruct (bypassAuth (rq_Path r)) eqn:Hb; [right; split; [by constructor|done]|].
  destruct (String.eqb (rq_Authorization r) ""); [by left; eexists|].
  destruct (HasPrefix (rq_Authorization r) "Bearer ") eqn:Hp; simpl; [|by left; eexists].
  destruct (String.eqb_spec (TrimPrefix (rq_Authorization r) "Bearer ") token) as [<-|]; simpl;
    [|by left; eexists].
  right. split; [|done]. apply auth_plain; [done|]. by apply bearer_header.
Qed.
Lemma DualAuthMiddleware_cases token v url next r :
  (exists msg, DualAuthMiddleware token v url next r = writeUnauthorized url msg) \/
  exists r', authenticated token v r r' /\ DualAuthMiddleware token v url next r = next r'.
Proof.
  destruct v as [o|].
  2: { destruct (Middleware_cases token url next r) as [[msg H]|[Ha H]];
         simpl; [left; by exists msg|right; by eexists]. }
  unfold DualAuthMiddleware.
  destruct (bypassAuth (rq_Path r)) eqn:Hb; [right; eexists; split; [by constructor|done]|].
  destruct (String.eqb (rq_Authorization r) ""); [by left; eexists|].
  destruct (HasPrefix (rq_Authorization r) "Bearer ") eqn:Hp; simpl; [|by left; eexists].
  apply bearer_header in Hp. generalize dependent (TrimPrefix (rq_Authorization r) "Bearer "); intros p Hp.
  assert ((if negb (String.eqb p token) then writeUnauthorized url "invalid token"
           else next (WithDeployer r BearerDeployer)) = writeUnauthorized url "invalid token" \/
          p = token) as Hf.
  { destruct (String.eqb_spec p token); [by right|by left]. }
  destruct (looksLikeJWT p) eqn:Hj; [destruct (ValidateToken o p) eqn:Hv|].
  - right. eexists; split; [by eapply auth_oidc|done].
  - destruct Hf as [->| ->]; [by left; eexists|rewrite String.eqb_refl; right].
    eexists; split; [by eapply auth_bearer|done].
  - destruct Hf as [->| ->]; [by left; eexists|rewrite String.eqb_refl; right].
    eexists; split; [by eapply auth_bearer|done].
Qed.

Lemma DualAuthMiddleware_exempt token v url next r :
  bypassAuth (rq_Path r) = true -> DualAuthMiddleware token v url next r = next r.
Proof. intros Hb. unfold DualAuthMiddleware, Middleware. by destruct v; rewrite Hb. Qed.
(** The next handler is called on the path of the request. *)
Lemma DualAuthMiddleware_ext token v url next next' r :
  (forall r', rq_Path r' = rq_Path r -> next r' = next' r') ->
  DualAuthMiddleware token v url next r = DualAuthMiddleware token v url next' r.
Proof.
  intros Hn. unfold DualAuthMiddleware, Middleware. destruct v as [v|]; cbv zeta; rewrite (Hn r eq_refl); [|done].
  rewrite (Hn (WithDeployer r BearerDeployer) eq_refl).
  destruct (ValidateToken v _) as [d|]; [|done]. by rewrite (Hn (WithDeployer r d) eq_refl).
Qed.
End middleware.

(** ** Properties *)

Section properties.
Context `{U : Unicode} `{L : OidcLib}.

(** Nothing gets past the middleware unauthenticated: for every next
    handler, the response either is a 401 or is the next handler's on a request
    that is authenticated - an exempt path, the configured bearer token, or a
    token OIDC validation accepts - and that carries exactly the identity
    established. *)
Theorem DualAuthMiddleware_sound token v url next r :
  rs_status (DualAuthMiddleware token v url next r) = 401%Z \/
  exists r', authenticated token v r r' /\ DualAuthMiddleware token v url next r = next r'.
Proof. destruct (DualAuthMiddleware_cases token v url next r) as [[msg ->]|H]; [by left|by right]. Qed.

(** With OIDC configured, a request that presents the configured token is
    never refused: it goes on with the bearer identity, or with the OIDC
    identity when the token also validates as a JWT. *)
Theorem DualAuthMiddleware_bearer token o url next r :
  rq_Authorization r = "Bearer " +:+ token ->
  exists r', DualAuthMiddleware token (Some o) url next r = next r' /\
    (bypassAuth (rq_Path r) = false ->
     DeployerFromContext r' = Some BearerDeployer \/
     exists d, DeployerFromContext r' = Some d /\ ValidateToken o token = Ok d).
Proof.
  intros Ha. unfold DualAuthMiddleware. destruct (bypassAuth (rq_Path r)); [by exists r|].
  rewrite Ha, HasPrefix_app, TrimPrefix_app, String.eqb_refl.
  change (String.eqb ("Bearer " +:+ token) "") with false. cbn [negb].
  destruct (looksLikeJWT token); [destruct (ValidateToken o token) eqn:Hv|];
    eexists; (split; [done|]); intros _; simpl; eauto.
Qed.

(** C34: A validated OIDC identity has a non-empty subject, carries the email of
    claims issued by the validator's provider, and comes from the configured client
    or one of the trusted parties. *)
Theorem ValidateToken_sound cfg o jwt d :
  NewOIDCValidator cfg = Ok o -> ValidateToken o jwt = Ok d ->
  exists idToken claims,
    oidc_Verify (ov_provider o) jwt = Ok idToken /\ oidc_Claims idToken = Ok claims /\
    (kc_AZP claims = auth_ClientID cfg \/ kc_AZP claims ∈ auth_TrustedAZPs cfg) /\
    d_Email d = kc_Email claims /\ d_Subject d = oidc_Subject idToken /\ d_Subject d <> "" /\
    d_Provider d <> "".
Proof.
  unfold NewOIDCValidator, ValidateToken. intros Ho Hv.
  destruct (auth_Enabled cfg); [|done]. destruct (set (auth_IssuerURL cfg)); [|done].
  destruct (set (auth_ClientID cfg)); [|done]. destruct (oidc_NewProvider _) as [p|]; [|done].
  simpl in Ho. injection Ho as <-. simpl in *.
  destruct (oidc_Verify p jwt) as [t|]; [|done]. destruct (oidc_Claims t) as [cl|] eqn:Hc; [|done].
  destruct (trusted_azps cfg !! kc_AZP cl) as [[]|] eqn:Ht; simpl in Hv; try done.
  destruct (set (oidc_Subject t)) eqn:Hs; simpl in Hv; [|done]. injection Hv as <-.
  exists t, cl. rewrite trusted_azps_lookup in Ht. apply set_true in Hs. simpl.
  repeat split; try done. unfold determineProvider.
  destruct (set (kc_IdentityProvider cl)) eqn:Hi; [by apply set_true|done].
Qed.
End properties.

(** ** Witnesses *)

(** An issuer whose tokens are accepted when they are the text [a.b.c]. *)
Definition toy_oidc : OidcLib :=
  {| oidc_Provider := string; oidc_IDToken := string;
     oidc_NewProvider := Ok;
     oidc_Verify := fun _ t => if String.eqb t "a.b.c" then Ok t else Err (ErrorNew "bad");
     oidc_Subject := fun _ => "sub-1";
     oidc_Claims := fun _ =>
       Ok {| kc_Email := "ada@x"; kc_Name := "Ada"; kc_PreferredUser := ""; kc_AZP := "web";
             kc_IdentityProvider := ""; kc_Groups := [] |} |}.
Definition toy_auth_config : AuthConfig :=
  {| auth_IssuerURL := "https://idp"; auth_ClientID := "mcp"; auth_ClientSecret := "";
     auth_TrustedAZPs := ["web"]; auth_Enabled := true |}.
Definition toy_validator : OIDCValidator (L := toy_oidc) :=
  {| ov_trustedAZPs := trusted_azps toy_auth_config; ov_provider := "https://idp" : oidc_Provider (OidcLib := toy_oidc);
     ov_clientID := "mcp" |}.
Definition toy_next (r : request) : http_response :=
  {| rs_status := 200; rs_headers := ∅;
     rs_body := match DeployerFromContext r with Some d => d_Provider d | None => "" end |}.

Lemma DualAuthMiddleware_bearer_witness :
  exists r', DualAuthMiddleware (U := ascii_tables) (L := toy_oidc) "s3cret" (Some toy_validator) "" toy_next
    {| rq_Method := "POST"; rq_Path := "/mcp"; rq_Authorization := "Bearer s3cret"; rq_deployer := None |} = toy_next r' /\
    DeployerFromContext r' = Some BearerDeployer.
Proof.
  destruct (DualAuthMiddleware_bearer (U := ascii_tables) (L := toy_oidc) "s3cret" toy_validator "" toy_next
    {| rq_Method := "POST"; rq_Path := "/mcp"; rq_Authorization := "Bearer s3cret"; rq_deployer := None |} eq_refl)
    as (r' & Hr & Hd).
  exists r'. split; [exact Hr|]. destruct (Hd eq_refl) as [H|(d & _ & H)]; [exact H|discriminate H].
Defined.

Lemma ValidateToken_sound_witness :
  NewOIDCValidator (L := toy_oidc) toy_auth_config = Ok toy_validator /\
  exists d, ValidateToken (L := toy_oidc) toy_validator "a.b.c" = Ok d /\ d_Subject d <> "".
Proof.
  split; [reflexivity|].
  assert (exists d, ValidateToken (L := toy_oidc) toy_validator "a.b.c" = Ok d) as [d Hd]
    by (eexists; vm_compute; reflexivity).
  exists d. split; [exact Hd|].
  destruct (ValidateToken_sound (L := toy_oidc) toy_auth_config toy_validator "a.b.c" d eq_refl Hd)
    as (_ & _ & _ & _ & _ & _ & _ & Hs & _).
  exact Hs.
Defined.
