(* ===== verification/Evaluator.v ===== *)
(** * The authorization evaluator (pkg/authz/evaluator.go)

    [CheckEnclave], [CheckTentacle] and [checkBits] as they are written, and an
    abstract specification of the decision: a caller is classified as a
    principal, and a principal may act when its triple of mode bits says so. *)

From S2P Require Import Prelude GoStrings Mode Annotations Auth.
#[local] Open Scope string_scope.
#[local] Open Scope Z_scope.

(** An [int]; the three named constants come from [iota]. *)
Abbreviation Action := Z (only parsing).
Definition Read : Action := 0.
Definition Write : Action := 1.
Definition Execute : Action := 2.

Record Decision := { dec_Reason : string; dec_Allowed : bool }.

Definition Allow : Decision := {| dec_Allowed := true; dec_Reason := "allowed" |}.
Definition Deny (reason : string) : Decision := {| dec_Allowed := false; dec_Reason := reason |}.

Record Evaluator := { ev_DefaultMode : Mode; ev_Enabled : bool }.

Definition NewEvaluator (defaultMode : Mode) : Evaluator :=
  {| ev_DefaultMode := defaultMode; ev_Enabled := true |}.

Section evaluator.
Context `{U : Unicode}.

Definition checkBits (mode : Mode) (action : Action) (isOwner isGroup : bool) : Decision :=
  let allowed :=
    if isOwner then
      if action =? Read then OwnerRead mode
      else if action =? Write then OwnerWrite mode
      else if action =? Execute then OwnerExecute mode else false
    else if isGroup then
      if action =? Read then GroupRead mode
      else if action =? Write then GroupWrite mode
      else if action =? Execute then GroupExecute mode else false
    else
      if action =? Read then OtherRead mode
      else if action =? Write then OtherWrite mode
      else if action =? Execute then OtherExecute mode else false in
  if allowed then Allow
  else
    let principal := if isOwner then "owner" else if isGroup then "member" else "other" in
    let actionStr :=
      if action =? Read then "read"
      else if action =? Write then "write"
      else if action =? Execute then "execute"
      else "unknown" in
    Deny (Sprintf "permission denied: %s lacks %s access" [principal; actionStr]).

(** A nil [*Evaluator] or [*DeployerInfo] is [None]. *)
Definition CheckEnclave (e : option Evaluator) (deployer : option DeployerInfo)
    (enclaveAnn : annotations) (action : Action) : Decision :=
  match e with
  | None => Allow
  | Some ev =>
    if negb (ev_Enabled ev) then Allow
    else
    match deployer with
    | None => Deny "no deployer identity in request context"
    | Some d =>
      if String.eqb (d_Provider d) "bearer-token" then Allow
      else if String.eqb (ann_get enclaveAnn AnnotationEnclave) "" then Deny "namespace is not an enclave"
      else
        let mode := resolve_mode DefaultEnclaveMode enclaveAnn in
        let deployerEmail := ToLower (d_Email d) in
        let enclaveOwner := ToLower (ann_get enclaveAnn AnnotationEnclaveOwner) in
        if negb (String.eqb enclaveOwner "") && String.eqb deployerEmail enclaveOwner then Allow
        else
          let members := ParseMembers (ann_get enclaveAnn AnnotationEnclaveMembers) in
          if existsb (fun m => String.eqb m deployerEmail) members
          then checkBits mode action false true
          else checkBits mode action false false
    end
  end.

Definition Check (e : option Evaluator) (deployer : option DeployerInfo)
    (ann : annotations) (action : Action) : Decision :=
  CheckEnclave e deployer ann action.

Definition CheckTentacle (e : option Evaluator) (deployer : option DeployerInfo)
    (enclaveAnn tentacleAnn : annotations) (action : Action) : Decision :=
  match e with
  | None => Allow
  | Some ev =>
    if negb (ev_Enabled ev) then Allow
    else
    match deployer with
    | None => Deny "no deployer identity in request context"
    | Some d =>
      if String.eqb (d_Provider d) "bearer-token" then Allow
      else
        let deployerEmail := ToLower (d_Email d) in
        let enclaveOwner := ToLower (ann_get enclaveAnn AnnotationEnclaveOwner) in
        if negb (String.eqb enclaveOwner "") && String.eqb deployerEmail enclaveOwner then Allow
        else
          let dec := CheckEnclave e deployer enclaveAnn action in
          if negb (dec_Allowed dec) then dec
          else
            let mode := resolve_mode DefaultEnclaveMode tentacleAnn in
            let tentacleOwner := ToLower (ann_get tentacleAnn AnnotationOwner) in
            if negb (String.eqb tentacleOwner "") && String.eqb deployerEmail tentacleOwner
            then checkBits mode action true false
            else
              let members := ParseMembers (ann_get enclaveAnn AnnotationEnclaveMembers) in
              if existsb (fun m => String.eqb m deployerEmail) members
              then checkBits mode action false true
              else checkBits mode action false false
    end
  end.

(** ** The specification *)

(** Who a caller is for an enclave, and for a tentacle of it. *)
Inductive principal := PMember | POther.
Inductive tentacle_principal := TOwner | TEnclave (p : principal).

Definition is_operator (d : DeployerInfo) : Prop := d_Provider d = "bearer-token".

(** The caller is the owner an annotation names, whatever the letter case. *)
Definition named_by (ann : annotations) (key : string) (d : DeployerInfo) : Prop :=
  ToLower (ann_get ann key) <> "" /\ ToLower (d_Email d) = ToLower (ann_get ann key).
Definition is_enclave_owner (ann : annotations) (d : DeployerInfo) : Prop :=
  named_by ann AnnotationEnclaveOwner d.
Definition is_member (ann : annotations) (d : DeployerInfo) : Prop :=
  ToLower (d_Email d) ∈ ei_Members (ReadEnclaveInfo ann).

#[export] Instance is_operator_dec d : base.Decision (is_operator d).
Proof. unfold is_operator. apply _. Defined.
#[export] Instance named_by_dec ann key d : base.Decision (named_by ann key d).
Proof. unfold named_by. apply _. Defined.
#[export] Instance is_enclave_owner_dec ann d : base.Decision (is_enclave_owner ann d).
Proof. unfold is_enclave_owner. apply _. Defined.
#[export] Instance is_member_dec ann d : base.Decision (is_member ann d).
Proof. unfold is_member. apply _. Defined.
#[global] Typeclasses Opaque is_operator named_by is_enclave_owner is_member.

Definition enclave_principal (ann : annotations) (d : DeployerInfo) : principal :=
  if bool_decide (is_member ann d) then PMember else POther.
Definition tentacle_principal_of (ann tann : annotations) (d : DeployerInfo) : tentacle_principal :=
  if bool_decide (named_by tann AnnotationOwner d) then TOwner else TEnclave (enclave_principal ann d).

(** The position of an action's bit in a triple: r, w, x are bits 2, 1, 0. *)
Definition action_bit (action : Action) : option Z :=
  if action =? Read then Some 2
  else if action =? Write then Some 1
  else if action =? Execute then Some 0
  else None.

(** Bit [action] of the triple that starts at bit [base]. *)
Definition triple_allows (mode : Mode) (base : Z) (action : Action) : bool :=
  match action_bit action with
  | Some i => Z.testbit mode (base + i)
  | None => false
  end.

Definition principal_base (p : principal) : Z :=
  match p with
  | PMember => 3
  | POther => 0
  end.
Definition tentacle_principal_base (p : tentacle_principal) : Z :=
  match p with
  | TOwner => 6
  | TEnclave p => principal_base p
  end.

Definition enclave_allows (d : DeployerInfo) (ann : annotations) (action : Action) : Prop :=
  is_operator d \/
  (ann_get ann AnnotationEnclave <> "" /\
   (is_enclave_owner ann d \/
    triple_allows (resolve_mode DefaultEnclaveMode ann) (principal_base (enclave_principal ann d)) action = true)).

Definition tentacle_allows (d : DeployerInfo) (ann tann : annotations) (action : Action) : Prop :=
  is_operator d \/ is_enclave_owner ann d \/
  (enclave_allows d ann action /\
   triple_allows (resolve_mode DefaultEnclaveMode tann)
     (tentacle_principal_base (tentacle_principal_of ann tann d)) action = true).

(** ** Lemmas *)

Lemma has_bit_testbit m i : 0 <= i -> has_bit m (Z.shiftl 1 i) = Z.testbit m i.
Proof.
  intros Hi. unfold has_bit. rewrite Z.shiftl_1_l.
  destruct (Z.testbit m i) eqn:E.
  - apply negb_true_iff, Z.eqb_neq. intros H. apply (f_equal (fun z => Z.testbit z i)) in H.
    rewrite Z.land_spec, E, Z.pow2_bits_true, Z.bits_0 in H by done. done.
  - apply negb_false_iff, Z.eqb_eq, Z.bits_inj'. intros n Hn. rewrite Z.land_spec, Z.bits_0.
    destruct (decide (n = i)) as [->|]; [by rewrite E|].
    by rewrite Z.pow2_bits_false, andb_false_r by done.
Qed.

Lemma checkBits_allowed mode action isOwner isGroup :
  dec_Allowed (checkBits mode action isOwner isGroup)
  = triple_allows mode (if isOwner then 6 else if isGroup then 3 else 0) action.
Proof.
  unfold checkBits, triple_allows, action_bit, OwnerRead, OwnerWrite, OwnerExecute, GroupRead,
    GroupWrite, GroupExecute, OtherRead, OtherWrite, OtherExecute, ModeOwnerRead, ModeOwnerWrite,
    ModeOwnerExecute, ModeGroupRead, ModeGroupWrite, ModeGroupExecute, ModeOtherRead,
    ModeOtherWrite, ModeOtherExecute.
  rewrite !has_bit_testbit by lia.
  destruct isOwner, isGroup, (action =? Read), (action =? Write), (action =? Execute);
    cbn -[Sprintf Z.testbit]; try done;
    match goal with
    | |- dec_Allowed ?x = _ =>
        match x with context [if ?b then _ else _] => change (dec_Allowed x = b); by destruct b end
    end.
Qed.

Lemma checkBits_reason mode action isOwner isGroup :
  dec_Allowed (checkBits mode action isOwner isGroup) = true ->
  checkBits mode action isOwner isGroup = Allow.
Proof. unfold checkBits. by case_match. Qed.

Lemma owner_test ann key d :
  negb (String.eqb (ToLower (ann_get ann key)) "")
  && String.eqb (ToLower (d_Email d)) (ToLower (ann_get ann key)) = true <-> named_by ann key d.
Proof.
  unfold named_by. by rewrite andb_true_iff, negb_true_iff, String.eqb_neq, String.eqb_eq.
Qed.

Lemma owner_test_decide ann key d :
  negb (String.eqb (ToLower (ann_get ann key)) "")
  && String.eqb (ToLower (d_Email d)) (ToLower (ann_get ann key)) = bool_decide (named_by ann key d).
Proof.
  apply eq_true_iff_eq. rewrite owner_test. symmetry. apply bool_decide_eq_true.
Qed.

Lemma member_test_decide ann d :
  existsb (fun m => String.eqb m (ToLower (d_Email d))) (ParseMembers (ann_get ann AnnotationEnclaveMembers))
  = bool_decide (is_member ann d).
Proof.
  apply eq_true_iff_eq. rewrite bool_decide_eq_true, existsb_In. unfold is_member. simpl. split.
  - by intros (x & Hx & <-%String.eqb_eq).
  - intros H. eexists. split; [exact H|]. apply String.eqb_refl.
Qed.

Lemma CheckEnclave_enabled ev d ann action :
  ev_Enabled ev = true ->
  dec_Allowed (CheckEnclave (Some ev) (Some d) ann action) = true <-> enclave_allows d ann action.
Proof.
  intros He. unfold CheckEnclave, enclave_allows, is_enclave_owner, is_operator. rewrite He. cbn [negb].
  destruct (String.eqb_spec (d_Provider d) "bearer-token") as [Hp|Hp]; [split; [intros _; by left|done]|].
  destruct (String.eqb_spec (ann_get ann AnnotationEnclave) "") as [Hn|Hn].
  { split; [done|]. by intros [?|[? _]]. }
  rewrite owner_test_decide, member_test_decide.
  destruct (bool_decide_reflect (named_by ann AnnotationEnclaveOwner d)) as [Ho|Ho].
  { split; [|done]. intros _. right. by split; [|left]. }
  assert (dec_Allowed (if bool_decide (is_member ann d)
            then checkBits (resolve_mode DefaultEnclaveMode ann) action false true
            else checkBits (resolve_mode DefaultEnclaveMode ann) action false false)
          = triple_allows (resolve_mode DefaultEnclaveMode ann)
              (principal_base (enclave_principal ann d)) action) as Hb.
  { unfold enclave_principal. destruct (bool_decide (is_member ann d)); by rewrite checkBits_allowed. }
  cbn zeta. rewrite Hb. tauto.
Qed.

Lemma CheckTentacle_enabled ev d ann tann action :
  ev_Enabled ev = true ->
  dec_Allowed (CheckTentacle (Some ev) (Some d) ann tann action) = true <->
  tentacle_allows d ann tann action.
Proof.
  intros He. pose proof (CheckEnclave_enabled ev d ann action He) as Hc.
  unfold CheckTentacle, tentacle_allows. rewrite He. cbn [negb]. revert Hc.
  generalize (CheckEnclave (Some ev) (Some d) ann action) as dec. intros dec Hc.
  unfold is_operator at 1. unfold is_enclave_owner at 1.
  destruct (String.eqb_spec (d_Provider d) "bearer-token") as [Hp|Hp]; [split; [intros _; by left|done]|].
  rewrite !owner_test_decide, member_test_decide.
  destruct (bool_decide_reflect (named_by ann AnnotationEnclaveOwner d)) as [Ho|Ho].
  { split; [|done]. intros _. by right; left. }
  cbn zeta. rewrite <- Hc. destruct (dec_Allowed dec) eqn:Hd; cbn [negb].
  2: { rewrite Hd. intuition congruence. }
  unfold tentacle_principal_of, enclave_principal.
  destruct (bool_decide (named_by tann AnnotationOwner d)); [|destruct (bool_decide (is_member ann d))];
    rewrite checkBits_allowed; cbn [tentacle_principal_base principal_base]; tauto.
Qed.

End evaluator.

(** ** Properties *)

Section properties.
Context `{U : Unicode}.

(** What every check answers before it looks at annotations: an absent or
    disabled evaluator allows, an unidentified caller is denied. *)
Definition decides (e : option Evaluator) (deployer : option DeployerInfo)
    (allows : DeployerInfo -> Prop) : Prop :=
  match e with
  | Some ev =>
      if ev_Enabled ev then match deployer with Some d => allows d | None => False end else True
  | None => True
  end.

(** [CheckEnclave] implements its specification: apart from an absent or
    disabled evaluator, the caller is allowed exactly when it is the platform
    operator, or the namespace is an enclave and the caller either owns it or is
    a principal (member, other) whose bit for the action is set in the mode. *)
Theorem CheckEnclave_spec e deployer ann action :
  dec_Allowed (CheckEnclave e deployer ann action) = true <->
  decides e deployer (fun d => enclave_allows d ann action).
Proof.
  unfold decides. destruct e as [ev|]; [|done]. destruct (ev_Enabled ev) eqn:He.
  - destruct deployer as [d|]; [by apply CheckEnclave_enabled|]. simpl. rewrite He. by split.
  - simpl. by rewrite He.
Qed.

(** C1: [CheckTentacle] implements its specification: the caller is the
    operator, or owns the enclave, or is allowed on the enclave and its
    principal for the tentacle (tentacle owner, member, other) has the bit for
    the action in the tentacle's mode. *)
Theorem CheckTentacle_spec e deployer ann tann action :
  dec_Allowed (CheckTentacle e deployer ann tann action) = true <->
  decides e deployer (fun d => tentacle_allows d ann tann action).
Proof.
  unfold decides. destruct e as [ev|]; [|done]. destruct (ev_Enabled ev) eqn:He.
  - destruct deployer as [d|]; [by apply CheckTentacle_enabled|]. simpl. rewrite He. by split.
  - simpl. by rewrite He.
Qed.

(** Tentacle access never exceeds enclave access: in an enclave namespace,
    whoever may act on some tentacle may perform the same action on the enclave. *)
Theorem CheckTentacle_within_enclave e deployer ann tann action :
  ann_get ann AnnotationEnclave <> "" ->
  dec_Allowed (CheckTentacle e deployer ann tann action) = true ->
  dec_Allowed (CheckEnclave e deployer ann action) = true.
Proof.
  intros Hn. destruct e as [ev|]; [|done]. destruct (ev_Enabled ev) eqn:He.
  2: { by simpl; rewrite He. }
  destruct deployer as [d|]; [|by simpl; rewrite He].
  rewrite CheckTentacle_enabled, CheckEnclave_enabled by done.
  unfold tentacle_allows, enclave_allows. tauto.
Qed.

(** The [DefaultMode] an evaluator is created with has no influence on any
    decision: two evaluators that agree on [Enabled] decide alike. *)
Theorem DefaultMode_unused m1 m2 b deployer ann tann action :
  let e1 := Some {| ev_DefaultMode := m1; ev_Enabled := b |} in
  let e2 := Some {| ev_DefaultMode := m2; ev_Enabled := b |} in
  CheckEnclave e1 deployer ann action = CheckEnclave e2 deployer ann action /\
  CheckTentacle e1 deployer ann tann action = CheckTentacle e2 deployer ann tann action.
Proof. by destruct b. Qed.

(** The enclave owner named on a namespace that is not an enclave is refused
    there by [CheckEnclave], and let through by [CheckTentacle]. *)
Lemma CheckTentacle_owner_not_enclave ev d ann tann action :
  ev_Enabled ev = true -> d_Provider d <> "bearer-token" ->
  ann_get ann AnnotationEnclave = "" -> is_enclave_owner ann d ->
  CheckTentacle (Some ev) (Some d) ann tann action = Allow /\
  CheckEnclave (Some ev) (Some d) ann action = Deny "namespace is not an enclave".
Proof.
  intros He Hp Hn Ho. unfold CheckTentacle, CheckEnclave. rewrite He, Hn. cbn [negb].
  rewrite (proj2 (String.eqb_neq _ _) Hp), owner_test_decide, bool_decide_eq_true_2 by done. done.
Qed.
End properties.

(** ** Witnesses *)

Definition bob : DeployerInfo :=
  {| d_Email := "Bob@x.org"; d_DisplayName := ""; d_Subject := "s"; d_Provider := "keycloak";
     d_AgentType := ""; d_SessionID := "" |}.

Lemma CheckTentacle_within_enclave_witness :
  dec_Allowed (CheckTentacle (U := ascii_tables) (Some (NewEvaluator DefaultMode)) (Some bob)
                 ann_example ∅ Read) = true /\
  dec_Allowed (CheckEnclave (U := ascii_tables) (Some (NewEvaluator DefaultMode)) (Some bob)
                 ann_example Read) = true.
Proof.
  split; [vm_compute; reflexivity|].
  apply (CheckTentacle_within_enclave (U := ascii_tables) _ _ _ ∅);
    [vm_compute; discriminate|vm_compute; reflexivity].
Defined.
