(* ===== verification/Sha256.v ===== *)
(** * SHA-256 (crypto/sha256 of Go's standard library)

    The hash the identity compiler shortens long identifiers with, executable
    so that concrete identifiers can be evaluated.  Words are 32-bit [Z]s. *)

From S2P Require Import Prelude GoStrings.
#[local] Open Scope string_scope.
#[local] Open Scope Z_scope.

Definition mask32 : Z := 2 ^ 32 - 1.
Definition add32 (a b : Z) : Z := Z.land (a + b) mask32.
Definition not32 (a : Z) : Z := Z.lxor a mask32.
Definition rotr (n x : Z) : Z :=
  Z.lor (Z.shiftr x n) (Z.land (Z.shiftl x (32 - n)) mask32).

(** The constants are not listed but computed from their definition: the first 32
    fractional bits of the cube roots of the first 64 primes, and of the square
    roots of the first 8.  [root k bits n] is the largest number of [bits] bits
    whose [k]-th power is at most [n], found from the top bit down. *)
Definition root (k : Z) (bits : nat) (n : Z) : Z :=
  foldl (fun r i => let r' := r + 2 ^ Z.of_nat i in if r' ^ k <=? n then r' else r) 0 (rev (seq 0 bits)).
Definition frac32 (k p : Z) : Z := Z.land (root k 40 (p * 2 ^ (32 * k))) mask32.
Definition is_prime (n : nat) : bool := forallb (fun d => negb (Nat.eqb (Nat.modulo n d) 0)) (seq 2 (n - 2)).
Definition primes (below : nat) : list Z := Z.of_nat <$> List.filter is_prime (seq 2 (below - 2)).

Definition round_constants : list Z := Eval vm_compute in frac32 3 <$> primes 312.
Definition initial_state : list Z := Eval vm_compute in frac32 2 <$> primes 20.

(** The message bytes, a one bit, zeros, and the bit length in eight bytes. *)
Definition be_bytes (n : nat) (z : Z) : list Z :=
  (fun i => Z.land (Z.shiftr z (8 * Z.of_nat i)) 255) <$> rev (seq 0 n).
Definition pad (msg : list Z) : list Z :=
  let len := length msg in
  let zeros := Nat.modulo (119 - Nat.modulo len 64) 64 in
  (msg ++ [0x80] ++ replicate zeros 0 ++ be_bytes 8 (8 * Z.of_nat len))%list.

Definition word_of (b : list Z) : Z := foldl (fun acc x => 256 * acc + x) 0 b.

(** Cut a list into groups of [n]; one group per unit of fuel. *)
Fixpoint groups {A} (fuel n : nat) (l : list A) : list (list A) :=
  match fuel, l with
  | O, _ | _, [] => []
  | S fuel', _ => take n l :: groups fuel' n (drop n l)
  end.

(** The message schedule, newest word first. *)
Fixpoint extend (n : nat) (w : list Z) : list Z :=
  match n with
  | O => w
  | S n' =>
      let at_ i := nth i w 0 in
      let s0 := Z.lxor (Z.lxor (rotr 7 (at_ 14%nat)) (rotr 18 (at_ 14%nat))) (Z.shiftr (at_ 14%nat) 3) in
      let s1 := Z.lxor (Z.lxor (rotr 17 (at_ 1%nat)) (rotr 19 (at_ 1%nat))) (Z.shiftr (at_ 1%nat) 10) in
      extend n' (add32 (add32 (at_ 15%nat) s0) (add32 (at_ 6%nat) s1) :: w)
  end.
Definition schedule (block : list Z) : list Z :=
  rev (extend 48 (rev (word_of <$> groups 16 4 block))).

Definition round (st : list Z) (kw : Z * Z) : list Z :=
  match st with
  | [a; b; c; d; e; f; g; h] =>
      let s1 := Z.lxor (Z.lxor (rotr 6 e) (rotr 11 e)) (rotr 25 e) in
      let ch := Z.lxor (Z.land e f) (Z.land (not32 e) g) in
      let t1 := add32 (add32 (add32 h s1) (add32 ch kw.1)) kw.2 in
      let s0 := Z.lxor (Z.lxor (rotr 2 a) (rotr 13 a)) (rotr 22 a) in
      let maj := Z.lxor (Z.lxor (Z.land a b) (Z.land a c)) (Z.land b c) in
      [add32 t1 (add32 s0 maj); a; b; c; add32 d t1; e; f; g]
  | _ => st
  end.
Definition compress (st block : list Z) : list Z :=
  zip_with add32 st (foldl round st (zip round_constants (schedule block))).

Definition Sum256_bytes (msg : list Z) : list Z :=
  let padded := pad msg in
  mjoin (be_bytes 4 <$> foldl compress initial_state (groups (length padded) 64 padded)).

Definition bytes_to_Z (s : string) : list Z :=
  (fun c => Z.of_nat (code c)) <$> list_ascii_of_string s.
(** [sha256.Sum256([]byte(s))] *)
Definition Sum256 (s : string) : list Z := Sum256_bytes (bytes_to_Z s).

(** [fmt.Sprintf("%x", b)] on a byte slice. *)
Definition hex_byte (b : Z) : string :=
  String (hex_digit (Z.to_nat (b / 16) mod 16)) (String (hex_digit (Z.to_nat b mod 16)) "").
Fixpoint hex (bs : list Z) : string :=
  match bs with
  | [] => ""
  | b :: bs' => hex_byte b +:+ hex bs'
  end.

(** The first four bytes of the hash in hexadecimal, as the identity compiler uses them. *)
Definition short_hash (s : string) : string := hex (take 4 (Sum256 s)).

Example Sum256_abc :
  hex (Sum256 "abc") = "ba7816bf8f01cfea414140de5dae2223b00361a396177a9cb410ff61f20015ad"%string.
Proof. vm_compute. reflexivity. Qed.

Example Sum256_empty :
  hex (Sum256 "") = "e3b0c44298fc1c149afbf4c8996fb92427ae41e4649b934ca495991b7852b855"%string.
Proof. vm_compute. reflexivity. Qed.

(** ** Shape of the result *)

Lemma be_bytes_length n z : length (be_bytes n z) = n.
Proof. unfold be_bytes. by rewrite length_fmap, length_rev, length_seq. Qed.

Lemma round_length st kw : length (round st kw) = length st.
Proof. destruct st as [|a [|b [|c [|d [|e [|f [|g [|h [|]]]]]]]]]; done. Qed.

Lemma foldl_length {A} (f : list Z -> A -> list Z) l st :
  (forall st x, length (f st x) = length st) -> length (foldl f st l) = length st.
Proof. intros Hf. revert st. induction l; intros st; simpl; [done|]. by rewrite IHl, Hf. Qed.

Lemma compress_length st block : length (compress st block) = length st.
Proof.
  unfold compress. rewrite length_zip_with, foldl_length by apply round_length. lia.
Qed.

Lemma Sum256_length s : length (Sum256 s) = 32%nat.
Proof.
  unfold Sum256, Sum256_bytes. cbn zeta.
  generalize (groups (length (pad (bytes_to_Z s))) 64 (pad (bytes_to_Z s))) as blocks.
  intros blocks. pose proof (foldl_length compress blocks initial_state compress_length) as Hl.
  revert Hl. generalize (foldl compress initial_state blocks) as st. clear. intros st Hl.
  destruct st as [|a [|b [|c [|d [|e [|f [|g [|h [|]]]]]]]]]; try discriminate Hl. reflexivity.
Qed.

Lemma hex_length bs : String.length (hex bs) = (2 * length bs)%nat.
Proof. induction bs as [|b bs IH]; [done|]. cbn [hex]. rewrite str_length_app, IH. simpl. lia. Qed.

Lemma short_hash_length s : String.length (short_hash s) = 8%nat.
Proof. unfold short_hash. rewrite hex_length, length_take, Sum256_length. done. Qed.

(** [0-9a-f] *)
Definition is_hex (c : ascii) : bool := is_digit c || between "a" "f" c.

Lemma hex_digit_ok n : (n < 16)%nat -> is_hex (hex_digit n) = true.
Proof. intros Hn. do 16 (destruct n as [|n]; [reflexivity|]). lia. Qed.

Lemma hex_ok bs : str_forallb is_hex (hex bs) = true.
Proof.
  induction bs as [|b bs IH]; [done|]. cbn [hex]. rewrite str_forallb_app, IH.
  unfold hex_byte. cbn [str_forallb].
  by rewrite !hex_digit_ok by (apply Nat.mod_upper_bound; lia).
Qed.
