(* ===== verification/Identity.v ===== *)
(** * Identities (pkg/exoskeleton/identity.go)

    The deterministic names - Postgres roles, buckets, NATS users and subjects,
    SPIFFE principals - a (namespace, workflow) pair or an enclave is known by
    in the backing services. *)

From S2P Require Import Prelude GoStrings Regex Annotations ExoConfig Sha256.
#[local] Open Scope string_scope.
#[local] Open Scope nat_scope.

Record Identity := {
  id_Namespace : string;
  id_Workflow : string;
  id_Principal : string;
  id_PgRole : string;
  id_PgSchema : string;
  id_NATSUser : string;
  id_NATSPrefix : string;
  id_S3Prefix : string;
  id_S3User : string;
  id_S3Policy : string;
}.

Record EnclaveIdentity := {
  eid_Enclave : string;
  eid_PgDB : string;
  eid_S3Bucket : string;
  eid_NATSAcct : string;
}.

Record TentacleIdentity := {
  tid_Enclave : EnclaveIdentity;
  tid_Tentacle : string;
  tid_PgSchema : string;
  tid_S3Prefix : string;
  tid_NATSUser : string;
  tid_SpireSVID : string;
}.

Definition maxPgIdentLen : nat := 63.
Definition maxS3BucketLen : nat := 63.

Definition ErrEmptyNamespace : error := ErrorNew "namespace must not be empty".
Definition ErrEmptyWorkflow : error := ErrorNew "workflow must not be empty".
Definition ErrInvalidEnclaveName : error := ErrorNew "invalid enclave name".
Definition ErrEmptyEnclave : error := ErrorNew "enclave must not be empty".
Definition ErrEmptyTentacle : error := ErrorNew "tentacle must not be empty".

(** [a-z0-9_], the complement of [pgSafeRe]. *)
Definition pg_safe (c : ascii) : bool := is_lower c || is_digit c || Ascii.eqb c "_".

(** Shorten to [max] bytes with a hash suffix after [sep]. *)
Definition truncate_hash (max : nat) (sep : ascii) (raw : string) : string :=
  if String.length raw <=? max then raw
  else
    let suffix := String sep (short_hash raw) in
    str_take (max - String.length suffix) raw +:+ suffix.
Definition truncatePg (raw : string) : string := truncate_hash maxPgIdentLen "_" raw.
Definition truncateS3Bucket (raw : string) : string := truncate_hash maxS3BucketLen "-" raw.

Section identity.
Context `{U : Unicode}.

Definition replacePg (s : string) : string :=
  str_filter pg_safe (ToLower (ReplaceByte "-" "_" s)).

Definition sanitizePg (namespace workflow : string) : string :=
  truncatePg (Sprintf "tn_%s_%s" [replacePg namespace; replacePg workflow]).

Definition CompileIdentity (namespace workflow : string) : res Identity :=
  if String.eqb namespace "" then Err ErrEmptyNamespace
  else if String.eqb workflow "" then Err ErrEmptyWorkflow
  else
    let pgBase := sanitizePg namespace workflow in
    Ok {| id_Namespace := namespace; id_Workflow := workflow;
          id_Principal := Sprintf "spiffe://tentacular/ns/%s/tentacles/%s" [namespace; workflow];
          id_PgRole := pgBase; id_PgSchema := pgBase;
          id_NATSUser := Sprintf "tentacle.%s.%s" [namespace; workflow];
          id_NATSPrefix := Sprintf "tentacular.%s.%s.>" [namespace; workflow];
          id_S3Prefix := Sprintf "ns/%s/tentacles/%s/" [namespace; workflow];
          id_S3User := pgBase;
          id_S3Policy := truncatePg (Sprintf "tn_%s_%s_policy" [replacePg namespace; replacePg workflow]) |}.

(** The copy of [authz.ValidateEnclaveName] in this package; its pattern is the same. *)
Definition ValidateEnclaveName (name : string) : option error :=
  if String.eqb name "" then Some ErrEmptyEnclave
  else if negb (re_match dns1123LabelRe name)
       then Some (Errorf "%w: %q must match ^[a-z0-9]([a-z0-9-]{0,61}[a-z0-9])?$" [AErr ErrInvalidEnclaveName; AStr name])
  else if Contains name "."
       then Some (Errorf "%w: %q must not contain '.' (NATS safety)" [AErr ErrInvalidEnclaveName; AStr name])
  else None.

Definition CompileEnclaveIdentity (enclave : string) : res EnclaveIdentity :=
  match ValidateEnclaveName enclave with
  | Some err => Err err
  | None =>
      let pgDB := truncatePg ("tn_" +:+ replacePg enclave) in
      Ok {| eid_Enclave := enclave; eid_PgDB := pgDB;
            eid_S3Bucket := truncateS3Bucket ("tentacular-" +:+ enclave);
            eid_NATSAcct := "tentacular." +:+ enclave |}
  end.

Definition CompileTentacleIdentity (enclave tentacle : string) : res TentacleIdentity :=
  match CompileEnclaveIdentity enclave with
  | Err err => Err err
  | Ok enc =>
      if String.eqb tentacle "" then Err ErrEmptyTentacle
      else
        let pgSchema := truncatePg (Sprintf "tn_%s_%s" [replacePg enclave; replacePg tentacle]) in
        Ok {| tid_Enclave := enc; tid_Tentacle := tentacle; tid_PgSchema := pgSchema;
              tid_S3Prefix := Sprintf "tentacles/%s/" [tentacle];
              tid_NATSUser := Sprintf "tentacular.%s.%s" [enclave; tentacle];
              tid_SpireSVID := Sprintf "spiffe://tentacular/enclaves/%s/tentacles/%s" [enclave; tentacle] |}
  end.

(** ** Lemmas *)

Lemma sep_inj sep a b a' b' :
  no_byte sep a = true -> no_byte sep a' = true ->
  a +:+ String sep b = a' +:+ String sep b' -> a = a' /\ b = b'.
Proof.
  intros Ha Ha' He. assert (a = a') as <-.
  { pose proof (f_equal (fun s => Split s sep) He) as Hs. simpl in Hs.
    rewrite !Split_app in Hs by done. congruence. }
  split; [done|]. apply str_app_inj_l in He. congruence.
Qed.

Lemma replacePg_safe s : str_forallb pg_safe (replacePg s) = true.
Proof. apply str_forallb_filter. Qed.

Lemma truncate_hash_length max sep raw : 9 <= max -> String.length (truncate_hash max sep raw) <= max.
Proof.
  intros Hm. unfold truncate_hash. destruct (Nat.leb_spec (String.length raw) max); [done|].
  cbn [String.length]. rewrite str_length_app, str_length_take. cbn [String.length].
  rewrite short_hash_length. lia.
Qed.

Lemma str_forallb_take p n s : str_forallb p s = true -> str_forallb p (str_take n s) = true.
Proof.
  revert s. induction n as [|n IH]; intros [|c s]; simpl; try done.
  rewrite !andb_true_iff. intros [? ?]. auto.
Qed.

Lemma truncate_hash_chars (p : ascii -> bool) max sep raw :
  (forall c, is_hex c = true -> p c = true) -> p sep = true ->
  str_forallb p raw = true -> str_forallb p (truncate_hash max sep raw) = true.
Proof.
  intros Hhex Hsep Hraw. unfold truncate_hash. destruct (_ <=? _); [done|].
  rewrite str_forallb_app, str_forallb_take by done. cbn [str_forallb]. rewrite Hsep. simpl.
  unfold short_hash. eapply str_forallb_impl; [exact Hhex|apply hex_ok].
Qed.

(** The first [max - 9] bytes are kept. *)
Lemma truncate_hash_prefix max sep p r :
  String.length p + 9 <= max -> HasPrefix (truncate_hash max sep (p +:+ r)) p = true.
Proof.
  intros Hl. unfold truncate_hash. destruct (_ <=? _); [apply HasPrefix_app|].
  cbn [String.length]. rewrite short_hash_length.
  apply HasPrefix_true. exists (str_take (max - 9 - String.length p) r +:+ String sep (short_hash (p +:+ r))).
  rewrite <- str_app_assoc. f_equal.
  assert (forall n q, str_take (String.length q + n) (q +:+ r) = q +:+ str_take n r) as Ht.
  { intros n q. induction q as [|c q IH]; [done|]. simpl. by rewrite IH. }
  rewrite <- Ht. f_equal. lia.
Qed.

Lemma hex_pg_safe c : is_hex c = true -> pg_safe c = true.
Proof. destruct c as [[] [] [] [] [] [] [] []]; intros H; try discriminate H; reflexivity. Qed.

(** An identifier Postgres and the object store accept unquoted. *)
Definition pg_identifier (s : string) : Prop :=
  HasPrefix s "tn_" = true /\ String.length s <= maxPgIdentLen /\ str_forallb pg_safe s = true.

Lemma truncatePg_identifier r : str_forallb pg_safe r = true -> pg_identifier (truncatePg ("tn_" +:+ r)).
Proof.
  intros Hr. unfold truncatePg, pg_identifier, maxPgIdentLen. split; [|split].
  - apply truncate_hash_prefix. simpl. lia.
  - apply truncate_hash_length. lia.
  - by apply truncate_hash_chars; [apply hex_pg_safe| |].
Qed.

Lemma pg_raw_safe ns wf :
  str_forallb pg_safe (replacePg ns +:+ String "_" (replacePg wf +:+ "")) = true.
Proof. rewrite str_forallb_app. cbn [str_forallb]. by rewrite str_forallb_app, !replacePg_safe. Qed.

(** On a DNS label nothing is lost but the letter of the separator. *)
Lemma replacePg_label name :
  str_forallb dns_mid name = true -> replacePg name = ReplaceByte "-" "_" name.
Proof.
  intros Hn. unfold replacePg, ReplaceByte.
  assert (forall c, dns_mid c = true ->
            let c' := if Ascii.eqb c "-" then "_"%char else c in
            pg_safe c' = true /\ is_ascii_char c' = true /\ is_upper c' = false) as Hc.
  { intros c. destruct c as [[] [] [] [] [] [] [] []]; intros H; try discriminate H; by vm_compute. }
  rewrite ToLower_no_upper.
  - apply str_filter_all. rewrite str_forallb_map.
    eapply str_forallb_impl; [|exact Hn]. intros c H. by apply Hc.
  - unfold is_ascii. rewrite str_forallb_map.
    eapply str_forallb_impl; [|exact Hn]. intros c H. by apply Hc.
  - rewrite str_forallb_map. eapply str_forallb_impl; [|exact Hn]. intros c H.
    apply negb_true_iff. by apply Hc.
Qed.

Lemma ReplaceByte_inj a b :
  str_forallb dns_mid a = true -> str_forallb dns_mid b = true ->
  ReplaceByte "-" "_" a = ReplaceByte "-" "_" b -> a = b.
Proof.
  unfold ReplaceByte. revert b. induction a as [|x a IH]; intros [|y b]; try done.
  simpl. rewrite !andb_true_iff. intros [Hx Ha] [Hy Hb] He. injection He as Hc He.
  f_equal; [|by apply IH]. revert Hc.
  destruct (Ascii.eqb_spec x "-") as [->|], (Ascii.eqb_spec y "-") as [->|]; try done;
    by intros <- || (intros ->; done).
Qed.

Lemma ValidateEnclaveName_inv name :
  ValidateEnclaveName name = None ->
  str_forallb dns_mid name = true /\ 1 <= String.length name <= 63.
Proof.
  unfold ValidateEnclaveName. destruct (String.eqb name ""); [done|].
  destruct (re_match dns1123LabelRe name) eqn:E; simpl; [|done]. intros _.
  unfold dns1123LabelRe in E. rewrite label_match_check in E. split.
  - apply label_check_chars in E; [done|]. unfold dns_mid. intros c Hc. by rewrite Hc.
  - by apply label_check_length in E.
Qed.

Lemma CompileEnclaveIdentity_inv enclave e :
  CompileEnclaveIdentity enclave = Ok e ->
  ValidateEnclaveName enclave = None /\ eid_Enclave e = enclave /\
  eid_PgDB e = truncatePg ("tn_" +:+ replacePg enclave) /\
  eid_S3Bucket e = truncateS3Bucket ("tentacular-" +:+ enclave) /\
  eid_NATSAcct e = "tentacular." +:+ enclave.
Proof.
  unfold CompileEnclaveIdentity. destruct (ValidateEnclaveName enclave); [done|].
  intros H. by injection H as <-.
Qed.

(** The S3 prefix of a pair, and its injectivity as a prefix. *)
Definition s3_prefix (ns wf : string) : string :=
  "ns/" +:+ ns +:+ String "/" ("tentacles/" +:+ wf +:+ String "/" "").

Lemma CompileIdentity_prefix ns wf id :
  CompileIdentity ns wf = Ok id -> id_S3Prefix id = s3_prefix ns wf.
Proof.
  unfold CompileIdentity. destruct (String.eqb ns ""), (String.eqb wf ""); try done.
  intros H. by injection H as <-.
Qed.

Lemma s3_prefix_determines ns1 wf1 ns2 wf2 key :
  no_byte "/" ns1 = true -> no_byte "/" wf1 = true -> no_byte "/" ns2 = true -> no_byte "/" wf2 = true ->
  HasPrefix key (s3_prefix ns1 wf1) = true -> HasPrefix key (s3_prefix ns2 wf2) = true ->
  ns1 = ns2 /\ wf1 = wf2.
Proof.
  intros Hn1 Hw1 Hn2 Hw2 [r1 ->]%HasPrefix_true [r2 H]%HasPrefix_true. unfold s3_prefix in H.
  rewrite !str_app_assoc in H. apply str_app_inj_l in H.
  change (ns1 +:+ String "/" (("tentacles/" +:+ wf1 +:+ String "/" "") +:+ r1) =
          ns2 +:+ String "/" (("tentacles/" +:+ wf2 +:+ String "/" "") +:+ r2)) in H.
  apply sep_inj in H as [-> H]; [|done..]. rewrite !str_app_assoc in H. apply str_app_inj_l in H.
  by apply sep_inj in H as [-> _].
Qed.

End identity.

(** ** Properties *)

Section properties.
Context `{U : Unicode}.

(** C37: [CompileIdentity] fails exactly on an empty namespace or workflow, and
    otherwise every Postgres and S3 name it makes is a safe identifier: it starts
    with [tn_], holds only lower-case letters, digits and underscores, and fits
    in 63 bytes, whatever the two inputs contain. *)
Theorem CompileIdentity_safe ns wf :
  match CompileIdentity ns wf with
  | Err err => (ns = "" /\ err = ErrEmptyNamespace) \/ (ns <> "" /\ wf = "" /\ err = ErrEmptyWorkflow)
  | Ok id =>
      ns <> "" /\ wf <> "" /\ id_Namespace id = ns /\ id_Workflow id = wf /\
      Forall pg_identifier [id_PgRole id; id_PgSchema id; id_S3User id; id_S3Policy id]
  end.
Proof.
  unfold CompileIdentity. destruct (String.eqb_spec ns "") as [->|Hn]; [by left|].
  destruct (String.eqb_spec wf "") as [->|Hw]; [by right|]. do 4 (split; [done|]).
  assert (pg_identifier (sanitizePg ns wf)) as Hs.
  { unfold sanitizePg. apply truncatePg_identifier, pg_raw_safe. }
  assert (pg_identifier (truncatePg (Sprintf "tn_%s_%s_policy" [replacePg ns; replacePg wf]))) as Hp.
  { change (Sprintf "tn_%s_%s_policy" [replacePg ns; replacePg wf])
      with ("tn_" +:+ replacePg ns +:+ String "_" (replacePg wf +:+ "_policy")).
    apply truncatePg_identifier. rewrite str_forallb_app. cbn [str_forallb].
    by rewrite str_forallb_app, !replacePg_safe. }
  rewrite !Forall_cons. auto.
Qed.

(** Names that hold neither separator, as Kubernetes names do. *)
Definition plain (s : string) : bool := no_byte "." s && no_byte "/" s.

(** C30: Identities are isolated: for names without dots and slashes, two
    tentacles that share a NATS user, a NATS subject prefix or a principal, or of
    which one can address an object under the other's S3 prefix, are the same. *)
Theorem CompileIdentity_isolated ns1 wf1 ns2 wf2 id1 id2 :
  plain ns1 && plain wf1 && plain ns2 && plain wf2 = true ->
  CompileIdentity ns1 wf1 = Ok id1 -> CompileIdentity ns2 wf2 = Ok id2 ->
  (id_NATSUser id1 = id_NATSUser id2 \/ id_NATSPrefix id1 = id_NATSPrefix id2 \/
   id_Principal id1 = id_Principal id2 \/
   exists key, HasPrefix (id_S3Prefix id1 +:+ key) (id_S3Prefix id2) = true) ->
  ns1 = ns2 /\ wf1 = wf2.
Proof.
  unfold plain. rewrite !andb_true_iff.
  intros [[[[Hd1 Hs1] [Hdw1 Hsw1]] [Hd2 Hs2]] [Hdw2 Hsw2]] H1 H2 H.
  unfold CompileIdentity in H1, H2.
  destruct (String.eqb ns1 ""), (String.eqb wf1 ""), (String.eqb ns2 ""), (String.eqb wf2 "");
    try discriminate.
  injection H1 as <-. injection H2 as <-. cbn [id_NATSUser id_NATSPrefix id_Principal id_S3Prefix] in H.
  destruct H as [H|[H|[H|[key H]]]].
  - change ("tentacle." +:+ ns1 +:+ String "." (wf1 +:+ "") =
            "tentacle." +:+ ns2 +:+ String "." (wf2 +:+ "")) in H.
    apply str_app_inj_l, sep_inj in H as [-> H]; [|done..]. by rewrite !str_app_nil_r in H.
  - change ("tentacular." +:+ ns1 +:+ String "." (wf1 +:+ String "." ">") =
            "tentacular." +:+ ns2 +:+ String "." (wf2 +:+ String "." ">")) in H.
    apply str_app_inj_l, sep_inj in H as [-> H]; [|done..]. by apply sep_inj in H as [-> _].
  - change ("spiffe://tentacular/ns/" +:+ ns1 +:+ String "/" ("tentacles/" +:+ wf1 +:+ "") =
            "spiffe://tentacular/ns/" +:+ ns2 +:+ String "/" ("tentacles/" +:+ wf2 +:+ "")) in H.
    apply str_app_inj_l, sep_inj in H as [-> H]; [|done..].
    apply str_app_inj_l in H. by rewrite !str_app_nil_r in H.
  - apply (s3_prefix_determines ns1 wf1 ns2 wf2 (s3_prefix ns1 wf1 +:+ key)); try done.
    apply HasPrefix_true. by eexists.
Qed.

(** Enclave identities are injective where nothing is shortened: two enclave
    names of at most 52 characters that share a database, a bucket or a NATS
    account are the same enclave. *)
Theorem CompileEnclaveIdentity_injective n1 n2 e1 e2 :
  CompileEnclaveIdentity n1 = Ok e1 -> CompileEnclaveIdentity n2 = Ok e2 ->
  String.length n1 <= 52 -> String.length n2 <= 52 ->
  (eid_PgDB e1 = eid_PgDB e2 \/ eid_S3Bucket e1 = eid_S3Bucket e2 \/ eid_NATSAcct e1 = eid_NATSAcct e2) ->
  n1 = n2.
Proof.
  intros (Hv1 & _ & -> & -> & ->)%CompileEnclaveIdentity_inv
         (Hv2 & _ & -> & -> & ->)%CompileEnclaveIdentity_inv Hl1 Hl2 H.
  apply ValidateEnclaveName_inv in Hv1 as [Hc1 _], Hv2 as [Hc2 _].
  rewrite !replacePg_label in H by done.
  assert (forall n p sep, String.length n <= 52 -> String.length p <= 11 ->
            truncate_hash 63 sep (p +:+ n) = p +:+ n) as Ht.
  { intros n p sep Hn Hp. unfold truncate_hash. rewrite str_length_app.
    destruct (Nat.leb_spec (String.length p + String.length n) 63); [done|lia]. }
  assert (forall n, String.length (ReplaceByte "-" "_" n) = String.length n) as Hr
    by (intros; apply str_length_map).
  unfold truncatePg, truncateS3Bucket, maxPgIdentLen, maxS3BucketLen in H.
  rewrite !Ht in H by (rewrite ?Hr; simpl; lia).
  destruct H as [H|[H|H]]; apply str_app_inj_l in H; [|done..]. by apply ReplaceByte_inj.
Qed.

(** Every tentacle identity inside an enclave is well formed: the enclave
    part belongs to that enclave, the Postgres schema and database are safe
    identifiers, and bucket, database and schema fit their 63-byte limits. *)
Theorem CompileTentacleIdentity_safe enclave tentacle t :
  CompileTentacleIdentity enclave tentacle = Ok t ->
  CompileEnclaveIdentity enclave = Ok (tid_Enclave t) /\ tentacle <> "" /\
  pg_identifier (tid_PgSchema t) /\ pg_identifier (eid_PgDB (tid_Enclave t)) /\
  String.length (eid_S3Bucket (tid_Enclave t)) <= maxS3BucketLen /\
  str_forallb dns_mid (eid_S3Bucket (tid_Enclave t)) = true /\
  HasPrefix (tid_NATSUser t) (eid_NATSAcct (tid_Enclave t) +:+ ".") = true.
Proof.
  unfold CompileTentacleIdentity. destruct (CompileEnclaveIdentity enclave) as [e|] eqn:He; [|done].
  destruct (String.eqb_spec tentacle "") as [|Ht]; [done|]. intros H. injection H as <-.
  apply CompileEnclaveIdentity_inv in He as (Hv & _ & Hdb & Hb & Ha).
  apply ValidateEnclaveName_inv in Hv as [Hc _]. cbn [tid_Enclave tid_PgSchema tid_NATSUser].
  split; [done|]. split; [done|]. rewrite Hdb, Hb, Ha.
  split; [|split; [|split; [|split]]].
  - apply truncatePg_identifier, pg_raw_safe.
  - apply truncatePg_identifier, replacePg_safe.
  - apply truncate_hash_length. unfold maxS3BucketLen. lia.
  - apply truncate_hash_chars; [|done|by rewrite str_forallb_app, Hc].
    intros c. destruct c as [[] [] [] [] [] [] [] []]; intros H; try discriminate H; reflexivity.
  - apply HasPrefix_true. exists tentacle.
    change ("tentacular." +:+ enclave +:+ String "." (tentacle +:+ "") =
            (("tentacular." +:+ enclave) +:+ ".") +:+ tentacle).
    by rewrite str_app_nil_r, !str_app_assoc.
Qed.

(** The Postgres name is not injective: the separator of the pair and a hyphen
    of a name are both written as an underscore. *)
Lemma sanitizePg_collision : sanitizePg "a-b" "c" = sanitizePg "a" "b-c".
Proof. reflexivity. Qed.
End properties.

(** ** Witnesses *)

Lemma CompileIdentity_isolated_witness :
  exists i1 i2,
    CompileIdentity (U := ascii_tables) "team" "etl" = Ok i1 /\
    CompileIdentity (U := ascii_tables) "team" "etl" = Ok i2 /\ "etl" = "etl".
Proof.
  eexists _, _. split; [reflexivity|split; [reflexivity|]].
  eapply (CompileIdentity_isolated (U := ascii_tables) "team" "etl" "team" "etl");
    [reflexivity|reflexivity|reflexivity|left; reflexivity].
Defined.

Lemma CompileEnclaveIdentity_injective_witness :
  exists e, CompileEnclaveIdentity (U := ascii_tables) "team-a" = Ok e /\ "team-a" = "team-a".
Proof.
  eexists. split; [vm_compute; reflexivity|].
  eapply (CompileEnclaveIdentity_injective (U := ascii_tables) "team-a" "team-a");
    [vm_compute; reflexivity|vm_compute; reflexivity|simpl; lia|simpl; lia|left; reflexivity].
Defined.

Lemma CompileTentacleIdentity_safe_witness :
  exists t, CompileTentacleIdentity (U := ascii_tables) "team-a" "etl" = Ok t /\
    tid_PgSchema t = "tn_team_a_etl" /\ pg_identifier (tid_PgSchema t).
Proof.
  eexists. split; [vm_compute; reflexivity|]. split; [reflexivity|].
  eapply (CompileTentacleIdentity_safe (U := ascii_tables) "team-a" "etl").
  vm_compute. reflexivity.
Defined.

Example sanitizePg_long :
  String.length (sanitizePg (U := ascii_tables) "a-namespace-that-is-rather-long-for-postgres"
                   "and-a-workflow-name-as-well") = 63.
Proof. vm_compute. reflexivity. Qed.
