(* ===== verification/Effects.v ===== *)
(** * Effects

    The program talks to the Kubernetes API, to Postgres and to the object
    store, reads the clock and draws random bytes.  A piece of effectful code is
    a [prog]: a tree of requests, each with a continuation for every possible
    response.  Nothing is assumed of the responses, so a statement about all of
    them covers every interleaving with other clients of the cluster.  The file
    also gives a small in-memory cluster that programs can be run against. *)

From S2P Require Import Prelude GoStrings.
#[local] Open Scope string_scope.
#[local] Set Warnings "-register-all".

(** ** Data *)

(** JSON-like values: the bodies of API objects and unstructured manifests.  An
    integer is an [int64]; [VFloat] is a [float64] by its decimal text, which is
    what Go's JSON decoder makes of every number in a request. *)
Inductive value :=
  | VNull
  | VBool (b : bool)
  | VInt (z : Z)
  | VFloat (text : string)
  | VStr (s : string)
  | VList (l : list value)
  | VMap (m : list (string * value)).

#[export] Instance value_eq_dec : EqDecision value.
Proof.
  refine (fix go (a b : value) : Decision (a = b) :=
    match a, b with
    | VNull, VNull => left eq_refl
    | VBool x, VBool y => cast_if (decide (x = y))
    | VInt x, VInt y => cast_if (decide (x = y))
    | VFloat x, VFloat y => cast_if (decide (x = y))
    | VStr x, VStr y => cast_if (decide (x = y))
    | VList x, VList y => cast_if (@list_eq_dec _ go x y)
    | VMap x, VMap y => cast_if (@list_eq_dec _ (@prod_eq_dec _ _ _ go) x y)
    | _, _ => right _
    end); abstract congruence.
Defined.

(** Maps with string keys as association lists. *)
Fixpoint map_set {A} (k : string) (v : A) (m : list (string * A)) : list (string * A) :=
  match m with
  | [] => [(k, v)]
  | (k', v') :: m' => if String.eqb k' k then (k, v) :: m' else (k', v') :: map_set k v m'
  end.
Fixpoint map_get {A} (k : string) (m : list (string * A)) : option A :=
  match m with
  | [] => None
  | (k', v) :: m' => if String.eqb k' k then Some v else map_get k m'
  end.

(** An API object.  A nil label or annotation map and an empty one read alike;
    spec, status and data are kept in the body under their JSON names. *)
Record object := {
  o_name : string;
  o_namespace : string;
  o_labels : gmap string string;
  o_annotations : gmap string string;
  o_resourceVersion : string;
  o_created : Z;
  o_body : list (string * value);
}.

(** Resource kinds by their plural API names. *)
Abbreviation kind := string (only parsing).

Inductive req :=
  | KGet (k : kind) (ns name : string)
  | KList (k : kind) (ns selector : string)
  | KCreate (k : kind) (ns : string) (o : object)
  | KUpdate (k : kind) (ns : string) (o : object)
  | KDelete (k : kind) (ns name : string)
  | KListFields (k : kind) (ns fieldSelector : string)
  | KListLimit (k : kind) (ns : string) (limit : Z)
  | KPatch (k : kind) (ns name : string) (body : value)
  | PodLogs (ns pod container : string) (tailLines : Z)
  | Discover (groupVersion : string)
  | ServerGroupsAndResources
  | ServerVersion
  | AccessReview (ns verb group resource : string)
  | Now
  | NowMilli
  | RandRead (n : nat)
  | PgBegin
  | PgExec (sql : string)
  | PgCommit
  | PgRollback
  | S3BucketExists (bucket : string)
  | S3MakeBucket (bucket region : string)
  | S3ListObjects (bucket prefix : string)
  | S3RemoveObject (bucket key : string)
  | AdminHTTP (method url : string) (body : value)
  | HTTPDo (method url body : string)
  | LookupHost (host : string)
  | WaitOrDone (seconds : Z).

(** What each request returns.  [Now] is the time in seconds since the epoch,
    [NowMilli] the same clock in milliseconds;
    the discovery listing, nil or not, comes with the error that made it partial:
    for each group version, the resource names and their kinds;
    the object store's listing is the keys and the error that ended it, if any;
    [ServerVersion] is the version of the API server and [AccessReview] whether the
    server may itself use the verb, a review that changes nothing;
    [AdminHTTP] fails, in building the request or in sending it, or answers with a
    status and a body.  [PodLogs] opens a stream and then reads it.  [HTTPDo] fails, by a dial error or otherwise, or
    answers with a status and the outcome of reading the body.  [WaitOrDone] is
    the error of the context, if that is done before the time is up. *)
Definition resp (r : req) : Type :=
  match r with
  | KGet _ _ _ | KCreate _ _ _ | KUpdate _ _ _ | KPatch _ _ _ _ => res object
  | KList _ _ _ | KListFields _ _ _ | KListLimit _ _ _ => res (list object)
  | PodLogs _ _ _ _ => res (res string)
  | KDelete _ _ _ | Discover _ => res ()
  | ServerGroupsAndResources => option (list (string * list (string * string))) * option error
  | ServerVersion => res string
  | AccessReview _ _ _ _ => res bool
  | Now | NowMilli => Z
  | RandRead _ => res (list Z)
  | PgBegin | PgExec _ | PgCommit => res ()
  | PgRollback => ()
  | S3BucketExists _ => res bool
  | S3MakeBucket _ _ | S3RemoveObject _ _ => res ()
  | S3ListObjects _ _ => list string * option error
  | AdminHTTP _ _ _ => bool * error + Z * string
  | HTTPDo _ _ _ => bool * error + Z * res string
  | LookupHost _ => res (list string)
  | WaitOrDone _ => option error
  end%type.

(** ** Programs *)

Inductive prog (A : Type) :=
  | Ret (a : A)
  | Call (r : req) (k : resp r -> prog A).
Arguments Ret {_} _.
Arguments Call {_} _ _.

Fixpoint prog_bind {A B} (f : A -> prog B) (p : prog A) : prog B :=
  match p with
  | Ret a => f a
  | Call r k => Call r (fun x => prog_bind f (k x))
  end.
#[export] Instance prog_mret : MRet prog := fun A => Ret.
#[export] Instance prog_mbind : MBind prog := fun A B => prog_bind.

Definition call (r : req) : prog (resp r) := Call r Ret.

(** [x, err := p; if err != nil { return f(err) }; k] *)
Definition try_with {A B} (f : error -> B) (p : prog (res A)) (k : A -> prog B) : prog B :=
  r ← p; match r with
         | Ok x => k x
         | Err e => Ret (f e)
         end.
Notation "'try' x := p 'else' f ;; k" := (try_with f p (fun x => k))
  (at level 10, x name, p at level 99, f at level 99, k at level 200).
Notation "'try_' p 'else' f ;; k" := (try_with f p (fun _ => k))
  (at level 10, p at level 99, f at level 99, k at level 200).

(** A loop that passes an accumulator through effectful steps. *)
Fixpoint foldM {A B} (f : B -> A -> prog B) (l : list A) (acc : B) : prog B :=
  match l with
  | [] => Ret acc
  | x :: l' => acc' ← f acc x; foldM f l' acc'
  end.

(** The same with steps that may fail: the first error ends the loop. *)
Fixpoint foldE {A B} (f : B -> A -> prog (res B)) (l : list A) (acc : B) : prog (res B) :=
  match l with
  | [] => Ret (Ok acc)
  | x :: l' => try acc' := f acc x else Err ;; foldE f l' acc'
  end.

(** ** Reasoning *)

(** One request with the response it got. *)
Inductive event := Ev (r : req) (x : resp r).

(** [holds R Q h p]: from history [h] (newest event first), every request [p]
    issues satisfies [R] in the history at that point, and every result
    satisfies [Q] in the final history, whatever the responses. *)
Fixpoint holds {A} (R : list event -> req -> Prop) (Q : list event -> A -> Prop)
    (h : list event) (p : prog A) : Prop :=
  match p with
  | Ret a => Q h a
  | Call r k => R h r /\ forall x, holds R Q (Ev r x :: h) (k x)
  end.

Lemma holds_bind {A B} R (Q : list event -> B -> Prop) h (p : prog A) (f : A -> prog B) :
  holds R (fun h' a => holds R Q h' (f a)) h p -> holds R Q h (p ≫= f).
Proof.
  revert h. induction p as [a|r k IH]; intros h; simpl; [done|].
  intros [Hr Hk]. split; [done|]. intros x. apply IH, Hk.
Qed.

Lemma holds_mono {A} (R R' : list event -> req -> Prop) (Q Q' : list event -> A -> Prop) h p :
  (forall h r, R h r -> R' h r) -> (forall h a, Q h a -> Q' h a) ->
  holds R Q h p -> holds R' Q' h p.
Proof.
  intros HR HQ. revert h. induction p as [a|r k IH]; intros h; simpl; [by apply HQ|].
  intros [Hr Hk]. split; [by apply HR|]. intros x. apply IH, Hk.
Qed.

Lemma holds_try {A B} R (Q : list event -> B -> Prop) h (p : prog (res A)) f k :
  holds R (fun h' r => match r with Ok x => holds R Q h' (k x) | Err e => Q h' (f e) end) h p ->
  holds R Q h (try_with f p k).
Proof.
  intros H. apply holds_bind. eapply holds_mono; [done| |exact H].
  by intros h' [x|e].
Qed.

Lemma holds_foldM {A B} R (I Q : list event -> B -> Prop) (f : B -> A -> prog B) l acc h :
  (forall h acc x, x ∈ l -> I h acc -> holds R I h (f acc x)) ->
  (forall h acc, I h acc -> Q h acc) -> I h acc -> holds R Q h (foldM f l acc).
Proof.
  intros Hf HQ. revert acc h. induction l as [|x l IH]; intros acc h HI; simpl; [by apply HQ|].
  apply holds_bind. eapply holds_mono; [done| |apply Hf; [by left|exact HI]].
  intros h' acc' HI'. apply IH; [|done]. intros. apply Hf; [by right|done].
Qed.

(** The invariant may speak of the elements processed so far. *)
Lemma holds_foldM_pre {A B} R (I : list A -> list event -> B -> Prop) (Q : list event -> B -> Prop)
    (f : B -> A -> prog B) l done acc h :
  (forall pre x post h acc, (pre ++ x :: post = done ++ l)%list -> I pre h acc ->
     holds R (I (pre ++ [x])%list) h (f acc x)) ->
  (forall h acc, I (done ++ l)%list h acc -> Q h acc) -> I done h acc ->
  holds R Q h (foldM f l acc).
Proof.
  revert done acc h. induction l as [|x l IH]; intros done acc h Hf HQ HI; simpl.
  - apply HQ. by rewrite app_nil_r.
  - apply holds_bind. eapply holds_mono; [done| |by apply (Hf done x l)].
    intros h' b Hb. apply (IH (done ++ [x])%list); [|by rewrite <- app_assoc|done].
    intros pre y post h2 acc2 Heq. apply (Hf pre y post). by rewrite Heq, <- app_assoc.
Qed.

(** The invariant of a failing loop may speak of the elements processed so far. *)
Lemma holds_foldE {A B} R (I : list A -> list event -> B -> Prop) (Q : list event -> res B -> Prop)
    (f : B -> A -> prog (res B)) l done acc h :
  (forall pre x post h acc, (pre ++ x :: post = done ++ l)%list -> I pre h acc ->
     holds R (fun h' r => match r with Ok b => I (pre ++ [x])%list h' b | Err e => Q h' (Err e) end) h (f acc x)) ->
  (forall h acc, I (done ++ l)%list h acc -> Q h (Ok acc)) -> I done h acc ->
  holds R Q h (foldE f l acc).
Proof.
  revert done acc h. induction l as [|x l IH]; intros done acc h Hf HQ HI; simpl.
  - apply HQ. by rewrite app_nil_r.
  - apply holds_try. eapply holds_mono; [done| |by apply (Hf done x l)].
    intros h' [b|e]; [|done]. intros Hb.
    apply (IH (done ++ [x])%list); [|by rewrite <- app_assoc|done].
    intros pre y post h2 acc2 Heq. apply (Hf pre y post). by rewrite Heq, <- app_assoc.
Qed.

(** Conditions that ignore the history. *)
Definition every (R : req -> Prop) : list event -> req -> Prop := fun _ => R.
Definition ends {A} (Q : A -> Prop) : list event -> A -> Prop := fun _ => Q.
Definition whatever {A} : list event -> A -> Prop := fun _ _ => True.

Lemma holds_every_history {A} (R : req -> Prop) (Q : A -> Prop) h h' p :
  holds (every R) (ends Q) h p -> holds (every R) (ends Q) h' p.
Proof.
  revert h h'. induction p as [a|r k IH]; intros h h'; simpl; [done|].
  intros [Hr Hk]. split; [done|]. intros x. by eapply IH.
Qed.

(** Requests that change something outside the program. *)
Definition is_write (r : req) : bool :=
  match r with
  | KCreate _ _ _ | KUpdate _ _ _ | KDelete _ _ _ | KPatch _ _ _ _ => true
  | PgExec _ | PgCommit | S3MakeBucket _ _ | S3RemoveObject _ _ | AdminHTTP _ _ _ => true
  | HTTPDo method _ _ => negb (String.eqb method "GET")
  | KGet _ _ _ | KList _ _ _ | KListFields _ _ _ | KListLimit _ _ _ | PodLogs _ _ _ _ | LookupHost _ | WaitOrDone _ | Discover _ | ServerGroupsAndResources
  | ServerVersion | AccessReview _ _ _ _ | Now | NowMilli | RandRead _ | PgBegin | PgRollback
  | S3BucketExists _ | S3ListObjects _ _ => false
  end.

(** ** Running *)

Fixpoint run {S A} (handle : forall r, S -> resp r * S) (p : prog A) (s : S) : A * S :=
  match p with
  | Ret a => (a, s)
  | Call r k => let (x, s') := handle r s in run handle (k x) s'
  end.

Lemma run_bind {S A B} (handle : forall r, S -> resp r * S) (p : prog A) (f : A -> prog B) s :
  run handle (p ≫= f) s = let (a, s') := run handle p s in run handle (f a) s'.
Proof.
  revert s. induction p as [a|r k IH]; intros s; simpl; [done|].
  destruct (handle r s). apply IH.
Qed.

(** Running against any handler is one of the executions [holds] speaks of. *)
Lemma holds_run {S A} (handle : forall r, S -> resp r * S) R (Q : A -> Prop) h p s :
  holds R (ends Q) h p -> Q (run handle p s).1.
Proof.
  revert h s. induction p as [a|r k IH]; intros h s; simpl; [done|].
  intros [_ Hk]. destruct (handle r s) as [x s']. eapply IH, Hk.
Qed.

(** The same where the property speaks of the history. *)
Lemma holds_run_history {S A} (handle : forall r, S -> resp r * S) R (Q : list event -> A -> Prop) h p s :
  holds R Q h p -> exists h', Q h' (run handle p s).1.
Proof.
  revert h s. induction p as [a|r k IH]; intros h s; simpl; [by eauto|].
  intros [_ Hk]. destruct (handle r s) as [x s']. eapply IH, Hk.
Qed.

(** *** An in-memory cluster *)

Abbreviation okey := (string * string * string)%type (only parsing).

Record cluster := {
  cl_objects : gmap okey object;
  cl_version : nat;
  cl_clock : Z;
  cl_sql : list string;
  cl_admin : list (string * string);
  cl_buckets : gmap string (list string);
}.

Definition empty_cluster : cluster :=
  {| cl_objects := ∅; cl_version := 0; cl_clock := 0; cl_sql := []; cl_admin := []; cl_buckets := ∅ |}.

Definition with_objects (c : cluster) (m : gmap okey object) : cluster :=
  {| cl_objects := m; cl_version := S (cl_version c); cl_clock := cl_clock c; cl_sql := cl_sql c;
     cl_admin := cl_admin c; cl_buckets := cl_buckets c |}.

Definition stamp (o : object) (version : nat) (ns : string) : object :=
  {| o_name := o_name o; o_namespace := ns; o_labels := o_labels o;
     o_annotations := o_annotations o; o_resourceVersion := pretty version;
     o_created := o_created o; o_body := o_body o |}.

(** Equality selectors [k=v,k=v]; the empty selector matches everything. *)
Definition matches_selector (sel : string) (labels : gmap string string) : bool :=
  if String.eqb sel "" then true
  else forallb (fun term =>
         match IndexByte term "=" with
         | Some i => bool_decide (labels !! str_take i term = Some (str_drop (S i) term))
         | None => bool_decide (is_Some (labels !! term))
         end) (Split sel ",").

Definition not_found {A} (k name : string) : res A :=
  Err (APIError NotFound (k +:+ " " +:+ name +:+ " not found")).

(** The resource types it serves.  It records no events, runs no pods and
    reaches no other host. *)
Definition known_resources : list (string * list (string * string)) :=
  [("apps/v1", [("deployments", "Deployment")]);
   ("v1", [("services", "Service"); ("configmaps", "ConfigMap"); ("secrets", "Secret");
           ("persistentvolumeclaims", "PersistentVolumeClaim")]);
   ("batch/v1", [("jobs", "Job"); ("cronjobs", "CronJob")]);
   ("networking.k8s.io/v1", [("networkpolicies", "NetworkPolicy"); ("ingresses", "Ingress")])].

(** A JSON merge patch. *)
Definition is_null (v : value) : bool :=
  match v with
  | VNull => true
  | _ => false
  end.
Fixpoint merge_patch (patch : value) (target : value) : value :=
  match patch with
  | VMap fields =>
      VMap (fold_left (fun acc kv =>
              if is_null kv.2 then List.filter (fun x => negb (String.eqb x.1 kv.1)) acc
              else map_set kv.1 (merge_patch kv.2 (default VNull (map_get kv.1 acc))) acc) fields (match target with VMap m => m | _ => [] end))
  | v => v
  end.

(** The answers.  Only examples and witnesses run in this cluster, and no property
    is stated of it: it never fails for the network, takes objects in namespaces it
    does not have and has no immutable fields. *)
Definition cluster_handler (r : req) (c : cluster) : resp r * cluster :=
  match r return resp r * cluster with
  | KGet k ns name =>
      (match cl_objects c !! (k, ns, name) with
       | Some o => Ok o
       | None => not_found k name
       end, c)
  | KList k ns sel =>
      (Ok (snd <$> List.filter (fun p =>
             String.eqb (p.1.1.1) k && (String.eqb ns "" || String.eqb (p.1.1.2) ns)
             && matches_selector sel (o_labels p.2)) (map_to_list (cl_objects c))), c)
  | KCreate k ns o =>
      match cl_objects c !! (k, ns, o_name o) with
      | Some _ => (Err (APIError AlreadyExists (k +:+ " " +:+ o_name o +:+ " already exists")), c)
      | None =>
          let o' := stamp o (cl_version c) ns in
          (Ok o', with_objects c (<[(k, ns, o_name o) := o']> (cl_objects c)))
      end
  | KUpdate k ns o =>
      match cl_objects c !! (k, ns, o_name o) with
      | None => (not_found k (o_name o), c)
      | Some old =>
          if String.eqb (o_resourceVersion o) "" || String.eqb (o_resourceVersion o) (o_resourceVersion old)
          then let o' := stamp o (cl_version c) ns in
               (Ok o', with_objects c (<[(k, ns, o_name o) := o']> (cl_objects c)))
          else (Err (APIError Conflict (k +:+ " " +:+ o_name o +:+ " has been modified")), c)
      end
  | KDelete k ns name =>
      match cl_objects c !! (k, ns, name) with
      | None => (not_found k name, c)
      | Some _ => (Ok (), with_objects c (delete (k, ns, name) (cl_objects c)))
      end
  | KListFields _ _ _ | KListLimit _ _ _ => (Ok [], c)
  | KPatch k ns name patch =>
      match cl_objects c !! (k, ns, name) with
      | None => (not_found k name, c)
      | Some o =>
          let o' := {| o_name := o_name o; o_namespace := o_namespace o; o_labels := o_labels o;
                       o_annotations := o_annotations o; o_resourceVersion := pretty (cl_version c);
                       o_created := o_created o;
                       o_body := match merge_patch patch (VMap (o_body o)) with VMap m => m | _ => o_body o end |} in
          (Ok o', with_objects c (<[(k, ns, name) := o']> (cl_objects c)))
      end
  | PodLogs _ pod _ _ => (not_found "pods" pod, c)
  | HTTPDo _ _ _ => (inl (true, ErrorNew "connection refused"), c)
  | LookupHost _ => (Err (ErrorNew "no such host"), c)
  | WaitOrDone _ => (Some (ErrorNew "context deadline exceeded"), c)
  | Discover _ => (Ok (), c)
  | ServerGroupsAndResources => ((Some known_resources, None), c)
  | ServerVersion => (Ok "v1.31.0", c)
  | AccessReview _ _ _ _ => (Ok true, c)
  | Now => (cl_clock c, c)
  | NowMilli => ((1000 * cl_clock c)%Z, c)
  | RandRead n => (Ok (replicate n 0%Z), c)
  | PgBegin => (Ok (), c)
  | PgExec sql =>
      (Ok (), {| cl_objects := cl_objects c; cl_version := cl_version c; cl_clock := cl_clock c;
                 cl_sql := sql :: cl_sql c; cl_admin := cl_admin c; cl_buckets := cl_buckets c |})
  | PgCommit => (Ok (), c)
  | PgRollback => ((), c)
  | S3BucketExists b => (Ok (bool_decide (is_Some (cl_buckets c !! b))), c)
  | S3MakeBucket b _ =>
      (Ok (), {| cl_objects := cl_objects c; cl_version := cl_version c; cl_clock := cl_clock c;
                 cl_sql := cl_sql c; cl_admin := cl_admin c; cl_buckets := <[b := []]> (cl_buckets c) |})
  | S3ListObjects b p => ((List.filter (fun k => HasPrefix k p) (default [] (cl_buckets c !! b)), None), c)
  | S3RemoveObject b key =>
      (Ok (), {| cl_objects := cl_objects c; cl_version := cl_version c; cl_clock := cl_clock c;
                 cl_sql := cl_sql c; cl_admin := cl_admin c;
                 cl_buckets := alter (List.filter (fun k => negb (String.eqb k key))) b (cl_buckets c) |})
  | AdminHTTP m p _ =>
      (inr (200%Z, ""), {| cl_objects := cl_objects c; cl_version := cl_version c; cl_clock := cl_clock c;
                 cl_sql := cl_sql c; cl_admin := (m, p) :: cl_admin c; cl_buckets := cl_buckets c |})
  end.

Definition exec {A} (p : prog A) (c : cluster) : A * cluster := run cluster_handler p c.

(** ** Facts that stay true *)

(** A property of histories that later events do not undo. *)
Definition stable (D : list event -> Prop) : Prop := forall h e, D h -> D (e :: h).

(** Any request may be issued. *)
Definition any_request : list event -> req -> Prop := fun _ _ => True.

(** Every execution of [p] establishes [D]. *)
Definition ensures {A} (D : list event -> Prop) (p : prog A) : Prop :=
  forall h, holds any_request (fun h' _ => D h') h p.

Lemma holds_any {A} h (p : prog A) : holds any_request whatever h p.
Proof.
  revert h. induction p as [a|r k IH]; intros h; simpl; [done|]. split; [done|]. intros x. apply IH.
Qed.

Lemma holds_keep {A} R (Q : list event -> A -> Prop) (D : list event -> Prop) h p :
  stable D -> D h -> holds R Q h p -> holds R (fun h' a => Q h' a /\ D h') h p.
Proof.
  intros HD. revert h. induction p as [a|r k IH]; intros h Hh; simpl; [done|].
  intros [Hr Hk]. split; [done|]. intros x. apply IH; [by apply HD|apply Hk].
Qed.

Lemma ensures_bind_l {A B} (D : list event -> Prop) (p : prog A) (f : A -> prog B) :
  stable D -> ensures D p -> ensures D (p ≫= f).
Proof.
  intros HD Hp h. apply holds_bind. eapply holds_mono; [done| |apply Hp].
  intros h' a Ha. eapply holds_mono; [done| |apply (holds_keep any_request whatever D); [done|exact Ha|apply holds_any]].
  by intros ? ? [_ ?].
Qed.

Lemma ensures_bind_r {A B} (D : list event -> Prop) (p : prog A) (f : A -> prog B) :
  (forall a, ensures D (f a)) -> ensures D (p ≫= f).
Proof.
  intros Hf h. apply holds_bind. eapply holds_mono; [done| |apply holds_any].
  intros h' a _. apply Hf.
Qed.

(** The results of a program, whatever the responses. *)
Definition returns {A} (Q : A -> Prop) (p : prog A) : Prop := forall h, holds any_request (ends Q) h p.

Lemma returns_bind {A B} (Q : B -> Prop) (p : prog A) (f : A -> prog B) :
  (forall a, returns Q (f a)) -> returns Q (p ≫= f).
Proof.
  intros Hf h. apply holds_bind. eapply holds_mono; [done| |apply holds_any]. intros. apply Hf.
Qed.

Lemma returns_Ret {A} (Q : A -> Prop) a : Q a -> returns Q (Ret a).
Proof. by intros H h. Qed.

Lemma returns_bind_post {A B} (P : A -> Prop) (Q : B -> Prop) (p : prog A) (f : A -> prog B) :
  returns P p -> (forall a, P a -> returns Q (f a)) -> returns Q (p ≫= f).
Proof.
  intros Hp Hf h. apply holds_bind. eapply holds_mono; [done| |apply Hp]. intros. by apply Hf.
Qed.

Lemma returns_foldM {A B} (I : B -> Prop) (f : B -> A -> prog B) l acc :
  (forall acc x, I acc -> returns I (f acc x)) -> I acc -> returns I (foldM f l acc).
Proof.
  intros Hf HI h. apply (holds_foldM any_request (ends I)); [|done|exact HI].
  intros h' acc' x _ Ha. by apply Hf.
Qed.

Lemma holds_and {A} R (Q1 Q2 : list event -> A -> Prop) h p :
  holds R Q1 h p -> holds R Q2 h p -> holds R (fun h' a => Q1 h' a /\ Q2 h' a) h p.
Proof.
  revert h. induction p as [a|r k IH]; intros h; simpl; [by split|].
  intros [Hr H1] [_ H2]. split; [done|]. intros x. by apply IH.
Qed.

Lemma ensures_and {A} (D1 D2 : list event -> Prop) (p : prog A) :
  ensures D1 p -> ensures D2 p -> ensures (fun h => D1 h /\ D2 h) p.
Proof. intros H1 H2 h. apply (holds_and _ (fun h' _ => D1 h') (fun h' _ => D2 h')); [apply H1|apply H2]. Qed.

Lemma ensures_mono {A} (D1 D2 : list event -> Prop) (p : prog A) :
  (forall h, D1 h -> D2 h) -> ensures D1 p -> ensures D2 p.
Proof. intros HD H h. eapply holds_mono; [done| |apply H]. intros h' a. apply HD. Qed.

(** Once a stable fact holds it holds at every later request and at the end. *)
Lemma holds_stable {A} (D : list event -> Prop) h (p : prog A) :
  stable D -> D h -> holds (fun h' _ => D h') (fun h' _ => D h') h p.
Proof.
  intros HD. revert h. induction p as [a|r k IH]; intros h Hh; simpl; [done|].
  split; [done|]. intros x. apply IH. by apply HD.
Qed.

(** The same beside what the program guarantees anyway. *)
Lemma holds_with {A} (D : list event -> Prop) R (Q : list event -> A -> Prop) h (p : prog A) :
  stable D -> D h -> holds R Q h p -> holds (fun h' r => D h' /\ R h' r) (fun h' a => D h' /\ Q h' a) h p.
Proof.
  intros HD. revert h. induction p as [a|r k IH]; intros h Hh; simpl; [done|].
  intros [Hr Hk]. split; [done|]. intros x. apply IH; [by apply HD|done].
Qed.

Lemma holds_call_bind {A} R (Q : list event -> A -> Prop) h r (k : resp r -> prog A) :
  R h r -> (forall x, holds R Q (Ev r x :: h) (k x)) -> holds R Q h (call r ≫= k).
Proof. intros Hr Hk. by split. Qed.

(** Some event of the history satisfies a predicate. *)
Definition happened (E : event -> Prop) (h : list event) : Prop := exists e, e ∈ h /\ E e.

Lemma happened_stable E : stable (happened E).
Proof. intros h e (e' & He & HE). exists e'. split; [by right|done]. Qed.

Lemma happened_now (E : event -> Prop) e h : E e -> happened E (e :: h).
Proof. intros HE. exists e. split; [by left|done]. Qed.

(** The cluster answered that there is no such object. *)
Definition missing (k ns name : string) (h : list event) : Prop :=
  exists err, Ev (KGet k ns name) (Err err) ∈ h /\ reason_is NotFound err = true.
Lemma missing_stable k ns name : stable (missing k ns name).
Proof. intros h e (err & He & Hr). exists err. split; [by right|done]. Qed.
Lemma missing_now k ns name err h : reason_is NotFound err = true -> missing k ns name (Ev (KGet k ns name) (Err err) :: h).
Proof. intros Hr. exists err. split; [by left|done]. Qed.

(** Nothing was changed so far. *)
Definition asked (e : event) : req := match e with Ev r _ => r end.
Definition unwritten (h : list event) : Prop := Forall (fun e => is_write (asked e) = false) h.
Lemma holds_unwritten {A} (Q : list event -> A -> Prop) h (p : prog A) :
  unwritten h -> holds (every (fun r => is_write r = false)) Q h p ->
  holds (every (fun r => is_write r = false)) (fun h' a => unwritten h' /\ Q h' a) h p.
Proof.
  revert h. induction p as [a|r k IH]; intros h Hh; cbn [holds]; [done|]. intros [Hr Hk]. split; [done|].
  intros x. apply IH; [by constructor|apply Hk].
Qed.

(** ** Restricted programs *)

(** Every request [p] issues satisfies [R], from any history on. *)
Definition only {A} (R : list event -> req -> Prop) (p : prog A) : Prop := forall h, holds R whatever h p.

Section only.
Context (R : list event -> req -> Prop).

Lemma only_ret {A} (a : A) : only R (Ret a).
Proof. done. Qed.
Lemma only_bind {A B} (p : prog A) (f : A -> prog B) : only R p -> (forall a, only R (f a)) -> only R (p ≫= f).
Proof. intros Hp Hf h. apply holds_bind. eapply holds_mono; [done| |apply Hp]. intros h' a _. apply Hf. Qed.
Lemma only_try {A B} f (p : prog (res A)) (k : A -> prog B) : only R p -> (forall x, only R (k x)) -> only R (try_with f p k).
Proof. intros Hp Hk. apply only_bind; [done|]. intros [x|e]; [apply Hk|apply only_ret]. Qed.
Lemma only_call r : (forall h, R h r) -> only R (call r).
Proof. by intros Hr h. Qed.
Lemma only_foldM {A B} (f : B -> A -> prog B) l acc : (forall acc x, only R (f acc x)) -> only R (foldM f l acc).
Proof. intros Hf. revert acc. induction l as [|x l IH]; intros acc; [apply only_ret|]. apply only_bind; [apply Hf|apply IH]. Qed.
Lemma only_foldE {A B} (f : B -> A -> prog (res B)) l acc : (forall acc x, only R (f acc x)) -> only R (foldE f l acc).
Proof. intros Hf. revert acc. induction l as [|x l IH]; intros acc; [apply only_ret|]. apply only_try; [apply Hf|apply IH]. Qed.
Lemma only_mono {A} (R' : list event -> req -> Prop) (p : prog A) : (forall h r, R' h r -> R h r) -> only R' p -> only R p.
Proof. intros HR Hp h. eapply holds_mono; [exact HR|done|apply Hp]. Qed.
End only.

(** A value a program can return, for some answers to its requests. *)
Inductive outcome {A} : prog A -> A -> Prop :=
  | outcome_ret a : outcome (Ret a) a
  | outcome_call r k x a : outcome (k x) a -> outcome (Call r k) a.

Lemma only_outcome {A} R h (p : prog A) : only R p -> holds R (fun _ a => outcome p a) h p.
Proof.
  intros Hp. specialize (Hp h). revert h Hp. induction p as [a|r k IH]; intros h; cbn [holds]; [constructor|].
  intros [Hr Hk]. split; [done|]. intros x. eapply holds_mono; [done| |exact (IH x _ (Hk x))].
  intros h' a Ha. by apply (outcome_call r k x).
Qed.

Create HintDb only.
#[export] Hint Resolve only_ret : only.
(** Through a program by its structure; a request is left to [leaf]. *)
Ltac only_step leaf :=
  match goal with
  | |- forall _, _ => intro
  | |- only _ (Ret _) => apply only_ret
  | |- only _ (try_with _ _ _) => apply only_try
  | |- only _ (_ ≫= _) => apply only_bind
  | |- only _ (call _) => apply only_call; leaf
  | |- only _ (foldM _ _ _) => apply only_foldM
  | |- only _ (foldE _ _ _) => apply only_foldE
  | |- only _ (let _ := _ in _) => cbv zeta
  | |- only _ (match ?x with _ => _ end) => destruct x
  | |- only _ ((if ?x then _ else _) _) => destruct x
  | |- only _ _ => solve [auto with only]
  end.

(** One step through a program: a sequence, a guarded call, a request. *)
Ltac hstep := first [apply holds_try | apply holds_call_bind | apply holds_bind].
