(* ===== verification/K8sOps.v ===== *)
(** * Kubernetes helpers (pkg/k8s: client.go, namespace.go, quota.go, netpol.go, rbac.go)

    The constructors of the objects every enclave namespace holds.  Specs are
    written under their JSON names; a resource quantity is its canonical text. *)

From S2P Require Import Prelude GoStrings Effects.
#[local] Open Scope string_scope.

Definition ManagedByLabel : string := "app.kubernetes.io/managed-by".
Definition ManagedByValue : string := "tentacular".
Definition NameLabel : string := "app.kubernetes.io/name".
Definition VersionLabel : string := "app.kubernetes.io/version".

(** An object literal: name, namespace, labels, body. *)
Definition new_object (name ns : string) (labels : list (string * string))
    (body : list (string * value)) : object :=
  {| o_name := name; o_namespace := ns; o_labels := list_to_map labels; o_annotations := ∅;
     o_resourceVersion := ""; o_created := 0; o_body := body |}.

Definition managed : list (string * string) := [(ManagedByLabel, ManagedByValue)].

Definition strs (l : list string) : value := VList (VStr <$> l).

(** [_, err := Create(...)], with the two messages the helpers share. *)
Definition create_or (k : kind) (ns : string) (o : object) (exists_ other : error -> error) : prog (res ()) :=
  try_ call (KCreate k ns o)
    else (fun err => Err (if reason_is AlreadyExists err then exists_ err else other err)) ;;
  Ret (Ok ()).

(** ** Namespaces *)

Definition CreateNamespace (name : string) : prog (res ()) :=
  create_or "namespaces" ""
    (new_object name ""
       [(ManagedByLabel, ManagedByValue);
        ("pod-security.kubernetes.io/enforce", "restricted");
        ("pod-security.kubernetes.io/enforce-version", "latest")] [])
    (fun err => Errorf "namespace %q already exists: %w" [AStr name; AErr err])
    (fun err => Errorf "create namespace %q: %w" [AStr name; AErr err]).

Definition DeleteNamespace (name : string) : prog (res ()) :=
  try_ call (KDelete "namespaces" "" name)
    else (fun err => Err (if reason_is NotFound err
                          then Errorf "namespace %q not found: %w" [AStr name; AErr err]
                          else Errorf "delete namespace %q: %w" [AStr name; AErr err])) ;;
  Ret (Ok ()).

Definition GetNamespace (name : string) : prog (res object) :=
  try ns := call (KGet "namespaces" "" name)
    else (fun err => Err (if reason_is NotFound err
                          then Errorf "namespace %q not found: %w" [AStr name; AErr err]
                          else Errorf "get namespace %q: %w" [AStr name; AErr err])) ;;
  Ret (Ok ns).

Definition ListManagedNamespaces : prog (res (list object)) :=
  try items := call (KList "namespaces" "" (ManagedByLabel +:+ "=" +:+ ManagedByValue))
    else (fun err => Err (Errorf "list managed namespaces: %w" [AErr err])) ;;
  Ret (Ok items).

(** A nil namespace is [None]. *)
Definition IsManagedNamespace (ns : option object) : bool :=
  match ns with
  | None => false
  | Some o => String.eqb (default "" (o_labels o !! ManagedByLabel)) ManagedByValue
  end.

Definition CheckManagedNamespace (name : string) : prog (res ()) :=
  try ns := GetNamespace name else Err ;;
  if negb (IsManagedNamespace (Some ns))
  then Ret (Err (Errorf "namespace %q is not managed by tentacular; add label %s=%s to adopt it"
                   [AStr name; AStr ManagedByLabel; AStr ManagedByValue]))
  else Ret (Ok ()).

(** ** Quotas *)

Record QuotaPreset := { qp_CPU : string; qp_Mem : string; qp_Pods : Z }.

Definition quotaPresets : gmap string QuotaPreset :=
  list_to_map
    [("small", {| qp_CPU := "4"; qp_Mem := "4Gi"; qp_Pods := 20 |});
     ("medium", {| qp_CPU := "16"; qp_Mem := "16Gi"; qp_Pods := 50 |});
     ("large", {| qp_CPU := "32"; qp_Mem := "64Gi"; qp_Pods := 100 |})].

Definition unknown_preset (preset : string) : error :=
  Errorf "unknown quota preset %q (valid: small, medium, large)" [AStr preset].

Definition CreateResourceQuota (namespace preset : string) : prog (res ()) :=
  match quotaPresets !! preset with
  | None => Ret (Err (unknown_preset preset))
  | Some p =>
      create_or "resourcequotas" namespace
        (new_object "tentacular-quota" namespace managed
           [("spec", VMap [("hard", VMap [("requests.cpu", VStr (qp_CPU p));
                                          ("requests.memory", VStr (qp_Mem p));
                                          ("pods", VStr (pretty (qp_Pods p)))])])])
        (fun err => Errorf "resource quota already exists in namespace %q: %w" [AStr namespace; AErr err])
        (fun err => Errorf "create resource quota in namespace %q: %w" [AStr namespace; AErr err])
  end.

Definition as_map (v : option value) : list (string * value) :=
  match v with
  | Some (VMap m) => m
  | _ => []
  end.
Definition with_body (o : object) (body : list (string * value)) : object :=
  {| o_name := o_name o; o_namespace := o_namespace o; o_labels := o_labels o;
     o_annotations := o_annotations o; o_resourceVersion := o_resourceVersion o;
     o_created := o_created o; o_body := body |}.
Definition with_annotations (o : object) (ann : gmap string string) : object :=
  {| o_name := o_name o; o_namespace := o_namespace o; o_labels := o_labels o;
     o_annotations := ann; o_resourceVersion := o_resourceVersion o;
     o_created := o_created o; o_body := o_body o |}.
Definition set_spec (o : object) (key : string) (v : value) : object :=
  with_body o (map_set "spec" (VMap (map_set key v (as_map (map_get "spec" (o_body o))))) (o_body o)).

Definition UpdateResourceQuota (namespace preset : string) : prog (res ()) :=
  match quotaPresets !! preset with
  | None => Ret (Err (unknown_preset preset))
  | Some p =>
      try quota := call (KGet "resourcequotas" namespace "tentacular-quota")
        else (fun err => Err (if reason_is NotFound err
                then Errorf "resource quota not found in namespace %q; use ns_create to initialize" [AStr namespace]
                else Errorf "get resource quota in namespace %q: %w" [AStr namespace; AErr err])) ;;
      let quota' := set_spec quota "hard"
                      (VMap [("limits.cpu", VStr (qp_CPU p)); ("limits.memory", VStr (qp_Mem p));
                             ("pods", VStr (pretty (qp_Pods p)))]) in
      try_ call (KUpdate "resourcequotas" namespace quota')
        else (fun err => Err (Errorf "update resource quota in namespace %q: %w" [AStr namespace; AErr err])) ;;
      Ret (Ok ())
  end.

Definition CreateLimitRange (namespace : string) : prog (res ()) :=
  create_or "limitranges" namespace
    (new_object "tentacular-limits" namespace managed
       [("spec", VMap [("limits", VList [VMap
           [("type", VStr "Container");
            ("defaultRequest", VMap [("cpu", VStr "50m"); ("memory", VStr "64Mi")]);
            ("default", VMap [("cpu", VStr "500m"); ("memory", VStr "256Mi")])]])])])
    (fun err => Errorf "limit range already exists in namespace %q: %w" [AStr namespace; AErr err])
    (fun err => Errorf "create limit range in namespace %q: %w" [AStr namespace; AErr err]).

(** ** Network policies *)

Definition CreateDefaultDenyPolicy (namespace : string) : prog (res ()) :=
  create_or "networkpolicies" namespace
    (new_object "default-deny" namespace managed
       [("spec", VMap [("podSelector", VMap []); ("policyTypes", strs ["Ingress"; "Egress"])])])
    (fun err => Errorf "network policy %q already exists in namespace %q: %w"
                  [AStr "default-deny"; AStr namespace; AErr err])
    (fun err => Errorf "create default-deny network policy in namespace %q: %w" [AStr namespace; AErr err]).

Definition CreateDNSAllowPolicy (namespace : string) : prog (res ()) :=
  create_or "networkpolicies" namespace
    (new_object "allow-dns" namespace managed
       [("spec", VMap
           [("podSelector", VMap []); ("policyTypes", strs ["Egress"]);
            ("egress", VList [VMap
               [("ports", VList [VMap [("protocol", VStr "UDP"); ("port", VInt 53)];
                                 VMap [("protocol", VStr "TCP"); ("port", VInt 53)]]);
                ("to", VList [VMap
                   [("namespaceSelector", VMap [("matchLabels",
                       VMap [("kubernetes.io/metadata.name", VStr "kube-system")])]);
                    ("podSelector", VMap [("matchLabels", VMap [("k8s-app", VStr "kube-dns")])])]])]])])])
    (fun err => Errorf "network policy %q already exists in namespace %q: %w"
                  [AStr "allow-dns"; AStr namespace; AErr err])
    (fun err => Errorf "create allow-dns network policy in namespace %q: %w" [AStr namespace; AErr err]).

(** ** Workflow RBAC *)

Definition workflowServiceAccount : string := "tentacular-workflow".
Definition workflowRoleName : string := "tentacular-workflow".

Definition CreateWorkflowServiceAccount (namespace : string) : prog (res ()) :=
  create_or "serviceaccounts" namespace
    (new_object workflowServiceAccount namespace managed [])
    (fun err => Errorf "service account %q already exists in namespace %q: %w"
                  [AStr workflowServiceAccount; AStr namespace; AErr err])
    (fun err => Errorf "create service account %q in namespace %q: %w"
                  [AStr workflowServiceAccount; AStr namespace; AErr err]).

Record PolicyRule := { pr_APIGroups : list string; pr_Resources : list string; pr_Verbs : list string }.
Definition rule_value (r : PolicyRule) : value :=
  VMap [("apiGroups", strs (pr_APIGroups r)); ("resources", strs (pr_Resources r));
        ("verbs", strs (pr_Verbs r))].

Definition all_verbs : list string := ["create"; "update"; "delete"; "patch"; "get"; "list"; "watch"].
Definition read_verbs : list string := ["get"; "list"; "watch"].

Definition workflow_rules : list PolicyRule :=
  [{| pr_APIGroups := ["apps"]; pr_Resources := ["deployments"]; pr_Verbs := all_verbs |};
   {| pr_APIGroups := ["apps"]; pr_Resources := ["replicasets"; "daemonsets"; "statefulsets"];
      pr_Verbs := read_verbs |};
   {| pr_APIGroups := [""]; pr_Resources := ["services"; "configmaps"; "secrets"]; pr_Verbs := all_verbs |};
   {| pr_APIGroups := ["batch"]; pr_Resources := ["cronjobs"; "jobs"]; pr_Verbs := all_verbs |};
   {| pr_APIGroups := ["networking.k8s.io"]; pr_Resources := ["networkpolicies"; "ingresses"];
      pr_Verbs := all_verbs |};
   {| pr_APIGroups := [""]; pr_Resources := ["pods"; "pods/log"; "events"]; pr_Verbs := read_verbs |};
   {| pr_APIGroups := [""]; pr_Resources := ["serviceaccounts"];
      pr_Verbs := ["get"; "list"; "watch"; "patch"; "update"] |}].

Definition CreateWorkflowRole (namespace : string) : prog (res ()) :=
  create_or "roles" namespace
    (new_object workflowRoleName namespace managed [("rules", VList (rule_value <$> workflow_rules))])
    (fun err => Errorf "role %q already exists in namespace %q: %w"
                  [AStr workflowRoleName; AStr namespace; AErr err])
    (fun err => Errorf "create role %q in namespace %q: %w"
                  [AStr workflowRoleName; AStr namespace; AErr err]).

Definition CreateWorkflowRoleBinding (namespace : string) : prog (res ()) :=
  create_or "rolebindings" namespace
    (new_object workflowRoleName namespace managed
       [("subjects", VList [VMap [("kind", VStr "ServiceAccount"); ("name", VStr workflowServiceAccount);
                                  ("namespace", VStr namespace)]]);
        ("roleRef", VMap [("apiGroup", VStr "rbac.authorization.k8s.io"); ("kind", VStr "Role");
                          ("name", VStr workflowRoleName)])])
    (fun err => Errorf "rolebinding %q already exists in namespace %q: %w"
                  [AStr workflowRoleName; AStr namespace; AErr err])
    (fun err => Errorf "create rolebinding %q in namespace %q: %w"
                  [AStr workflowRoleName; AStr namespace; AErr err]).

Definition DeleteWorkflowServiceAccount (namespace : string) : prog (res ()) :=
  try_ call (KDelete "serviceaccounts" namespace workflowServiceAccount)
    else (fun err => Err (if reason_is NotFound err
            then Errorf "service account %q not found in namespace %q: %w"
                   [AStr workflowServiceAccount; AStr namespace; AErr err]
            else Errorf "delete service account %q in namespace %q: %w"
                   [AStr workflowServiceAccount; AStr namespace; AErr err])) ;;
  Ret (Ok ()).

Definition RecreateWorkflowServiceAccount (namespace : string) : prog (res ()) :=
  r ← call (KDelete "serviceaccounts" namespace workflowServiceAccount);
  match r with
  | Err err =>
      if negb (reason_is NotFound err)
      then Ret (Err (Errorf "delete service account %q in namespace %q: %w"
                       [AStr workflowServiceAccount; AStr namespace; AErr err]))
      else CreateWorkflowServiceAccount namespace
  | Ok _ => CreateWorkflowServiceAccount namespace
  end.

(** ** Lemmas *)

Lemma map_get_set {A} k (v : A) m : map_get k (map_set k v m) = Some v.
Proof.
  induction m as [|[k' v'] m IH]; simpl; [by rewrite String.eqb_refl|].
  destruct (String.eqb k' k) eqn:E; simpl; [by rewrite String.eqb_refl|]. by rewrite E.
Qed.

Lemma map_get_set_ne {A} k k' (v : A) m : k <> k' -> map_get k' (map_set k v m) = map_get k' m.
Proof.
  intros Hne. induction m as [|[k1 v1] m IH]; simpl.
  - by rewrite (proj2 (String.eqb_neq _ _) Hne).
  - destruct (String.eqb_spec k1 k) as [->|]; simpl.
    + by rewrite (proj2 (String.eqb_neq _ _) Hne).
    + by rewrite IH.
Qed.

Lemma quotaPresets_valid preset :
  is_Some (quotaPresets !! preset) <-> preset ∈ ["small"; "medium"; "large"].
Proof.
  unfold quotaPresets. rewrite <- elem_of_dom. rewrite dom_list_to_map_L. set_solver.
Qed.

(** The object a helper asks the API to create, if any. *)
Definition creates {A} (p : prog A) : option (kind * string * object) :=
  match p with
  | Call (KCreate k ns o) _ => Some (k, ns, o)
  | _ => None
  end.

(** Every helper labels what it creates as managed, and creates it in the
    namespace it is given. *)
Lemma helpers_create_managed ns :
  Forall (fun p : prog (res ()) => exists k o,
            creates p = Some (k, ns, o) /\ o_labels o !! ManagedByLabel = Some ManagedByValue /\
            o_namespace o = ns)
    [CreateDefaultDenyPolicy ns; CreateDNSAllowPolicy ns; CreateLimitRange ns;
     CreateWorkflowServiceAccount ns; CreateWorkflowRole ns; CreateWorkflowRoleBinding ns].
Proof. repeat constructor; eexists _, _; split; reflexivity || (split; reflexivity). Qed.

(** The value at [spec.hard] of a quota. *)
Definition hard (o : object) : list (string * value) :=
  as_map (map_get "hard" (as_map (map_get "spec" (o_body o)))).
