(* ===== verification/Unstructured.v ===== *)
(** * Unstructured manifests

    A manifest is a Go [map[string]any].  The accessors of the apimachinery
    library's [unstructured] package are a parameter: each returns the typed
    field at a path, [None] where the library reports that it was not found or
    has another type (the program never tells the two apart).  [path_lib] is the
    instance that follows the path, used to evaluate examples. *)

From S2P Require Import Prelude GoStrings Effects K8sOps.
#[local] Open Scope string_scope.

Abbreviation manifest := (list (string * value)) (only parsing).

Class UnstructuredLib := {
  NestedFieldFound : manifest -> list string -> bool;
  NestedBool : manifest -> list string -> option bool;
  NestedInt64 : manifest -> list string -> option Z;
  NestedString : manifest -> list string -> option string;
  NestedSlice : manifest -> list string -> option (list value);
  NestedStringSlice : manifest -> list string -> option (list string);
  NestedStringMap : manifest -> list string -> option (list (string * string));
  NestedMap : manifest -> list string -> option (list (string * value));
  (** [SetNestedField] where the program looks at its error, and where it
      ignores it (the manifest is then unchanged on error). *)
  TrySetNestedField : manifest -> value -> list string -> res (list (string * value));
  SetNestedField : manifest -> value -> list string -> manifest;
  SetNestedSlice : manifest -> list value -> list string -> manifest;
  GetAPIVersion : manifest -> string;
  GetKind : manifest -> string;
  GetName : manifest -> string;
  GetLabels : manifest -> gmap string string;
  SetLabels : manifest -> gmap string string -> manifest;
  GetAnnotations : manifest -> gmap string string;
  SetAnnotations : manifest -> gmap string string -> manifest;
  SetNamespace : manifest -> string -> manifest;
  SetResourceVersion : manifest -> string -> manifest;
  (** [schema.ParseGroupVersion] *)
  ParseGroupVersion : string -> res (string * string);
}.

(** The object a dynamic client sends for a manifest. *)
Definition of_manifest `{UnstructuredLib} (ns : string) (m : manifest) : object :=
  {| o_name := GetName m; o_namespace := ns; o_labels := GetLabels m; o_annotations := GetAnnotations m;
     o_resourceVersion := default "" (NestedString m ["metadata"; "resourceVersion"]);
     o_created := 0; o_body := m |}.

(** ** The path library *)

Fixpoint at_path (v : value) (path : list string) : option value :=
  match path with
  | [] => Some v
  | k :: rest =>
      match v with
      | VMap m => match map_get k m with
                  | Some v' => at_path v' rest
                  | None => None
                  end
      | _ => None
      end
  end.

(** Set the field at a non-empty path, creating the maps on the way; [None] when
    something on the way is not a map. *)
Fixpoint set_path (m : manifest) (v : value) (path : list string) : option manifest :=
  match path with
  | [] => None
  | k :: rest =>
      match rest with
      | [] => Some (map_set k v m)
      | _ :: _ =>
          match map_get k m with
          | Some (VMap m') => m'' ← set_path m' v rest; Some (map_set k (VMap m'') m)
          | Some _ => None
          | None => m'' ← set_path [] v rest; Some (map_set k (VMap m'') m)
          end
      end
  end.
Definition set_field (m : manifest) (v : value) (path : list string) : manifest := default m (set_path m v path).

Definition as_string (v : value) : option string :=
  match v with
  | VStr s => Some s
  | _ => None
  end.
Definition get_string (m : manifest) (p : list string) : option string := at_path (VMap m) p ≫= as_string.
Definition get_string_map (m : manifest) (p : list string) : option (list (string * string)) :=
  match at_path (VMap m) p with
  | Some (VMap kvs) => mapM (fun kv => (fun s => (kv.1, s)) <$> as_string kv.2) kvs
  | _ => None
  end.

(** Set a string of the metadata; an empty one is removed instead. *)
Definition set_metadata (m : manifest) (key v : string) : manifest :=
  if String.eqb v "" then
    match map_get "metadata" m with
    | Some (VMap md) => map_set "metadata" (VMap (List.filter (fun kv => negb (String.eqb kv.1 key)) md)) m
    | _ => m
    end
  else set_field m (VStr v) ["metadata"; key].

Definition path_lib : UnstructuredLib :=
  {| NestedFieldFound := fun m p => bool_decide (is_Some (at_path (VMap m) p));
     NestedBool := fun m p => match at_path (VMap m) p with Some (VBool b) => Some b | _ => None end;
     NestedInt64 := fun m p => match at_path (VMap m) p with Some (VInt z) => Some z | _ => None end;
     NestedString := get_string;
     NestedSlice := fun m p => match at_path (VMap m) p with Some (VList l) => Some l | _ => None end;
     NestedStringSlice := fun m p => match at_path (VMap m) p with
                                     | Some (VList l) => mapM as_string l
                                     | _ => None
                                     end;
     NestedStringMap := get_string_map;
     NestedMap := fun m p => match at_path (VMap m) p with Some (VMap kvs) => Some kvs | _ => None end;
     TrySetNestedField := fun m v p => match set_path m v p with
                                       | Some m' => Ok m'
                                       | None => Err (ErrorNew "value cannot be set")
                                       end;
     SetNestedField := set_field;
     SetNestedSlice := fun m l p => set_field m (VList l) p;
     GetAPIVersion := fun m => default "" (get_string m ["apiVersion"]);
     GetKind := fun m => default "" (get_string m ["kind"]);
     GetName := fun m => default "" (get_string m ["metadata"; "name"]);
     GetLabels := fun m => list_to_map (default [] (get_string_map m ["metadata"; "labels"]));
     SetLabels := fun m l => set_field m (VMap ((fun kv => (kv.1, VStr kv.2)) <$> map_to_list l)) ["metadata"; "labels"];
     GetAnnotations := fun m => list_to_map (default [] (get_string_map m ["metadata"; "annotations"]));
     SetAnnotations := fun m l => set_field m (VMap ((fun kv => (kv.1, VStr kv.2)) <$> map_to_list l)) ["metadata"; "annotations"];
     SetNamespace := fun m ns => set_metadata m "namespace" ns;
     SetResourceVersion := fun m v => set_metadata m "resourceVersion" v;
     ParseGroupVersion := fun s => match Split s "/" with
                                   | [v] => Ok ("", v)
                                   | [g; v] => Ok (g, v)
                                   | _ => Err (ErrorNew "unexpected GroupVersion string")
                                   end |}.

(** Two paths part at some point. *)
Fixpoint apartb (p q : list string) : bool :=
  match p, q with
  | k1 :: p', k2 :: q' => if String.eqb k1 k2 then apartb p' q' else true
  | _, _ => false
  end.
(** Something on the way to the last field of the path is not a map. *)
Fixpoint blocked (m : manifest) (path : list string) : bool :=
  match path with
  | [] => false
  | k :: rest =>
      match rest with
      | [] => false
      | _ :: _ => match map_get k m with
                  | Some (VMap m') => blocked m' rest
                  | Some _ => true
                  | None => false
                  end
      end
  end.

(** The documented behaviour of the accessors and setters the theorems rely on:
    each follows the path of fields it is given.  The setters of one metadata
    field leave everything else, in particular the kind and the name, alone. *)
Class UnstructuredLaws (L : UnstructuredLib) : Prop := {
  law_Found m p : NestedFieldFound m p = bool_decide (is_Some (at_path (VMap m) p));
  law_Bool m p : NestedBool m p = match at_path (VMap m) p with Some (VBool b) => Some b | _ => None end;
  law_String m p : NestedString m p = get_string m p;
  law_Slice m p : NestedSlice m p = match at_path (VMap m) p with Some (VList l) => Some l | _ => None end;
  law_StringSlice m p : NestedStringSlice m p = match at_path (VMap m) p with
                                                | Some (VList l) => mapM as_string l
                                                | _ => None
                                                end;
  law_StringMap m p : NestedStringMap m p = get_string_map m p;
  law_Map m p : NestedMap m p = match at_path (VMap m) p with Some (VMap kvs) => Some kvs | _ => None end;
  law_TrySetField m v p : match TrySetNestedField m v p with
                          | Ok m' => set_path m v p = Some m'
                          | Err _ => set_path m v p = None
                          end;
  law_SetField m v p : SetNestedField m v p = set_field m v p;
  law_SetSlice m l p : SetNestedSlice m l p = set_field m (VList l) p;
  law_Name m : GetName m = default "" (get_string m ["metadata"; "name"]);
  law_SetRV_Name m v : GetName (SetResourceVersion m v) = GetName m;
  law_Annotations m a : blocked m ["metadata"; "annotations"] = false -> GetAnnotations (SetAnnotations m a) = a;
  law_SetAnnotations_ne m a p :
    apartb ["metadata"; "annotations"] p = true -> at_path (VMap (SetAnnotations m a)) p = at_path (VMap m) p;
  law_Kind m : GetKind m = default "" (get_string m ["kind"]);
}.
(** ** Lemmas *)

Lemma set_path_cons m v k k2 rest :
  set_path m v (k :: k2 :: rest) =
  match map_get k m with
  | Some (VMap m') => m'' ← set_path m' v (k2 :: rest); Some (map_set k (VMap m'') m)
  | Some _ => None
  | None => m'' ← set_path [] v (k2 :: rest); Some (map_set k (VMap m'') m)
  end.
Proof. done. Qed.

(** Setting a field and reading it back. *)
Lemma at_set_eq m v p m' : set_path m v p = Some m' -> at_path (VMap m') p = Some v.
Proof.
  revert m m'. induction p as [|k rest IH]; intros m m'; [done|].
  destruct rest as [|k2 rest]; [intros [= <-]; simpl; by rewrite map_get_set|].
  rewrite set_path_cons. intros H.
  destruct (map_get k m) as [[]|] eqn:Hk; try done;
    apply bind_Some in H as (m2 & H & [= <-]); cbn [at_path]; rewrite map_get_set; by eapply IH.
Qed.

(** Two paths that part at some point. *)
Inductive apart : list string -> list string -> Prop :=
  | apart_here k1 k2 p q : k1 <> k2 -> apart (k1 :: p) (k2 :: q)
  | apart_below k p q : apart p q -> apart (k :: p) (k :: q).

Lemma apartb_apart p q : apartb p q = true -> apart p q.
Proof.
  revert q. induction p as [|k1 p IH]; intros [|k2 q]; simpl; try done.
  destruct (String.eqb_spec k1 k2) as [->|Hne]; [by constructor 2; apply IH|by constructor].
Qed.

Lemma apartb_app r p q : apartb (r ++ p)%list (r ++ q)%list = apartb p q.
Proof. induction r as [|k r IH]; simpl; [done|]. by rewrite String.eqb_refl. Qed.

Lemma at_set_ne m v p q m' : set_path m v p = Some m' -> apart p q -> at_path (VMap m') q = at_path (VMap m) q.
Proof.
  intros H Ha. revert m m' H. induction Ha as [k1 k2 p q Hne|k p q Ha IH]; intros m m' H.
  - assert (exists v', m' = map_set k1 v' m) as [v' ->].
    { cbn [set_path] in H. destruct p as [|k3 p]; [injection H as <-; by eexists|].
      destruct (map_get k1 m) as [[]|]; try done; apply bind_Some in H as (m2 & _ & [= <-]); by eexists. }
    cbn [at_path]. by rewrite map_get_set_ne.
  - destruct p as [|k3 p]; [inversion Ha|]. rewrite set_path_cons in H.
    destruct (map_get k m) as [[]|] eqn:Hk; try done;
      apply bind_Some in H as (m2 & H & [= <-]); cbn [at_path]; rewrite map_get_set, Hk;
      rewrite (IH _ _ H); [done|]. by inversion Ha.
Qed.

Lemma at_set_field_ne m v p q : apartb p q = true -> at_path (VMap (set_field m v p)) q = at_path (VMap m) q.
Proof.
  intros Ha%apartb_apart. unfold set_field. destruct (set_path m v p) eqn:H; [|done]. by eapply at_set_ne.
Qed.

Lemma blocked_cons m k k2 rest :
  blocked m (k :: k2 :: rest) =
  match map_get k m with
  | Some (VMap m') => blocked m' (k2 :: rest)
  | Some _ => true
  | None => false
  end.
Proof. done. Qed.

Lemma blocked_empty p : blocked [] p = false.
Proof. by destruct p as [|k [|k2 p]]. Qed.

Lemma set_path_open m v p : p <> [] -> blocked m p = false -> exists m', set_path m v p = Some m'.
Proof.
  revert m. induction p as [|k rest IH]; intros m; [done|]. intros _.
  destruct rest as [|k2 rest]; [intros _; by eexists|]. rewrite set_path_cons, blocked_cons.
  destruct (map_get k m) as [[]|]; try done; intros Hb.
  - destruct (IH m0) as [m' ->]; [done..|]. by eexists.
  - destruct (IH []) as [m' ->]; [done|apply blocked_empty|]. by eexists.
Qed.

Lemma set_path_blocked m v p : blocked m p = true -> set_path m v p = None.
Proof.
  revert m. induction p as [|k rest IH]; intros m; [done|].
  destruct rest as [|k2 rest]; [done|]. rewrite set_path_cons, blocked_cons.
  destruct (map_get k m) as [[]|]; try done. by intros ->%IH.
Qed.

Lemma blocked_at m p : blocked m p = true -> at_path (VMap m) p = None.
Proof.
  revert m. induction p as [|k rest IH]; intros m; [done|].
  destruct rest as [|k2 rest]; [done|]. rewrite blocked_cons. cbn [at_path].
  destruct (map_get k m) as [[]|]; try done. intros H. by apply (IH m0).
Qed.

Lemma blocked_set_ne m v p q m' : set_path m v p = Some m' -> apart p q -> blocked m' q = blocked m q.
Proof.
  intros H Ha. revert m m' H. induction Ha as [k1 k2 p q Hne|k p q Ha IH]; intros m m' H.
  - assert (exists v', m' = map_set k1 v' m) as [v' ->].
    { cbn [set_path] in H. destruct p as [|k3 p]; [injection H as <-; by eexists|].
      destruct (map_get k1 m) as [[]|]; try done; apply bind_Some in H as (m2 & _ & [= <-]); by eexists. }
    destruct q as [|k3 q]; [done|]. rewrite !blocked_cons. by rewrite map_get_set_ne.
  - destruct p as [|k3 p]; [inversion Ha|]. destruct q as [|k4 q]; [inversion Ha|].
    rewrite set_path_cons in H. rewrite !blocked_cons.
    destruct (map_get k m) as [[]|] eqn:Hk; try done;
      apply bind_Some in H as (m2 & H & [= <-]); rewrite map_get_set; rewrite (IH _ _ H); [done|].
    apply blocked_empty.
Qed.

Lemma blocked_set_field m v p q : apartb p q = true -> blocked (set_field m v p) q = blocked m q.
Proof.
  intros Ha%apartb_apart. unfold set_field. destruct (set_path m v p) eqn:H; [|done]. by eapply blocked_set_ne.
Qed.

Lemma at_set_field m v p :
  p <> [] -> at_path (VMap (set_field m v p)) p = if blocked m p then None else Some v.
Proof.
  intros Hp. unfold set_field. destruct (blocked m p) eqn:Hb.
  - rewrite set_path_blocked by done. by apply blocked_at.
  - destruct (set_path_open m v p Hp Hb) as [m' H]. rewrite H. by eapply at_set_eq.
Qed.

Lemma at_not_blocked m p v : at_path (VMap m) p = Some v -> blocked m p = false.
Proof. intros H. destruct (blocked m p) eqn:Hb; [|done]. apply blocked_at in Hb. congruence. Qed.

Lemma map_get_filter_ne key k (m : manifest) :
  key <> k -> map_get k (List.filter (fun kv => negb (String.eqb kv.1 key)) m) = map_get k m.
Proof.
  intros Hne. induction m as [|[k' v'] m IH]; simpl; [done|].
  destruct (String.eqb_spec k' key) as [->|]; simpl; [|by rewrite IH].
  by rewrite IH, (proj2 (String.eqb_neq _ _) Hne).
Qed.

Lemma set_metadata_ne m key v k :
  key <> k -> at_path (VMap (set_metadata m key v)) ["metadata"; k] = at_path (VMap m) ["metadata"; k].
Proof.
  intros Hne. unfold set_metadata. destruct (String.eqb v "").
  - cbn [at_path]. destruct (map_get "metadata" m) as [[]|] eqn:Hm; try by rewrite Hm.
    by rewrite map_get_set, map_get_filter_ne.
  - apply at_set_field_ne. simpl. by rewrite (proj2 (String.eqb_neq _ _) Hne).
Qed.

Lemma mapM_strings (l : list (string * string)) :
  mapM (fun kv : string * value => (fun s => (kv.1, s)) <$> as_string kv.2) ((fun kv => (kv.1, VStr kv.2)) <$> l) = Some l.
Proof. apply mapM_Some, Forall2_fmap_l. induction l as [|[k v] l IH]; by constructor. Qed.

#[export] Instance path_laws : UnstructuredLaws path_lib.
Proof.
  split; try done.
  - intros m v p. simpl. by destruct (set_path m v p).
  - intros m v. simpl. unfold get_string. by rewrite set_metadata_ne.
  - intros m a Hb. cbn [GetAnnotations SetAnnotations path_lib]. unfold get_string_map.
    rewrite at_set_field, Hb, mapM_strings by done. apply list_to_map_to_list.
  - intros m a p Ha. by apply at_set_field_ne.
Qed.
