(* ===== verification/Json.v ===== *)
(** * JSON (encoding/json)

    Go's encoder on strings and string maps, which writes the credentials a
    workflow reads, and its decoder, which reads annotations, health reports and
    workflow output.  Numbers keep their literal text ([VFloat]); a typed decoder
    stands for one [json.Unmarshal] into a Go type, [None] for its error. *)

From S2P Require Import Prelude GoStrings Effects K8sOps.
#[local] Open Scope string_scope.
#[local] Open Scope nat_scope.

(** ** UTF-8 *)

Definition in_range (lo hi : nat) (c : ascii) : bool := (lo <=? code c) && (code c <=? hi).
Definition cont : ascii -> bool := in_range 128 191.

(** The ranges of the bytes that may follow a leading byte outside ASCII. *)
Definition rune_tail (c : ascii) : option (list (ascii -> bool)) :=
  let n := code c in
  if in_range 194 223 c then Some [cont]
  else if n =? 224 then Some [in_range 160 191; cont]
  else if n =? 237 then Some [in_range 128 159; cont]
  else if in_range 225 239 c then Some [cont; cont]
  else if n =? 240 then Some [in_range 144 191; cont; cont]
  else if in_range 241 243 c then Some [cont; cont; cont]
  else if n =? 244 then Some [in_range 128 143; cont; cont]
  else None.

Fixpoint take_tail (ps : list (ascii -> bool)) (s : string) : option (string * string) :=
  match ps with
  | [] => Some ("", s)
  | p :: ps' =>
      match s with
      | String c s' => if p c then '(t, rest) ← take_tail ps' s'; Some (String c t, rest) else None
      | EmptyString => None
      end
  end.

(** The first rune of a string, in its encoding, and the rest; [None] for an
    invalid byte. *)
Definition rune_at (s : string) : option (string * string) :=
  match s with
  | EmptyString => None
  | String c s' =>
      if is_ascii_char c then Some (String c "", s')
      else ps ← rune_tail c; '(t, rest) ← take_tail ps s'; Some (String c t, rest)
  end.

(** [utf8.EncodeRune] of a code point that is not a surrogate. *)
Definition utf8_lead (base k r : N) : ascii := ascii_of_N (base + r / k).
Definition utf8_low (k r : N) : ascii := ascii_of_N (128 + (r / k) mod 64).
Definition encode_rune (r : N) : string :=
  if (r <? 0x80)%N then String (ascii_of_N r) ""
  else if (r <? 0x800)%N then String (utf8_lead 0xC0 0x40 r) (String (utf8_low 1 r) "")
  else if (r <? 0x10000)%N
  then String (utf8_lead 0xE0 0x1000 r) (String (utf8_low 0x40 r) (String (utf8_low 1 r) ""))
  else String (utf8_lead 0xF0 0x40000 r)
         (String (utf8_low 0x1000 r) (String (utf8_low 0x40 r) (String (utf8_low 1 r) ""))).

Definition rune_error : string := bytes_of [239; 191; 189].

(** ** Encoding *)

Definition u_escape (h1 h2 h3 h4 : ascii) : string :=
  String backslash (String "u" (String h1 (String h2 (String h3 (String h4 ""))))).

Definition html_safe (c : ascii) : bool :=
  (32 <=? code c) && negb (Ascii.eqb c dquote || Ascii.eqb c backslash || Ascii.eqb c "<" || Ascii.eqb c ">" || Ascii.eqb c "&").

(** A byte of ASCII inside a JSON string. *)
Definition encode_byte (c : ascii) : string :=
  if html_safe c then String c ""
  else if Ascii.eqb c dquote || Ascii.eqb c backslash then String backslash (String c "")
  else if code c =? 8 then String backslash "b"
  else if code c =? 12 then String backslash "f"
  else if code c =? 10 then String backslash "n"
  else if code c =? 13 then String backslash "r"
  else if code c =? 9 then String backslash "t"
  else u_escape "0" "0" (hex_digit (code c / 16)) (hex_digit (Nat.modulo (code c) 16)).

Definition line_separator : string := bytes_of [226; 128; 168].
Definition paragraph_separator : string := bytes_of [226; 128; 169].

Definition encode_rune_text (r : string) : string :=
  match r with
  | String c "" => encode_byte c
  | _ => if String.eqb r line_separator then u_escape "2" "0" "2" "8"
         else if String.eqb r paragraph_separator then u_escape "2" "0" "2" "9"
         else r
  end.

(** The body of a JSON string; the fuel is the length of the text. *)
Fixpoint encode_body (fuel : nat) (s : string) : string :=
  match fuel, s with
  | S n, String c s' =>
      match rune_at s with
      | Some (r, rest) => encode_rune_text r +:+ encode_body n rest
      | None => u_escape "f" "f" "f" "d" +:+ encode_body n s'
      end
  | _, _ => ""
  end.

Definition encode_string (s : string) : string :=
  String dquote (encode_body (String.length s) s +:+ String dquote "").

(** [json.Marshal] of a [map[string]string]: the keys in order. *)
Definition marshal_member (kv : string * string) : string := encode_string kv.1 +:+ ":" +:+ encode_string kv.2.
Definition MarshalStringMap (m : list (string * string)) : string :=
  "{" +:+ Join (marshal_member <$> isort (fun a b => str_leb a.1 b.1) m) "," +:+ "}".

(** ** Decoding *)

Definition json_space (c : ascii) : bool :=
  Ascii.eqb c " " || (code c =? 9) || (code c =? 10) || (code c =? 13).
Fixpoint skip_space (s : string) : string :=
  match s with
  | String c s' => if json_space c then skip_space s' else s
  | EmptyString => ""
  end.

Definition hex_val (c : ascii) : option N :=
  if is_digit c then Some (N_of_ascii c - 48)%N
  else if between "a" "f" c then Some (N_of_ascii c - 87)%N
  else if between "A" "F" c then Some (N_of_ascii c - 55)%N
  else None.
Definition u4 (a b c d : ascii) : option N :=
  a ← hex_val a; b ← hex_val b; c ← hex_val c; d ← hex_val d; Some (((a * 16 + b) * 16 + c) * 16 + d)%N.

Definition high_surrogate (r : N) : bool := (0xD800 <=? r)%N && (r <? 0xDC00)%N.
Definition low_surrogate (r : N) : bool := (0xDC00 <=? r)%N && (r <? 0xE000)%N.

(** The code unit [\uXXXX] a string starts with, after the backslash. *)
Definition u_unit (s : string) : option (N * string) :=
  match s with
  | String "u" (String a (String b (String c (String d rest)))) => r ← u4 a b c d; Some (r, rest)
  | _ => None
  end.

(** An escape after its backslash: the text it stands for. *)
Definition decode_escape (s : string) : option (string * string) :=
  match s with
  | EmptyString => None
  | String c rest =>
      if Ascii.eqb c dquote || Ascii.eqb c backslash || Ascii.eqb c "/" then Some (String c "", rest)
      else if Ascii.eqb c "b" then Some (bytes_of [8], rest)
      else if Ascii.eqb c "f" then Some (bytes_of [12], rest)
      else if Ascii.eqb c "n" then Some (bytes_of [10], rest)
      else if Ascii.eqb c "r" then Some (bytes_of [13], rest)
      else if Ascii.eqb c "t" then Some (bytes_of [9], rest)
      else
        '(r, rest) ← u_unit s;
        if high_surrogate r then
          match rest with
          | String b rest' =>
              if Ascii.eqb b backslash then
                match u_unit rest' with
                | Some (r2, rest2) =>
                    if low_surrogate r2
                    then Some (encode_rune (0x10000 + (r - 0xD800) * 0x400 + (r2 - 0xDC00))%N, rest2)
                    else Some (rune_error, rest)
                | None => Some (rune_error, rest)
                end
              else Some (rune_error, rest)
          | EmptyString => Some (rune_error, rest)
          end
        else if low_surrogate r then Some (rune_error, rest)
        else Some (encode_rune r, rest)
  end.

(** The rest of a string literal after its opening quote. *)
Fixpoint decode_body (fuel : nat) (s : string) : option (string * string) :=
  match fuel, s with
  | S n, String c s' =>
      if Ascii.eqb c dquote then Some ("", s')
      else if Ascii.eqb c backslash then
        '(r, rest) ← decode_escape s';
        '(t, rest') ← decode_body n rest; Some (r +:+ t, rest')
      else if code c <? 32 then None
      else
        let (r, rest) := default (rune_error, s') (rune_at s) in
        '(t, rest') ← decode_body n rest; Some (r +:+ t, rest')
  | _, _ => None
  end.

Definition parse_string (s : string) : option (string * string) :=
  match s with
  | String c s' => if Ascii.eqb c dquote then decode_body (String.length s') s' else None
  | EmptyString => None
  end.

(** *** Numbers *)

Fixpoint span (p : ascii -> bool) (s : string) : string * string :=
  match s with
  | String c s' => if p c then let (a, b) := span p s' in (String c a, b) else ("", s)
  | EmptyString => ("", "")
  end.
Definition digits1 (s : string) : option (string * string) :=
  let (a, b) := span is_digit s in if String.eqb a "" then None else Some (a, b).

Definition parse_int_part (s : string) : option (string * string) :=
  match s with
  | String "0" rest => Some ("0", rest)
  | _ => digits1 s
  end.
Definition parse_frac (s : string) : option (string * string) :=
  match s with
  | String "." rest => '(d, rest) ← digits1 rest; Some (String "." d, rest)
  | _ => Some ("", s)
  end.
Definition parse_exp (s : string) : option (string * string) :=
  match s with
  | String e rest =>
      if Ascii.eqb e "e" || Ascii.eqb e "E" then
        let (sign, rest) := match rest with
                            | String c rest' => if Ascii.eqb c "+" || Ascii.eqb c "-" then (String c "", rest') else ("", rest)
                            | EmptyString => ("", rest)
                            end in
        '(d, rest) ← digits1 rest; Some (String e (sign +:+ d), rest)
      else Some ("", s)
  | EmptyString => Some ("", s)
  end.
Definition parse_number (s : string) : option (value * string) :=
  let (sign, s) := match s with String "-" rest => ("-", rest) | _ => ("", s) end in
  '(i, s) ← parse_int_part s;
  '(f, s) ← parse_frac s;
  '(e, s) ← parse_exp s;
  Some (VFloat (sign +:+ i +:+ f +:+ e), s).

Definition parse_literal (s : string) : option (value * string) :=
  if HasPrefix s "null" then Some (VNull, str_drop 4 s)
  else if HasPrefix s "true" then Some (VBool true, str_drop 4 s)
  else if HasPrefix s "false" then Some (VBool false, str_drop 5 s)
  else None.

(** *** Values *)

(** The decoder's bound on nesting. *)
Definition maxNestingDepth : Z := 10000.

(** A value, the elements of an array after a first one is due, the members of
    an object; the fuel bounds the number of bytes read. *)
Fixpoint parse_value (fuel : nat) (depth : Z) (s : string) : option (value * string) :=
  match fuel with
  | 0 => None
  | S n =>
      match skip_space s with
      | EmptyString => None
      | String c rest =>
          if Ascii.eqb c dquote then '(t, rest) ← parse_string (String c rest); Some (VStr t, rest)
          else if Ascii.eqb c "[" then
            if (maxNestingDepth <=? depth)%Z then None
            else match skip_space rest with
                 | String "]" rest' => Some (VList [], rest')
                 | _ => '(l, rest) ← parse_elements n (depth + 1) rest; Some (VList l, rest)
                 end
          else if Ascii.eqb c "{" then
            if (maxNestingDepth <=? depth)%Z then None
            else match skip_space rest with
                 | String "}" rest' => Some (VMap [], rest')
                 | _ => '(m, rest) ← parse_members n (depth + 1) rest; Some (VMap m, rest)
                 end
          else if is_digit c || Ascii.eqb c "-" then parse_number (String c rest)
          else parse_literal (String c rest)
      end
  end
with parse_elements (fuel : nat) (depth : Z) (s : string) : option (list value * string) :=
  match fuel with
  | 0 => None
  | S n =>
      '(v, rest) ← parse_value n depth s;
      match skip_space rest with
      | String "," rest => '(l, rest) ← parse_elements n depth rest; Some (v :: l, rest)
      | String "]" rest => Some ([v], rest)
      | _ => None
      end
  end
with parse_members (fuel : nat) (depth : Z) (s : string) : option (list (string * value) * string) :=
  match fuel with
  | 0 => None
  | S n =>
      '(k, rest) ← parse_string (skip_space s);
      match skip_space rest with
      | String ":" rest =>
          '(v, rest) ← parse_value n depth rest;
          match skip_space rest with
          | String "," rest => '(m, rest) ← parse_members n depth rest; Some ((k, v) :: m, rest)
          | String "}" rest => Some ([(k, v)], rest)
          | _ => None
          end
      | _ => None
      end
  end.

(** A whole document.  Objects keep every member, in order. *)
Definition parse_json (s : string) : option value :=
  '(v, rest) ← parse_value (2 * String.length s + 2) 0 s;
  if String.eqb (skip_space rest) "" then Some v else None.

(** *** Typed decoding

    Each decoder takes the value the Go variable holds, which null leaves alone. *)

Definition decode_string (old : string) (v : value) : option string :=
  match v with
  | VNull => Some old
  | VStr s => Some s
  | _ => None
  end.
Definition decode_bool (old : bool) (v : value) : option bool :=
  match v with
  | VNull => Some old
  | VBool b => Some b
  | _ => None
  end.

Definition digit_val (c : ascii) : Z := Z.of_nat (code c - 48).
Fixpoint digits_val (acc : Z) (s : string) : option Z :=
  match s with
  | EmptyString => Some acc
  | String c s' => if is_digit c then digits_val (10 * acc + digit_val c) s' else None
  end.
(** [strconv.ParseInt] in base 10 at 64 bits, on a text without underscores. *)
Definition ParseInt64 (s : string) : option Z :=
  let (neg, d) := match s with
                  | String "-" d => (true, d)
                  | String "+" d => (false, d)
                  | _ => (false, s)
                  end in
  if String.eqb d "" then None
  else
    n ← digits_val 0 d;
    let z := if neg then (- n)%Z else n in
    if (- 2 ^ 63 <=? z)%Z && (z <? 2 ^ 63)%Z then Some z else None.

(** A number into an [int]: its literal must be an integer. *)
Definition decode_int (old : Z) (v : value) : option Z :=
  match v with
  | VNull => Some old
  | VFloat text => ParseInt64 text
  | _ => None
  end.

Definition decode_list {A} (zero : A) (dec : A -> value -> option A) (v : value) : option (list A) :=
  match v with
  | VNull => Some []
  | VList l => mapM (dec zero) l
  | _ => None
  end.

(** The folding of member names: case is ignored, also for the two runes outside
    ASCII that fold to letters. *)
Fixpoint fold_name (s : string) : string :=
  match s with
  | String c s' =>
      match s' with
      | String d s'' =>
          match s'' with
          | String e s3 =>
              if (code c =? 226) && (code d =? 132) && (code e =? 170) then String "k" (fold_name s3)
              else if (code c =? 197) && (code d =? 191) then String "s" (fold_name s'')
              else String (lower_char c) (fold_name s')
          | EmptyString =>
              if (code c =? 197) && (code d =? 191) then "s" else String (lower_char c) (fold_name s')
          end
      | EmptyString => String (lower_char c) ""
      end
  | EmptyString => ""
  end.

(** A value into an [any]: of members with the same name the last counts. *)
Fixpoint decode_any (v : value) : value :=
  match v with
  | VList l => VList (map decode_any l)
  | VMap m => VMap (fold_left (fun acc kv => map_set kv.1 (decode_any kv.2) acc) m [])
  | _ => v
  end.

(** An object into a [map[string]any], which null leaves nil. *)
Definition decode_object (v : value) : option (option (list (string * value))) :=
  match v with
  | VNull => Some None
  | VMap m => match decode_any (VMap m) with
              | VMap m => Some (Some m)
              | _ => None
              end
  | _ => None
  end.

(** A struct, as the list of its member names with the decoders that set them. *)
Abbreviation fields A := (list (string * (A -> value -> option A))) (only parsing).
Definition find_field {A} (fs : fields A) (name : string) : option (A -> value -> option A) :=
  match map_get name fs with
  | Some f => Some f
  | None => snd <$> head (List.filter (fun f => String.eqb (fold_name f.1) (fold_name name)) fs)
  end.
Fixpoint decode_members {A} (fs : fields A) (x : A) (m : list (string * value)) : option A :=
  match m with
  | [] => Some x
  | (name, v) :: m' =>
      match find_field fs name with
      | Some f => x' ← f x v; decode_members fs x' m'
      | None => decode_members fs x m'
      end
  end.
Definition decode_struct {A} (fs : fields A) (old : A) (v : value) : option A :=
  match v with
  | VNull => Some old
  | VMap m => decode_members fs old m
  | _ => None
  end.

(** Why decoding failed; the text is not modelled. *)
Definition json_error : error := ErrorNew "json".

(** [json.Unmarshal] with the decoder of the target. *)
Definition Unmarshal {A} (dec : value -> option A) (text : string) : option A := parse_json text ≫= dec.

Example json_examples :
  MarshalStringMap [("url", "nats://h?a=1&b=<2>"); ("auth", "to" +:+ String dquote "ken")] =
    "{" +:+ encode_string "auth" +:+ ":" +:+ encode_string ("to" +:+ String dquote "ken") +:+ "," +:+
      encode_string "url" +:+ ":" +:+ encode_string "nats://h?a=1&b=<2>" +:+ "}" /\
  parse_json " [1.5e3, -0, true , null, {}]" =
    Some (VList [VFloat "1.5e3"; VFloat "-0"; VBool true; VNull; VMap []]) /\
  parse_json "[1,]" = None /\ parse_json "01" = None /\ parse_json "" = None /\ parse_json "{} x" = None /\
  parse_json (encode_string "a<b>&" ) = Some (VStr "a<b>&").
Proof. repeat split; vm_compute; reflexivity. Qed.

(** ** Lemmas *)

(** Well-formed text: runes up to the end. *)
Inductive utf8 : string -> Prop :=
  | utf8_nil : utf8 ""
  | utf8_rune r t s : rune_at s = Some (r, t) -> utf8 t -> utf8 s.

Lemma ascii_utf8 s : is_ascii s = true -> utf8 s.
Proof.
  induction s as [|c s IH]; [constructor|]. intros [Hc Hs]%andb_true_iff.
  apply (utf8_rune (String c "") s); [|by apply IH]. simpl. by rewrite Hc.
Qed.

Lemma take_tail_app ps s t rest :
  take_tail ps s = Some (t, rest) -> s = t +:+ rest /\ forall X, take_tail ps (t +:+ X) = Some (t, X).
Proof.
  revert s t. induction ps as [|p ps IH]; intros s t; simpl; [by intros [= <- <-]|].
  destruct s as [|c s]; [done|]. destruct (p c) eqn:Hp; [|done].
  intros ([t' rest'] & H & [= <- <-])%bind_Some. destruct (IH _ _ H) as [-> HX].
  split; [done|]. intros X. simpl. by rewrite Hp, HX.
Qed.

(** The first rune stands for itself in any context. *)
Lemma rune_at_app s r t :
  rune_at s = Some (r, t) -> s = r +:+ t /\ forall X, rune_at (r +:+ X) = Some (r, X).
Proof.
  destruct s as [|c s]; [done|]. unfold rune_at at 1. destruct (is_ascii_char c) eqn:Hc.
  - intros [= <- <-]. split; [done|]. intros X. simpl. by rewrite Hc.
  - intros (ps & Hps & ([t' rest] & H & [= <- <-])%bind_Some)%bind_Some.
    destruct (take_tail_app _ _ _ _ H) as [-> HX]. split; [done|]. intros X. simpl. by rewrite Hc, Hps; simpl; rewrite HX.
Qed.

(** What the first rune looks like. *)
Lemma rune_at_cases s r t :
  rune_at s = Some (r, t) ->
  exists c tl, r = String c tl /\ (is_ascii_char c = true /\ tl = "" \/ is_ascii_char c = false /\ tl <> "").
Proof.
  destruct s as [|c s]; [done|]. unfold rune_at. destruct (is_ascii_char c) eqn:Hc.
  - intros [= <- <-]. exists c, "". split; [done|]. by left.
  - intros (ps & Hps & ([t' rest] & H & [= <- <-])%bind_Some)%bind_Some. exists c, t'. split; [done|]. right. split; [done|].
    intros ->. unfold rune_tail in Hps. repeat case_match; simplify_eq; destruct s; simpl in H;
      repeat case_match; simplify_option_eq; try done; by repeat case_match.
Qed.

Lemma decode_body_cons n c s :
  decode_body (S n) (String c s) =
  if Ascii.eqb c dquote then Some ("", s)
  else if Ascii.eqb c backslash then
    '(r, rest) ← decode_escape s;
    '(t, rest') ← decode_body n rest; Some (r +:+ t, rest')
  else if code c <? 32 then None
  else
    let (r, rest) := default (rune_error, s) (rune_at (String c s)) in
    '(t, rest') ← decode_body n rest; Some (r +:+ t, rest').
Proof. done. Qed.

(** One byte of ASCII through the encoder and the decoder. *)
Lemma decode_encode_byte c n X :
  is_ascii_char c = true ->
  decode_body (S n) (encode_byte c +:+ X) = '(t, rest) ← decode_body n X; Some (String c "" +:+ t, rest).
Proof.
  destruct c as [[] [] [] [] [] [] [] []]; intros Hc; try discriminate Hc; reflexivity.
Qed.

Lemma decode_encode_rune s r t n X :
  rune_at s = Some (r, t) ->
  decode_body (S n) (encode_rune_text r +:+ X) = '(t, rest) ← decode_body n X; Some (r +:+ t, rest).
Proof.
  intros Hr. destruct (rune_at_cases _ _ _ Hr) as (c & tl & -> & [[Hc ->]|[Hc Htl]]).
  - by apply decode_encode_byte.
  - destruct (rune_at_app _ _ _ Hr) as [_ HX]. destruct tl as [|c2 tl]; [done|]. unfold encode_rune_text.
    destruct (String.eqb_spec (String c (String c2 tl)) line_separator) as [->|_]; [reflexivity|].
    destruct (String.eqb_spec (String c (String c2 tl)) paragraph_separator) as [->|_]; [reflexivity|].
    specialize (HX X). change (String c (String c2 tl) +:+ X) with (String c (String c2 tl +:+ X)) in *.
    rewrite decode_body_cons, HX. cbn [default from_option].
    unfold is_ascii_char in Hc. apply Nat.ltb_ge in Hc.
    destruct (Ascii.eqb_spec c dquote) as [->|_]; [by apply Nat.leb_le in Hc|].
    destruct (Ascii.eqb_spec c backslash) as [->|_]; [by apply Nat.leb_le in Hc|].
    by rewrite (proj2 (Nat.ltb_ge (code c) 32)) by lia.
Qed.

Lemma encode_rune_text_length s r t : rune_at s = Some (r, t) -> 1 <= String.length (encode_rune_text r).
Proof.
  intros Hr. destruct (rune_at_cases _ _ _ Hr) as (c & tl & -> & [[Hc ->]|[Hc Htl]]).
  - simpl. unfold encode_byte. repeat case_match; simpl; lia.
  - destruct tl as [|c2 tl]; [done|]. unfold encode_rune_text. repeat case_match; simpl; lia.
Qed.

Lemma decode_encode_body s n m rest :
  utf8 s -> String.length s <= n -> String.length (encode_body n s) < m ->
  decode_body m (encode_body n s +:+ String dquote rest) = Some (s, rest).
Proof.
  intros Hs. revert n m. induction Hs as [|r t s Hr Ht IH]; intros n m Hn Hm.
  - destruct m; [lia|]. by destruct n.
  - destruct (rune_at_cases _ _ _ Hr) as (c & tl & Hrc & _).
    destruct (rune_at_app _ _ _ Hr) as [-> _]. rewrite str_length_app in Hn.
    destruct n as [|n]; [subst r; simpl in Hn; lia|].
    assert (encode_body (S n) (r +:+ t) = encode_rune_text r +:+ encode_body n t) as He.
    { revert Hr. subst r. simpl. intros Hr. by rewrite Hr. }
    rewrite He in *. rewrite str_length_app in Hm. pose proof (encode_rune_text_length _ _ _ Hr).
    destruct m as [|m]; [lia|]. rewrite str_app_assoc, (decode_encode_rune _ _ _ _ _ Hr).
    rewrite IH; [done| |lia]. subst r. simpl in Hn. lia.
Qed.

(** A string literal is read back. *)
Lemma parse_encode_string s rest : utf8 s -> parse_string (encode_string s +:+ rest) = Some (s, rest).
Proof.
  intros Hs. unfold encode_string. change (String dquote ?x +:+ rest) with (String dquote (x +:+ rest)).
  unfold parse_string. rewrite Ascii.eqb_refl, str_app_assoc.
  apply decode_encode_body; [done..|]. rewrite str_length_app. simpl. lia.
Qed.

Definition as_strings (m : list (string * string)) : list (string * value) := (fun kv => (kv.1, VStr kv.2)) <$> m.

Lemma skip_space_quote s : skip_space (encode_string s) = encode_string s.
Proof. done. Qed.

Lemma skip_space_encoded s rest : skip_space (encode_string s +:+ rest) = encode_string s +:+ rest.
Proof. done. Qed.

Lemma parse_value_string n depth s rest :
  utf8 s -> parse_value (S n) depth (encode_string s +:+ rest) = Some (VStr s, rest).
Proof.
  intros Hs. pose proof (parse_encode_string s rest Hs) as Hp. cbn [parse_value]. rewrite skip_space_encoded.
  unfold encode_string in *. cbn [String.append] in *.
  change (String dquote ?x +:+ rest) with (String dquote (x +:+ rest)) in *.
  cbv iota. rewrite Ascii.eqb_refl, Hp. done.
Qed.

Lemma parse_members_marshal m kv n depth rest :
  Forall (fun kv => utf8 kv.1 /\ utf8 kv.2) (kv :: m) -> S (length m) < n ->
  parse_members n depth (Join (marshal_member <$> kv :: m) "," +:+ "}" +:+ rest) =
  Some (as_strings (kv :: m), rest).
Proof.
  revert kv n. induction m as [|kv2 m IH]; intros kv n [[Hk Hv] Hm]%Forall_cons Hn.
  - destruct n as [|[|n]]; [simpl in Hn; lia..|].
    change (Join (marshal_member <$> [kv]) ",") with (marshal_member kv). unfold marshal_member.
    rewrite !str_app_assoc. remember (S n) as n1. cbn [parse_members]. rewrite skip_space_encoded, parse_encode_string by done.
    cbn [mbind option_bind]. change (skip_space (":" +:+ ?x)) with (String ":" x).
    cbv iota. subst n1. rewrite parse_value_string by done. done.
  - destruct n as [|[|n]]; [simpl in Hn; lia..|].
    change (Join (marshal_member <$> kv :: kv2 :: m) ",") with
      (marshal_member kv +:+ "," +:+ Join (marshal_member <$> kv2 :: m) ","). unfold marshal_member at 1.
    rewrite !str_app_assoc. remember (S n) as n1. cbn [parse_members]. rewrite skip_space_encoded, parse_encode_string by done.
    cbn [mbind option_bind]. change (skip_space (":" +:+ ?x)) with (String ":" x).
    cbv iota. subst n1. rewrite parse_value_string by done. cbn [mbind option_bind].
    change (skip_space ("," +:+ ?x)) with (String "," x). cbv iota.
    rewrite IH; [done|done|]. simpl in Hn |- *. lia.
Qed.

Lemma Join_length_ge (l : list string) sep :
  Forall (fun x => 1 <= String.length x) l -> length l <= String.length (Join l sep).
Proof.
  intros Hl. induction Hl as [|x l Hx Hl IH]; [done|].
  destruct l as [|y l]; [simpl; lia|].
  change (Join (x :: y :: l) sep) with (x +:+ sep +:+ Join (y :: l) sep). rewrite !str_length_app. simpl in *. lia.
Qed.

Lemma marshal_member_length kv : 1 <= String.length (marshal_member kv).
Proof. unfold marshal_member, encode_string. simpl. lia. Qed.

(** *** Fuel *)

Lemma skip_space_length s : String.length (skip_space s) <= String.length s.
Proof. induction s as [|c s IH]; simpl; [lia|]. destruct (json_space c); simpl; lia. Qed.

Lemma take_tail_length ps s t rest : take_tail ps s = Some (t, rest) -> String.length rest <= String.length s.
Proof. intros [-> _]%take_tail_app. rewrite str_length_app. lia. Qed.

Lemma rune_at_length s r rest : rune_at s = Some (r, rest) -> String.length rest < String.length s.
Proof.
  intros Hr. destruct (rune_at_cases _ _ _ Hr) as (c & tl & -> & _). apply rune_at_app in Hr as [-> _].
  rewrite str_length_app. simpl. lia.
Qed.

Lemma u_unit_length s r rest : u_unit s = Some (r, rest) -> String.length rest < String.length s.
Proof.
  unfold u_unit. repeat case_match; try done. intros (x & _ & [= _ ->])%bind_Some. simpl. lia.
Qed.

Lemma decode_escape_length s r rest : decode_escape s = Some (r, rest) -> String.length rest < String.length s.
Proof.
  destruct s as [|c s]; [done|]. unfold decode_escape. repeat (case_match; [intros [= _ <-]; simpl; lia|]).
  intros ([u s2] & Hu%u_unit_length & Hrest)%bind_Some.
  repeat case_match; simplify_eq; try lia.
  all: match goal with H : u_unit _ = Some _ |- _ => apply u_unit_length in H end; simpl in *; lia.
Qed.

Lemma decode_body_length n s r rest : decode_body n s = Some (r, rest) -> String.length rest < String.length s.
Proof.
  revert s r rest. induction n as [|n IH]; intros s r rest; [by destruct s|]. destruct s as [|c s]; [done|].
  rewrite decode_body_cons. case_match; [intros [= _ <-]; simpl; lia|]. case_match; [|case_match; [done|]].
  - intros ([e s2] & He%decode_escape_length & ([t s3] & Ht%IH & [= _ <-])%bind_Some)%bind_Some. simpl. lia.
  - destruct (rune_at (String c s)) as [[e s2]|] eqn:Hr; simpl; intros ([t s3] & Ht%IH & [= _ <-])%bind_Some;
      [apply rune_at_length in Hr; simpl in Hr; lia|lia].
Qed.

Lemma parse_string_length s r rest : parse_string s = Some (r, rest) -> String.length rest < String.length s.
Proof. destruct s as [|c s]; [done|]. simpl. case_match; [|done]. intros Hd%decode_body_length. lia. Qed.

Lemma span_length p s : String.length (span p s).2 + String.length (span p s).1 = String.length s.
Proof. induction s as [|c s IH]; simpl; [done|]. destruct (p c); [|done]. destruct (span p s). simpl in *. lia. Qed.

Lemma digits1_length s d rest : digits1 s = Some (d, rest) -> String.length rest < String.length s.
Proof.
  unfold digits1. pose proof (span_length is_digit s). destruct (span is_digit s) as [a b].
  destruct (String.eqb_spec a "") as [|Ha]; [done|]. intros [= _ <-]. destruct a; [done|]. simpl in *. lia.
Qed.

Lemma parse_number_length s v rest : parse_number s = Some (v, rest) -> String.length rest < String.length s.
Proof.
  unfold parse_number. destruct (match s with String "-" _ => _ | _ => _ end) as [sign s1] eqn:Hs.
  assert (String.length s1 <= String.length s) as Hle.
  { repeat case_match; simplify_eq; simpl; lia. }
  clear Hs. intros ([i s2] & Hi & ([f s3] & Hf & ([e s4] & He & [= _ <-])%bind_Some)%bind_Some)%bind_Some.
  assert (String.length s2 < String.length s1).
  { unfold parse_int_part in Hi. repeat case_match; simplify_eq; simpl; try lia; by apply digits1_length in Hi. }
  assert (String.length s3 <= String.length s2).
  { unfold parse_frac in Hf. repeat case_match; simplify_eq; simpl; try lia.
    apply bind_Some in Hf as ([d r] & Hd%digits1_length & [= _ <-]). lia. }
  assert (String.length s4 <= String.length s3); [|lia].
  unfold parse_exp in He. repeat case_match; simplify_eq; simpl; try lia;
    apply bind_Some in He as ([d r] & Hd%digits1_length & [= _ <-]); simpl in *; lia.
Qed.

Lemma str_drop_length n s : String.length (str_drop n s) <= String.length s.
Proof. revert s. induction n as [|n IH]; intros [|c s]; simpl; try lia. pose proof (IH s). lia. Qed.

Lemma parse_literal_length c s v rest :
  parse_literal (String c s) = Some (v, rest) -> String.length rest < String.length (String c s).
Proof.
  unfold parse_literal. pose proof (str_drop_length 3 s). pose proof (str_drop_length 4 s).
  repeat case_match; try done; intros [= _ <-]; simpl in *; lia.
Qed.

(** What the three parsers consume. *)
Lemma parsers_length n :
  (forall depth s v rest, parse_value n depth s = Some (v, rest) -> String.length rest < String.length s) /\
  (forall depth s l rest, parse_elements n depth s = Some (l, rest) -> String.length rest < String.length s) /\
  (forall depth s m rest, parse_members n depth s = Some (m, rest) -> String.length rest < String.length s).
Proof.
  induction n as [|n (IHv & IHe & IHm)]; [done|]. split_and!.
  - intros depth s v rest. cbn [parse_value]. pose proof (skip_space_length s).
    destruct (skip_space s) as [|c t] eqn:Hs; [done|]. cbn [String.length] in *.
    case_match.
    { intros ([x r] & Hx%parse_string_length & [= _ <-])%bind_Some. simpl in *. lia. }
    pose proof (skip_space_length t) as Hsp.
    do 2 (case_match; [case_match; [done|];
      repeat case_match; try (intros [= _ <-]; simpl in *; lia);
      intros ([x r] & Hx & [= _ <-])%bind_Some; first [apply IHe in Hx|apply IHm in Hx]; lia|]).
    case_match; intros Hx; [apply parse_number_length in Hx|apply parse_literal_length in Hx]; simpl in *; lia.
  - intros depth s l rest. cbn [parse_elements]. intros ([v t] & Hv%IHv & Hl)%bind_Some.
    pose proof (skip_space_length t) as Hsp. repeat case_match; simplify_eq; simpl in *; try lia.
    apply bind_Some in Hl as ([l2 r] & Hl%IHe & [= _ <-]). lia.
  - intros depth s m rest. cbn [parse_members]. pose proof (skip_space_length s).
    intros ([k t] & Hk%parse_string_length & H2)%bind_Some. pose proof (skip_space_length t) as Hsp.
    repeat case_match; simplify_eq. apply bind_Some in H2 as ([v u] & Hv%IHv & H2).
    pose proof (skip_space_length u) as Hsu. simpl in *.
    repeat case_match; simplify_eq; simpl in *; try lia.
    apply bind_Some in H2 as ([m2 r] & Hl%IHm & [= _ <-]). lia.
Qed.

(** The results do not depend on the fuel once it covers the text. *)
Lemma parsers_fuel n :
  (forall m depth s, 2 * String.length s < n -> n <= m -> parse_value m depth s = parse_value n depth s) /\
  (forall m depth s, 2 * String.length s + 1 < n -> n <= m -> parse_elements m depth s = parse_elements n depth s) /\
  (forall m depth s, 2 * String.length s + 1 < n -> n <= m -> parse_members m depth s = parse_members n depth s).
Proof.
  induction n as [|n (IHv & IHe & IHm)]; [split_and!; lia|]. split_and!; intros [|m] depth s Hn Hm; try lia.
  - cbn [parse_value]. pose proof (skip_space_length s). destruct (skip_space s) as [|c t]; [done|].
    simpl in *. rewrite IHe, IHm by lia. done.
  - cbn [parse_elements]. rewrite IHv by lia. destruct (parse_value n depth s) as [[v t]|] eqn:Hv; [|done].
    apply (proj1 (parsers_length n)) in Hv. cbn [mbind option_bind]. pose proof (skip_space_length t).
    destruct (skip_space t) as [|c u]; [done|]. simpl in *. rewrite IHe by lia. done.
  - cbn [parse_members]. pose proof (skip_space_length s).
    destruct (parse_string (skip_space s)) as [[k t]|] eqn:Hk; [|done]. apply parse_string_length in Hk.
    cbn [mbind option_bind]. pose proof (skip_space_length t). destruct (skip_space t) as [|c u]; [done|]. simpl in *.
    rewrite IHv by lia. destruct (parse_value n depth u) as [[v w]|] eqn:Hv; [|done].
    apply (proj1 (parsers_length n)) in Hv. cbn [mbind option_bind]. pose proof (skip_space_length w).
    destruct (skip_space w) as [|c2 x]; [done|]. simpl in *. rewrite IHm by lia. done.
Qed.

(** The fuel of [parse_json] is enough: more of it changes nothing. *)
Lemma parse_json_total s n :
  2 * String.length s + 2 <= n ->
  parse_json s = '(v, rest) ← parse_value n 0 s; if String.eqb (skip_space rest) "" then Some v else None.
Proof.
  intros Hn. unfold parse_json. by rewrite (proj1 (parsers_fuel (2 * String.length s + 2)) n) by lia.
Qed.

(** A string map is read back as the object of its entries, in key order. *)
Lemma parse_marshal_map m :
  Forall (fun kv => utf8 kv.1 /\ utf8 kv.2) m ->
  parse_json (MarshalStringMap m) = Some (VMap (as_strings (isort (fun a b => str_leb a.1 b.1) m))).
Proof.
  intros Hm. unfold MarshalStringMap. pose proof (isort_perm (fun a b : string * string => str_leb a.1 b.1) m) as Hperm.
  rewrite <- Hperm in Hm. clear Hperm. revert Hm. generalize (isort (fun a b : string * string => str_leb a.1 b.1) m) as l.
  intros l Hl. destruct l as [|kv l]; [reflexivity|].
  assert (S (length l) <= String.length (Join (marshal_member <$> kv :: l) ",")) as Hlen.
  { etransitivity; [|apply Join_length_ge, Forall_fmap, Forall_true; intros x; apply marshal_member_length].
    by rewrite length_fmap. }
  set (text := Join (marshal_member <$> kv :: l) ",") in *.
  unfold parse_json. rewrite !str_length_app. simpl String.length.
  replace (2 * (1 + (String.length text + 1)) + 2) with (S (2 * String.length text + 5)) by lia.
  change ("{" +:+ text +:+ "}") with (String "{" (text +:+ "}")). cbn [parse_value].
  change (skip_space (String "{" ?x)) with (String "{" x). cbv iota.
  change ("{" =? dquote)%char with false. change ("{" =? "[")%char with false. change ("{" =? "{")%char with true. cbv iota.
  assert (exists t, text = String dquote t) as [t Ht].
  { subst text. destruct l as [|kv2 l]; [by eexists|]. by eexists. }
  assert (skip_space (text +:+ "}") = text +:+ "}") as -> by by rewrite Ht.
  pose proof (parse_members_marshal l kv (2 * String.length text + 5) (0 + 1) "" Hl) as Hp. fold text in Hp.
  change ("}" +:+ "") with "}" in Hp. rewrite Hp by lia. rewrite Ht. reflexivity.
Qed.
