(* ===== verification/GoUrl.v ===== *)
(** * URLs (net/url, and parseHostPort of pkg/exoskeleton/enrich.go)

    The exoskeleton reads the host and the port of a backing service off a URL.
    [Parse] is [url.Parse] as far as the program looks at its result: the scheme
    and the host of the URL, or an error.  How the address between brackets is
    validated (net/netip) is a parameter; it depends on the version of Go. *)

From S2P Require Import Prelude GoStrings.
#[local] Open Scope string_scope.
#[local] Open Scope nat_scope.

(** [strings.Cut] at a one-byte separator, without its third result. *)
Definition Cut (s : string) (sep : ascii) : string * string :=
  match IndexByte s sep with
  | Some i => (str_take i s, str_drop (S i) s)
  | None => (s, "")
  end.

Definition has_byte (s : string) (c : ascii) : bool := negb (no_byte c s).

Definition is_letter (c : ascii) : bool := is_lower c || is_upper c.
Definition is_hex (c : ascii) : bool := is_digit c || between "a" "f" c || between "A" "F" c.
Definition unhex (c : ascii) : nat :=
  if is_digit c then code c - 48 else if between "a" "f" c then code c - 87 else code c - 55.

(** ** [url.Parse] *)

(** How far [getScheme] got: no scheme, a leading colon, or the scheme and what
    follows its colon. *)
Inductive scheme_scan :=
  | NoScheme
  | MissingScheme
  | SchemeIs (scheme rest : string).

Definition scheme_tail_char (c : ascii) : bool :=
  is_letter c || is_digit c || Ascii.eqb c "+" || Ascii.eqb c "-" || Ascii.eqb c ".".

Fixpoint scan_scheme (s : string) : scheme_scan :=
  match s with
  | EmptyString => NoScheme
  | String c s' =>
      if Ascii.eqb c ":" then SchemeIs "" s'
      else if scheme_tail_char c then
        match scan_scheme s' with
        | SchemeIs t rest => SchemeIs (String c t) rest
        | r => r
        end
      else NoScheme
  end.

Definition getScheme (s : string) : scheme_scan :=
  match s with
  | EmptyString => NoScheme
  | String c _ =>
      if Ascii.eqb c ":" then MissingScheme
      else if is_letter c then scan_scheme s
      else NoScheme
  end.

(** Every percent sign starts an escape. *)
Fixpoint escapes_ok (s : string) : bool :=
  match s with
  | EmptyString => true
  | String c s' =>
      if Ascii.eqb c "%" then
        match s' with
        | String h1 (String h2 s'') => is_hex h1 && is_hex h2 && escapes_ok s''
        | _ => false
        end
      else escapes_ok s'
  end.

(** The ASCII bytes [shouldEscape] leaves alone in a host. *)
Definition host_char (c : ascii) : bool :=
  is_alnum c || Contains "-_.~!$&'()*+,;=:[]<>" (String c "") || Ascii.eqb c dquote.

(** [unescape] in host mode: an escape stands for a byte outside ASCII, or for
    the percent sign. *)
Fixpoint unescape_host (s : string) : option string :=
  match s with
  | EmptyString => Some ""
  | String c s' =>
      if Ascii.eqb c "%" then
        match s' with
        | String h1 (String h2 s'') =>
            if is_hex h1 && is_hex h2 && ((8 <=? unhex h1) || (Ascii.eqb h1 "2" && Ascii.eqb h2 "5"))
            then t ← unescape_host s''; Some (String (ascii_of_nat (16 * unhex h1 + unhex h2)) t)
            else None
        | _ => None
        end
      else if is_ascii_char c && negb (host_char c) then None
      else t ← unescape_host s'; Some (String c t)
  end.

Definition validOptionalPort (port : string) : bool :=
  match port with
  | EmptyString => true
  | String c digits => Ascii.eqb c ":" && str_forallb is_digit digits
  end.

Definition validUserinfo (s : string) : bool :=
  str_forallb (fun c => is_alnum c || Contains "-._:~!$&'()*+,;=%@" (String c "")) s.

Class UrlLib := {
  (** [parseHost] of a host with an opening bracket. *)
  parse_bracketed : string -> option string;
}.

(** The URL as the program uses it. *)
Record URL := { u_Scheme : string; u_Host : string }.

Section url.
Context `{UL : UrlLib}.

Definition parseHost (host : string) : option string :=
  if has_byte host "[" then parse_bracketed host
  else
    match LastIndexByte host ":" with
    | Some i => if validOptionalPort (str_drop i host) then unescape_host host else None
    | None => unescape_host host
    end.

Definition parseAuthority (authority : string) : option string :=
  match LastIndexByte authority "@" with
  | None => parseHost authority
  | Some i =>
      host ← parseHost (str_drop (S i) authority);
      let userinfo := str_take i authority in
      if validUserinfo userinfo && escapes_ok userinfo then Some host else None
  end.

(** Everything after the scheme, without the query. *)
Definition parse_rest (scheme rest : string) : option URL :=
  if negb (HasPrefix rest "/") then
    if negb (String.eqb scheme "") then Some {| u_Scheme := scheme; u_Host := "" |}
    else if has_byte (Cut rest "/").1 ":" then None
    else if escapes_ok rest then Some {| u_Scheme := scheme; u_Host := "" |} else None
  else if (negb (String.eqb scheme "") || negb (HasPrefix rest "///")) && HasPrefix rest "//" then
    let authority := str_drop 2 rest in
    match IndexByte authority "/" with
    | Some i =>
        host ← parseAuthority (str_take i authority);
        if escapes_ok (str_drop i authority) then Some {| u_Scheme := scheme; u_Host := host |} else None
    | None => host ← parseAuthority authority; Some {| u_Scheme := scheme; u_Host := host |}
    end
  else if escapes_ok rest then Some {| u_Scheme := scheme; u_Host := "" |} else None.

Definition control_byte (c : ascii) : bool := (code c <? 32) || (code c =? 127).

(** Why parsing failed; the text is not modelled. *)
Definition url_error : error := ErrorNew "parse url".

Definition Parse (rawURL : string) : option URL :=
  let (u, frag) := Cut rawURL "#" in
  if negb (str_forallb (fun c => negb (control_byte c)) u) then None
  else if String.eqb u "*" then
    if escapes_ok frag then Some {| u_Scheme := ""; u_Host := "" |} else None
  else
    url ← match getScheme u with
          | MissingScheme => None
          | NoScheme => parse_rest "" (Cut u "?").1
          | SchemeIs scheme rest => parse_rest (str_map lower_char scheme) (Cut rest "?").1
          end;
    if escapes_ok frag then Some url else None.

(** [splitHostPort], behind the methods [Hostname] and [Port]. *)
Definition unbracket (host : string) : string :=
  if HasPrefix host "[" && HasSuffix host "]" then str_drop 1 (str_take (String.length host - 1) host) else host.
Definition splitHostPort (hostPort : string) : string * string :=
  match LastIndexByte hostPort ":" with
  | Some i =>
      if validOptionalPort (str_drop i hostPort)
      then (unbracket (str_take i hostPort), str_drop (S i) hostPort)
      else (unbracket hostPort, "")
  | None => (unbracket hostPort, "")
  end.

(** ** [parseHostPort] *)

Definition defaultPortForScheme (scheme : string) : string :=
  if String.eqb scheme "http" then "80"
  else if String.eqb scheme "https" then "443"
  else if str_in scheme ["nats"; "nats+tls"; "tls"] then "4222"
  else if str_in scheme ["postgresql"; "postgres"] then "5432"
  else "".

(** The fallback: a host and a port, split at the last colon. *)
Definition split_last_colon (rawURL : string) : string * string :=
  match LastIndexByte rawURL ":" with
  | Some (S i) => (str_take (S i) rawURL, str_drop (S (S i)) rawURL)
  | _ => (rawURL, "")
  end.

Definition parseHostPort (rawURL : string) : string * string :=
  match Parse rawURL with
  | Some u =>
      if negb (String.eqb (u_Host u) "") then
        let (host, port) := splitHostPort (u_Host u) in
        (host, if String.eqb port "" then defaultPortForScheme (u_Scheme u) else port)
      else split_last_colon rawURL
  | None => split_last_colon rawURL
  end.
End url.

(** No address between brackets is accepted, for evaluation. *)
Definition no_brackets : UrlLib := {| parse_bracketed := fun _ => None |}.

Example parse_examples :
  let php := parseHostPort (UL := no_brackets) in
  php "nats://host:4222" = ("host", "4222") /\ php "http://host:9000" = ("host", "9000") /\
  php "https://host" = ("host", "443") /\ php "host:5432" = ("host", "5432") /\
  php "NATS://u:p@h/x?y#z" = ("h", "4222") /\ php "10.0.0.7:5432" = ("10.0.0.7", "5432") /\
  php "//h:1" = ("h", "1") /\ php "host" = ("host", "") /\ php "http://a b" = ("http", "//a b").
Proof. repeat split; reflexivity. Qed.

(** ** Lemmas *)

Lemma no_byte_app c a b : no_byte c (a +:+ b) = no_byte c a && no_byte c b.
Proof. apply str_forallb_app. Qed.

Lemma IndexByte_none s c : no_byte c s = true -> IndexByte s c = None.
Proof. induction s as [|x s IH]; simpl; [done|]. intros [->%negb_true_iff H]%andb_true_iff. by rewrite IH. Qed.

Lemma IndexByte_app a b c : no_byte c a = true -> IndexByte (a +:+ String c b) c = Some (String.length a).
Proof.
  induction a as [|x a IH]; simpl; [by rewrite Ascii.eqb_refl|].
  intros [->%negb_true_iff H]%andb_true_iff. by rewrite IH.
Qed.

Lemma LastIndexByte_none s c : no_byte c s = true -> LastIndexByte s c = None.
Proof. induction s as [|x s IH]; simpl; [done|]. intros [->%negb_true_iff H]%andb_true_iff. by rewrite IH. Qed.

Lemma LastIndexByte_app a b c : no_byte c b = true -> LastIndexByte (a +:+ String c b) c = Some (String.length a).
Proof.
  intros Hb. induction a as [|x a IH]; simpl; [by rewrite LastIndexByte_none, Ascii.eqb_refl|]. by rewrite IH.
Qed.

Lemma Cut_none s c : no_byte c s = true -> Cut s c = (s, "").
Proof. intros H. unfold Cut. by rewrite IndexByte_none. Qed.

Lemma str_drop_S_app a b c : str_drop (S (String.length a)) (a +:+ String c b) = b.
Proof. induction a as [|x a IH]; simpl; [by destruct b|]. exact IH. Qed.

Lemma Cut_app a b c : no_byte c a = true -> Cut (a +:+ String c b) c = (a, b).
Proof. intros H. unfold Cut. by rewrite IndexByte_app, str_take_app, str_drop_S_app. Qed.

Lemma str_forallb_no_byte p s c : str_forallb p s = true -> p c = false -> no_byte c s = true.
Proof.
  intros Hs Hc. eapply str_forallb_impl; [|exact Hs]. intros x Hx. simpl.
  apply negb_true_iff, Ascii.eqb_neq. intros ->. congruence.
Qed.

(** ** Endpoints *)

Definition dns_char (c : ascii) : bool := is_alnum c || Ascii.eqb c "-" || Ascii.eqb c ".".
Definition dns_host (h : string) : bool := negb (String.eqb h "") && str_forallb dns_char h.
Definition port_number (p : string) : bool := negb (String.eqb p "") && str_forallb is_digit p.
Definition scheme_name (s : string) : bool :=
  match s with
  | String c _ => is_letter c && str_forallb scheme_tail_char s
  | EmptyString => false
  end.
(** A user and password as they stand in a URL: no escape, nothing that ends the
    authority. *)
Definition user_char (c : ascii) : bool := is_alnum c || Contains "-._:~!$&'()*+,;=" (String c "").
(** A path without query, fragment or escapes. *)
Definition path_char (c : ascii) : bool := is_alnum c || Contains "-._~!$&'()*+,;=:@/" (String c "").
Definition url_path (p : string) : bool := String.eqb p "" || (HasPrefix p "/" && str_forallb path_char p).

Definition all_ascii : list ascii := ascii_of_nat <$> seq 0 256.
Lemma ascii_cases (P : ascii -> bool) : forallb P all_ascii = true -> forall c, P c = true.
Proof.
  rewrite forallb_True, Forall_forall. intros H c. apply H. apply list_elem_of_fmap. exists (code c).
  split; [symmetry; apply ascii_nat_embedding|]. apply elem_of_seq. pose proof (nat_ascii_bounded c). unfold code. lia.
Qed.
Lemma ascii_impl (p q : ascii -> bool) :
  forallb (fun c => implb (p c) (q c)) all_ascii = true -> forall c, p c = true -> q c = true.
Proof. intros H c Hp. pose proof (ascii_cases _ H c) as Hi. simpl in Hi. by rewrite Hp in Hi. Qed.

Lemma str_forallb_sub (p q : ascii -> bool) s :
  forallb (fun c => implb (p c) (q c)) all_ascii = true -> str_forallb p s = true -> str_forallb q s = true.
Proof. intros H. apply str_forallb_impl. by apply ascii_impl. Qed.

Lemma escapes_ok_plain s : no_byte "%" s = true -> escapes_ok s = true.
Proof. induction s as [|c s IH]; simpl; [done|]. intros [->%negb_true_iff H]%andb_true_iff. by apply IH. Qed.

Lemma unescape_host_plain s : str_forallb host_char s = true -> unescape_host s = Some s.
Proof.
  induction s as [|c s IH]; simpl; [done|]. intros [Hc H]%andb_true_iff.
  destruct (Ascii.eqb_spec c "%") as [->|_]; [done|].
  rewrite Hc, andb_false_r, IH by done. done.
Qed.

Lemma scan_scheme_app s rest :
  str_forallb scheme_tail_char s = true -> scan_scheme (s +:+ String ":" rest) = SchemeIs s rest.
Proof.
  induction s as [|c s IH]; simpl; [done|]. intros [Hc H]%andb_true_iff.
  destruct (Ascii.eqb_spec c ":") as [->|_]; [done|]. by rewrite Hc, IH.
Qed.

Lemma getScheme_app s rest : scheme_name s = true -> getScheme (s +:+ String ":" rest) = SchemeIs s rest.
Proof.
  destruct s as [|c s]; [done|]. intros [Hc H]%andb_true_iff.
  rewrite <- (scan_scheme_app (String c s) rest H). simpl. rewrite Hc.
  destruct (Ascii.eqb_spec c ":") as [->|_]; [done|]. done.
Qed.

Section endpoints.
Context `{UL : UrlLib}.

(** The part of an authority before the host. *)
Definition user_part (user : string) : string := if String.eqb user "" then "" else user +:+ "@".

Lemma dns_host_no_byte h c : dns_host h = true -> dns_char c = false -> no_byte c h = true.
Proof. intros [_ H]%andb_true_iff. by apply str_forallb_no_byte. Qed.

Lemma digits_no_byte p c : str_forallb is_digit p = true -> is_digit c = false -> no_byte c p = true.
Proof. apply str_forallb_no_byte. Qed.

(** An optional port is empty or a colon and digits. *)
Lemma validOptionalPort_cases pp :
  validOptionalPort pp = true -> pp = "" \/ exists d, pp = String ":" d /\ str_forallb is_digit d = true.
Proof.
  destruct pp as [|c d]; [by left|]. intros [->%Ascii.eqb_eq Hd]%andb_true_iff. right. by exists d.
Qed.

Lemma port_part_no_byte pp c :
  validOptionalPort pp = true -> is_digit c = false -> Ascii.eqb ":" c = false -> no_byte c pp = true.
Proof.
  intros [->|(d & -> & Hd)]%validOptionalPort_cases Hc H; [done|].
  unfold no_byte. cbn [str_forallb]. rewrite H. by apply digits_no_byte.
Qed.

Lemma parseHost_plain host pp :
  dns_host host = true -> validOptionalPort pp = true -> parseHost (host +:+ pp) = Some (host +:+ pp).
Proof.
  intros Hh Hp. unfold parseHost, has_byte.
  rewrite no_byte_app, (dns_host_no_byte host "["), (port_part_no_byte pp "[") by done. cbn [andb negb].
  assert (str_forallb host_char (host +:+ pp) = true) as Hc.
  { rewrite str_forallb_app. apply andb_true_iff. split.
    - apply andb_true_iff in Hh as [_ Hh]. by eapply str_forallb_sub, Hh.
    - apply validOptionalPort_cases in Hp as [->|(d & -> & Hd)]; [done|]. simpl.
      by eapply str_forallb_sub, Hd. }
  destruct (validOptionalPort_cases pp Hp) as [->|(d & -> & Hd)].
  - rewrite str_app_nil_r in *. rewrite LastIndexByte_none by by apply dns_host_no_byte.
    by apply unescape_host_plain.
  - rewrite LastIndexByte_app by by apply digits_no_byte.
    rewrite str_drop_app, Hp. by apply unescape_host_plain.
Qed.

Lemma parseAuthority_plain user host pp :
  str_forallb user_char user = true -> dns_host host = true -> validOptionalPort pp = true ->
  parseAuthority (user_part user +:+ host +:+ pp) = Some (host +:+ pp).
Proof.
  intros Hu Hh Hp. assert (no_byte "@" (host +:+ pp) = true) as Hat.
  { by rewrite no_byte_app, dns_host_no_byte, port_part_no_byte. }
  unfold parseAuthority, user_part. destruct (String.eqb user "").
  - change ("" +:+ (host +:+ pp)) with (host +:+ pp).
    by rewrite LastIndexByte_none, parseHost_plain.
  - rewrite str_app_assoc. change ("@" +:+ host +:+ pp) with (String "@" (host +:+ pp)).
    rewrite LastIndexByte_app, str_drop_S_app, str_take_app, parseHost_plain by done. cbn [mbind option_bind].
    assert (validUserinfo user = true) as -> by by eapply str_forallb_sub, Hu.
    by rewrite escapes_ok_plain by by eapply str_forallb_no_byte.
Qed.

(** What stands after the scheme of a plain URL. *)
Definition plain_char (c : ascii) : bool :=
  is_alnum c || Contains "-._~!$&'()*+,;=:@/" (String c "").

Lemma user_part_no_byte user c :
  str_forallb user_char user = true -> user_char c = false -> Ascii.eqb "@" c = false ->
  no_byte c (user_part user) = true.
Proof.
  intros Hu Hc H. unfold user_part. destruct (String.eqb user ""); [done|].
  rewrite no_byte_app, (str_forallb_no_byte user_char) by done. unfold no_byte. cbn [str_forallb]. by rewrite H.
Qed.

Lemma parse_rest_plain scheme user host pp path :
  scheme <> "" -> str_forallb user_char user = true -> dns_host host = true -> validOptionalPort pp = true ->
  url_path path = true ->
  parse_rest scheme ("//" +:+ (user_part user +:+ host +:+ pp) +:+ path) =
  Some {| u_Scheme := scheme; u_Host := host +:+ pp |}.
Proof.
  intros Hs Hu Hh Hp Hpath. unfold parse_rest. simpl HasPrefix. cbn [negb].
  rewrite (proj2 (String.eqb_neq _ _) Hs). cbn [negb orb andb].
  assert (str_drop 2 ("//" +:+ (user_part user +:+ host +:+ pp) +:+ path) = (user_part user +:+ host +:+ pp) +:+ path) as -> by done.
  assert (no_byte "/" (user_part user +:+ host +:+ pp) = true) as Hsl.
  { by rewrite !no_byte_app, user_part_no_byte, dns_host_no_byte, port_part_no_byte. }
  unfold url_path in Hpath. apply orb_true_iff in Hpath as [->%String.eqb_eq|[[r ->]%HasPrefix_true Hc]%andb_true_iff].
  - rewrite str_app_nil_r, IndexByte_none, parseAuthority_plain by done. done.
  - change ("/" +:+ r) with (String "/" r) in *. rewrite IndexByte_app, str_take_app, parseAuthority_plain by done.
    cbn [mbind option_bind]. rewrite str_drop_app.
    by rewrite escapes_ok_plain by by eapply str_forallb_no_byte.
Qed.

(** Bytes of a plain URL: one fact for all the ways [Parse] cuts it up. *)
Definition url_byte (c : ascii) : bool := is_alnum c || Contains "-._~!$&'()*+,;=:@/" (String c "").

Lemma plain_rest_bytes user host pp path :
  str_forallb user_char user = true -> dns_host host = true -> validOptionalPort pp = true ->
  url_path path = true -> str_forallb url_byte ("//" +:+ (user_part user +:+ host +:+ pp) +:+ path) = true.
Proof.
  intros Hu [_ Hh]%andb_true_iff Hp Hpath. rewrite !str_forallb_app, !andb_true_iff. split_and!; [done| | | |].
  - unfold user_part. destruct (String.eqb user ""); [done|]. rewrite str_forallb_app, andb_true_iff.
    split; [by eapply str_forallb_sub, Hu|done].
  - by eapply str_forallb_sub, Hh.
  - apply validOptionalPort_cases in Hp as [->|(d & -> & Hd)]; [done|]. simpl. by eapply str_forallb_sub, Hd.
  - unfold url_path in Hpath. apply orb_true_iff in Hpath as [->%String.eqb_eq|[_ Hc]%andb_true_iff]; [done|].
    by eapply str_forallb_sub, Hc.
Qed.

Lemma Parse_plain scheme user host pp path :
  scheme_name scheme = true -> str_forallb user_char user = true -> dns_host host = true ->
  validOptionalPort pp = true -> url_path path = true ->
  Parse (scheme +:+ "://" +:+ (user_part user +:+ host +:+ pp) +:+ path) =
  Some {| u_Scheme := str_map lower_char scheme; u_Host := host +:+ pp |}.
Proof.
  intros Hs Hu Hh Hp Hpath. pose proof (plain_rest_bytes user host pp path Hu Hh Hp Hpath) as Hb.
  pose proof (parse_rest_plain (str_map lower_char scheme) user host pp path) as Hrest.
  change ("://" +:+ (user_part user +:+ host +:+ pp) +:+ path)
    with (String ":" ("//" +:+ (user_part user +:+ host +:+ pp) +:+ path)).
  set (rest := "//" +:+ (user_part user +:+ host +:+ pp) +:+ path) in *.
  assert (str_forallb url_byte (scheme +:+ String ":" rest) = true) as Hall.
  { rewrite str_forallb_app, andb_true_iff. split; [|exact Hb].
    destruct scheme; [done|]. apply andb_true_iff in Hs as [_ Hs]. by eapply str_forallb_sub, Hs. }
  unfold Parse. rewrite Cut_none by by eapply str_forallb_no_byte.
  assert (str_forallb (fun c => negb (control_byte c)) (scheme +:+ String ":" rest) = true) as ->
    by by eapply str_forallb_sub, Hall.
  rewrite getScheme_app by done. cbn [negb]. rewrite Cut_none by by eapply str_forallb_no_byte. cbn [fst].
  assert (String.eqb (scheme +:+ String ":" rest) "*" = false) as ->.
  { destruct scheme as [|c scheme]; [done|]. simpl. destruct (Ascii.eqb_spec c "*") as [->|]; [done|].
    by destruct (scheme +:+ String ":" rest). }
  rewrite Hrest; [done|by destruct scheme|done..].
Qed.

Lemma splitHostPort_plain host pp :
  dns_host host = true -> validOptionalPort pp = true ->
  splitHostPort (host +:+ pp) = (host, str_drop 1 pp).
Proof.
  intros Hh Hp. assert (unbracket host = host) as Hub.
  { unfold unbracket. destruct host as [|c host]; [done|]. apply andb_true_iff in Hh as [_ [Hc _]%andb_true_iff].
    cbn [HasPrefix]. by destruct (Ascii.eqb_spec "[" c) as [<-|]. }
  unfold splitHostPort. destruct (validOptionalPort_cases pp Hp) as [->|(d & -> & Hd)].
  - rewrite str_app_nil_r, LastIndexByte_none by by apply dns_host_no_byte. by rewrite Hub.
  - rewrite LastIndexByte_app by by apply digits_no_byte.
    rewrite str_drop_app, Hp, str_take_app, str_drop_S_app, Hub. simpl. by destruct d.
Qed.

Lemma split_last_colon_app host d :
  host <> "" -> no_byte ":" d = true -> split_last_colon (host +:+ String ":" d) = (host, d).
Proof.
  intros Hh Hd. unfold split_last_colon. rewrite LastIndexByte_app by done.
  destruct host as [|c host]; [done|]. cbn [String.length].
  by rewrite (str_take_app (String c host)), (str_drop_S_app (String c host)).
Qed.

(** A bare host and port are no URL with a host. *)
Lemma Parse_host_port host d :
  dns_host host = true -> str_forallb is_digit d = true ->
  match Parse (host +:+ String ":" d) with
  | Some u => u_Host u = ""
  | None => True
  end.
Proof.
  intros Hh Hd. assert (str_forallb url_byte (host +:+ String ":" d) = true) as Hall.
  { rewrite str_forallb_app, andb_true_iff. apply andb_true_iff in Hh as [_ Hh].
    split; [by eapply str_forallb_sub, Hh|]. simpl. by eapply str_forallb_sub, Hd. }
  unfold Parse. rewrite Cut_none by by eapply str_forallb_no_byte.
  destruct (negb (str_forallb _ _)); [done|]. destruct (String.eqb _ "*"); [done|].
  assert (match parse_rest (str_map lower_char host) d with Some u => u_Host u = "" | None => True end) as Hscheme.
  { unfold parse_rest. destruct d as [|x d]; [by destruct host|].
    cbn [HasPrefix]. destruct (Ascii.eqb_spec "/" x) as [<-|]; [done|]. by destruct host. }
  destruct (is_letter (default "0"%char (String.get 0 host))) eqn:Hl.
  - rewrite getScheme_app.
    2: { destruct host; [done|]. apply andb_true_iff in Hh as [_ Hh]. apply andb_true_iff. split; [done|].
         by eapply str_forallb_sub, Hh. }
    rewrite Cut_none by by apply digits_no_byte. cbn [fst].
    destruct (parse_rest _ _); [|done]. cbn [mbind option_bind]. by destruct (escapes_ok "").
  - assert (getScheme (host +:+ String ":" d) = NoScheme) as ->.
    { destruct host as [|c host]; [done|]. simpl in Hl |- *. rewrite Hl.
      apply andb_true_iff in Hh as [_ [Hc _]%andb_true_iff]. by destruct (Ascii.eqb_spec c ":") as [->|]. }
    rewrite Cut_none by by eapply str_forallb_no_byte. cbn [fst].
    assert (parse_rest "" (host +:+ String ":" d) = None) as ->; [|done].
    unfold parse_rest. destruct (HasPrefix _ "/") eqn:Hp.
    { destruct host as [|c host]; [done|]. apply andb_true_iff in Hh as [_ [Hc _]%andb_true_iff].
      apply andb_true_iff in Hp as [Hp _]. by apply Ascii.eqb_eq in Hp as <-. }
    rewrite Cut_none.
    2: { rewrite no_byte_app, dns_host_no_byte by done. cbn. by apply digits_no_byte. }
    unfold has_byte. cbn [fst negb String.eqb]. by rewrite no_byte_app, andb_false_r.
Qed.
End endpoints.

(** ** Properties *)

(** The endpoint of a backing service is read back from every way of writing
    it: from a URL with or without credentials and path, its host and port; from a
    URL without a port, its host and the default port of the scheme; from a bare
    host and port, these two. *)
Theorem parseHostPort_endpoint `{UL : UrlLib} scheme user host port path :
  scheme_name scheme = true -> str_forallb user_char user = true -> dns_host host = true ->
  port_number port = true -> url_path path = true ->
  parseHostPort (scheme +:+ "://" +:+ (user_part user +:+ host +:+ ":" +:+ port) +:+ path) = (host, port) /\
  parseHostPort (scheme +:+ "://" +:+ (user_part user +:+ host) +:+ path) =
    (host, defaultPortForScheme (str_map lower_char scheme)) /\
  parseHostPort (host +:+ ":" +:+ port) = (host, port).
Proof.
  intros Hs Hu Hh [Hne Hd]%andb_true_iff Hpath. apply negb_true_iff in Hne.
  assert (host <> "") as Hhost by (by intros ->).
  assert (forall pp, String.eqb (host +:+ pp) "" = false) as Hset by (by destruct host).
  split_and!.
  - unfold parseHostPort. rewrite (Parse_plain _ _ _ (":" +:+ port)) by done. cbn [u_Host u_Scheme].
    rewrite Hset, splitHostPort_plain by done. change (str_drop 1 (":" +:+ port)) with (str_drop 0 port).
    change (str_drop 0 port) with port. cbn [negb]. by rewrite Hne.
  - unfold parseHostPort. pose proof (Parse_plain scheme user host "" path) as HP.
    rewrite str_app_nil_r in HP. rewrite HP by done. cbn [u_Host u_Scheme].
    pose proof (splitHostPort_plain host "" Hh eq_refl) as Hsp. rewrite str_app_nil_r in Hsp. rewrite Hsp.
    by destruct host.
  - unfold parseHostPort. change (":" +:+ port) with (String ":" port).
    pose proof (Parse_host_port host port Hh Hd) as HP. destruct (Parse _) as [u|].
    + rewrite HP. by apply split_last_colon_app, digits_no_byte.
    + by apply split_last_colon_app, digits_no_byte.
Qed.

Lemma parseHostPort_endpoint_witness :
  parseHostPort (UL := no_brackets) "nats://svc:pw@nats.exo.svc.cluster.local:4222/x" = ("nats.exo.svc.cluster.local", "4222") /\
  parseHostPort (UL := no_brackets) "NATS://svc:pw@nats.exo.svc.cluster.local/x" = ("nats.exo.svc.cluster.local", "4222").
Proof.
  split.
  - by apply (parseHostPort_endpoint "nats" "svc:pw" "nats.exo.svc.cluster.local" "4222" "/x").
  - by apply (parseHostPort_endpoint "NATS" "svc:pw" "nats.exo.svc.cluster.local" "4222" "/x").
Defined.
