(* ===== verification/Proxy.v ===== *)
(** * The module proxy reconciler (pkg/proxy: reconciler.go, manifests.go)

    A background loop keeps the Deployment and the Service of the esm.sh module
    proxy in place.  One pass is [reconcileOnce]; the loop repeats it on a timer.
    Nothing is assumed of the cluster: the theorem says what the loop asks of it and
    what each pass has seen or done when it ends, whatever the answers. *)

From S2P Require Import Prelude GoStrings Effects K8sOps Unstructured.
#[local] Open Scope string_scope.

Definition DefaultNamespace : string := "tentacular-support".
Definition DefaultImage : string := "ghcr.io/esm-dev/esm.sh:v136".
Definition DeploymentName : string := "esm-sh".
Definition ServiceName : string := "esm-sh".
Definition ContainerPort : Z := 8080.

Record Options := { op_Namespace : string; op_Image : string; op_StorageSize : string }.

Definition image (o : Options) : string := if String.eqb (op_Image o) "" then DefaultImage else op_Image o.
Definition storageType (o : Options) : string := if String.eqb (op_StorageSize o) "" then "emptydir" else "pvc".

(** The options [NewReconciler] keeps. *)
Definition NewReconciler (o : Options) : Options :=
  {| op_Namespace := if String.eqb (op_Namespace o) "" then DefaultNamespace else op_Namespace o;
     op_Image := op_Image o; op_StorageSize := op_StorageSize o |}.

Definition proxyLabels : list (string * string) :=
  [("app.kubernetes.io/managed-by", "tentacular"); ("app.kubernetes.io/name", "esm-sh");
   ("app.kubernetes.io/component", "module-proxy")].
Definition labels_value : value := VMap ((fun kv => (kv.1, VStr kv.2)) <$> proxyLabels).

Definition buildStorage (o : Options) : value * value :=
  let mounts := VList [VMap [("name", VStr "cache"); ("mountPath", VStr "/app/cache")]] in
  if String.eqb (op_StorageSize o) ""
  then (VList [VMap [("name", VStr "cache"); ("emptyDir", VMap [])]], mounts)
  else (VList [VMap [("name", VStr "cache");
                     ("persistentVolumeClaim", VMap [("claimName", VStr (DeploymentName +:+ "-cache"))])]], mounts).

Definition proxy_container (o : Options) : value :=
  VMap [("name", VStr "esm-sh"); ("image", VStr (image o)); ("volumeMounts", (buildStorage o).2);
        ("ports", VList [VMap [("containerPort", VInt ContainerPort); ("protocol", VStr "TCP")]]);
        ("resources", VMap [("requests", VMap [("memory", VStr "128Mi"); ("cpu", VStr "100m")]);
                            ("limits", VMap [("memory", VStr "512Mi"); ("cpu", VStr "500m")])]);
        ("readinessProbe", VMap [("httpGet", VMap [("path", VStr "/status"); ("port", VInt ContainerPort)]);
                                 ("initialDelaySeconds", VInt 5); ("periodSeconds", VInt 10)])].

Definition BuildDeployment (o : Options) : object :=
  new_object DeploymentName (op_Namespace o) proxyLabels
    [("spec", VMap [("replicas", VInt 1); ("selector", VMap [("matchLabels", labels_value)]);
        ("template", VMap [("metadata", VMap [("labels", labels_value)]);
           ("spec", VMap [("volumes", (buildStorage o).1); ("containers", VList [proxy_container o])])])])].

Definition BuildService (o : Options) : object :=
  new_object ServiceName (op_Namespace o) proxyLabels
    [("spec", VMap [("selector", labels_value);
                    ("ports", VList [VMap [("port", VInt ContainerPort); ("protocol", VStr "TCP")]])])].

(** The containers of a Deployment and the image of the first one. *)
Definition containers (d : object) : list value :=
  match at_path (VMap (o_body d)) ["spec"; "template"; "spec"; "containers"] with
  | Some (VList l) => l
  | _ => []
  end.
Definition container_image (c : value) : string :=
  match c with
  | VMap m => default "" (get_string m ["image"])
  | _ => ""
  end.

Definition with_version (o : object) (version : string) : object :=
  {| o_name := o_name o; o_namespace := o_namespace o; o_labels := o_labels o; o_annotations := o_annotations o;
     o_resourceVersion := version; o_created := o_created o; o_body := o_body o |}.

Definition reconcileDeployment (o : Options) : prog (option error) :=
  let desired := BuildDeployment o in
  let ns := op_Namespace o in
  existing ← call (KGet "deployments" ns DeploymentName);
  match existing with
  | Err err =>
      if reason_is NotFound err then
        created ← call (KCreate "deployments" ns desired);
        Ret (match created with Err createErr => Some createErr | Ok _ => None end)
      else Ret (Some err)
  | Ok d =>
      match containers d with
      | c :: _ =>
          if negb (String.eqb (container_image c) (image o)) then
            updated ← call (KUpdate "deployments" ns (with_version desired (o_resourceVersion d)));
            Ret (match updated with Err updateErr => Some updateErr | Ok _ => None end)
          else Ret None
      | [] => Ret None
      end
  end.

Definition reconcileService (o : Options) : prog (option error) :=
  let ns := op_Namespace o in
  existing ← call (KGet "services" ns ServiceName);
  match existing with
  | Err err =>
      if reason_is NotFound err then
        created ← call (KCreate "services" ns (BuildService o));
        Ret (match created with Err createErr => Some createErr | Ok _ => None end)
      else Ret (Some err)
  | Ok _ => Ret None
  end.

(** Errors are logged: the first one ends the pass. *)
Definition reconcileOnce (o : Options) : prog () :=
  err ← reconcileDeployment o;
  match err with
  | Some _ => Ret ()
  | None => _ ← reconcileService o; Ret ()
  end.

(** [Run] over [ticks] ticks of its timer before the context is cancelled. *)
Fixpoint ticking (o : Options) (ticks : nat) : prog () :=
  match ticks with
  | 0 => Ret ()
  | S n => _ ← reconcileOnce o; ticking o n
  end.
Definition Run (o : Options) (ticks : nat) : prog () := _ ← reconcileOnce o; ticking o ticks.

Record Status := { st_Image : string; st_Storage : string; st_Installed : bool; st_Ready : bool }.

Definition GetStatus (o : Options) : prog Status :=
  dep ← call (KGet "deployments" (op_Namespace o) DeploymentName);
  Ret (match dep with
       | Err _ => {| st_Image := ""; st_Storage := ""; st_Installed := false; st_Ready := false |}
       | Ok d =>
           {| st_Image := match containers d with c :: _ => container_image c | [] => image o end;
              st_Storage := storageType o; st_Installed := true;
              st_Ready := match at_path (VMap (o_body d)) ["status"; "readyReplicas"] with
                          | Some (VInt n) => (1 <=? n)%Z
                          | _ => false
                          end |}
       end).

(** ** Specification *)

Definition wanted_image (o : Options) : string := if String.eqb (op_Image o) "" then "ghcr.io/esm-dev/esm.sh:v136" else op_Image o.

(** The Deployment and the Service of the proxy: one container with the wanted image
    that listens on the port the Service forwards to, in pods that carry the labels
    both select. *)
Definition proxy_labels (v : option value) : Prop :=
  v = Some (VMap [("app.kubernetes.io/managed-by", VStr "tentacular"); ("app.kubernetes.io/name", VStr "esm-sh");
                  ("app.kubernetes.io/component", VStr "module-proxy")]).
Definition proxy_deployment (o : Options) (version : string) (d : object) : Prop :=
  o_name d = "esm-sh" /\ o_namespace d = op_Namespace o /\ o_resourceVersion d = version /\
  proxy_labels (at_path (VMap (o_body d)) ["spec"; "selector"; "matchLabels"]) /\
  proxy_labels (at_path (VMap (o_body d)) ["spec"; "template"; "metadata"; "labels"]) /\
  exists c, containers d = [VMap c] /\ map_get "image" c = Some (VStr (wanted_image o)) /\
    map_get "ports" c = Some (VList [VMap [("containerPort", VInt 8080); ("protocol", VStr "TCP")]]).
Definition proxy_service (o : Options) (s : object) : Prop :=
  o_name s = "esm-sh" /\ o_namespace s = op_Namespace o /\
  proxy_labels (at_path (VMap (o_body s)) ["spec"; "selector"]) /\
  at_path (VMap (o_body s)) ["spec"; "ports"] = Some (VList [VMap [("port", VInt 8080); ("protocol", VStr "TCP")]]).

(** The first container runs another image. *)
Definition drifted (o : Options) (d : object) : Prop :=
  exists c rest, containers d = c :: rest /\ container_image c <> wanted_image o.

(** The writes of the loop, each on the answer it got just before. *)
Definition repair (o : Options) (h : list event) (r : req) : Prop :=
  let ns := op_Namespace o in
  (exists d err, r = KCreate "deployments" ns d /\ proxy_deployment o "" d /\
     head h = Some (Ev (KGet "deployments" ns "esm-sh") (Err err)) /\ reason_is NotFound err = true) \/
  (exists d seen, r = KUpdate "deployments" ns d /\ proxy_deployment o (o_resourceVersion seen) d /\
     head h = Some (Ev (KGet "deployments" ns "esm-sh") (Ok seen)) /\ drifted o seen) \/
  (exists s err, r = KCreate "services" ns s /\ proxy_service o s /\
     head h = Some (Ev (KGet "services" ns "esm-sh") (Err err)) /\ reason_is NotFound err = true).

(** A request failed, other than by finding nothing. *)
Definition failing (e : event) : Prop :=
  match e with
  | Ev (KGet _ _ _) (Err err) => reason_is NotFound err = false
  | Ev (KCreate _ _ _) (Err _) | Ev (KUpdate _ _ _) (Err _) => True
  | _ => False
  end.
(** What a pass has seen or done: the Deployment without drift, or repaired. *)
Definition deployment_settled (o : Options) (pass : list event) : Prop :=
  let ns := op_Namespace o in
  (exists d, Ev (KGet "deployments" ns "esm-sh") (Ok d) ∈ pass /\ ~ drifted o d) \/
  (exists d x, Ev (KCreate "deployments" ns d) (Ok x) ∈ pass) \/
  (exists d x, Ev (KUpdate "deployments" ns d) (Ok x) ∈ pass).
Definition service_settled (o : Options) (pass : list event) : Prop :=
  let ns := op_Namespace o in
  (exists s, Ev (KGet "services" ns "esm-sh") (Ok s) ∈ pass) \/ (exists s x, Ev (KCreate "services" ns s) (Ok x) ∈ pass).
Definition settled (o : Options) (pass : list event) : Prop :=
  Exists failing pass \/ (deployment_settled o pass /\ service_settled o pass).

(** ** Lemmas *)

Lemma built_deployment o version : proxy_deployment o version (with_version (BuildDeployment o) version).
Proof. split_and!; try done. by eexists. Qed.
Lemma built_deployment_new o : proxy_deployment o "" (BuildDeployment o).
Proof. split_and!; try done. by eexists. Qed.
Lemma built_service o : proxy_service o (BuildService o).
Proof. by split_and!. Qed.

Definition repairs (o : Options) (h : list event) (r : req) : Prop := is_write r = true -> repair o h r.

(** What a part of a pass has done since [h]: its work, unless a request failed. *)
Definition part (done : list event -> Prop) (h h' : list event) (err : option error) : Prop :=
  exists new, h' = (new ++ h)%list /\ match err with Some _ => Exists failing new | None => done new end.

(** The Deployment half of a pass and the Service half, each with its own requests. *)
Lemma reconcileDeployment_holds o h : holds (repairs o) (part (deployment_settled o) h) h (reconcileDeployment o).
Proof.
  unfold reconcileDeployment. cbv zeta. apply holds_call_bind; [done|]. intros [d|err].
  - assert (drifted o d \/ ~ drifted o d /\ part (deployment_settled o) h (Ev (KGet "deployments" (op_Namespace o) DeploymentName) (Ok d) :: h) None) as Hcase.
    { destruct (containers d) as [|c rest] eqn:Hc.
      - right. assert (~ drifted o d) as Hno by (intros (? & ? & H & _); congruence). split; [done|].
        exists [Ev (KGet "deployments" (op_Namespace o) DeploymentName) (Ok d)]. split; [done|]. left. exists d. split; [by left|done].
      - destruct (decide (container_image c = wanted_image o)) as [He|He]; [right|left; by exists c, rest].
        assert (~ drifted o d) as Hno by (intros (? & ? & H & ?); congruence). split; [done|].
        exists [Ev (KGet "deployments" (op_Namespace o) DeploymentName) (Ok d)]. split; [done|]. left. exists d. split; [by left|done]. }
    destruct Hcase as [Hd|[Hno Hret]].
    + destruct (id Hd) as (c & rest & Hc & Himg). rewrite Hc. change (image o) with (wanted_image o).
      rewrite (proj2 (String.eqb_neq _ _) Himg). cbn [negb]. apply holds_call_bind.
      { intros _. right; left. exists (with_version (BuildDeployment o) (o_resourceVersion d)), d. split_and!; [done|apply built_deployment|done..]. }
      intros x. eexists [_; _]. split; [reflexivity|]. destruct x as [x|err].
      * right; right. eexists _, x. by left.
      * by constructor.
    + destruct (containers d) as [|c rest] eqn:Hc; [exact Hret|]. destruct (String.eqb_spec (container_image c) (image o)) as [He|He]; [exact Hret|].
      destruct Hno. by exists c, rest.
  - destruct (reason_is NotFound err) eqn:Hr.
    + apply holds_call_bind.
      { intros _. left. exists (BuildDeployment o), err. split_and!; [done|apply built_deployment_new|done..]. }
      intros x. eexists [_; _]. split; [reflexivity|]. destruct x as [x|e].
      * right; left. eexists _, x. by left.
      * by constructor.
    + eexists [_]. split; [reflexivity|]. by constructor.
Qed.

Lemma reconcileService_holds o h : holds (repairs o) (part (service_settled o) h) h (reconcileService o).
Proof.
  unfold reconcileService. cbv zeta. apply holds_call_bind; [done|]. intros [s|err].
  - eexists [_]. split; [reflexivity|]. left. exists s. by left.
  - destruct (reason_is NotFound err) eqn:Hr.
    + apply holds_call_bind.
      { intros _. right; right. exists (BuildService o), err. split_and!; [done|apply built_service|done..]. }
      intros x. eexists [_; _]. split; [reflexivity|]. destruct x as [x|e].
      * right. eexists _, x. by left.
      * by constructor.
    + eexists [_]. split; [reflexivity|]. by constructor.
Qed.

Lemma deployment_settled_more o new pass : deployment_settled o pass -> deployment_settled o (new ++ pass).
Proof.
  intros [(d & Hd & H)|[(d & x & H)|(d & x & H)]]; [left; exists d|right; left; exists d, x|right; right; exists d, x]; set_solver.
Qed.

(** One pass, after whatever came before it. *)
Lemma reconcileOnce_holds o h :
  holds (repairs o) (fun h' _ => exists pass, h' = (pass ++ h)%list /\ settled o pass) h (reconcileOnce o).
Proof.
  unfold reconcileOnce. apply holds_bind. eapply holds_mono; [by intros ? ? H; exact H| |apply reconcileDeployment_holds].
  intros h1 [err|] (new & -> & Hnew); [exists new; split; [done|by left]|].
  apply holds_bind. eapply holds_mono; [by intros ? ? H; exact H| |apply reconcileService_holds].
  intros h2 err (new2 & -> & Hnew2). exists (new2 ++ new)%list. split; [by rewrite (assoc_L (++)%list)|].
  destruct err; [left; apply Exists_app; by left|right]. split; [by apply deployment_settled_more|].
  destruct Hnew2 as [(s & H)|(s & x & H)]; [left; exists s|right; exists s, x]; set_solver.
Qed.

Lemma ticking_holds o ticks h :
  holds (repairs o) (fun h' _ => exists passes, h' = (mjoin passes ++ h)%list /\ length passes = ticks /\ Forall (settled o) passes) h
    (ticking o ticks).
Proof.
  revert h. induction ticks as [|n IH]; intros h; cbn [ticking]; [by exists []|].
  apply holds_bind. eapply holds_mono; [by intros ? ? H; exact H| |apply reconcileOnce_holds]. intros h1 [] (pass & -> & Hp).
  eapply holds_mono; [by intros ? ? H; exact H| |apply IH]. intros h2 [] (passes & -> & Hl & Hs).
  exists (passes ++ [pass])%list. split_and!.
  - rewrite join_app. cbn. by rewrite app_nil_r, (assoc_L (++)%list).
  - rewrite length_app. cbn. lia.
  - apply Forall_app. split; [done|]. by constructor.
Qed.

(** ** Properties *)

(** C39: The proxy reconciler repairs what it finds broken and nothing else, whatever
    the cluster answers and however often its timer fires.  It writes only to create
    the Deployment or the Service that it was just told is missing, or to update
    the Deployment it just fetched, under the version it fetched, when its first
    container runs another image; what it writes is one container of the wanted
    image in pods that the Service selects.  Every pass ends with a failed request,
    or has seen the Deployment without drift, created it or updated it, and has seen
    or created the Service. *)
Theorem reconcile_repairs o ticks :
  holds (fun h r => is_write r = true -> repair o h r)
    (fun h' _ => exists passes, h' = mjoin passes /\ length passes = S ticks /\ Forall (settled o) passes) [] (Run o ticks).
Proof.
  change (Run o ticks) with (ticking o (S ticks)). eapply holds_mono; [by intros ? ? H; exact H| |apply ticking_holds].
  intros h' _ (passes & -> & Hl & Hs). exists passes. by rewrite app_nil_r.
Qed.

(** A freshly installed proxy is reported installed, not ready, with the wanted
    image. *)
Example status_after_install :
  (exec (GetStatus (NewReconciler {| op_Namespace := ""; op_Image := ""; op_StorageSize := "" |}))
     (exec (reconcileOnce (NewReconciler {| op_Namespace := ""; op_Image := ""; op_StorageSize := "" |})) empty_cluster).2).1
  = {| st_Image := DefaultImage; st_Storage := "emptydir"; st_Installed := true; st_Ready := false |}.
Proof. vm_compute. reflexivity. Qed.

(** Only image drift is repaired: a Deployment scaled to zero stays so. *)
Example scaled_down_is_left :
  let o := NewReconciler {| op_Namespace := ""; op_Image := ""; op_StorageSize := "" |} in
  let d := BuildDeployment o in
  let d0 := {| o_name := o_name d; o_namespace := o_namespace d; o_labels := o_labels d;
               o_annotations := o_annotations d; o_resourceVersion := "7"; o_created := o_created d;
               o_body := map_set "spec" (VMap [("replicas", VInt 0);
                           ("template", VMap [("spec", VMap [("containers", VList [proxy_container o])])])]) (o_body d) |} in
  let key := ("deployments", op_Namespace o, DeploymentName) in
  cl_objects (exec (reconcileOnce o) (with_objects empty_cluster {[key := d0]})).2 !! key = Some d0.
Proof. vm_compute. reflexivity. Qed.
