(* ===== verification/Psa.v ===== *)
(** * Pod Security validation (pkg/k8s/psa.go)

    The admission checks the server repeats before it applies a workload, so
    that a rejected pod is reported at deployment time. *)

From S2P Require Import Prelude GoStrings Effects K8sOps Unstructured.
#[local] Open Scope string_scope.

Definition PSAEnforceLabel : string := "pod-security.kubernetes.io/enforce".
Definition PSALevelPrivileged : string := "privileged".
Definition PSALevelBaseline : string := "baseline".
Definition PSALevelRestricted : string := "restricted".

Record PSAViolation := {
  pv_ManifestKind : string;
  pv_ManifestName : string;
  pv_Field : string;
  pv_Reason : string;
}.
Definition violation_String (v : PSAViolation) : string :=
  pv_ManifestKind v +:+ "/" +:+ pv_ManifestName v +:+ ": " +:+ pv_Field v +:+ " — " +:+ pv_Reason v.

Record PSAValidationError := {
  pe_Namespace : string;
  pe_Level : string;
  pe_Violations : list PSAViolation;
}.

(** [isValidSeccompType] *)
Definition isValidSeccompType (t : string) : bool := String.eqb t "RuntimeDefault" || String.eqb t "Localhost".
(** [strings.EqualFold d "ALL"]: no rune outside ASCII folds to these letters. *)
Definition containsALL (drop : list string) : bool :=
  existsb (fun d => String.eqb (str_map lower_char d) "all") drop.

(** The level a namespace's label sets. *)
Definition psa_level (ns : object) : string :=
  let level := default "" (o_labels ns !! PSAEnforceLabel) in
  if String.eqb level "" then PSALevelPrivileged else level.

Definition NamespacePSALevel (namespace : string) : prog (res string) :=
  try ns := call (KGet "namespaces" "" namespace)
    else (fun err => Err (Errorf "get namespace %q for PSA level: %w" [AStr namespace; AErr err])) ;;
  Ret (Ok (psa_level ns)).

Section psa.
Context `{U : Unicode} `{L : UnstructuredLib}.

Definition psa_Error (e : PSAValidationError) : string :=
  Join (Sprintf "PSA validation failed for namespace %q (enforce=%s): %d violation(s)"
          [pe_Namespace e; pe_Level e; pretty (length (pe_Violations e))]
        :: ((fun v => "  - " +:+ violation_String v) <$> pe_Violations e)) nl.

(** [x && found] of an accessor. *)
Definition is_true (o : option bool) : bool := match o with Some b => b | None => false end.

(** One container of the loop: the pod-level verdicts and the container's map. *)
Definition check_container (kind name field : string) (podRunAsNonRoot podSeccompOK : bool) (i : nat) (c : manifest) :
    list PSAViolation :=
  let containerName :=
    match NestedString c ["name"] with
    | Some n => if String.eqb n "" then Sprintf "%s[%d]" [field; pretty i] else n
    | None => Sprintf "%s[%d]" [field; pretty i]
    end in
  let qualifier := Sprintf "%s/%s container %q" [kind; name; containerName] in
  let violated (bad : bool) (fld why : string) :=
    if bad then [{| pv_ManifestKind := kind; pv_ManifestName := name; pv_Field := fld;
                    pv_Reason := qualifier +:+ why |}] else [] in
  (violated (negb podRunAsNonRoot && negb (is_true (NestedBool c ["securityContext"; "runAsNonRoot"])))
     "securityContext.runAsNonRoot" ": runAsNonRoot must be true at pod or container level (restricted PSA)"
   ++ violated (match NestedBool c ["securityContext"; "allowPrivilegeEscalation"] with Some b => b | None => true end)
        "securityContext.allowPrivilegeEscalation" ": allowPrivilegeEscalation must be false (restricted PSA)"
   ++ violated (match NestedStringSlice c ["securityContext"; "capabilities"; "drop"] with
                | Some drop => negb (containsALL drop)
                | None => true
                end)
        "securityContext.capabilities.drop"
        (": capabilities.drop must contain " +:+ String dquote ("ALL" +:+ String dquote " (restricted PSA)"))
   ++ violated (negb podSeccompOK
                && negb (match NestedString c ["securityContext"; "seccompProfile"; "type"] with
                         | Some t => isValidSeccompType t
                         | None => false
                         end))
        "securityContext.seccompProfile.type"
        ": seccompProfile.type must be RuntimeDefault or Localhost at pod or container level (restricted PSA)")%list.

(** The inner loop, from index [i]; an element that is not a map is skipped. *)
Fixpoint check_containers (kind name field : string) (podRunAsNonRoot podSeccompOK : bool) (i : nat)
    (containersRaw : list value) : list PSAViolation :=
  match containersRaw with
  | [] => []
  | cRaw :: rest =>
      ((match cRaw with
        | VMap c => check_container kind name field podRunAsNonRoot podSeccompOK i c
        | _ => []
        end) ++ check_containers kind name field podRunAsNonRoot podSeccompOK (S i) rest)%list
  end.

Definition pod_run_as_non_root (obj : manifest) (podSpecPath : list string) : bool :=
  is_true (NestedBool obj (podSpecPath ++ ["securityContext"; "runAsNonRoot"])%list).
Definition pod_seccomp_ok (obj : manifest) (podSpecPath : list string) : bool :=
  match NestedString obj (podSpecPath ++ ["securityContext"; "seccompProfile"; "type"])%list with
  | Some t => isValidSeccompType t
  | None => false
  end.

Definition validatePodSpec (obj : manifest) (podSpecPath : list string) (kind name : string) : list PSAViolation :=
  let run := pod_run_as_non_root obj podSpecPath in
  let seccomp := pod_seccomp_ok obj podSpecPath in
  mjoin ((fun field => check_containers kind name field run seccomp 0
                         (default [] (NestedSlice obj (podSpecPath ++ [field])%list)))
         <$> ["containers"; "initContainers"]).

(** The path to the pod spec of the inspected kinds. *)
Definition pod_spec_path (kind : string) : option (list string) :=
  if String.eqb kind "Deployment" || String.eqb kind "Job" then Some ["spec"; "template"; "spec"]
  else if String.eqb kind "CronJob" then Some ["spec"; "jobTemplate"; "spec"; "template"; "spec"]
  else None.

Definition manifest_violations (m : manifest) : list PSAViolation :=
  match pod_spec_path (GetKind m) with
  | Some path => validatePodSpec m path (GetKind m) (GetName m)
  | None => []
  end.

Definition ValidatePSA (namespace level : string) (manifests : list manifest) : option PSAValidationError :=
  if String.eqb level "" || String.eqb level PSALevelPrivileged then None
  else match mjoin (manifest_violations <$> manifests) with
       | [] => None
       | violations => Some {| pe_Namespace := namespace; pe_Level := level; pe_Violations := violations |}
       end.

(** ** Specification *)

(** What a container must set, given what its pod sets. *)
Definition compliant (podRun podSeccomp : bool) (c : manifest) : Prop :=
  (podRun = true \/ NestedBool c ["securityContext"; "runAsNonRoot"] = Some true) /\
  NestedBool c ["securityContext"; "allowPrivilegeEscalation"] = Some false /\
  (exists drop, NestedStringSlice c ["securityContext"; "capabilities"; "drop"] = Some drop /\ containsALL drop = true) /\
  (podSeccomp = true \/ exists t, NestedString c ["securityContext"; "seccompProfile"; "type"] = Some t /\
                                  isValidSeccompType t = true).

(** Every container of a workload, in both lists, is compliant. *)
Definition workload_ok (m : manifest) : Prop :=
  forall path, pod_spec_path (GetKind m) = Some path ->
  forall field cs c, field ∈ ["containers"; "initContainers"] ->
    NestedSlice m (path ++ [field])%list = Some cs -> VMap c ∈ cs ->
    compliant (pod_run_as_non_root m path) (pod_seccomp_ok m path) c.

(** ** Lemmas *)

Lemma check_container_nil kind name field podRun podSeccomp i c :
  check_container kind name field podRun podSeccomp i c = [] <-> compliant podRun podSeccomp c.
Proof.
  unfold check_container, compliant. cbn zeta.
  assert (forall (b : bool) (v : PSAViolation), (if b then [v] else []) = [] <-> b = false) as Hif
    by (intros [] v; split; done).
  rewrite !app_nil, !Hif, !andb_false_iff, !negb_false_iff.
  assert ((match NestedBool c ["securityContext"; "allowPrivilegeEscalation"] with Some b => b | None => true end) = false
          <-> NestedBool c ["securityContext"; "allowPrivilegeEscalation"] = Some false) as ->.
  { destruct (NestedBool c _) as [[]|]; split; congruence. }
  assert ((is_true (NestedBool c ["securityContext"; "runAsNonRoot"])) = true
          <-> NestedBool c ["securityContext"; "runAsNonRoot"] = Some true) as ->.
  { unfold is_true. destruct (NestedBool c _) as [[]|]; split; congruence. }
  assert ((match NestedStringSlice c ["securityContext"; "capabilities"; "drop"] with
           | Some drop => negb (containsALL drop) | None => true end) = false
          <-> exists drop, NestedStringSlice c ["securityContext"; "capabilities"; "drop"] = Some drop /\
                           containsALL drop = true) as ->.
  { destruct (NestedStringSlice c _) as [drop|]; rewrite ?negb_false_iff; split.
    - intros H. by exists drop.
    - by intros (? & [= <-] & ?).
    - done.
    - by intros (? & ? & _). }
  assert ((match NestedString c ["securityContext"; "seccompProfile"; "type"] with
           | Some t => isValidSeccompType t | None => false end) = true
          <-> exists t, NestedString c ["securityContext"; "seccompProfile"; "type"] = Some t /\
                        isValidSeccompType t = true) as ->; [|done].
  destruct (NestedString c _) as [t|]; split.
  - intros H. by exists t.
  - by intros (? & [= <-] & ?).
  - done.
  - by intros (? & ? & _).
Qed.

Lemma check_containers_nil kind name field podRun podSeccomp i cs :
  check_containers kind name field podRun podSeccomp i cs = [] <->
  forall c, VMap c ∈ cs -> compliant podRun podSeccomp c.
Proof.
  revert i. induction cs as [|v cs IH]; intros i; cbn [check_containers].
  - split; [|done]. by intros _ c ?%elem_of_nil.
  - rewrite app_nil, IH. setoid_rewrite elem_of_cons. split.
    + intros [Hv Hcs] c [<-|Hc]; [by eapply check_container_nil|by apply Hcs].
    + intros H. split; [|by auto]. destruct v; try done. apply check_container_nil. by auto.
Qed.

Lemma mjoin_nil {A} (ls : list (list A)) : mjoin ls = [] <-> Forall (fun l => l = []) ls.
Proof.
  induction ls as [|l ls IH]; [by split|]. rewrite Forall_cons. simpl. by rewrite app_nil, IH.
Qed.

Lemma manifest_violations_nil m : manifest_violations m = [] <-> workload_ok m.
Proof.
  unfold manifest_violations, workload_ok. destruct (pod_spec_path (GetKind m)) as [path|]; [|by split].
  unfold validatePodSpec. cbn zeta. rewrite mjoin_nil, Forall_fmap, Forall_forall. split.
  - intros H p [= <-] field cs c Hf Hcs Hc. specialize (H field Hf). simpl in H. rewrite Hcs in H.
    eapply check_containers_nil; [exact H|exact Hc].
  - intros H field Hf. simpl. apply check_containers_nil. intros c Hc.
    destruct (NestedSlice m (path ++ [field])%list) as [cs|] eqn:Hcs; [|by apply elem_of_nil in Hc].
    by eapply H.
Qed.

Lemma ValidatePSA_None namespace level manifests :
  ValidatePSA namespace level manifests = None <->
  level = "" \/ level = PSALevelPrivileged \/ Forall workload_ok manifests.
Proof.
  unfold ValidatePSA. destruct (String.eqb_spec level "") as [Hl|Hl]; [split; [by left|done]|].
  destruct (String.eqb_spec level PSALevelPrivileged) as [Hp|Hp]; [split; [by right; left|done]|].
  cbn [orb]. assert (mjoin (manifest_violations <$> manifests) = [] <-> Forall workload_ok manifests) as Hm.
  { rewrite mjoin_nil, Forall_fmap, !Forall_forall. unfold compose.
    by setoid_rewrite manifest_violations_nil. }
  rewrite <- Hm. destruct (mjoin _); [split; [by right; right|done]|].
  split; [done|]. by intros [?|[?|?]].
Qed.

(** ** Properties *)

(** C35: [ValidatePSA] accepts exactly the manifests that meet its policy: at the
    privileged level everything; at any other level every container and init
    container of every Deployment, Job and CronJob runs as non-root, forbids
    privilege escalation, drops all capabilities and has an allowed seccomp
    profile, each of the first and last at container or pod level. *)
Theorem ValidatePSA_spec namespace level manifests :
  ValidatePSA namespace level manifests = None <->
  level = "" \/ level = PSALevelPrivileged \/ Forall workload_ok manifests.
Proof. apply ValidatePSA_None. Qed.
End psa.

(** A container that opts out of a setting its pod makes is not reported: the
    pod-level value is enough for the check. *)
Example pod_level_overridden :
  let c := VMap [("name", VStr "a");
                 ("securityContext", VMap [("runAsNonRoot", VBool false); ("allowPrivilegeEscalation", VBool false);
                    ("capabilities", VMap [("drop", VList [VStr "ALL"])]);
                    ("seccompProfile", VMap [("type", VStr "Unconfined")])])] in
  let m := [("kind", VStr "Deployment"); ("metadata", VMap [("name", VStr "d")]);
            ("spec", VMap [("template", VMap [("spec", VMap
               [("securityContext", VMap [("runAsNonRoot", VBool true);
                                          ("seccompProfile", VMap [("type", VStr "RuntimeDefault")])]);
                ("containers", VList [c])])])])] in
  ValidatePSA (U := ascii_tables) (L := path_lib) "ns" "restricted" [m] = None.
Proof. vm_compute. reflexivity. Qed.

Example missing_fields_reported :
  let m := [("kind", VStr "CronJob"); ("metadata", VMap [("name", VStr "j")]);
            ("spec", VMap [("jobTemplate", VMap [("spec", VMap [("template", VMap [("spec", VMap
               [("initContainers", VList [VMap [("name", VStr "i")]])])])])])])] in
  length (match ValidatePSA (U := ascii_tables) (L := path_lib) "ns" "baseline" [m] with
          | Some e => pe_Violations e
          | None => []
          end) = 4%nat.
Proof. vm_compute. reflexivity. Qed.
