(* ===== verification/Sql.v ===== *)
(** * The lexical structure of SQL

    How Postgres reads a statement: words, symbols, identifiers in double quotes and
    literals in single quotes, a quote inside doubled.  Backslashes are ordinary
    characters, as they are with [standard_conforming_strings] on. *)

From S2P Require Import Prelude GoStrings.
#[local] Open Scope string_scope.

Inductive token :=
  | Word (w : string)
  | Symbol (c : ascii)
  | Ident (s : string)
  | Lit (s : string)
  | Unterminated.

(** What is being read: plain text with the word so far, or a quoted item. *)
Inductive mode :=
  | Plain (w : string)
  | InIdent (s : string)
  | InLit (s : string).

Definition snoc (s : string) (c : ascii) : string := s +:+ String c "".
Definition end_word (w : string) : list token := if String.eqb w "" then [] else [Word w].
Definition blank (c : ascii) : bool :=
  Ascii.eqb c " " || Ascii.eqb c (ascii_of_nat 9) || Ascii.eqb c (ascii_of_nat 10) || Ascii.eqb c (ascii_of_nat 13).
Definition symbol (c : ascii) : bool := existsb (Ascii.eqb c) ["("%char; ")"%char; "="%char; ";"%char; "."%char; ","%char; "$"%char].

Fixpoint lex (m : mode) (s : string) : list token :=
  match m with
  | Plain w =>
      match s with
      | "" => end_word w
      | String c r =>
          if Ascii.eqb c dquote then end_word w ++ lex (InIdent "") r
          else if Ascii.eqb c "'" then end_word w ++ lex (InLit "") r
          else if blank c then end_word w ++ lex (Plain "") r
          else if symbol c then end_word w ++ Symbol c :: lex (Plain "") r
          else lex (Plain (snoc w c)) r
      end
  | InIdent a =>
      match s with
      | "" => [Unterminated]
      | String c r =>
          if Ascii.eqb c dquote then
            match r with
            | String c' r' => if Ascii.eqb c' dquote then lex (InIdent (snoc a dquote)) r' else Ident a :: lex (Plain "") r
            | "" => [Ident a]
            end
          else lex (InIdent (snoc a c)) r
      end
  | InLit a =>
      match s with
      | "" => [Unterminated]
      | String c r =>
          if Ascii.eqb c "'" then
            match r with
            | String c' r' => if Ascii.eqb c' "'" then lex (InLit (snoc a "'")) r' else Lit a :: lex (Plain "") r
            | "" => [Lit a]
            end
          else lex (InLit (snoc a c)) r
      end
  end.
Definition tokens : string -> list token := lex (Plain "").

(** What does not continue a quoted item. *)
Definition not_starting (q : ascii) (s : string) : bool :=
  match s with
  | String c _ => negb (Ascii.eqb c q)
  | "" => true
  end.

Lemma snoc_app a c s : snoc a c +:+ s = a +:+ String c s.
Proof. unfold snoc. by rewrite str_app_assoc. Qed.

(** One byte of a quoted item. *)
Lemma lex_ident_char a c r : Ascii.eqb c dquote = false -> lex (InIdent a) (String c r) = lex (InIdent (snoc a c)) r.
Proof. intros Hc. change (lex (InIdent a) (String c r)) with (if Ascii.eqb c dquote then lex (InIdent a) (String dquote r) else lex (InIdent (snoc a c)) r) at 1. by rewrite Hc. Qed.
Lemma lex_ident_quote a r : lex (InIdent a) (String dquote (String dquote r)) = lex (InIdent (snoc a dquote)) r.
Proof. done. Qed.
Lemma lex_ident_end a r : not_starting dquote r = true -> lex (InIdent a) (String dquote r) = Ident a :: lex (Plain "") r.
Proof.
  destruct r as [|c r]; [done|]. intros Hr%negb_true_iff.
  change (lex (InIdent a) (String dquote (String c r))) with
    (if Ascii.eqb c dquote then lex (InIdent (snoc a dquote)) r else Ident a :: lex (Plain "") (String c r)). by rewrite Hr.
Qed.
Lemma lex_lit_char a c rest : Ascii.eqb c "'" = false -> lex (InLit a) (String c rest) = lex (InLit (snoc a c)) rest.
Proof. intros Hc. cbn [lex]. by rewrite Hc. Qed.
Lemma lex_lit_quote a rest : lex (InLit a) (String "'" (String "'" rest)) = lex (InLit (snoc a "'")) rest.
Proof. done. Qed.
Lemma lex_lit_end a rest : not_starting "'" rest = true -> lex (InLit a) (String "'" rest) = Lit a :: lex (Plain "") rest.
Proof. destruct rest as [|c r]; [done|]. intros Hr%negb_true_iff. cbn [lex]. rewrite ?Ascii.eqb_refl. by rewrite Hr. Qed.

(** An identifier in quotes, its own quotes doubled, is one token, whatever it holds. *)
Lemma lex_ident a s rest :
  not_starting dquote rest = true ->
  lex (InIdent a) (ReplaceAll1 s dquote (String dquote (String dquote "")) +:+ String dquote rest) = Ident (a +:+ s) :: lex (Plain "") rest.
Proof.
  intros Hr. revert a. induction s as [|c s IH]; intros a; cbn [ReplaceAll1].
  - rewrite str_app_nil_r. by apply lex_ident_end.
  - rewrite <- (snoc_app a c s), <- IH. destruct (Ascii.eqb c dquote) eqn:Hc.
    + apply Ascii.eqb_eq in Hc as ->. apply lex_ident_quote.
    + by apply lex_ident_char.
Qed.

(** A stretch of plain text: its tokens and the word it ends in. *)
Fixpoint lex_text (w s : string) : list token * string :=
  match s with
  | "" => ([], w)
  | String c r =>
      if blank c then let (ts, w') := lex_text "" r in ((end_word w ++ ts)%list, w')
      else if symbol c then let (ts, w') := lex_text "" r in ((end_word w ++ Symbol c :: ts)%list, w')
      else lex_text (snoc w c) r
  end.
Definition unquoted (s : string) : bool := no_byte dquote s && no_byte "'" s.

Lemma lex_plain w c r :
  Ascii.eqb c dquote = false -> Ascii.eqb c "'" = false ->
  lex (Plain w) (String c r) =
    (if blank c then end_word w ++ lex (Plain "") r
     else if symbol c then end_word w ++ Symbol c :: lex (Plain "") r else lex (Plain (snoc w c)) r)%list.
Proof. intros Hd Hq. cbn [lex]. change (Ascii.eqb c _) with (Ascii.eqb c dquote) at 1. by rewrite Hd, Hq. Qed.
Lemma lex_text_ok w p rest :
  unquoted p = true -> lex (Plain w) (p +:+ rest) = ((lex_text w p).1 ++ lex (Plain (lex_text w p).2) rest)%list.
Proof.
  unfold unquoted. revert w. induction p as [|c p IH]; intros w Hp; [done|].
  assert (Ascii.eqb c dquote = false /\ Ascii.eqb c "'" = false /\ unquoted p = true) as (Hd & Hq & Hp').
  { unfold no_byte in Hp. cbn [str_forallb] in Hp. rewrite !andb_true_iff, !negb_true_iff in Hp. unfold unquoted, no_byte. rewrite andb_true_iff. tauto. }
  change (String c p +:+ rest) with (String c (p +:+ rest)). rewrite lex_plain by done. cbn [lex_text].
  destruct (blank c); [|destruct (symbol c)].
  - rewrite IH by done. destruct (lex_text "" p) as [ts w']. cbn [fst snd]. by rewrite (assoc_L (++)%list).
  - rewrite IH by done. destruct (lex_text "" p) as [ts w']. cbn [fst snd]. by rewrite <- (assoc_L (++)%list).
  - by apply IH.
Qed.
