(* ===== verification/PgRegistrar.v ===== *)
(** * The Postgres registrar (pkg/exoskeleton/registrar_postgres.go)

    A tentacle's role and schema, created and dropped in one transaction of the
    admin connection.  The connection pool is the pgx library's; its calls are
    the [Pg*] requests of [Effects]. *)

From S2P Require Import Prelude GoStrings Sha256 ExoConfig Identity Effects Sql.
#[local] Open Scope string_scope.

Record PostgresCreds := {
  pgc_Host : string;
  pgc_Port : string;
  pgc_Database : string;
  pgc_User : string;
  pgc_Password : string;
  pgc_Schema : string;
  pgc_Protocol : string;
}.

(** [generateHexPassword] *)
Definition generateHexPassword (hexChars : nat) : prog (res string) :=
  try b := call (RandRead (hexChars / 2)) else Err ;;
  Ret (Ok (hex b)).

(** [pgIdent]: quoted, with embedded quotes doubled. *)
Definition pgIdent (s : string) : string :=
  String dquote (ReplaceAll1 s dquote (String dquote (String dquote "")) +:+ String dquote "").

Section registrar.
Context `{U : Unicode}.

Definition escape_rune (r : string) : string :=
  if String.eqb r "'" then "''"
  else if String.eqb r (String backslash "") then String backslash (String backslash "")
  else r.
(** [escapeLiteral] *)
Definition escapeLiteral (s : string) : string := foldr (fun r acc => escape_rune r +:+ acc) "" (runes s).

(** The statements of [Register], in order. *)
Definition sql_create_role (role password : string) : string :=
  Sprintf "DO $$ BEGIN
			IF NOT EXISTS (SELECT FROM pg_catalog.pg_roles WHERE rolname = '%s') THEN
				CREATE ROLE %s LOGIN PASSWORD '%s';
			ELSE
				ALTER ROLE %s WITH PASSWORD '%s';
			END IF;
		END $$"
    [escapeLiteral role; pgIdent role; escapeLiteral password; pgIdent role; escapeLiteral password].
Definition sql_grant_to_admin (role : string) : string :=
  Sprintf "GRANT %s TO CURRENT_USER" [pgIdent role].
Definition sql_create_schema (schema role : string) : string :=
  Sprintf "CREATE SCHEMA IF NOT EXISTS %s AUTHORIZATION %s" [pgIdent schema; pgIdent role].
Definition sql_grant_usage (schema role : string) : string :=
  Sprintf "GRANT USAGE ON SCHEMA %s TO %s" [pgIdent schema; pgIdent role].
Definition sql_grant_all (schema role : string) : string :=
  Sprintf "GRANT ALL PRIVILEGES ON ALL TABLES IN SCHEMA %s TO %s" [pgIdent schema; pgIdent role].
Definition sql_alter_default (schema role : string) : string :=
  Sprintf "ALTER DEFAULT PRIVILEGES IN SCHEMA %s GRANT ALL PRIVILEGES ON TABLES TO %s"
    [pgIdent schema; pgIdent role].
Definition sql_revoke (schema role : string) : string :=
  Sprintf "REVOKE ALL PRIVILEGES ON ALL TABLES IN SCHEMA %s FROM %s" [pgIdent schema; pgIdent role].
Definition sql_drop_schema (schema : string) : string :=
  Sprintf "DROP SCHEMA IF EXISTS %s CASCADE" [pgIdent schema].
Definition sql_drop_role (role : string) : string := "DROP ROLE IF EXISTS " +:+ pgIdent role.

(** [defer tx.Rollback(ctx)]: runs on every return, after a commit too. *)
Definition with_rollback {A} (p : prog A) : prog A :=
  r ← p; _ ← call PgRollback; Ret r.

Definition wrap1 {A} (f : string) (x : string) (err : error) : res A := Err (Errorf f [AStr x; AErr err]).

(** [PostgresRegistrar.Register] *)
Definition Register (cfg : PostgresConfig) (id : Identity) : prog (res PostgresCreds) :=
  try password := generateHexPassword 32
    else (fun err => Err (Errorf "generate password: %w" [AErr err])) ;;
  let role := id_PgRole id in
  let schema := id_PgSchema id in
  try_ call PgBegin else (fun err => Err (Errorf "begin tx: %w" [AErr err])) ;;
  with_rollback (
    try_ call (PgExec (sql_create_role role password)) else wrap1 "create/alter role %s: %w" role ;;
    try_ call (PgExec (sql_grant_to_admin role)) else wrap1 "grant role %s to admin: %w" role ;;
    try_ call (PgExec (sql_create_schema schema role)) else wrap1 "create schema %s: %w" schema ;;
    try_ call (PgExec (sql_grant_usage schema role)) else wrap1 "grant usage on schema %s: %w" schema ;;
    try_ call (PgExec (sql_grant_all schema role)) else wrap1 "grant all on tables in %s: %w" schema ;;
    try_ call (PgExec (sql_alter_default schema role)) else wrap1 "alter default privileges in %s: %w" schema ;;
    try_ call PgCommit else (fun err => Err (Errorf "commit: %w" [AErr err])) ;;
    Ret (Ok {| pgc_Host := pg_Host cfg; pgc_Port := pg_Port cfg; pgc_Database := pg_Database cfg;
               pgc_User := role; pgc_Password := password; pgc_Schema := schema;
               pgc_Protocol := "postgresql" |})).

(** [PostgresRegistrar.Unregister]; a failed revoke is only logged. *)
Definition Unregister (id : Identity) : prog (res ()) :=
  let role := id_PgRole id in
  let schema := id_PgSchema id in
  try_ call PgBegin else (fun err => Err (Errorf "begin tx: %w" [AErr err])) ;;
  with_rollback (
    _ ← call (PgExec (sql_revoke schema role));
    try_ call (PgExec (sql_drop_schema schema)) else wrap1 "drop schema %s: %w" schema ;;
    try_ call (PgExec (sql_drop_role role)) else wrap1 "drop role %s: %w" role ;;
    try_ call PgCommit else (fun err => Err (Errorf "commit: %w" [AErr err])) ;;
    Ret (Ok ())).

(** The enclave operations are stubs in the source. *)
Definition EnsureEnclave (id : EnclaveIdentity) : prog (res ()) := Ret (Ok ()).
Definition CleanupEnclave (id : EnclaveIdentity) : prog (res ()) := Ret (Ok ()).

(** ** Specification *)

(** Backslashes are doubled inside literals. *)
Definition doubled (s : string) : string := ReplaceAll1 s backslash (String backslash (String backslash "")).

(** What Postgres reads of the statements, the role and the schema each being a
    single token. *)
Definition plain_statements (role schema : string) : list (list token) :=
  [[Word "GRANT"; Ident role; Word "TO"; Word "CURRENT_USER"];
   [Word "CREATE"; Word "SCHEMA"; Word "IF"; Word "NOT"; Word "EXISTS"; Ident schema; Word "AUTHORIZATION"; Ident role];
   [Word "GRANT"; Word "USAGE"; Word "ON"; Word "SCHEMA"; Ident schema; Word "TO"; Ident role];
   [Word "GRANT"; Word "ALL"; Word "PRIVILEGES"; Word "ON"; Word "ALL"; Word "TABLES"; Word "IN"; Word "SCHEMA"; Ident schema; Word "TO"; Ident role];
   [Word "ALTER"; Word "DEFAULT"; Word "PRIVILEGES"; Word "IN"; Word "SCHEMA"; Ident schema;
    Word "GRANT"; Word "ALL"; Word "PRIVILEGES"; Word "ON"; Word "TABLES"; Word "TO"; Ident role];
   [Word "REVOKE"; Word "ALL"; Word "PRIVILEGES"; Word "ON"; Word "ALL"; Word "TABLES"; Word "IN"; Word "SCHEMA"; Ident schema; Word "FROM"; Ident role];
   [Word "DROP"; Word "SCHEMA"; Word "IF"; Word "EXISTS"; Ident schema; Word "CASCADE"];
   [Word "DROP"; Word "ROLE"; Word "IF"; Word "EXISTS"; Ident role]].
(** The block that creates the role or sets its password. *)
Definition role_block (role password : string) : list token :=
  [Word "BEGIN"; Word "IF"; Word "NOT"; Word "EXISTS"; Symbol "("; Word "SELECT"; Word "FROM"; Word "pg_catalog"; Symbol "."; Word "pg_roles";
   Word "WHERE"; Word "rolname"; Symbol "="; Lit (doubled role); Symbol ")"; Word "THEN";
   Word "CREATE"; Word "ROLE"; Ident role; Word "LOGIN"; Word "PASSWORD"; Lit password; Symbol ";"; Word "ELSE";
   Word "ALTER"; Word "ROLE"; Ident role; Word "WITH"; Word "PASSWORD"; Lit password; Symbol ";"; Word "END"; Word "IF"; Symbol ";"; Word "END"].
(** A statement is one of these, or that block between dollar quotes, which the
    block itself does not contain. *)
Definition well_quoted (role schema sql : string) : Prop :=
  tokens sql ∈ plain_statements role schema \/
  exists body bs, sql = "DO $$" +:+ body +:+ "$$" /\ no_byte "$" body = true /\ tokens body = role_block role (hex bs).
Definition well_quoted_request (id : Identity) : list event -> req -> Prop :=
  every (fun r => forall sql, r = PgExec sql -> well_quoted (id_PgRole id) (id_PgSchema id) sql).

(** ** Lemmas *)

(** Statements a history of requests has executed since the last [BEGIN], newest first. *)
Fixpoint executed (h : list event) : list (string * bool) :=
  match h with
  | [] => []
  | Ev (PgExec s) x :: h' => (s, is_ok x) :: executed h'
  | Ev PgBegin _ :: _ => []
  | _ :: h' => executed h'
  end.

(** A string literal or identifier a statement may hold: no quote, no backslash. *)
Definition inert_char (c : ascii) : bool :=
  is_ascii_char c && negb (Ascii.eqb c dquote) && negb (Ascii.eqb c "'") && negb (Ascii.eqb c backslash).
Definition inert (s : string) : bool := str_forallb inert_char s.

Lemma pgIdent_inert s : inert s = true -> pgIdent s = String dquote (s +:+ String dquote "").
Proof.
  unfold inert, pgIdent. intros H. f_equal. f_equal. induction s as [|c s IH]; [done|].
  cbn [str_forallb] in H. apply andb_true_iff in H as [Hc Hs]. unfold inert_char in Hc.
  rewrite !andb_true_iff, !negb_true_iff in Hc. destruct Hc as [[[_ Hq] _] _].
  cbn [ReplaceAll1]. by rewrite Hq, IH.
Qed.

Lemma escapeLiteral_inert s : inert s = true -> escapeLiteral s = s.
Proof.
  unfold inert, escapeLiteral, runes. intros H.
  assert (is_ascii s = true) as ->.
  { eapply str_forallb_impl; [|exact H]. intros c Hc. unfold inert_char in Hc.
    rewrite !andb_true_iff in Hc. tauto. }
  induction s as [|c s IH]; [done|]. cbn [str_forallb] in H.
  apply andb_true_iff in H as [Hc Hs]. unfold inert_char in Hc.
  rewrite !andb_true_iff, !negb_true_iff, !Ascii.eqb_neq in Hc. destruct Hc as [[[_ _] Hq] Hb].
  cbn [list_ascii_of_string]. rewrite fmap_cons. cbn [foldr]. rewrite IH by done.
  unfold escape_rune. cbn [String.eqb].
  rewrite (proj2 (Ascii.eqb_neq _ _) Hq), (proj2 (Ascii.eqb_neq _ _) Hb). done.
Qed.

Lemma pg_identifier_inert s : pg_identifier s -> inert s = true.
Proof.
  intros (_ & _ & H). unfold inert. eapply str_forallb_impl; [|exact H].
  intros c. destruct c as [[] [] [] [] [] [] [] []]; intros Hc; try discriminate Hc; reflexivity.
Qed.

Lemma hex_inert bs : inert (hex bs) = true.
Proof.
  unfold inert. eapply str_forallb_impl; [|apply hex_ok].
  intros c. destruct c as [[] [] [] [] [] [] [] []]; intros Hc; try discriminate Hc; reflexivity.
Qed.

(** Bytes out of appended texts. *)
Ltac push_bytes :=
  repeat match goal with
         | |- context [String ?c ?s +:+ ?x] => change (String c s +:+ x) with (String c (s +:+ x))
         | |- context ["" +:+ ?x] => change ("" +:+ x) with x
         end.

(** What the two quoting functions write is one token. *)
Lemma pgIdent_token s w rest : not_starting dquote rest = true -> lex (Plain w) (pgIdent s +:+ rest) = (end_word w ++ Ident s :: lex (Plain "") rest)%list.
Proof.
  intros Hr. unfold pgIdent. change (lex (Plain w) _) with
    (end_word w ++ lex (InIdent "") ((ReplaceAll1 s dquote (String dquote (String dquote "")) +:+ String dquote "") +:+ rest))%list.
  rewrite str_app_assoc. change (String dquote "" +:+ rest) with (String dquote rest). by rewrite lex_ident.
Qed.
Lemma pgIdent_last s w : lex (Plain w) (pgIdent s) = (end_word w ++ [Ident s])%list.
Proof. rewrite <- (str_app_nil_r (pgIdent s)). by rewrite pgIdent_token. Qed.
Lemma escapeLiteral_token s w rest :
  is_ascii s = true -> not_starting "'" rest = true ->
  lex (Plain w) (String "'" (escapeLiteral s +:+ String "'" rest)) = (end_word w ++ Lit (doubled s) :: lex (Plain "") rest)%list.
Proof.
  intros Ha Hr. change (lex (Plain w) _) with (end_word w ++ lex (InLit "") (escapeLiteral s +:+ String "'" rest))%list. f_equal.
  assert (forall a, lex (InLit a) (foldr (fun r acc => escape_rune r +:+ acc) "" ((fun c => String c "") <$> list_ascii_of_string s) +:+ String "'" rest)
            = Lit (a +:+ doubled s) :: lex (Plain "") rest) as H.
  { clear Ha. unfold doubled. induction s as [|c s IH]; intros a; cbn [list_ascii_of_string fmap list_fmap foldr ReplaceAll1].
    - rewrite str_app_nil_r. by apply lex_lit_end.
    - rewrite str_app_assoc. unfold escape_rune. cbn [String.eqb]. destruct (Ascii.eqb_spec c "'") as [->|Hq].
      + change (Ascii.eqb "'" backslash) with false. cbv iota. push_bytes. rewrite lex_lit_quote, IH. by rewrite snoc_app.
      + destruct (Ascii.eqb_spec c backslash) as [->|Hb]; push_bytes.
        * rewrite !lex_lit_char by done. rewrite IH. by rewrite !snoc_app.
        * rewrite lex_lit_char by by apply Ascii.eqb_neq. rewrite IH. by rewrite snoc_app. }
  unfold escapeLiteral, runes. rewrite Ha. apply (H "").
Qed.

(** A statement as its text and the names and passwords quoted in it. *)
Inductive piece := Txt (t : string) | Quoted (s : string) | Literal (s : string).
Definition piece_text (p : piece) : string :=
  match p with
  | Txt t => t
  | Quoted s => pgIdent s
  | Literal s => "'" +:+ (escapeLiteral s +:+ "'")
  end.
Definition render (ps : list piece) : string := foldr (fun p acc => piece_text p +:+ acc) "" ps.
(** The text is plain, and no two quoted items touch. *)
Fixpoint well_spaced (ps : list piece) : bool :=
  match ps with
  | [] => true
  | Txt t :: ps => unquoted t && well_spaced ps
  | Quoted s :: ps => match ps with Txt (String _ _) :: _ | [] => true | _ => false end && well_spaced ps
  | Literal s :: ps => is_ascii s && match ps with Txt (String _ _) :: _ | [] => true | _ => false end && well_spaced ps
  end.
Fixpoint piece_tokens (w : string) (ps : list piece) : list token :=
  match ps with
  | [] => end_word w
  | Txt t :: ps => (lex_text w t).1 ++ piece_tokens (lex_text w t).2 ps
  | Quoted s :: ps => end_word w ++ Ident s :: piece_tokens "" ps
  | Literal s :: ps => end_word w ++ Lit (doubled s) :: piece_tokens "" ps
  end.

Lemma not_starting_render q ps :
  (q = dquote \/ q = "'"%char) -> well_spaced ps = true ->
  match ps with Txt (String _ _) :: _ | [] => true | _ => false end = true -> not_starting q (render ps) = true.
Proof.
  intros Hq Hw Hs. destruct ps as [|[[|c t]| |] ps]; try done. cbn [well_spaced] in Hw.
  unfold unquoted, no_byte in Hw. cbn [str_forallb] in Hw. rewrite !andb_true_iff in Hw.
  change (render _) with (String c (t +:+ render ps)). cbn [not_starting]. destruct Hq as [->| ->]; tauto.
Qed.
Lemma tokens_render w ps : well_spaced ps = true -> lex (Plain w) (render ps) = piece_tokens w ps.
Proof.
  revert w. induction ps as [|[t|s|s] ps IH]; intros w Hw; [done|..]; cbn [well_spaced] in Hw; cbn [piece_tokens];
    rewrite !andb_true_iff in Hw.
  - change (render _) with (t +:+ render ps). rewrite lex_text_ok by tauto. by rewrite IH by tauto.
  - change (render _) with (pgIdent s +:+ render ps). destruct Hw as [Hs Hw].
    rewrite pgIdent_token by (apply not_starting_render; auto). by rewrite IH.
  - change (render _) with (String "'" (escapeLiteral s +:+ "'") +:+ render ps). destruct Hw as [[Ha Hs] Hw].
    change (String "'" (escapeLiteral s +:+ "'") +:+ render ps) with (String "'" ((escapeLiteral s +:+ "'") +:+ render ps)).
    rewrite str_app_assoc. push_bytes.
    rewrite escapeLiteral_token by (try done; apply not_starting_render; auto). by rewrite IH.
Qed.

(** The statements as pieces. *)
Definition plain_pieces (role schema : string) : list (list piece) :=
  [[Txt "GRANT "; Quoted role; Txt " TO CURRENT_USER"];
   [Txt "CREATE SCHEMA IF NOT EXISTS "; Quoted schema; Txt " AUTHORIZATION "; Quoted role];
   [Txt "GRANT USAGE ON SCHEMA "; Quoted schema; Txt " TO "; Quoted role];
   [Txt "GRANT ALL PRIVILEGES ON ALL TABLES IN SCHEMA "; Quoted schema; Txt " TO "; Quoted role];
   [Txt "ALTER DEFAULT PRIVILEGES IN SCHEMA "; Quoted schema; Txt " GRANT ALL PRIVILEGES ON TABLES TO "; Quoted role];
   [Txt "REVOKE ALL PRIVILEGES ON ALL TABLES IN SCHEMA "; Quoted schema; Txt " FROM "; Quoted role];
   [Txt "DROP SCHEMA IF EXISTS "; Quoted schema; Txt " CASCADE"];
   [Txt "DROP ROLE IF EXISTS "; Quoted role]].
Definition plain_sql (role schema : string) : list string :=
  [sql_grant_to_admin role; sql_create_schema schema role; sql_grant_usage schema role; sql_grant_all schema role;
   sql_alter_default schema role; sql_revoke schema role; sql_drop_schema schema; sql_drop_role role].
Lemma plain_sql_pieces role schema : plain_sql role schema = render <$> plain_pieces role schema.
Proof.
  unfold plain_sql, plain_pieces, sql_grant_to_admin, sql_create_schema, sql_grant_usage, sql_grant_all, sql_alter_default, sql_revoke, sql_drop_schema, sql_drop_role.
  unfold render. cbn [fmap list_fmap foldr piece_text]. generalize (pgIdent role) as r, (pgIdent schema) as s.
  intros r s. rewrite <- (str_app_nil_r ("DROP ROLE IF EXISTS " +:+ r)), str_app_assoc. vm_compute. reflexivity.
Qed.
Lemma plain_tokens role schema sql : sql ∈ plain_sql role schema -> tokens sql ∈ plain_statements role schema.
Proof.
  rewrite plain_sql_pieces. intros (ps & -> & Hin)%list_elem_of_fmap.
  assert (forall a b, Forall2 (fun ps ts => well_spaced ps = true /\ piece_tokens "" ps = ts) a b -> ps ∈ a -> tokens (render ps) ∈ b) as Hall.
  { intros a b Hab Ha. apply list_elem_of_lookup in Ha as [i Hi]. destruct (Forall2_lookup_l _ _ _ _ _ Hab Hi) as (ts & Hb & Hw & <-).
    unfold tokens. rewrite tokens_render by done. by eapply list_elem_of_lookup_2. }
  refine (Hall _ _ _ Hin). repeat apply Forall2_cons_2; [split; reflexivity..|constructor].
Qed.

Definition block_pieces (role password : string) : list piece :=
  [Txt " BEGIN
			IF NOT EXISTS (SELECT FROM pg_catalog.pg_roles WHERE rolname = "; Literal role;
   Txt ") THEN
				CREATE ROLE "; Quoted role; Txt " LOGIN PASSWORD "; Literal password; Txt ";
			ELSE
				ALTER ROLE "; Quoted role; Txt " WITH PASSWORD "; Literal password; Txt ";
			END IF;
		END "].
Lemma create_role_pieces role password :
  sql_create_role role password = "DO $$" +:+ render (block_pieces role password) +:+ "$$".
Proof.
  unfold sql_create_role, block_pieces, render. cbn [foldr piece_text].
  generalize (pgIdent role) as r, (escapeLiteral role) as l, (escapeLiteral password) as p. intros r l p.
  repeat rewrite str_app_assoc. vm_compute. reflexivity.
Qed.

(** Quoting adds no dollar sign. *)
Lemma no_dollar_app a b : no_byte "$" (a +:+ b) = no_byte "$" a && no_byte "$" b.
Proof. apply str_forallb_app. Qed.
Lemma no_dollar_replace s c new : no_byte "$" s = true -> no_byte "$" new = true -> no_byte "$" (ReplaceAll1 s c new) = true.
Proof.
  intros Hs Hn. induction s as [|a s IH]; [done|]. unfold no_byte in Hs. cbn [str_forallb] in Hs. apply andb_true_iff in Hs as [Ha Hs].
  cbn [ReplaceAll1]. destruct (Ascii.eqb a c); [rewrite no_dollar_app, Hn|unfold no_byte; cbn [str_forallb]; rewrite Ha]; by apply IH.
Qed.
Lemma pgIdent_no_dollar s : no_byte "$" s = true -> no_byte "$" (pgIdent s) = true.
Proof.
  intros Hs. unfold pgIdent. change (no_byte "$" (ReplaceAll1 s dquote (String dquote (String dquote "")) +:+ String dquote "") = true).
  rewrite no_dollar_app, no_dollar_replace by done. done.
Qed.
Lemma escapeLiteral_no_dollar s : is_ascii s = true -> no_byte "$" s = true -> no_byte "$" (escapeLiteral s) = true.
Proof.
  intros Ha Hs. unfold escapeLiteral, runes. rewrite Ha. clear Ha. induction s as [|c s IH]; [done|].
  unfold no_byte in Hs. cbn [str_forallb] in Hs. apply andb_true_iff in Hs as [Hc Hs].
  cbn [list_ascii_of_string fmap list_fmap foldr]. rewrite no_dollar_app, (IH Hs), andb_true_r.
  unfold escape_rune. cbn [String.eqb]. destruct (Ascii.eqb c "'"); [done|]. destruct (Ascii.eqb c backslash); [done|].
  unfold no_byte. cbn [str_forallb]. by rewrite Hc.
Qed.
Lemma inert_no_backslash s : inert s = true -> doubled s = s.
Proof.
  unfold inert, doubled. induction s as [|c s IH]; [done|]. cbn [str_forallb]. intros [Hc Hs]%andb_true_iff.
  unfold inert_char in Hc. rewrite !andb_true_iff, !negb_true_iff in Hc. cbn [ReplaceAll1]. destruct Hc as [_ ->]. by rewrite IH.
Qed.
Lemma hex_no_dollar bs : no_byte "$" (hex bs) = true.
Proof.
  unfold no_byte. eapply str_forallb_impl; [|apply hex_ok].
  intros c. destruct c as [[] [] [] [] [] [] [] []]; intros Hc; try discriminate Hc; reflexivity.
Qed.
Lemma inert_ascii s : inert s = true -> is_ascii s = true.
Proof. intros H. eapply str_forallb_impl; [|exact H]. intros c. unfold inert_char. rewrite !andb_true_iff. tauto. Qed.

Lemma block_no_dollar role bs :
  is_ascii role = true -> no_byte "$" role = true -> no_byte "$" (render (block_pieces role (hex bs))) = true.
Proof.
  intros Ha Hr. pose proof (pgIdent_no_dollar role Hr) as H1. pose proof (escapeLiteral_no_dollar role Ha Hr) as H2.
  pose proof (hex_no_dollar bs) as H3. rewrite <- (escapeLiteral_inert (hex bs)) in H3 by apply hex_inert. unfold render, block_pieces. cbn [foldr piece_text].
  rewrite !no_dollar_app, H1, H2, H3. reflexivity.
Qed.
Lemma block_tokens role bs : is_ascii role = true -> tokens (render (block_pieces role (hex bs))) = role_block role (hex bs).
Proof.
  intros Ha. unfold tokens. rewrite tokens_render.
  - unfold block_pieces, role_block. cbn [piece_tokens]. rewrite (inert_no_backslash (hex bs)) by apply hex_inert.
    generalize (hex bs), (doubled role). reflexivity.
  - unfold block_pieces. cbn [well_spaced]. rewrite Ha, (inert_ascii (hex bs)) by apply hex_inert. reflexivity.
Qed.

Lemma plain_well_quoted role schema sql : sql ∈ plain_sql role schema -> well_quoted role schema sql.
Proof. intros H. left. by apply plain_tokens. Qed.
Lemma create_role_well_quoted role schema bs :
  is_ascii role = true -> no_byte "$" role = true -> well_quoted role schema (sql_create_role role (hex bs)).
Proof.
  intros Ha Hd. right. exists (render (block_pieces role (hex bs))), bs.
  by rewrite create_role_pieces, block_no_dollar, block_tokens.
Qed.
End registrar.

(** ** Properties *)

Section properties.
Context `{U : Unicode}.

(** The statements of a registration with a given password. *)
Definition register_script (id : Identity) (password : string) : list string :=
  let role := id_PgRole id in
  let schema := id_PgSchema id in
  [sql_create_role role password; sql_grant_to_admin role; sql_create_schema schema role;
   sql_grant_usage schema role; sql_grant_all schema role; sql_alter_default schema role].

(** Credentials are the role, schema and password the script was run with. *)
Definition registered (cfg : PostgresConfig) (id : Identity) (h : list event) (c : PostgresCreds) : Prop :=
  exists h', h = Ev PgRollback () :: Ev PgCommit (Ok ()) :: h' /\
    executed h' = rev ((., true) <$> register_script id (pgc_Password c)) /\
    pgc_User c = id_PgRole id /\ pgc_Schema c = id_PgSchema id /\ inert (pgc_Password c) = true.

(** C28: Registration is atomic: whatever the database answers, [COMMIT] is
    issued only after the six statements of one script have all succeeded since
    [BEGIN], every statement issued belongs to that script, and credentials are
    returned only when the commit itself succeeded. *)
Theorem Register_atomic cfg id h :
  holds
    (fun h r => match r with
                | PgExec sql => exists bs, sql ∈ register_script id (hex bs)
                | PgCommit => exists bs, executed h = rev ((., true) <$> register_script id (hex bs))
                | KCreate _ _ _ | KUpdate _ _ _ | KDelete _ _ _ => False
                | _ => True
                end)
    (fun h r => match r with Ok c => registered cfg id h c | Err _ => True end)
    h (Register cfg id).
Proof.
  unfold Register, generateHexPassword. simpl. split; [done|]. intros [bs|e]; [|done]. simpl.
  split; [done|]. intros [[]|e]; [|done]. simpl.
  do 6 (split; [exists bs; unfold register_script; simpl; set_solver|];
        intros [[]|?]; simpl; [|by split]).
  split; [by exists bs|]. intros [[]|e]; simpl; split; try done. intros [].
  eexists. split; [reflexivity|]. simpl. repeat split. apply hex_inert.
Qed.

(** C38: No name reaches a statement unquoted: whatever the database answers and
    whatever characters the schema holds, every statement of a registration and of
    its removal reads, by the lexical rules of SQL, as one of the intended
    statements, with the role and the schema each a single quoted identifier or
    literal and the password a single literal.  Only of the role is it assumed that
    it is ASCII, without the dollar sign that ends the block it is created in;
    [CompileIdentity] makes no other ([Identity.CompileIdentity_safe]). *)
Theorem statements_quoted cfg id h :
  is_ascii (id_PgRole id) = true -> no_byte "$" (id_PgRole id) = true ->
  holds (well_quoted_request id) whatever h (Register cfg id) /\
  holds (well_quoted_request id) whatever h (Unregister id).
Proof.
  intros Ha Hd.
  assert (forall h sql, sql ∈ plain_sql (id_PgRole id) (id_PgSchema id) -> well_quoted_request id h (PgExec sql)) as Hp.
  { intros h' sql Hin sql' [= ->]. by apply plain_well_quoted. }
  unfold Register, Unregister, generateHexPassword. split; simpl.
  - split; [done|]. intros [bs|e]; [|done]. simpl. split; [done|]. intros [[]|e]; [|done]. simpl.
    split; [intros sql [= <-]; by apply create_role_well_quoted|]. intros [[]|?]; simpl; [|by split].
    do 5 (split; [apply Hp; unfold plain_sql; set_solver|]; intros [[]|?]; simpl; [|by split]).
    split; [done|]. intros [[]|e]; simpl; by split.
  - split; [done|]. intros [[]|e]; [|done]. simpl. split; [apply Hp; unfold plain_sql; set_solver|]. intros ?. simpl.
    do 2 (split; [apply Hp; unfold plain_sql; set_solver|]; intros [[]|?]; simpl; [|by split]).
    split; [done|]. intros [[]|e]; simpl; by split.
Qed.
End properties.

(** ** Witnesses *)

(** A role with quotes of both kinds, and a schema that tries to end the statement. *)
Definition hostile : Identity :=
  {| id_Namespace := "ns"; id_Workflow := "wf"; id_Principal := ""; id_PgRole := "a'b" +:+ String dquote "c";
     id_PgSchema := String dquote "; DROP ROLE admin; --"; id_NATSUser := ""; id_NATSPrefix := ""; id_S3Prefix := ""; id_S3User := ""; id_S3Policy := "" |}.
Lemma statements_quoted_witness :
  tokens (sql_create_schema (U := ascii_tables) (id_PgSchema hostile) (id_PgRole hostile)) =
    [Word "CREATE"; Word "SCHEMA"; Word "IF"; Word "NOT"; Word "EXISTS"; Ident (id_PgSchema hostile); Word "AUTHORIZATION"; Ident (id_PgRole hostile)] /\
  holds (well_quoted_request hostile) whatever [] (Unregister (U := ascii_tables) hostile).
Proof.
  split; [vm_compute; reflexivity|].
  apply (statements_quoted (U := ascii_tables)
    {| pg_Host := ""; pg_Port := ""; pg_Database := ""; pg_User := ""; pg_Password := ""; pg_SSLMode := "" |} hostile []); reflexivity.
Defined.
