(* ===== verification/NatsRegistrar.v ===== *)
(** * The NATS registrar (pkg/exoskeleton/registrar_nats.go)

    Per-tentacle NATS access.  In SPIFFE mode the registrar keeps the server's
    authorization file in a ConfigMap, as text it parses, edits and renders. *)

From S2P Require Import Prelude GoStrings ExoConfig Identity Effects K8sOps.
#[local] Open Scope string_scope.

Record NATSCreds := {
  nc_URL : string;
  nc_Token : string;
  nc_SubjectPrefix : string;
  nc_Protocol : string;
  nc_AuthMethod : string;
}.

Record natsAuthzEntry := {
  ae_User : string;
  ae_PublishAllow : list string;
  ae_SubscribeAllow : list string;
}.

(** ** The authorization file *)

(** [line[start+1:end]] between the first opening and the last closing bracket. *)
Definition parseAllowList (line : string) : list string :=
  match IndexByte line "[", LastIndexByte line "]" with
  | Some start, Some end_ =>
      if (end_ <=? start)%nat then []
      else
        let inner := str_take (end_ - S start) (str_drop (S start) line) in
        List.filter set ((fun p => TrimByte dquote (TrimSpace p)) <$> Split inner ",")
  | _, _ => []
  end.

(** The variables of [parseAuthzConfig]'s loop. *)
Record parse_state := {
  ps_entries : list natsAuthzEntry;
  ps_current : option natsAuthzEntry;
  ps_inPublish : bool;
  ps_inSubscribe : bool;
}.

Definition flush (st : parse_state) : list natsAuthzEntry :=
  match ps_current st with
  | Some cur => (ps_entries st ++ [cur])%list
  | None => ps_entries st
  end.

(** One iteration of the loop. *)
Definition parse_line (st : parse_state) (line : string) : parse_state :=
  let trimmed := TrimSpace line in
  if HasPrefix trimmed "user = " then
    let user := TrimByte dquote (TrimPrefix trimmed "user = ") in
    {| ps_entries := flush st;
       ps_current := Some {| ae_User := user; ae_PublishAllow := []; ae_SubscribeAllow := [] |};
       ps_inPublish := false; ps_inSubscribe := false |}
  else
  match ps_current st with
  | None => st
  | Some cur =>
      if HasPrefix trimmed "publish" && Contains trimmed "{" then
        {| ps_entries := ps_entries st; ps_current := Some cur; ps_inPublish := true; ps_inSubscribe := false |}
      else if HasPrefix trimmed "subscribe" && Contains trimmed "{" then
        {| ps_entries := ps_entries st; ps_current := Some cur; ps_inPublish := false; ps_inSubscribe := true |}
      else if HasPrefix trimmed "allow = [" then
        let subjects := parseAllowList trimmed in
        let cur' :=
          if ps_inPublish st
          then {| ae_User := ae_User cur; ae_PublishAllow := subjects; ae_SubscribeAllow := ae_SubscribeAllow cur |}
          else if ps_inSubscribe st
          then {| ae_User := ae_User cur; ae_PublishAllow := ae_PublishAllow cur; ae_SubscribeAllow := subjects |}
          else cur in
        {| ps_entries := ps_entries st; ps_current := Some cur';
           ps_inPublish := ps_inPublish st; ps_inSubscribe := ps_inSubscribe st |}
      else if String.eqb trimmed "}" && (ps_inPublish st || ps_inSubscribe st) then
        {| ps_entries := ps_entries st; ps_current := Some cur; ps_inPublish := false; ps_inSubscribe := false |}
      else st
  end.

Definition parse_start : parse_state :=
  {| ps_entries := []; ps_current := None; ps_inPublish := false; ps_inSubscribe := false |}.

Definition parseAuthzConfig (conf : string) : list natsAuthzEntry :=
  if String.eqb conf "" then []
  else flush (foldl parse_line parse_start (Split conf (ascii_of_nat 10))).

Definition entry_leb (a b : natsAuthzEntry) : bool := str_leb (ae_User a) (ae_User b).
(** [sort.Slice] by user.  Go's sort may reorder entries of one user, this one keeps
    their order; registering never adds a second entry of a user. *)
Definition sort_entries : list natsAuthzEntry -> list natsAuthzEntry := isort entry_leb.

Section registrar.
Context `{U : Unicode}.

Definition quoteSubjects (subjects : list string) : string := Join (Quote <$> subjects) ", ".

(** The text of one entry, without what separates it from the next. *)
Definition render_entry (e : natsAuthzEntry) : string :=
  "    {" +:+ nl +:+
  "      user = " +:+ Quote (ae_User e) +:+ nl +:+
  "      permissions = {" +:+ nl +:+
  "        publish = {" +:+ nl +:+
  "          allow = [" +:+ quoteSubjects (ae_PublishAllow e) +:+ "]" +:+ nl +:+
  "        }" +:+ nl +:+
  "        subscribe = {" +:+ nl +:+
  "          allow = [" +:+ quoteSubjects (ae_SubscribeAllow e) +:+ "]" +:+ nl +:+
  "        }" +:+ nl +:+
  "      }" +:+ nl +:+
  "    }".

(** The loop over the entries; [i] is the loop index. *)
Fixpoint render_entries (i : nat) (entries : list natsAuthzEntry) : string :=
  match entries with
  | [] => ""
  | e :: rest => (if (0 <? i)%nat then "," +:+ nl else "") +:+ render_entry e +:+ render_entries (S i) rest
  end.

Definition renderAuthzConfig (entries : list natsAuthzEntry) : string :=
  "authorization {" +:+ nl +:+ "  users = [" +:+ nl +:+
  render_entries 0 (sort_entries entries) +:+
  nl +:+ "  ]" +:+ nl +:+ "}" +:+ nl.

(** ** Registration *)

Definition buildAuthzEntry (id : Identity) : natsAuthzEntry :=
  {| ae_User := id_Principal id; ae_PublishAllow := [id_NATSPrefix id];
     ae_SubscribeAllow := [id_NATSPrefix id] |}.

(** [cm.Data[key]] and its assignment, on a ConfigMap. *)
Definition cm_data (cm : object) (key : string) : string :=
  match map_get key (as_map (map_get "data" (o_body cm))) with
  | Some (VStr s) => s
  | _ => ""
  end.
Definition cm_set (cm : object) (key v : string) : object :=
  with_body cm (map_set "data" (VMap (map_set key (VStr v) (as_map (map_get "data" (o_body cm))))) (o_body cm)).

(** Replace the first entry of the same user, or append. *)
Fixpoint replace_entry (entry : natsAuthzEntry) (entries : list natsAuthzEntry) : list natsAuthzEntry :=
  match entries with
  | [] => [entry]
  | e :: rest => if String.eqb (ae_User e) (ae_User entry) then entry :: rest
                 else e :: replace_entry entry rest
  end.

Definition authz_key : string := "authorization.conf".

Definition upsertAuthzEntry (cfg : NATSConfig) (id : Identity) : prog (res ()) :=
  let ns := nats_AuthzNamespace cfg in
  r ← call (KGet "configmaps" ns (nats_AuthzConfigMap cfg));
  match r with
  | Err err =>
      if negb (reason_is NotFound err)
      then Ret (Err (Errorf "get authz configmap: %w" [AErr err]))
      else
        let cm := new_object (nats_AuthzConfigMap cfg) ns
                    [("app.kubernetes.io/managed-by", "tentacular"); ("tentacular.io/exoskeleton", "true")]
                    [("data", VMap [(authz_key, VStr (renderAuthzConfig [buildAuthzEntry id]))])] in
        try_ call (KCreate "configmaps" ns cm)
          else (fun err => Err (Errorf "create authz configmap: %w" [AErr err])) ;;
        Ret (Ok ())
  | Ok cm =>
      let entries := parseAuthzConfig (cm_data cm authz_key) in
      let entries' := replace_entry (buildAuthzEntry id) entries in
      let cm' := cm_set cm authz_key (renderAuthzConfig entries') in
      try_ call (KUpdate "configmaps" ns cm')
        else (fun err => Err (Errorf "update authz configmap: %w" [AErr err])) ;;
      Ret (Ok ())
  end.

Definition unregisterSPIFFE (cfg : NATSConfig) (id : Identity) : prog (res ()) :=
  let ns := nats_AuthzNamespace cfg in
  r ← call (KGet "configmaps" ns (nats_AuthzConfigMap cfg));
  match r with
  | Err err => if reason_is NotFound err then Ret (Ok ())
               else Ret (Err (Errorf "get authz configmap: %w" [AErr err]))
  | Ok cm =>
      let entries := parseAuthzConfig (cm_data cm authz_key) in
      let newEntries := List.filter (fun e => negb (String.eqb (ae_User e) (id_Principal id))) entries in
      if Nat.eqb (length newEntries) (length entries) then Ret (Ok ())
      else
        let cm' := cm_set cm authz_key (renderAuthzConfig newEntries) in
        try_ call (KUpdate "configmaps" ns cm')
          else (fun err => Err (Errorf "update authz configmap: %w" [AErr err])) ;;
        Ret (Ok ())
  end.

Definition registerToken (cfg : NATSConfig) (id : Identity) : prog (res NATSCreds) :=
  Ret (Ok {| nc_URL := nats_URL cfg; nc_Token := nats_Token cfg; nc_SubjectPrefix := id_NATSPrefix id;
             nc_Protocol := "nats"; nc_AuthMethod := "token" |}).

Definition registerSPIFFE (cfg : NATSConfig) (id : Identity) : prog (res NATSCreds) :=
  try_ upsertAuthzEntry cfg id else (fun err => Err (Errorf "nats spiffe register: %w" [AErr err])) ;;
  Ret (Ok {| nc_URL := nats_URL cfg; nc_Token := ""; nc_SubjectPrefix := id_NATSPrefix id;
             nc_Protocol := "nats"; nc_AuthMethod := "spiffe" |}).

Definition Register (cfg : NATSConfig) (id : Identity) : prog (res NATSCreds) :=
  if nats_SPIFFEEnabled cfg then registerSPIFFE cfg id else registerToken cfg id.

Definition Unregister (cfg : NATSConfig) (id : Identity) : prog (res ()) :=
  if nats_SPIFFEEnabled cfg then unregisterSPIFFE cfg id else Ret (Ok ()).

Definition EnsureEnclave (id : EnclaveIdentity) : prog (res ()) := Ret (Ok ()).
Definition CleanupEnclave (id : EnclaveIdentity) : prog (res ()) := Ret (Ok ()).

(** ** Lemmas: what survives quoting *)

(** Printable ASCII without quote and backslash; without comma for a subject. *)
Definition tame_char (c : ascii) : bool :=
  between " " "~" c && negb (Ascii.eqb c dquote) && negb (Ascii.eqb c backslash).
Definition tame (s : string) : bool := str_forallb tame_char s.
Definition tame_subject (s : string) : bool := tame s && set s && no_byte "," s.
Definition tame_entry (e : natsAuthzEntry) : bool :=
  tame (ae_User e) && forallb tame_subject (ae_PublishAllow e) && forallb tame_subject (ae_SubscribeAllow e).

Lemma tame_quote_char c : tame_char c = true -> quote_char c = String c "" /\ is_ascii_char c = true
  /\ Ascii.eqb c dquote = false /\ Ascii.eqb c (ascii_of_nat 10) = false.
Proof. destruct c as [[] [] [] [] [] [] [] []]; intros H; try discriminate H; by vm_compute. Qed.

Lemma tame_Quote s : tame s = true -> Quote s = String dquote (s +:+ String dquote "").
Proof.
  intros H. unfold Quote. assert (is_ascii s = true) as ->.
  { eapply str_forallb_impl; [|exact H]. intros c Hc. by apply tame_quote_char in Hc as (_ & ? & _). }
  f_equal. f_equal. induction s as [|c s IH]; [done|]. unfold tame in H. cbn [str_forallb] in H.
  apply andb_true_iff in H as [Hc Hs]. cbn [quote_body].
  rewrite (proj1 (tame_quote_char c Hc)), IH by done. done.
Qed.

Lemma TrimLeftByte_none cut s : no_byte cut s = true -> TrimLeftByte cut s = s.
Proof.
  unfold no_byte. destruct s as [|c s]; [done|]. simpl.
  rewrite andb_true_iff, negb_true_iff. by intros [-> _].
Qed.

Lemma TrimByte_wrapped q s : no_byte q s = true -> TrimByte q (String q (s +:+ String q "")) = s.
Proof.
  intros H. unfold TrimByte, TrimRightByte. cbn [TrimLeftByte]. rewrite Ascii.eqb_refl.
  destruct s as [|c s].
  - change ("" +:+ String q "") with (String q ""). cbn [TrimLeftByte].
    by rewrite Ascii.eqb_refl.
  - pose proof H as H'. unfold no_byte in H'. cbn [str_forallb] in H'.
    apply andb_true_iff in H' as [Hc _]. rewrite negb_true_iff in Hc.
    change (String c s +:+ String q "") with (String c (s +:+ String q "")). cbn [TrimLeftByte]. rewrite Hc.
    change (String c (s +:+ String q "")) with (String c s +:+ String q "").
    rewrite str_rev_snoc. cbn [TrimLeftByte]. rewrite Ascii.eqb_refl, TrimLeftByte_none.
    + apply str_rev_involutive.
    + unfold no_byte in *. by rewrite str_forallb_rev.
Qed.

Lemma tame_no_quote s : tame s = true -> no_byte dquote s = true.
Proof.
  intros H. eapply str_forallb_impl; [|exact H]. intros c Hc.
  apply tame_quote_char in Hc as (_ & _ & -> & _). done.
Qed.
Lemma tame_no_nl s : tame s = true -> no_byte (ascii_of_nat 10) s = true.
Proof.
  intros H. eapply str_forallb_impl; [|exact H]. intros c Hc.
  apply tame_quote_char in Hc as (_ & _ & _ & ->). done.
Qed.
Lemma tame_ascii s : tame s = true -> is_ascii s = true.
Proof.
  intros H. eapply str_forallb_impl; [|exact H]. intros c Hc. by apply tame_quote_char in Hc as (_ & ? & _).
Qed.

Lemma TrimByte_Quote s : tame s = true -> TrimByte dquote (Quote s) = s.
Proof. intros H. rewrite tame_Quote by done. by apply TrimByte_wrapped, tame_no_quote. Qed.

(** ** Lemmas: lines *)

Fixpoint spaces (n : nat) : string :=
  match n with
  | O => ""
  | S n' => String " " (spaces n')
  end.

Lemma TrimSpace_indent n s : trimmed s = true -> TrimSpace (spaces n +:+ s) = s.
Proof.
  intros H. pose proof H as H'. unfold trimmed in H'. rewrite !andb_true_iff in H'.
  destruct H' as [[Ha Hh] _]. rewrite TrimSpace_ascii.
  - assert (ltrim (spaces n +:+ s) = s) as ->.
    { induction n as [|n IH]; [by apply ltrim_id|exact IH]. }
    rewrite <- (ltrim_id s) at 1 by done. rewrite <- TrimSpace_ascii by done. by apply trimmed_TrimSpace.
  - unfold is_ascii. rewrite str_forallb_app. fold (is_ascii s). rewrite Ha, andb_true_r.
    induction n; [done|exact IHn].
Qed.

Lemma trimmed_wrapped p s q :
  is_ascii s = true -> is_ascii p = true -> p <> "" -> head_ok p = true ->
  is_ascii_char q = true -> ascii_space q = false -> trimmed (p +:+ s +:+ String q "") = true.
Proof.
  intros Hs Hp Hne Hh Hq Hsp. unfold trimmed, is_ascii in *. rewrite !str_forallb_app, Hs, Hp.
  cbn [str_forallb]. rewrite Hq. cbn [andb]. apply andb_true_iff. split.
  - by destruct p.
  - rewrite <- str_app_assoc, str_rev_snoc. cbn [head_ok]. by rewrite Hsp.
Qed.

Lemma LastIndexByte_snoc s c : LastIndexByte (s +:+ String c "") c = Some (String.length s).
Proof.
  induction s as [|a s IH]; cbn [String.append LastIndexByte].
  - change ("" +:+ String c "") with (String c ""). cbn [LastIndexByte]. by rewrite Ascii.eqb_refl.
  - change (String a s +:+ String c "") with (String a (s +:+ String c "")). cbn [LastIndexByte].
    by rewrite IH.
Qed.

Lemma parseAllowList_wrapped q :
  parseAllowList ("allow = [" +:+ q +:+ "]")
  = List.filter set ((fun p => TrimByte dquote (TrimSpace p)) <$> Split q ",").
Proof.
  unfold parseAllowList.
  change (IndexByte ("allow = [" +:+ q +:+ "]") "[") with (Some 8%nat).
  rewrite <- str_app_assoc, LastIndexByte_snoc, str_length_app.
  change (String.length "allow = [") with 9%nat.
  destruct (Nat.leb_spec (9 + String.length q) 8); [lia|].
  rewrite str_app_assoc.
  assert (str_drop 9 ("allow = [" +:+ q +:+ "]") = q +:+ "]") as -> by apply (str_drop_app "allow = [").
  replace (9 + String.length q - 9)%nat with (String.length q) by lia.
  by rewrite str_take_app.
Qed.

(** Splitting what [quoteSubjects] joined: every piece but the first starts with a blank. *)
Lemma Split_comma_space q qs :
  Forall (fun s => no_byte "," s = true) (q :: qs) ->
  Split (Join (q :: qs) ", ") "," = q :: (String " " <$> qs).
Proof.
  revert q. induction qs as [|q' qs IH]; intros q Hall; apply Forall_cons in Hall as [Hq Hqs].
  - by apply Split_no_byte.
  - change (Join (q :: q' :: qs) ", ") with (q +:+ String "," (String " " (Join (q' :: qs) ", "))).
    rewrite Split_app by done. f_equal.
    specialize (IH q' Hqs). cbn [Split]. change (Ascii.eqb " " ",") with false. cbn iota.
    rewrite IH. done.
Qed.

Lemma tame_subject_inv s :
  tame_subject s = true -> tame s = true /\ s <> "" /\ no_byte "," s = true.
Proof. unfold tame_subject. rewrite !andb_true_iff, set_true. tauto. Qed.

Lemma Quote_no_comma s : tame s = true -> no_byte "," s = true -> no_byte "," (Quote s) = true.
Proof.
  intros Ht Hc. rewrite tame_Quote by done. unfold no_byte in *. cbn [str_forallb].
  by rewrite str_forallb_app, Hc.
Qed.

Lemma Quote_trimmed s : tame s = true -> trimmed (Quote s) = true.
Proof.
  intros H. rewrite tame_Quote by done.
  apply (trimmed_wrapped (String dquote "") s dquote); try done. by apply tame_ascii.
Qed.

Lemma parse_subjects subjects :
  forallb tame_subject subjects = true ->
  parseAllowList ("allow = [" +:+ quoteSubjects subjects +:+ "]") = subjects.
Proof.
  rewrite parseAllowList_wrapped, forallb_True. unfold quoteSubjects. intros Hall.
  destruct subjects as [|s ss]; [reflexivity|].
  rewrite fmap_cons, Split_comma_space.
  - assert (forall s, tame_subject s = true -> TrimByte dquote (TrimSpace (Quote s)) = s /\
              TrimByte dquote (TrimSpace (String " " (Quote s))) = s /\ set s = true) as Hone.
    { intros x (Ht & Hne & _)%tame_subject_inv.
      change (String " " (Quote x)) with (spaces 1 +:+ Quote x).
      rewrite TrimSpace_indent, trimmed_TrimSpace by by apply Quote_trimmed.
      rewrite TrimByte_Quote by done. by rewrite set_true. }
    apply Forall_cons in Hall as [Hs Hss]. rewrite fmap_cons. cbn [List.filter].
    destruct (Hone s Hs) as (-> & _ & ->). f_equal.
    induction Hss as [|x l Hx _ IH]; [done|]. rewrite !fmap_cons. cbn [List.filter].
    destruct (Hone x Hx) as (_ & -> & ->). by rewrite IH.
  - rewrite <- fmap_cons. apply Forall_fmap. eapply Forall_impl; [exact Hall|].
    intros x (Ht & _ & Hc)%tame_subject_inv. by apply Quote_no_comma.
Qed.

(** ** Lemmas: parsing what was rendered *)

Lemma Split_nl a b :
  no_byte (ascii_of_nat 10) a = true ->
  Split (a +:+ nl +:+ b) (ascii_of_nat 10) = a :: Split b (ascii_of_nat 10).
Proof. apply Split_app. Qed.

Definition state (es : list natsAuthzEntry) (cur : option natsAuthzEntry) (p s : bool) : parse_state :=
  {| ps_entries := es; ps_current := cur; ps_inPublish := p; ps_inSubscribe := s |}.

(** A line whose trimmed text is known. *)
Ltac fixed_line line t :=
  unfold parse_line; change (TrimSpace line) with t; reflexivity.

Lemma line_open st : parse_line st "    {" = st.
Proof. destruct st as [es [cur|] p s]; fixed_line "    {" "{". Qed.
Lemma line_permissions es e p s : parse_line (state es (Some e) p s) "      permissions = {" = state es (Some e) p s.
Proof. fixed_line "      permissions = {" "permissions = {". Qed.
Lemma line_publish es e p s : parse_line (state es (Some e) p s) "        publish = {" = state es (Some e) true false.
Proof. fixed_line "        publish = {" "publish = {". Qed.
Lemma line_subscribe es e p s : parse_line (state es (Some e) p s) "        subscribe = {" = state es (Some e) false true.
Proof. fixed_line "        subscribe = {" "subscribe = {". Qed.
Lemma line_close8 es e p s : parse_line (state es (Some e) p s) "        }" = state es (Some e) false false.
Proof. destruct p, s; fixed_line "        }" "}". Qed.
Lemma line_close6 es e : parse_line (state es (Some e) false false) "      }" = state es (Some e) false false.
Proof. fixed_line "      }" "}". Qed.
Lemma line_close4 es e : parse_line (state es (Some e) false false) "    }" = state es (Some e) false false.
Proof. fixed_line "    }" "}". Qed.
Lemma line_close4_comma es e : parse_line (state es (Some e) false false) "    }," = state es (Some e) false false.
Proof. fixed_line "    }," "},". Qed.

Lemma line_user st u :
  tame u = true ->
  parse_line st ("      user = " +:+ Quote u) =
  state (flush st) (Some {| ae_User := u; ae_PublishAllow := []; ae_SubscribeAllow := [] |}) false false.
Proof.
  intros Hu. unfold parse_line.
  change ("      user = " +:+ Quote u) with (spaces 6 +:+ ("user = " +:+ Quote u)).
  assert (trimmed ("user = " +:+ Quote u) = true) as Ht.
  { rewrite tame_Quote by done.
    change ("user = " +:+ String dquote (u +:+ String dquote ""))
      with (("user = " +:+ String dquote "") +:+ u +:+ String dquote "").
    by apply trimmed_wrapped; [apply tame_ascii|..]. }
  rewrite TrimSpace_indent, HasPrefix_app, TrimPrefix_app, TrimByte_Quote by done. done.
Qed.

Lemma tame_subjects_ascii l : forallb tame_subject l = true ->
  is_ascii (quoteSubjects l) = true /\ no_byte (ascii_of_nat 10) (quoteSubjects l) = true.
Proof.
  rewrite forallb_True. unfold quoteSubjects. intros Hall.
  assert (forall s, tame_subject s = true ->
            is_ascii (Quote s) = true /\ no_byte (ascii_of_nat 10) (Quote s) = true) as Hq.
  { intros s (Ht & _ & _)%tame_subject_inv. rewrite tame_Quote by done.
    pose proof (tame_ascii s Ht). pose proof (tame_no_nl s Ht). unfold is_ascii, no_byte in *.
    cbn [str_forallb]. rewrite !str_forallb_app, H, H0. done. }
  induction Hall as [|s l Hs Hl [IHa IHn]]; [done|]. destruct (Hq s Hs) as [Ha Hn].
  destruct l as [|s' l]; [by split|].
  change (Join (Quote <$> s :: s' :: l) ", ") with (Quote s +:+ ", " +:+ Join (Quote <$> s' :: l) ", ").
  unfold is_ascii, no_byte in *. rewrite !str_forallb_app, Ha, Hn, IHa, IHn. done.
Qed.

Lemma line_allow es e (p s : bool) l :
  forallb tame_subject l = true ->
  parse_line (state es (Some e) p s) ("          allow = [" +:+ quoteSubjects l +:+ "]") =
  state es (Some (if p then {| ae_User := ae_User e; ae_PublishAllow := l; ae_SubscribeAllow := ae_SubscribeAllow e |}
                  else if s then {| ae_User := ae_User e; ae_PublishAllow := ae_PublishAllow e; ae_SubscribeAllow := l |}
                  else e)) p s.
Proof.
  intros Hl. unfold parse_line.
  change ("          allow = [" +:+ quoteSubjects l +:+ "]")
    with (spaces 10 +:+ ("allow = [" +:+ quoteSubjects l +:+ "]")).
  rewrite TrimSpace_indent.
  - pose proof (parse_subjects l Hl) as Hp.
    rewrite HasPrefix_app, Hp. reflexivity.
  - by apply (trimmed_wrapped "allow = ["); [apply tame_subjects_ascii|..].
Qed.

(** One rendered entry, up to the end of its last line. *)
Lemma parse_entry st e (tail rest : string) :
  tame_entry e = true -> tail = "" \/ tail = "," ->
  foldl parse_line st (Split (render_entry e +:+ tail +:+ nl +:+ rest) (ascii_of_nat 10)) =
  foldl parse_line (state (flush st) (Some e) false false) (Split rest (ascii_of_nat 10)).
Proof.
  unfold tame_entry. rewrite !andb_true_iff. intros [[Hu Hp] Hs] Htail.
  unfold render_entry. rewrite !str_app_assoc.
  assert (no_byte (ascii_of_nat 10) (Quote (ae_User e)) = true) as Hun.
  { rewrite tame_Quote by done. pose proof (tame_no_nl _ Hu) as H. unfold no_byte in *.
    cbn [str_forallb]. by rewrite str_forallb_app, H. }
  assert (forall l, forallb tame_subject l = true ->
            no_byte (ascii_of_nat 10) ("          allow = [" +:+ quoteSubjects l +:+ "]") = true) as Han.
  { intros l Hl. apply tame_subjects_ascii in Hl as [_ H]. unfold no_byte in *.
    by rewrite !str_forallb_app, H. }
  rewrite (Split_nl "    {") by done.
  rewrite <- (str_app_assoc "      user = "), Split_nl by (unfold no_byte in *; by rewrite str_forallb_app, Hun).
  rewrite (Split_nl "      permissions = {"), (Split_nl "        publish = {") by done.
  rewrite <- !(str_app_assoc _ "]"), <- !(str_app_assoc "          allow = [" (_ +:+ "]")).
  rewrite Split_nl by by apply Han.
  rewrite (Split_nl "        }"), (Split_nl "        subscribe = {") by done.
  rewrite Split_nl by by apply Han.
  rewrite (Split_nl "        }"), (Split_nl "      }") by done.
  rewrite <- (str_app_assoc "    }" tail), Split_nl by (destruct Htail; by subst).
  cbn [foldl]. rewrite line_open, line_user, line_permissions, line_publish by done.
  rewrite line_allow by done. rewrite line_close8, line_subscribe, line_allow by done.
  rewrite line_close8, line_close6. cbn [ae_User ae_PublishAllow ae_SubscribeAllow].
  destruct e as [u pa sa].
  destruct Htail as [-> | ->].
  - change ("    }" +:+ "") with "    }". by rewrite line_close4.
  - change ("    }" +:+ ",") with "    },". by rewrite line_close4_comma.
Qed.

(** All the rendered entries, from any parser state; the separator before an
    entry ends the last line of the one before. *)
Lemma parse_entries es i st e0 rest :
  forallb tame_entry es = true -> tame_entry e0 = true -> (0 < i)%nat ->
  flush (foldl parse_line st
    (Split (render_entry e0 +:+ render_entries i es +:+ nl +:+ rest) (ascii_of_nat 10))) =
  flush (foldl parse_line (state (flush st ++ removelast (e0 :: es))%list (last (e0 :: es)) false false)
    (Split rest (ascii_of_nat 10))).
Proof.
  revert i st e0. induction es as [|e es IH]; intros i st e0 Hes He0 Hi.
  - cbn [render_entries removelast last]. rewrite (parse_entry st e0 "") by auto.
    by rewrite app_nil_r.
  - cbn [forallb] in Hes. apply andb_true_iff in Hes as [He Hes].
    cbn [render_entries]. rewrite (proj2 (Nat.ltb_lt 0 i) Hi), !str_app_assoc.
    rewrite (parse_entry st e0 ",") by auto. rewrite IH by (done || lia).
    f_equal. f_equal. unfold state. f_equal. cbn [flush ps_current ps_entries removelast].
    by rewrite <- app_assoc.
Qed.

Lemma flush_last es l : l <> [] -> flush (state (es ++ removelast l) (last l) false false) = (es ++ l)%list.
Proof.
  intros Hl. unfold flush, state. cbn [ps_current ps_entries].
  destruct (exists_last Hl) as (l' & a & ->). rewrite last_snoc, removelast_last.
  by rewrite <- app_assoc.
Qed.

Lemma sort_entries_tame es : forallb tame_entry es = true -> forallb tame_entry (sort_entries es) = true.
Proof.
  rewrite !forallb_True. intros H. unfold sort_entries. by rewrite isort_perm.
Qed.

Lemma parse_render es :
  forallb tame_entry es = true -> parseAuthzConfig (renderAuthzConfig es) = sort_entries es.
Proof.
  intros Hes%sort_entries_tame. unfold renderAuthzConfig. generalize dependent (sort_entries es).
  clear es. intros es Hes. unfold parseAuthzConfig.
  change (String.eqb ("authorization {" +:+ _) "") with false. cbn iota.
  rewrite (Split_nl "authorization {"), (Split_nl "  users = [") by done.
  cbn [foldl].
  change (parse_line (parse_line parse_start "authorization {") "  users = [") with parse_start.
  destruct es as [|e es]; [reflexivity|].
  cbn [forallb] in Hes. apply andb_true_iff in Hes as [He Hes].
  cbn [render_entries]. change (0 <? 0)%nat with false. cbn iota.
  change ("" +:+ render_entry e +:+ render_entries 1 es) with (render_entry e +:+ render_entries 1 es).
  rewrite str_app_assoc, parse_entries by (done || lia).
  change (flush parse_start) with (@nil natsAuthzEntry).
  change (Split ("  ]" +:+ nl +:+ "}" +:+ nl) (ascii_of_nat 10)) with ["  ]"; "}"; ""].
  transitivity (flush (state ([] ++ removelast (e :: es)) (last (e :: es)) false false));
    [|by rewrite flush_last].
  destruct (last (e :: es)) eqn:El; [reflexivity|]. by apply last_None in El.
Qed.


Lemma buildAuthzEntry_tame ns wf id :
  CompileIdentity ns wf = Ok id -> tame ns = true -> tame wf = true ->
  no_byte "," ns = true -> no_byte "," wf = true -> tame_entry (buildAuthzEntry id) = true.
Proof.
  intros H Hn Hw Hnc Hwc.
  assert (id_Principal id = "spiffe://tentacular/ns/" +:+ ns +:+ "/tentacles/" +:+ wf +:+ "" /\
          id_NATSPrefix id = "tentacular." +:+ ns +:+ "." +:+ wf +:+ ".>") as [Hp Hq].
  { unfold CompileIdentity in H. destruct (String.eqb ns ""), (String.eqb wf ""); try done.
    by injection H as <-. }
  unfold tame_entry, buildAuthzEntry. cbn [ae_User ae_PublishAllow ae_SubscribeAllow forallb].
  rewrite Hp, Hq. unfold tame_subject, tame, no_byte in *.
  rewrite !str_forallb_app, Hn, Hw, Hnc, Hwc. done.
Qed.

Lemma replace_entry_other entry es e :
  ae_User e <> ae_User entry -> e ∈ replace_entry entry es <-> e ∈ es.
Proof.
  intros Hne. induction es as [|x es IH]; simpl.
  - rewrite list_elem_of_singleton. split; [by intros ->|]. by intros ?%elem_of_nil.
  - destruct (String.eqb_spec (ae_User x) (ae_User entry)) as [Hx|Hx]; rewrite !elem_of_cons; [|by rewrite IH].
    split; intros [->|H]; auto; congruence.
Qed.

Lemma replace_entry_in entry es : entry ∈ replace_entry entry es.
Proof.
  induction es as [|x es IH]; simpl; [by left|]. case_match; [by left|by right].
Qed.

Lemma replace_entry_tame entry es :
  tame_entry entry = true -> forallb tame_entry es = true -> forallb tame_entry (replace_entry entry es) = true.
Proof.
  intros He. induction es as [|x es IH]; simpl; [by rewrite He|]. rewrite andb_true_iff. intros [Hx Hes].
  case_match; simpl; rewrite ?He, ?Hx; auto.
Qed.

Lemma replace_entry_users entry es :
  NoDup (ae_User <$> es) -> NoDup (ae_User <$> replace_entry entry es) /\
  (forall e, e ∈ replace_entry entry es -> ae_User e = ae_User entry -> e = entry).
Proof.
  induction es as [|x es IH]; simpl.
  - intros _. split; [repeat constructor; set_solver|]. by intros e ->%list_elem_of_singleton.
  - rewrite NoDup_cons. intros [Hx Hnd]. specialize (IH Hnd) as [IH1 IH2].
    destruct (String.eqb_spec (ae_User x) (ae_User entry)) as [Heq|Hne].
    + rewrite fmap_cons, NoDup_cons, <- Heq. split; [done|].
      intros e [->|He]%elem_of_cons; [done|]. intros Hu. destruct Hx.
      apply list_elem_of_fmap. exists e. split; [congruence|done].
    + rewrite fmap_cons, NoDup_cons. split; [split; [|done]|].
      * intros (y & Hy & Hin)%list_elem_of_fmap. destruct Hx. apply list_elem_of_fmap.
        exists y. split; [done|]. apply (replace_entry_other entry es y); congruence.
      * intros e [->|He]%elem_of_cons; [done|]. by apply IH2.
Qed.

Lemma cm_data_set cm key v : cm_data (cm_set cm key v) key = v.
Proof. unfold cm_data, cm_set. cbn [o_body with_body]. rewrite map_get_set. cbn [as_map].
  by rewrite map_get_set.
Qed.

End registrar.

(** ** Properties *)

Section properties.
Context `{U : Unicode}.

(** C31: The authorization file survives the round trip: parsing what
    [renderAuthzConfig] wrote gives the entries back, sorted by user, for
    entries whose users and subjects need no escaping. *)
Theorem parse_renderAuthzConfig es :
  forallb tame_entry es = true ->
  parseAuthzConfig (renderAuthzConfig es) = sort_entries es /\ sort_entries es ≡ₚ es.
Proof. intros Hes. split; [by apply parse_render|apply isort_perm]. Qed.

(** What a ConfigMap holds when the registrar wrote it. *)
Definition holds_entries (cm : object) (es : list natsAuthzEntry) : Prop :=
  forallb tame_entry es = true /\ NoDup (ae_User <$> es) /\ cm_data cm authz_key = renderAuthzConfig es.

(** The update a program sends after its first response. *)
Definition next_request {A} (p : prog A) : option req :=
  match p with
  | Call r _ => Some r
  | Ret _ => None
  end.

(** Registering a tentacle in SPIFFE mode reads the ConfigMap and, whatever
    entries it holds, asks for one update of the very version it read, after
    which the file grants the tentacle its own prefix, no second entry for its
    principal exists, and every entry of another principal is untouched. *)
Theorem upsertAuthzEntry_spec cfg ns wf id cm es :
  CompileIdentity ns wf = Ok id ->
  tame ns && tame wf && no_byte "," ns && no_byte "," wf = true ->
  holds_entries cm es ->
  exists k, upsertAuthzEntry cfg id
            = Call (KGet "configmaps" (nats_AuthzNamespace cfg) (nats_AuthzConfigMap cfg)) k /\
    exists cm', next_request (k (Ok cm)) = Some (KUpdate "configmaps" (nats_AuthzNamespace cfg) cm') /\
      o_name cm' = o_name cm /\ o_resourceVersion cm' = o_resourceVersion cm /\
      forall e, e ∈ parseAuthzConfig (cm_data cm' authz_key) <->
                e = buildAuthzEntry id \/ (e ∈ es /\ ae_User e <> id_Principal id).
Proof.
  intros Hid Ht (Hes & Hnd & Hcm). rewrite !andb_true_iff in Ht. destruct Ht as [[[Hn Hw] Hnc] Hwc].
  pose proof (buildAuthzEntry_tame ns wf id Hid Hn Hw Hnc Hwc) as Hentry.
  eexists. split; [reflexivity|]. eexists. split; [reflexivity|]. split; [done|]. split; [done|].
  rewrite cm_data_set, Hcm, (parse_render es) by done.
  rewrite parse_render by (apply replace_entry_tame; [done|]; by apply sort_entries_tame).
  intros e. unfold sort_entries.
  rewrite (list_elem_of_permutation_iff (isort_perm entry_leb _) e) || rewrite isort_perm.
  assert (NoDup (ae_User <$> isort entry_leb es)) as Hnd' by by rewrite isort_perm.
  pose proof (replace_entry_users (buildAuthzEntry id) _ Hnd') as [_ Huniq].
  destruct (decide (ae_User e = id_Principal id)) as [Hu|Hu].
  - split.
    + intros He. left. by apply Huniq.
    + intros [->|[_ ?]]; [apply replace_entry_in|done].
  - rewrite replace_entry_other, isort_perm by done. split; [by auto|].
    intros [->|[? _]]; [by destruct Hu|done].
Qed.

(** Unregistering removes exactly the tentacle's entry: either the file had
    none and nothing is written, or one update of the version read leaves every
    entry of another principal and none of the tentacle's. *)
Theorem unregisterSPIFFE_spec cfg id cm es :
  holds_entries cm es ->
  exists k, unregisterSPIFFE cfg id
            = Call (KGet "configmaps" (nats_AuthzNamespace cfg) (nats_AuthzConfigMap cfg)) k /\
    ((k (Ok cm) = Ret (Ok ()) /\ id_Principal id ∉ (ae_User <$> es)) \/
     exists cm', next_request (k (Ok cm)) = Some (KUpdate "configmaps" (nats_AuthzNamespace cfg) cm') /\
       o_resourceVersion cm' = o_resourceVersion cm /\
       forall e, e ∈ parseAuthzConfig (cm_data cm' authz_key) <->
                 e ∈ es /\ ae_User e <> id_Principal id).
Proof.
  intros (Hes & Hnd & Hcm). eexists. split; [reflexivity|]. cbn beta iota.
  rewrite Hcm, parse_render by done.
  set (keep := fun e => negb (String.eqb (ae_User e) (id_Principal id))).
  assert (forall l e, e ∈ List.filter keep l <-> e ∈ l /\ ae_User e <> id_Principal id) as Hkeep.
  { intros l e. rewrite !list_elem_of_In, filter_In. unfold keep. by rewrite negb_true_iff, String.eqb_neq. }
  cbn zeta.
  destruct (Nat.eqb_spec (length (List.filter keep (sort_entries es))) (length (sort_entries es))) as [Hl|Hl].
  - left. split; [done|]. intros (e & Hu & He)%list_elem_of_fmap.
    assert (e ∈ List.filter keep (sort_entries es)) as [_ Hn]%Hkeep; [|by symmetry in Hu].
    assert (List.filter keep (sort_entries es) = sort_entries es) as ->.
    { generalize dependent (sort_entries es). clear. intros l. induction l as [|x l IH]; [done|]. simpl.
      pose proof (List.filter_length_le keep l). destruct (keep x); simpl; [|lia].
      intros H1. f_equal. apply IH. lia. }
    unfold sort_entries. by rewrite isort_perm.
  - right. eexists. split; [reflexivity|]. split; [done|]. intros e.
    rewrite cm_data_set, parse_render.
    + unfold sort_entries at 1. rewrite isort_perm, Hkeep. unfold sort_entries. by rewrite isort_perm.
    + apply forallb_True. apply sort_entries_tame, forallb_True in Hes.
      rewrite Forall_forall in Hes |- *. intros x [Hx _]%Hkeep. by apply Hes.
Qed.
End properties.

(** ** Witnesses *)

Definition entry_a : natsAuthzEntry :=
  {| ae_User := "spiffe://tentacular/ns/b/tentacles/w"; ae_PublishAllow := ["tentacular.b.w.>"; "x"];
     ae_SubscribeAllow := [] |}.
Definition entry_b : natsAuthzEntry :=
  {| ae_User := "spiffe://tentacular/ns/a/tentacles/w"; ae_PublishAllow := ["tentacular.a.w.>"];
     ae_SubscribeAllow := ["tentacular.a.w.>"] |}.
Definition cm_example : object :=
  new_object "authz" "exo" []
    [("data", VMap [(authz_key, VStr (renderAuthzConfig (U := ascii_tables) [entry_a; entry_b]))])].
Definition nats_example : NATSConfig :=
  {| nats_URL := "nats://n"; nats_Token := ""; nats_AuthzConfigMap := "authz"; nats_AuthzNamespace := "exo";
     nats_SPIFFEEnabled := true |}.

Lemma parse_renderAuthzConfig_witness :
  parseAuthzConfig (renderAuthzConfig (U := ascii_tables) [entry_a; entry_b]) = [entry_b; entry_a].
Proof.
  destruct (parse_renderAuthzConfig (U := ascii_tables) [entry_a; entry_b]) as [H _];
    [vm_compute; reflexivity|]. rewrite H. vm_compute. reflexivity.
Defined.

Lemma example_holds : holds_entries (U := ascii_tables) cm_example [entry_a; entry_b].
Proof.
  split; [vm_compute; reflexivity|split; [|reflexivity]].
  apply (bool_decide_unpack _). vm_compute. exact I.
Qed.

Lemma upsertAuthzEntry_spec_witness :
  exists id, CompileIdentity (U := ascii_tables) "team" "etl" = Ok id /\
    exists k, upsertAuthzEntry (U := ascii_tables) nats_example id = Call (KGet "configmaps" "exo" "authz") k.
Proof.
  eexists. split; [vm_compute; reflexivity|].
  edestruct (upsertAuthzEntry_spec (U := ascii_tables) nats_example "team" "etl") as (k & Hk & _);
    [vm_compute; reflexivity|reflexivity|exact example_holds|].
  exists k. exact Hk.
Defined.

Lemma unregisterSPIFFE_spec_witness :
  exists id, CompileIdentity (U := ascii_tables) "a" "w" = Ok id /\
    exists k, unregisterSPIFFE (U := ascii_tables) nats_example id = Call (KGet "configmaps" "exo" "authz") k.
Proof.
  eexists. split; [vm_compute; reflexivity|].
  edestruct (unregisterSPIFFE_spec (U := ascii_tables) nats_example) as (k & Hk & _); [exact example_holds|].
  exists k. exact Hk.
Defined.
