(* ===== verification/RustfsRegistrar.v ===== *)
(** * The RustFS registrar (pkg/exoskeleton/registrar_rustfs.go)

    Per-tentacle users and prefix-scoped policies of the object store: the
    store's admin API over HTTP, and the bucket operations of the minio client.
    The signature of a request is the minio library's and is not modelled;
    [minio_Code] is its [ToErrorResponse(err).Code]. *)

From S2P Require Import Prelude GoStrings ExoConfig Identity Effects PgRegistrar.
#[local] Open Scope string_scope.

Record RustFSCreds := {
  rc_Endpoint : string;
  rc_AccessKey : string;
  rc_SecretKey : string;
  rc_Bucket : string;
  rc_Prefix : string;
  rc_Region : string;
  rc_Protocol : string;
}.

Record s3PolicyStmt := {
  st_Resource : string;
  st_Condition : option value;
  st_Effect : string;
  st_Action : list string;
}.
Record s3PolicyDoc := { pol_Version : string; pol_Statement : list s3PolicyStmt }.

Definition buildS3Policy (bucket prefix : string) : s3PolicyDoc :=
  let arnBucket := "arn:aws:s3:::" +:+ bucket in
  let arnPrefix := "arn:aws:s3:::" +:+ bucket +:+ "/" +:+ prefix +:+ "*" in
  {| pol_Version := "2012-10-17";
     pol_Statement :=
       [{| st_Effect := "Allow"; st_Action := ["s3:GetObject"; "s3:PutObject"; "s3:DeleteObject"];
           st_Resource := arnPrefix; st_Condition := None |};
        {| st_Effect := "Allow"; st_Action := ["s3:ListBucket"]; st_Resource := arnBucket;
           st_Condition := Some (VMap [("StringLike", VMap [("s3:prefix", VStr (prefix +:+ "*"))])]) |}] |}.

(** [json.Marshal] of a policy: empty optional fields are omitted. *)
Definition stmt_json (s : s3PolicyStmt) : value :=
  VMap ([("Resource", VStr (st_Resource s))]
        ++ match st_Condition s with Some c => [("Condition", c)] | None => [] end
        ++ [("Effect", VStr (st_Effect s)); ("Action", VList (VStr <$> st_Action s))])%list.
Definition policy_json (p : s3PolicyDoc) : value :=
  VMap [("Version", VStr (pol_Version p)); ("Statement", VList (stmt_json <$> pol_Statement p))].

(** The minio client library. *)
Class MinioLib := { minio_Code : error -> string }.

Section registrar.
Context `{U : Unicode} `{M : MinioLib}.

(** ** The admin client *)

Record rustfsAdmin := {
  adm_endpoint : string;
  adm_accessKey : string;
  adm_secretKey : string;
  adm_region : string;
}.

Definition newRustFSAdmin (endpoint accessKey secretKey region : string) : rustfsAdmin :=
  {| adm_endpoint := TrimRightByte "/" endpoint; adm_accessKey := accessKey;
     adm_secretKey := secretKey; adm_region := region |}.

Definition adminURL (a : rustfsAdmin) (path : string) (query : list (string * string)) : string :=
  let u := adm_endpoint a +:+ "/rustfs/admin/v3" +:+ path in
  match query with
  | [] => u
  | _ => u +:+ "?" +:+ Encode query
  end.

Definition do_ (a : rustfsAdmin) (method path : string) (query : list (string * string)) (body : value) :
    prog (res (Z * string)) :=
  r ← call (AdminHTTP method (adminURL a path query) body);
  Ret match r with
      | inl (true, err) => Err (Errorf "build request: %w" [AErr err])
      | inl (false, err) => Err (Errorf "admin request %s %s: %w" [AStr method; AStr path; AErr err])
      | inr answer => Ok answer
      end.

Definition doNoBody (a : rustfsAdmin) (method path : string) (query : list (string * string)) (body : value) :
    prog (res ()) :=
  try r := do_ a method path query body else Err ;;
  let (status, respBody) := r : Z * string in
  if (300 <=? status)%Z
  then Ret (Err (Errorf "admin %s %s: HTTP %d: %s" [AStr method; AStr path; AInt status; AStr respBody]))
  else Ret (Ok ()).

Definition AddUser (a : rustfsAdmin) (accessKey secretKey : string) : prog (res ()) :=
  doNoBody a "PUT" "/add-user" [("accessKey", accessKey)]
    (VMap [("secretKey", VStr secretKey); ("status", VStr "enabled")]).
Definition RemoveUser (a : rustfsAdmin) (accessKey : string) : prog (res ()) :=
  doNoBody a "DELETE" "/remove-user" [("accessKey", accessKey)] VNull.
Definition AddCannedPolicy (a : rustfsAdmin) (name : string) (policy : value) : prog (res ()) :=
  doNoBody a "PUT" "/add-canned-policy" [("name", name)] policy.
Definition SetPolicy (a : rustfsAdmin) (policyName userName : string) : prog (res ()) :=
  doNoBody a "PUT" "/set-user-or-group-policy"
    [("policyName", policyName); ("userOrGroup", userName); ("isGroup", "false")] VNull.
Definition RemoveCannedPolicy (a : rustfsAdmin) (name : string) : prog (res ()) :=
  doNoBody a "DELETE" "/remove-canned-policy" [("name", name)] VNull.

(** ** The registrar *)

Record RustFSRegistrar := { rr_admin : rustfsAdmin; rr_cfg : RustFSConfig }.

(** [NewRustFSRegistrar], past the construction of the minio client. *)
Definition NewRustFSRegistrar (cfg : RustFSConfig) : RustFSRegistrar :=
  let endpoint := TrimPrefix (TrimPrefix (rfs_Endpoint cfg) "http://") "https://" in
  let useSSL := HasPrefix (rfs_Endpoint cfg) "https://" in
  let scheme := if useSSL then "https://" else "http://" in
  {| rr_admin := newRustFSAdmin (scheme +:+ endpoint) (rfs_AccessKey cfg) (rfs_SecretKey cfg) (rfs_Region cfg);
     rr_cfg := cfg |}.

(** A bucket that appeared in the meantime is no error. *)
Definition ensure_bucket (bucket region : string) : prog (res ()) :=
  try exists_ := call (S3BucketExists bucket)
    else (fun err => Err (Errorf "check bucket %s: %w" [AStr bucket; AErr err])) ;;
  if negb exists_ then
    r ← call (S3MakeBucket bucket region);
    match r with
    | Ok _ => Ret (Ok ())
    | Err mkErr =>
        if negb (String.eqb (minio_Code mkErr) "BucketAlreadyOwnedByYou")
           && negb (String.eqb (minio_Code mkErr) "BucketAlreadyExists")
        then Ret (Err (Errorf "create bucket %s: %w" [AStr bucket; AErr mkErr]))
        else Ret (Ok ())
    end
  else Ret (Ok ()).

Definition Register (r : RustFSRegistrar) (id : Identity) : prog (res RustFSCreds) :=
  let cfg := rr_cfg r in
  let bucket := rfs_Bucket cfg in
  let prefix := id_S3Prefix id in
  let userName := id_S3User id in
  let policyName := id_S3Policy id in
  try_ ensure_bucket bucket (rfs_Region cfg) else Err ;;
  try secretKey := generateHexPassword 32
    else (fun err => Err (Errorf "generate secret key: %w" [AErr err])) ;;
  try_ AddUser (rr_admin r) userName secretKey
    else (fun err => Err (Errorf "add user %s: %w" [AStr userName; AErr err])) ;;
  try_ AddCannedPolicy (rr_admin r) policyName (policy_json (buildS3Policy bucket prefix))
    else (fun err => Err (Errorf "add policy %s: %w" [AStr policyName; AErr err])) ;;
  try_ SetPolicy (rr_admin r) policyName userName
    else (fun err => Err (Errorf "set policy %s for user %s: %w" [AStr policyName; AStr userName; AErr err])) ;;
  Ret (Ok {| rc_Endpoint := rfs_Endpoint cfg; rc_AccessKey := userName; rc_SecretKey := secretKey;
             rc_Bucket := bucket; rc_Prefix := prefix; rc_Region := rfs_Region cfg; rc_Protocol := "s3" |}).

(** Run a step and append the message of its error to the list. *)
Definition collect (errs : list string) (msg : error -> string) (p : prog (res ())) : prog (list string) :=
  r ← p;
  Ret (match r with
       | Ok _ => errs
       | Err e => (errs ++ [msg e])%list
       end).

Definition Unregister (r : RustFSRegistrar) (id : Identity) : prog (res ()) :=
  let bucket := rfs_Bucket (rr_cfg r) in
  let userName := id_S3User id in
  let policyName := id_S3Policy id in
  listing ← call (S3ListObjects bucket (id_S3Prefix id));
  let (keys, listErr) := listing : list string * option error in
  errs ← foldM (fun errs key =>
           collect errs (fun e => Sprintf "delete object %s: %v" [key; ErrorText e])
             (call (S3RemoveObject bucket key))) keys [];
  let errs := match listErr with
              | None => errs
              | Some e => (errs ++ [Sprintf "list objects: %v" [ErrorText e]])%list
              end in
  errs ← collect errs (fun e => Sprintf "remove user %s: %v" [userName; ErrorText e])
           (RemoveUser (rr_admin r) userName);
  errs ← collect errs (fun e => Sprintf "remove policy %s: %v" [policyName; ErrorText e])
           (RemoveCannedPolicy (rr_admin r) policyName);
  match errs with
  | [] => Ret (Ok ())
  | _ => Ret (Err (Errorf "rustfs unregister: %s" [AStr (Join errs "; ")]))
  end.

Definition EnsureEnclave (id : EnclaveIdentity) : prog (res ()) := Ret (Ok ()).
Definition CleanupEnclave (id : EnclaveIdentity) : prog (res ()) := Ret (Ok ()).
End registrar.

(** ** What a policy grants *)

(** Resource and condition patterns: [*] matches any run of characters, [?] one. *)
Fixpoint glob (pat s : string) : bool :=
  match pat with
  | EmptyString => String.eqb s ""
  | String "*" pat' =>
      (fix star (s : string) : bool :=
         glob pat' s || match s with
                        | EmptyString => false
                        | String _ s' => star s'
                        end) s
  | String p pat' =>
      match s with
      | EmptyString => false
      | String c s' => (Ascii.eqb p "?" || Ascii.eqb p c) && glob pat' s'
      end
  end.

(** An unconditional statement that allows an action on an object. *)
Definition allows_object (p : s3PolicyDoc) (action bucket key : string) : bool :=
  existsb (fun st => String.eqb (st_Effect st) "Allow"
                     && existsb (String.eqb action) (st_Action st)
                     && match st_Condition st with None => true | Some _ => false end
                     && glob (st_Resource st) ("arn:aws:s3:::" +:+ bucket +:+ "/" +:+ key))
    (pol_Statement p).

(** ** Lemmas *)

Definition literal_char (c : ascii) : bool := negb (Ascii.eqb c "*") && negb (Ascii.eqb c "?").
Definition literal (s : string) : bool := str_forallb literal_char s.

Lemma glob_star s : glob "*" s = true.
Proof. induction s as [|c s IH]; [done|]. cbn in *. exact IH. Qed.

Lemma glob_literal_cons c pat s :
  literal_char c = true ->
  glob (String c pat) s = match s with
                          | EmptyString => false
                          | String c' s' => Ascii.eqb c c' && glob pat s'
                          end.
Proof.
  unfold literal_char. destruct c as [[] [] [] [] [] [] [] []]; intros H; try discriminate H;
    destruct s; reflexivity.
Qed.

Lemma glob_prefix p s : literal p = true -> glob (p +:+ "*") s = HasPrefix s p.
Proof.
  unfold literal. revert s. induction p as [|c p IH]; intros s.
  - intros _. apply glob_star.
  - cbn [str_forallb]. rewrite andb_true_iff. intros [Hc Hp].
    change (String c p +:+ "*") with (String c (p +:+ "*")). rewrite glob_literal_cons by done.
    destruct s as [|c' s]; [done|]. cbn [HasPrefix]. by rewrite IH.
Qed.

Lemma HasPrefix_app_l a s p : HasPrefix (a +:+ s) (a +:+ p) = HasPrefix s p.
Proof.
  induction a as [|c a IH]; [done|].
  change (HasPrefix (String c (a +:+ s)) (String c (a +:+ p)) = HasPrefix s p).
  cbn [HasPrefix]. by rewrite Ascii.eqb_refl.
Qed.

Lemma buildS3Policy_allows bucket prefix action key :
  literal bucket = true -> literal prefix = true ->
  action ∈ ["s3:GetObject"; "s3:PutObject"; "s3:DeleteObject"] ->
  allows_object (buildS3Policy bucket prefix) action bucket key = HasPrefix key prefix.
Proof.
  intros Hb Hp Ha. unfold allows_object, buildS3Policy. cbn [pol_Statement existsb st_Effect st_Action st_Condition st_Resource].
  assert (existsb (String.eqb action) ["s3:GetObject"; "s3:PutObject"; "s3:DeleteObject"] = true) as Hin.
  { rewrite existsb_In. exists action. by rewrite String.eqb_refl. }
  cbn [existsb] in Hin. rewrite Hin. cbn [String.eqb andb].
  rewrite andb_false_r. cbn [andb orb]. rewrite orb_false_r.
  rewrite <- !str_app_assoc, glob_prefix.
  - rewrite !str_app_assoc. rewrite !HasPrefix_app_l. done.
  - unfold literal in *. rewrite !str_forallb_app, Hb, Hp. done.
Qed.

Lemma holds_doNoBody {A} `{U : Unicode} a method path query body R (Q : list event -> A -> Prop) h
    (k : res () -> prog A) :
  R h (AdminHTTP method (adminURL a path query) body) ->
  (forall x r, (r = Ok () <-> exists s b, x = inr (s, b) /\ (s < 300)%Z) ->
     holds R Q (Ev (AdminHTTP method (adminURL a path query) body) x :: h) (k r)) ->
  holds R Q h (doNoBody a method path query body ≫= k).
Proof.
  intros HR Hk. simpl. split; [done|]. intros [[[] e]|[s b]]; simpl.
  - apply Hk. split; [done|]. by intros (? & ? & ? & _).
  - apply Hk. split; [done|]. by intros (? & ? & ? & _).
  - destruct (Z.leb_spec 300 s); simpl; apply Hk.
    + split; [done|]. intros (s' & b' & [= <- <-] & ?). lia.
    + split; [|done]. intros _. by exists s, b.
Qed.

(** ** Properties *)

Section properties.
Context `{U : Unicode}.

(** C22: Object-store isolation: the policy a tentacle is given allows reading,
    writing or deleting an object of the shared bucket exactly when the key is
    under the tentacle's own prefix, and a key under another tentacle's prefix
    is never allowed. *)
Theorem policy_isolates bucket action ns1 wf1 ns2 wf2 id1 id2 key :
  CompileIdentity ns1 wf1 = Ok id1 -> CompileIdentity ns2 wf2 = Ok id2 ->
  forallb literal [bucket; ns1; wf1] = true ->
  no_byte "/" ns1 && no_byte "/" wf1 && no_byte "/" ns2 && no_byte "/" wf2 = true ->
  action ∈ ["s3:GetObject"; "s3:PutObject"; "s3:DeleteObject"] ->
  allows_object (buildS3Policy bucket (id_S3Prefix id1)) action bucket key = HasPrefix key (id_S3Prefix id1) /\
  (HasPrefix key (id_S3Prefix id2) = true -> (ns1, wf1) <> (ns2, wf2) ->
   allows_object (buildS3Policy bucket (id_S3Prefix id1)) action bucket key = false).
Proof.
  intros H1 H2 Hlit Hsl Ha. cbn [forallb] in Hlit. rewrite !andb_true_iff in Hlit, Hsl.
  destruct Hlit as (Hb & Hn & Hw & _). destruct Hsl as [[[Hn1 Hw1] Hn2] Hw2].
  apply CompileIdentity_prefix in H1 as Hp1, H2 as Hp2.
  rewrite buildS3Policy_allows; [split; [done|]|done| |done].
  - intros Hk2 Hne. apply not_true_iff_false. intros Hk1. apply Hne.
    rewrite Hp1 in Hk1. rewrite Hp2 in Hk2.
    destruct (s3_prefix_determines ns1 wf1 ns2 wf2 key) as [-> ->]; done.
  - rewrite Hp1. unfold s3_prefix, literal in *.
    rewrite !str_forallb_app, Hn. cbn [str_forallb]. by rewrite !str_forallb_app, Hw.
Qed.

(** Unregistering is complete whatever fails on the way: after the listed
    objects have been tried, the user is removed and then its policy, in that
    order, in every execution; success is reported only when both calls were
    accepted; and nothing else is deleted than objects of the bucket. *)
Theorem Unregister_complete r id h :
  let user_req := AdminHTTP "DELETE" (adminURL (rr_admin r) "/remove-user" [("accessKey", id_S3User id)]) VNull in
  let policy_req := AdminHTTP "DELETE" (adminURL (rr_admin r) "/remove-canned-policy" [("name", id_S3Policy id)]) VNull in
  holds
    (every (fun q => q = user_req \/ q = policy_req \/ q = S3ListObjects (rfs_Bucket (rr_cfg r)) (id_S3Prefix id)
                     \/ exists key, q = S3RemoveObject (rfs_Bucket (rr_cfg r)) key))
    (fun h' out => exists h0 x y, h' = Ev policy_req x :: Ev user_req y :: h0 /\
                   (out = Ok () -> (exists s b, x = inr (s, b) /\ (s < 300)%Z) /\
                                   (exists s b, y = inr (s, b) /\ (s < 300)%Z)))
    h (Unregister r id).
Proof.
  intros user_req policy_req. unfold Unregister.
  apply holds_bind. split; [by right; right; left|]. intros [keys listErr]. cbn [holds].
  apply holds_bind.
  apply (holds_foldM _ (fun _ _ => True)); [|intros h1 errs _|done].
  { intros h1 errs key _ _. simpl. split; [by right; right; right; exists key|]. done. }
  cbn zeta. match goal with |- holds _ _ _ (collect ?e _ _ ≫= _) => generalize e end.
  clear errs. intros errs. apply holds_bind. unfold collect at 1.
  apply holds_doNoBody; [by left|]. intros x r1 Hr1. cbn [holds].
  apply holds_bind. unfold collect. apply holds_doNoBody; [by right; left|]. intros y r2 Hr2. cbn [holds].
  assert (forall out, (out = Ok () -> r1 = Ok () /\ r2 = Ok ()) ->
            exists h0 x0 y0, Ev policy_req y :: Ev user_req x :: h1 = Ev policy_req x0 :: Ev user_req y0 :: h0 /\
              (out = Ok () -> (exists s b, x0 = inr (s, b) /\ (s < 300)%Z) /\
                              (exists s b, y0 = inr (s, b) /\ (s < 300)%Z))) as Hout.
  { intros out Ho. exists h1, y, x. split; [done|]. intros [H1 H2]%Ho.
    split; [by apply Hr2|by apply Hr1]. }
  destruct r1 as [[]|e1], r2 as [[]|e2]; destruct errs as [|e0 errs]; cbn [app holds];
    apply Hout; done.
Qed.
End properties.

(** ** Witnesses *)

Lemma policy_isolates_witness :
  exists i1 i2,
    CompileIdentity (U := ascii_tables) "team" "etl" = Ok i1 /\
    CompileIdentity (U := ascii_tables) "team" "etl-2" = Ok i2 /\
    allows_object (buildS3Policy "tentacular" (id_S3Prefix i1)) "s3:PutObject" "tentacular"
      (id_S3Prefix i2 +:+ "data.csv") = false.
Proof.
  eexists _, _. split; [vm_compute; reflexivity|split; [vm_compute; reflexivity|]].
  eapply (policy_isolates (U := ascii_tables) "tentacular" "s3:PutObject" "team" "etl" "team" "etl-2");
    [vm_compute; reflexivity|vm_compute; reflexivity|vm_compute; reflexivity|vm_compute; reflexivity
    |right; left|vm_compute; reflexivity|congruence].
Defined.
