(* ===== verification/SpireRegistrar.v ===== *)
(** * The SPIRE registrar (pkg/exoskeleton/registrar_spire.go)

    ClusterSPIFFEID resources, one per tentacle, written with the dynamic
    Kubernetes client. *)

From S2P Require Import Prelude GoStrings Identity Effects K8sOps.
#[local] Open Scope string_scope.

Definition clusterSPIFFEIDs : kind := "spire.spiffe.io/v1alpha1/clusterspiffeids".

(** [NewSPIRERegistrar]: the class name, defaulted. *)
Definition NewSPIRERegistrar (className : string) : string :=
  if String.eqb className "" then "tentacular-system-spire" else className.

Section registrar.
Context `{U : Unicode}.

(** The loop of [sanitizeK8sName] looks at runes: a rune that is not a lower-case
    letter, a digit or a hyphen becomes one hyphen. *)
Definition k8s_rune (r : string) : string :=
  match r with
  | String c EmptyString => if is_lower c || is_digit c || Ascii.eqb c "-" then r else "-"
  | _ => "-"
  end.
Definition sanitizeK8sName (s : string) : string :=
  TrimByte "-" (foldr (fun r acc => k8s_rune r +:+ acc) "" (runes (ToLower s))).

Definition spireName (namespace workflow : string) : string :=
  let raw := "tentacle-" +:+ sanitizeK8sName namespace +:+ "-" +:+ sanitizeK8sName workflow in
  if (253 <? String.length raw)%nat then str_take 253 raw else raw.

Definition spiffe_template : string :=
  "spiffe://{{ .TrustDomain }}/ns/{{ .PodMeta.Namespace }}/tentacles/"
  +:+ "{{ index .PodMeta.Labels " +:+ String dquote ("tentacular.io/release" +:+ String dquote " }}").

Definition cluster_spiffe_id (className name namespace workflow : string) : object :=
  new_object name ""
    [("tentacular.io/release", workflow); ("tentacular.io/exoskeleton", "true")]
    [("apiVersion", VStr "spire.spiffe.io/v1alpha1"); ("kind", VStr "ClusterSPIFFEID");
     ("spec", VMap
        [("className", VStr className); ("hint", VStr workflow); ("spiffeIDTemplate", VStr spiffe_template);
         ("namespaceSelector", VMap [("matchLabels", VMap [("kubernetes.io/metadata.name", VStr namespace)])]);
         ("podSelector", VMap [("matchLabels", VMap [("tentacular.io/release", VStr workflow)])])])].

Definition SetResourceVersion (o : object) (rv : string) : object :=
  {| o_name := o_name o; o_namespace := o_namespace o; o_labels := o_labels o;
     o_annotations := o_annotations o; o_resourceVersion := rv; o_created := o_created o; o_body := o_body o |}.

Definition Register (className : string) (id : Identity) (namespace : string) : prog (res ()) :=
  let name := spireName namespace (id_Workflow id) in
  let obj := cluster_spiffe_id className name namespace (id_Workflow id) in
  existing ← call (KGet clusterSPIFFEIDs "" name);
  match existing with
  | Ok ex =>
      try_ call (KUpdate clusterSPIFFEIDs "" (SetResourceVersion obj (o_resourceVersion ex)))
        else (fun err => Err (Errorf "update ClusterSPIFFEID %s: %w" [AStr name; AErr err])) ;;
      Ret (Ok ())
  | Err err =>
      if negb (reason_is NotFound err)
      then Ret (Err (Errorf "get ClusterSPIFFEID %s: %w" [AStr name; AErr err]))
      else
        try_ call (KCreate clusterSPIFFEIDs "" obj)
          else (fun err => Err (Errorf "create ClusterSPIFFEID %s: %w" [AStr name; AErr err])) ;;
        Ret (Ok ())
  end.

Definition Unregister (id : Identity) (namespace : string) : prog (res ()) :=
  let name := spireName namespace (id_Workflow id) in
  r ← call (KDelete clusterSPIFFEIDs "" name);
  match r with
  | Ok _ => Ret (Ok ())
  | Err err => if reason_is NotFound err then Ret (Ok ())
               else Ret (Err (Errorf "delete ClusterSPIFFEID %s: %w" [AStr name; AErr err]))
  end.

(** ** Lemmas *)

Lemma sanitizeK8sName_label s :
  str_forallb (fun c => is_lower c || is_digit c || Ascii.eqb c "-") s = true ->
  foldr (fun r acc => k8s_rune r +:+ acc) "" ((fun c => String c "") <$> list_ascii_of_string s) = s.
Proof.
  induction s as [|c s IH]; [done|]. cbn [str_forallb]. rewrite andb_true_iff. intros [Hc Hs].
  cbn [list_ascii_of_string]. rewrite fmap_cons. cbn [foldr k8s_rune]. rewrite Hc, IH by done. done.
Qed.

End registrar.
