(* ===== verification/Injector.v ===== *)
(** * Credential injection (pkg/exoskeleton/injector.go)

    The credentials the registrars return, and the Secrets that carry them to a
    workflow: one of its own with a key per field, and the workflow's Secret, where
    each service becomes one key with a JSON object. *)

From S2P Require Import Prelude GoStrings Identity Effects K8sOps Unstructured Json.
From S2P Require Import PgRegistrar NatsRegistrar RustfsRegistrar.
#[local] Open Scope string_scope.

(** The values of the credentials map: a type switch over the three kinds, and
    any other value with its JSON encoding, if it has one. *)
Inductive creds :=
  | PgCreds (c : PostgresCreds)
  | NatsCreds (c : NATSCreds)
  | RustfsCreds (c : RustFSCreds)
  | OtherCreds (json : option string).

(** The credentials map, by dependency.  A Go map is iterated in any order: the
    list is one such order. *)
Abbreviation credmap := (list (string * creds)) (only parsing).

Definition ExoskeletonLabel : string := "tentacular.io/exoskeleton".
Definition ReleaseLabel : string := "tentacular.io/release".
Definition ExoskeletonSecretPrefix : string := "tentacular-exoskeleton-".

Section injector.
Context `{U : Unicode} `{L : UnstructuredLib}.

(** ** The exoskeleton Secret *)

(** The keys of one service. *)
Definition secret_fields (sc : string * creds) : list (string * value) :=
  let key field := sc.1 +:+ "." +:+ field in
  match sc.2 with
  | PgCreds c =>
      [(key "host", VStr (pgc_Host c)); (key "port", VStr (pgc_Port c)); (key "database", VStr (pgc_Database c));
       (key "user", VStr (pgc_User c)); (key "password", VStr (pgc_Password c)); (key "schema", VStr (pgc_Schema c));
       (key "protocol", VStr (pgc_Protocol c))]
  | NatsCreds c =>
      ([(key "url", VStr (nc_URL c))]
       ++ (if String.eqb (nc_Token c) "" then [] else [(key "token", VStr (nc_Token c))])
       ++ [(key "subject_prefix", VStr (nc_SubjectPrefix c)); (key "protocol", VStr (nc_Protocol c));
           (key "auth_method", VStr (nc_AuthMethod c))])%list
  | RustfsCreds c =>
      [(key "endpoint", VStr (rc_Endpoint c)); (key "access_key", VStr (rc_AccessKey c));
       (key "secret_key", VStr (rc_SecretKey c)); (key "bucket", VStr (rc_Bucket c)); (key "prefix", VStr (rc_Prefix c));
       (key "region", VStr (rc_Region c)); (key "protocol", VStr (rc_Protocol c))]
  | OtherCreds (Some json) => [(sc.1, VStr json)]
  | OtherCreds None => []
  end.

(** Assignments to a map, one after the other. *)
Definition set_all {A} (m : list (string * A)) (kvs : list (string * A)) : list (string * A) :=
  foldl (fun m kv => map_set kv.1 kv.2 m) m kvs.

Definition BuildSecretManifest (namespace workflow : string) (cs : credmap) : res (list (string * value)) :=
  match CompileIdentity namespace workflow with
  | Err err => Err (Errorf "compile identity for secret: %w" [AErr err])
  | Ok id =>
      let stringData :=
        set_all [] (mjoin (secret_fields <$> cs)
                    ++ [("tentacular-identity.principal", VStr (id_Principal id));
                        ("tentacular-identity.namespace", VStr namespace);
                        ("tentacular-identity.workflow", VStr workflow)])%list in
      Ok [("apiVersion", VStr "v1"); ("kind", VStr "Secret");
          ("metadata", VMap [("name", VStr (ExoskeletonSecretPrefix +:+ workflow)); ("namespace", VStr namespace);
                             ("labels", VMap [(ReleaseLabel, VStr workflow); (ExoskeletonLabel, VStr "true")])]);
          ("type", VStr "Opaque"); ("stringData", VMap stringData)]
  end.

(** ** The workflow's Secret *)

(** The object of one service. *)
Definition service_object (c : creds) : option (list (string * string)) :=
  match c with
  | PgCreds c =>
      Some [("host", pgc_Host c); ("port", pgc_Port c); ("database", pgc_Database c); ("user", pgc_User c);
            ("password", pgc_Password c); ("schema", pgc_Schema c); ("protocol", pgc_Protocol c)]
  | NatsCreds c =>
      Some ([("url", nc_URL c); ("subject_prefix", nc_SubjectPrefix c); ("protocol", nc_Protocol c);
             ("auth_method", nc_AuthMethod c)]
            ++ if String.eqb (nc_Token c) "" then [] else [("token", nc_Token c)])%list
  | RustfsCreds c =>
      Some [("endpoint", rc_Endpoint c); ("access_key", rc_AccessKey c); ("secret_key", rc_SecretKey c);
            ("bucket", rc_Bucket c); ("prefix", rc_Prefix c); ("region", rc_Region c); ("protocol", rc_Protocol c)]
  | OtherCreds _ => None
  end.

Definition service_entry (sc : string * creds) : list (string * value) :=
  match sc.2, service_object sc.2 with
  | OtherCreds (Some json), _ => [(sc.1, VStr json)]
  | _, Some obj => [(sc.1, VStr (MarshalStringMap obj))]
  | _, None => []
  end.

Definition identity_object (id : Identity) (namespace workflow : string) : list (string * string) :=
  [("principal", id_Principal id); ("namespace", namespace); ("workflow", workflow)].

Definition buildExoStringData (namespace workflow : string) (cs : credmap) : list (string * value) :=
  let sd := set_all [] (mjoin (service_entry <$> cs)) in
  match CompileIdentity namespace workflow with
  | Ok id => map_set "tentacular-identity" (VStr (MarshalStringMap (identity_object id namespace workflow))) sd
  | Err _ => sd
  end.

Definition is_user_secret (workflow : string) (m : manifest) : bool :=
  String.eqb (GetKind m) "Secret" && String.eqb (GetName m) (workflow +:+ "-secrets").

(** Merge into the first Secret of that name, or add one. *)
Fixpoint merge_into (workflow : string) (exoData : list (string * value)) (new : manifest)
    (manifests : list (list (string * value))) : res (list (list (string * value))) :=
  match manifests with
  | [] => Ok [new]
  | m :: rest =>
      if is_user_secret workflow m then
        let sd := default [] (NestedMap m ["stringData"]) in
        match TrySetNestedField m (VMap (set_all sd exoData)) ["stringData"] with
        | Err err => Err (Errorf "set stringData on user secret: %w" [AErr err])
        | Ok m' => Ok (m' :: rest)
        end
      else match merge_into workflow exoData new rest with
           | Ok rest' => Ok (m :: rest')
           | Err err => Err err
           end
  end.

Definition mergeExoCredsIntoUserSecret (manifests : list (list (string * value))) (namespace workflow : string)
    (cs : credmap) : res (list (list (string * value))) :=
  let exoData := buildExoStringData namespace workflow cs in
  merge_into workflow exoData
    [("apiVersion", VStr "v1"); ("kind", VStr "Secret");
     ("metadata", VMap [("name", VStr (workflow +:+ "-secrets")); ("namespace", VStr namespace)]);
     ("type", VStr "Opaque"); ("stringData", VMap exoData)] manifests.
End injector.

(** ** Lemmas *)

Abbreviation keys m := (fst <$> m) (only parsing).

Lemma map_get_in {A} k (v : A) m : NoDup (keys m) -> (k, v) ∈ m -> map_get k m = Some v.
Proof.
  induction m as [|[k' v'] m IH]; intros Hnd Hin; [by apply elem_of_nil in Hin|].
  apply NoDup_cons in Hnd as [Hk Hnd]. simpl. apply elem_of_cons in Hin as [[= <- <-]|Hin]; [by rewrite String.eqb_refl|].
  destruct (String.eqb_spec k' k) as [->|]; [|by apply IH].
  destruct Hk. apply list_elem_of_fmap. by exists (k, v).
Qed.

Lemma map_get_not_in {A} k (m : list (string * A)) : k ∉ keys m -> map_get k m = None.
Proof.
  induction m as [|[k' v'] m IH]; [done|]. cbn [fmap list_fmap map_get fst]. intros [Hk Hin]%not_elem_of_cons.
  destruct (String.eqb_spec k' k) as [->|]; [done|]. by apply IH.
Qed.

Lemma map_set_keys {A} k (v : A) m x : x ∈ keys (map_set k v m) <-> x = k \/ x ∈ keys m.
Proof.
  induction m as [|[k' v'] m IH]; simpl; [rewrite elem_of_cons, elem_of_nil; tauto|].
  destruct (String.eqb_spec k' k) as [->|]; simpl; rewrite !elem_of_cons; [tauto|]. rewrite IH. tauto.
Qed.

Lemma map_set_NoDup {A} k (v : A) m : NoDup (keys m) -> NoDup (keys (map_set k v m)).
Proof.
  induction m as [|[k' v'] m IH]; simpl; [intros; apply NoDup_cons; split; [apply not_elem_of_nil|constructor]|].
  intros [Hk Hnd]%NoDup_cons. destruct (String.eqb_spec k' k) as [->|Hne]; simpl; apply NoDup_cons; [done|].
  split; [|by apply IH]. by rewrite map_set_keys; intros [->|].
Qed.

Lemma set_all_NoDup {A} (kvs m : list (string * A)) : NoDup (keys m) -> NoDup (keys (set_all m kvs)).
Proof. revert m. induction kvs as [|kv kvs IH]; intros m Hm; [done|]. by apply IH, map_set_NoDup. Qed.

(** Assigning distinct keys: each assignment is seen, all else is kept. *)
Lemma set_all_get {A} k (kvs m : list (string * A)) :
  NoDup (keys kvs) ->
  map_get k (set_all m kvs) = match map_get k kvs with Some v => Some v | None => map_get k m end.
Proof.
  revert m. induction kvs as [|[k' v'] kvs IH]; intros m; [done|]. intros [Hk Hnd]%NoDup_cons.
  change (set_all m ((k', v') :: kvs)) with (set_all (map_set k' v' m) kvs). rewrite IH by done. simpl.
  destruct (String.eqb_spec k' k) as [->|Hne].
  - rewrite map_get_not_in by done. apply map_get_set.
  - by rewrite map_get_set_ne.
Qed.

Lemma map_set_id {A} k (v : A) m : map_get k m = Some v -> map_set k v m = m.
Proof.
  induction m as [|[k' v'] m IH]; simpl; [done|]. destruct (String.eqb_spec k' k) as [->|]; [by intros [= ->]|].
  intros H. by rewrite IH.
Qed.

Lemma set_all_id {A} (kvs m : list (string * A)) :
  Forall (fun kv => map_get kv.1 m = Some kv.2) kvs -> set_all m kvs = m.
Proof.
  intros H. induction H as [|[k v] kvs Hk H IH]; [done|].
  change (set_all m ((k, v) :: kvs)) with (set_all (map_set k v m) kvs). by rewrite map_set_id.
Qed.

Lemma set_all_idem {A} (kvs m : list (string * A)) :
  NoDup (keys kvs) -> set_all (set_all m kvs) kvs = set_all m kvs.
Proof.
  intros Hnd. apply set_all_id, Forall_forall. intros [k v] Hin. simpl. rewrite set_all_get by done.
  by rewrite (map_get_in k v).
Qed.

(** The entries of the services, one key each at most. *)
Lemma service_entries_NoDup cs : NoDup (keys cs) -> NoDup (keys (mjoin (service_entry <$> cs))).
Proof.
  assert (forall cs k, k ∈ keys (mjoin (service_entry <$> cs)) -> k ∈ keys cs) as Hsub.
  { intros l k. induction l as [|[dep c] l IH]; [done|]. simpl. rewrite fmap_app, elem_of_app, elem_of_cons.
    intros [Hk|Hk]; [left|right; by apply IH]. unfold service_entry in Hk. simpl in Hk.
    destruct c as [c|c|c|[json|]]; simpl in Hk; by rewrite ?elem_of_cons, ?elem_of_nil in Hk; destruct_or? Hk. }
  induction cs as [|[dep c] cs IH]; [constructor|]. intros [Hd Hnd]%NoDup_cons. specialize (IH Hnd).
  assert (dep ∉ keys (mjoin (service_entry <$> cs))) as Hnew by (intros H%Hsub; done).
  simpl. rewrite fmap_app. unfold service_entry at 1. simpl.
  destruct c as [c|c|c|[json|]]; simpl; try (apply NoDup_cons; by split); done.
Qed.

Lemma service_entry_in cs dep c obj :
  (dep, c) ∈ cs -> service_object c = Some obj ->
  (dep, VStr (MarshalStringMap obj)) ∈ mjoin (service_entry <$> cs).
Proof.
  intros Hin Hobj. apply list_elem_of_join. exists (service_entry (dep, c)).
  split; [|by apply list_elem_of_fmap; exists (dep, c)].
  unfold service_entry. simpl. destruct c; [rewrite Hobj; by left..|done].
Qed.

Lemma as_strings_get f v m : NoDup (keys m) -> (f, v) ∈ m -> map_get f (as_strings m) = Some (VStr v).
Proof.
  intros Hnd Hin. apply map_get_in.
  - unfold as_strings. by rewrite <- list_fmap_compose.
  - apply list_elem_of_fmap. by exists (f, v).
Qed.

Lemma service_object_NoDup c obj : service_object c = Some obj -> NoDup (keys obj).
Proof.
  destruct c as [c|c|c|]; simpl; intros [= <-]; try destruct (String.eqb _ _);
    apply (bool_decide_unpack _); reflexivity.
Qed.

(** The text of a service's object gives its fields back. *)
Lemma service_object_read c obj :
  service_object c = Some obj -> Forall (fun kv => utf8 kv.1 /\ utf8 kv.2) obj ->
  exists o, parse_json (MarshalStringMap obj) = Some (VMap o) /\
    forall f v, (f, v) ∈ obj -> map_get f o = Some (VStr v).
Proof.
  intros Hobj Hutf. eexists. split; [by apply parse_marshal_map|]. intros f v Hin. apply as_strings_get.
  - rewrite isort_perm. by eapply service_object_NoDup.
  - by rewrite isort_perm.
Qed.

Section lemmas.
Context `{U : Unicode} `{L : UnstructuredLib} `{!UnstructuredLaws L}.

Lemma buildExoStringData_NoDup ns wf cs : NoDup (keys cs) -> NoDup (keys (buildExoStringData ns wf cs)).
Proof.
  intros Hnd. unfold buildExoStringData. destruct (CompileIdentity ns wf); [apply map_set_NoDup|];
    apply set_all_NoDup; constructor.
Qed.

Lemma buildExoStringData_get ns wf cs dep c obj :
  NoDup (keys cs) -> (dep, c) ∈ cs -> dep <> "tentacular-identity" -> service_object c = Some obj ->
  map_get dep (buildExoStringData ns wf cs) = Some (VStr (MarshalStringMap obj)).
Proof.
  intros Hnd Hin Hne Hobj. unfold buildExoStringData.
  assert (map_get dep (set_all [] (mjoin (service_entry <$> cs))) = Some (VStr (MarshalStringMap obj))) as Hget.
  { rewrite set_all_get by by apply service_entries_NoDup.
    by rewrite (map_get_in dep (VStr (MarshalStringMap obj))) by by first [apply service_entries_NoDup|eapply service_entry_in]. }
  destruct (CompileIdentity ns wf); [|done]. by rewrite map_get_set_ne.
Qed.

Lemma is_user_secret_at wf m m' :
  at_path (VMap m') ["kind"] = at_path (VMap m) ["kind"] ->
  at_path (VMap m') ["metadata"; "name"] = at_path (VMap m) ["metadata"; "name"] ->
  is_user_secret wf m' = is_user_secret wf m.
Proof. intros H1 H2. unfold is_user_secret. rewrite !law_Kind, !law_Name. unfold get_string. by rewrite H1, H2. Qed.

(** What the merge leaves behind: a Secret of the workflow that holds the data
    over what it held before; nothing else changes. *)
Definition merged (wf : string) (exo : list (string * value)) (m m' : manifest) : Prop :=
  is_user_secret wf m' = true /\
  (forall k, at_path (VMap m') ["stringData"; k] =
     match map_get k exo with
     | Some v => Some v
     | None => at_path (VMap m) ["stringData"; k]
     end) /\
  (forall k p, k <> "stringData" -> at_path (VMap m') (k :: p) = at_path (VMap m) (k :: p)).

Lemma merge_into_spec wf exo new manifests :
  NoDup (keys exo) ->
  exists ms', merge_into wf exo new manifests = Ok ms' /\
    ((ms' = manifests ++ [new])%list /\ Forall (fun m => is_user_secret wf m = false) manifests \/
     exists before m m' after, (manifests = before ++ m :: after)%list /\ (ms' = before ++ m' :: after)%list /\
       merged wf exo m m').
Proof.
  intros Hnd. induction manifests as [|m rest (ms' & IH & Hcase)].
  { eexists. split; [done|]. by left. }
  simpl. destruct (is_user_secret wf m) eqn:Hm.
  - pose proof (law_TrySetField m (VMap (set_all (default [] (NestedMap m ["stringData"])) exo)) ["stringData"]) as Hset.
    destruct (TrySetNestedField m _ ["stringData"]) as [m'|]; [|done]. cbn [set_path] in Hset. injection Hset as <-.
    eexists. split; [done|]. right. exists [], m. eexists. exists rest. split; [done|]. split; [done|].
    split_and!.
    + rewrite <- Hm. apply is_user_secret_at; cbn [at_path]; by rewrite map_get_set_ne.
    + intros k. cbn [at_path]. rewrite map_get_set, set_all_get by done. rewrite law_Map. cbn [at_path].
      destruct (map_get k exo); [done|]. by destruct (map_get "stringData" m) as [[]|].
    + intros k p Hk. cbn [at_path]. by rewrite map_get_set_ne.
  - rewrite IH. eexists. split; [done|]. destruct Hcase as [[-> Hnone]|(b & x & x' & a & -> & -> & Hx)].
    + left. split; [done|]. by constructor.
    + right. by exists (m :: b), x, x', a.
Qed.
End lemmas.

(** ** Properties *)

(** A deployed workflow can read its credentials: after the merge its Secret
    holds, under the name of each service, a text that decodes to an object with
    every field of that service's credentials.  What the author put into the
    Secret under other names stays, and so does every other manifest. *)
Theorem merge_delivers `{U : Unicode} `{L : UnstructuredLib} `{!UnstructuredLaws L} manifests ns wf cs :
  NoDup (keys cs) ->
  (forall dep c obj, (dep, c) ∈ cs -> service_object c = Some obj ->
     dep <> "tentacular-identity" /\ Forall (fun kv => utf8 kv.1 /\ utf8 kv.2) obj) ->
  exists ms' m', mergeExoCredsIntoUserSecret manifests ns wf cs = Ok ms' /\ m' ∈ ms' /\ is_user_secret wf m' = true /\
    (forall dep c obj, (dep, c) ∈ cs -> service_object c = Some obj ->
       exists text o, get_string m' ["stringData"; dep] = Some text /\ parse_json text = Some (VMap o) /\
         forall f v, (f, v) ∈ obj -> map_get f o = Some (VStr v)) /\
    (forall m, m ∈ manifests -> m ∈ ms' \/
       is_user_secret wf m = true /\
       forall k, k ∉ keys (buildExoStringData ns wf cs) ->
         at_path (VMap m') ["stringData"; k] = at_path (VMap m) ["stringData"; k]).
Proof.
  intros Hnd Hcs. pose proof (buildExoStringData_NoDup ns wf cs Hnd) as Hexo. unfold mergeExoCredsIntoUserSecret.
  set (exo := buildExoStringData ns wf cs) in *. match goal with |- context [merge_into wf exo ?n manifests] => set (new := n) end.
  destruct (merge_into_spec wf exo new manifests Hexo) as (ms' & Hms & Hcase).
  assert (forall m', (forall k, map_get k exo = None \/ at_path (VMap m') ["stringData"; k] = map_get k exo) ->
    forall dep c obj, (dep, c) ∈ cs -> service_object c = Some obj ->
       exists text o, get_string m' ["stringData"; dep] = Some text /\ parse_json text = Some (VMap o) /\
         forall f v, (f, v) ∈ obj -> map_get f o = Some (VStr v)) as Hread.
  { intros m' Hm' dep c obj Hin Hobj. destruct (Hcs _ _ _ Hin Hobj) as [Hne Hutf].
    destruct (service_object_read c obj Hobj Hutf) as (o & Hp & Ho). exists (MarshalStringMap obj), o.
    split; [|done]. pose proof (buildExoStringData_get ns wf cs dep c obj Hnd Hin Hne Hobj) as Hg. fold exo in Hg.
    destruct (Hm' dep) as [Hno|Hat]; [congruence|]. unfold get_string. by rewrite Hat, Hg. }
  exists ms'. destruct Hcase as [[-> Hnone]|(b & m & m' & a & -> & -> & Hu & Hdata & Hother)].
  - exists new. split_and!; [done|apply elem_of_app; right; by left| | |].
    + unfold is_user_secret. rewrite law_Kind, law_Name. unfold get_string. simpl. by rewrite String.eqb_refl.
    + apply Hread. intros k. right. simpl. by destruct (map_get k exo).
    + intros m Hin. left. apply elem_of_app. by left.
  - exists m'. split_and!; [done|apply elem_of_app; right; by left|done| |].
    + apply Hread. intros k. rewrite Hdata. destruct (map_get k exo); [by right|by left].
    + intros x Hx. apply elem_of_app in Hx as [Hx|[->|Hx]%elem_of_cons].
      * left. apply elem_of_app. by left.
      * right. split.
        { rewrite <- Hu. symmetry. apply is_user_secret_at; by apply Hother. }
        intros k Hk. by rewrite Hdata, (map_get_not_in k exo).
      * left. apply elem_of_app. right. by right.
Qed.

(** ** Witnesses *)

Definition pg_example : PostgresCreds :=
  {| pgc_Host := "pg.exo.svc.cluster.local"; pgc_Port := "5432"; pgc_Database := "tentacular"; pgc_User := "tn_a_b";
     pgc_Password := "s<cr>et"; pgc_Schema := "tn_a_b"; pgc_Protocol := "postgresql" |}.
Definition user_secret : manifest :=
  [("kind", VStr "Secret"); ("metadata", VMap [("name", VStr "wf-secrets")]);
   ("stringData", VMap [("api-key", VStr "k")])].

Lemma merge_delivers_witness :
  exists ms' m', mergeExoCredsIntoUserSecret (U := ascii_tables) (L := path_lib) [user_secret] "ns" "wf"
                   [("tentacular-postgres", PgCreds pg_example)] = Ok ms' /\ m' ∈ ms' /\
    (exists text o, get_string m' ["stringData"; "tentacular-postgres"] = Some text /\ parse_json text = Some (VMap o) /\
       map_get "password" o = Some (VStr "s<cr>et")) /\
    get_string m' ["stringData"; "api-key"] = Some "k".
Proof.
  destruct (merge_delivers (U := ascii_tables) (UnstructuredLaws0 := path_laws) [user_secret] "ns" "wf"
              [("tentacular-postgres", PgCreds pg_example)]) as (ms' & m' & Hms & Hin & Hu & Hread & Hkeep).
  - apply NoDup_singleton.
  - intros dep c obj [= -> ->]%list_elem_of_singleton [= <-]. split; [done|].
    repeat constructor; by apply ascii_utf8.
  - exists ms', m'. split; [done|]. split; [done|]. split.
    + destruct (Hread "tentacular-postgres" (PgCreds pg_example) _ ltac:(by left) eq_refl) as (text & o & H1 & H2 & H3).
      exists text, o. split; [done|]. split; [done|]. apply H3. simpl. do 4 right. by left.
    + destruct (Hkeep user_secret ltac:(by left)) as [H|[_ H]].
      * exfalso. revert Hms H. vm_compute. intros [= <-] H. apply list_elem_of_singleton in H. discriminate H.
      * unfold get_string. rewrite H; [done|]. apply (bool_decide_unpack _). vm_compute. exact I.
Defined.
