(* ===== verification/Contract.v ===== *)
(** * Workflow contracts (enrichContractDeps of enrich.go, detectExoDeps of controller.go)

    A workflow travels as YAML inside a ConfigMap manifest.  Its contract names
    the backing services it depends on; enrichment writes the endpoints and the
    references to the credentials into it.  The YAML library (gopkg.in/yaml.v3) is
    a parameter. *)

From S2P Require Import Prelude GoStrings Effects K8sOps Unstructured Json Injector GoUrl.
From S2P Require Import PgRegistrar NatsRegistrar RustfsRegistrar.
#[local] Open Scope string_scope.

(** A dependency as the deployment tool reads it (deploy.go, [dependencyYAML]). *)
Record dependencyYAML := { dy_Protocol : string; dy_Host : string; dy_Version : string }.

Class YamlLib := {
  (** [yaml.Unmarshal] into a [map[string]any]; [None] is an error. *)
  yaml_Unmarshal : string -> option (list (string * value));
  yaml_Marshal : list (string * value) -> res string;
  (** into [contractDeps]: the names of the dependencies, if there is a contract *)
  yaml_contractDeps : string -> option (option (list string));
  (** into [workflowYAML]: the dependencies, if there is a contract *)
  yaml_workflow : string -> option (option (list (string * dependencyYAML)));
}.

(** The documented behaviour the theorems rely on: what is written is read back,
    and decoding into [contractDeps] sees the dependencies the generic decoding
    has (in some order). *)
Class YamlLaws (Y : YamlLib) : Prop := {
  law_roundtrip w text : yaml_Marshal w = Ok text -> yaml_Unmarshal text = Some w;
  law_contractDeps text w deps :
    yaml_Unmarshal text = Some w -> at_path (VMap w) ["contract"; "dependencies"] = Some (VMap deps) ->
    exists names, yaml_contractDeps text = Some (Some names) /\ names ≡ₚ deps.*1;
}.

Section contract.
Context `{L : UnstructuredLib} `{Y : YamlLib} `{UL : UrlLib}.

(** The workflow text of a ConfigMap manifest. *)
Definition workflow_text (m : manifest) : option string :=
  if negb (String.eqb (GetKind m) "ConfigMap") then None
  else data ← NestedStringMap m ["data"]; map_get "workflow.yaml" data.

(** ** Detection *)

(** The first ConfigMap whose workflow has a contract decides. *)
Fixpoint detectExoDeps (manifests : list (list (string * value))) : list string :=
  match manifests with
  | [] => []
  | m :: rest =>
      match workflow_text m ≫= yaml_contractDeps with
      | Some (Some names) => SortStrings (List.filter (fun name => HasPrefix name "tentacular-") names)
      | _ => detectExoDeps rest
      end
  end.
Definition DetectExoDepsSlice : list (list (string * value)) -> list string := detectExoDeps.

(** ** Enrichment *)

Definition auth_ref (kind secret : string) : value := VMap [("type", VStr kind); ("secret", VStr secret)].

(** What the credentials of a service add to its dependency. *)
Definition enrich_fields (depName : string) (c : creds) : option (list (string * value)) :=
  match c with
  | PgCreds c =>
      Some [("host", VStr (pgc_Host c)); ("port", VStr (pgc_Port c)); ("database", VStr (pgc_Database c));
            ("user", VStr (pgc_User c)); ("schema", VStr (pgc_Schema c));
            ("auth", auth_ref "password" (depName +:+ ".password"))]
  | NatsCreds c =>
      let (host, port) := parseHostPort (nc_URL c) in
      Some [("host", VStr host); ("port", VStr port); ("subject", VStr (nc_SubjectPrefix c));
            ("auth", auth_ref (nc_AuthMethod c) (depName +:+ ".url"))]
  | RustfsCreds c =>
      let (host, port) := parseHostPort (rc_Endpoint c) in
      Some [("host", VStr host); ("port", VStr port); ("container", VStr (rc_Bucket c)); ("prefix", VStr (rc_Prefix c));
            ("auth", auth_ref "access-key" (depName +:+ ".secret_key"))]
  | OtherCreds _ => None
  end.

(** The changes due to one dependency, if any. *)
Definition dep_changes (cs : list (string * creds)) (dep : string * value) : option (list (string * value) * list (string * value)) :=
  if negb (HasPrefix dep.1 "tentacular-") then None
  else
    c ← map_get dep.1 cs;
    match dep.2 with
    | VMap depMap => fs ← enrich_fields dep.1 c; Some (depMap, fs)
    | _ => None
    end.
Definition enrich_dep (cs : list (string * creds)) (dep : string * value) : string * value :=
  match dep_changes cs dep with
  | Some (depMap, fs) => (dep.1, VMap (set_all depMap fs))
  | None => dep
  end.
Definition dep_modified (cs : list (string * creds)) (dep : string * value) : bool :=
  match dep_changes cs dep with
  | Some _ => true
  | None => false
  end.

(** The workflow with its dependencies enriched, if any was modified. *)
Definition enrich_workflow (cs : list (string * creds)) (workflow : list (string * value)) : option (list (string * value)) :=
  match map_get "contract" workflow with
  | Some (VMap contract) =>
      match map_get "dependencies" contract with
      | Some (VMap deps) =>
          if existsb (dep_modified cs) deps
          then Some (map_set "contract" (VMap (map_set "dependencies" (VMap (enrich_dep cs <$> deps)) contract)) workflow)
          else None
      | _ => None
      end
  | _ => None
  end.

(** One ConfigMap: [None] where the loop goes on. *)
Definition enrich_configmap (cs : list (string * creds)) (m : manifest) : option (res (list (string * value))) :=
  text ← workflow_text m;
  workflow ← yaml_Unmarshal text;
  workflow' ← enrich_workflow cs workflow;
  Some match yaml_Marshal workflow' with
       | Err err => Err (Errorf "re-serialize workflow.yaml: %w" [AErr err])
       | Ok enriched =>
           let dataMap := default [] (NestedMap m ["data"]) in
           match TrySetNestedField m (VMap (map_set "workflow.yaml" (VStr enriched) dataMap)) ["data"] with
           | Err err => Err (Errorf "update ConfigMap data: %w" [AErr err])
           | Ok m' => Ok m'
           end
       end.

Fixpoint enrichContractDeps (manifests : list (list (string * value))) (cs : list (string * creds)) :
    res (list (list (string * value))) :=
  match manifests with
  | [] => Ok []
  | m :: rest =>
      match enrich_configmap cs m with
      | Some (Ok m') => Ok (m' :: rest)
      | Some (Err err) => Err err
      | None => match enrichContractDeps rest cs with
                | Ok rest' => Ok (m :: rest')
                | Err err => Err err
                end
      end
  end.
End contract.

(** A library that knows some documents by their text, to evaluate examples. *)
Definition toy_yaml (docs : list (string * list (string * value))) : YamlLib :=
  {| yaml_Unmarshal := fun text => map_get text docs;
     yaml_Marshal := fun w =>
       match List.find (fun d => bool_decide (d.2 = w)) docs with
       | Some d => if decide (map_get d.1 docs = Some w) then Ok d.1 else Err (ErrorNew "unknown document")
       | None => Err (ErrorNew "unknown document")
       end;
     yaml_contractDeps := fun text =>
       w ← map_get text docs;
       Some match at_path (VMap w) ["contract"; "dependencies"] with
            | Some (VMap deps) => Some deps.*1
            | _ => None
            end;
     yaml_workflow := fun _ => None |}.

#[export] Instance toy_yaml_laws docs : YamlLaws (toy_yaml docs).
Proof.
  split; simpl.
  - intros w text. destruct (List.find _ docs); [|done]. destruct (decide _); [|done]. by intros [= <-].
  - intros text w deps -> Hat. simpl in *. rewrite Hat. by eexists.
Qed.

(** ** Lemmas *)

Section lemmas.
Context `{L : UnstructuredLib} `{!UnstructuredLaws L} `{Y : YamlLib} `{!YamlLaws Y} `{UL : UrlLib}.

Lemma enrich_dep_key cs dep : (enrich_dep cs dep).1 = dep.1.
Proof. unfold enrich_dep. by destruct (dep_changes cs dep) as [[]|]. Qed.

Lemma map_get_enrich cs deps k :
  map_get k (enrich_dep cs <$> deps) = (fun v => (enrich_dep cs (k, v)).2) <$> map_get k deps.
Proof.
  induction deps as [|[k' v] deps IH]; [done|]. cbn [fmap list_fmap map_get].
  pose proof (enrich_dep_key cs (k', v)) as Hk. destruct (enrich_dep cs (k', v)) as [k2 v2] eqn:He. simpl in Hk. subst k2.
  destruct (String.eqb_spec k' k) as [->|]; [|exact IH]. simpl. by rewrite He.
Qed.

(** The paths of a workflow before and after. *)
Lemma enrich_workflow_at cs w w' :
  enrich_workflow cs w = Some w' ->
  (forall k p, k <> "contract" -> at_path (VMap w') (k :: p) = at_path (VMap w) (k :: p)) /\
  (forall k p, k <> "dependencies" -> at_path (VMap w') ("contract" :: k :: p) = at_path (VMap w) ("contract" :: k :: p)) /\
  (forall dep, at_path (VMap w') ["contract"; "dependencies"; dep] =
     (fun v => (enrich_dep cs (dep, v)).2) <$> at_path (VMap w) ["contract"; "dependencies"; dep]).
Proof.
  unfold enrich_workflow. destruct (map_get "contract" w) as [[]|] eqn:Hc; try done.
  destruct (map_get "dependencies" m) as [[]|] eqn:Hd; try done.
  destruct (existsb _ _); [|done]. intros [= <-]. split_and!.
  - intros k p Hk. cbn [at_path]. by rewrite map_get_set_ne.
  - intros k p Hk. cbn [at_path]. by rewrite map_get_set, Hc, map_get_set_ne.
  - intros dep. cbn [at_path]. rewrite map_get_set, Hc, map_get_set, Hd, map_get_enrich.
    by destruct (map_get dep m0).
Qed.

Lemma enrich_fields_NoDup dep c fs : enrich_fields dep c = Some fs -> NoDup (fs.*1).
Proof.
  destruct c as [c|c|c|]; simpl; repeat case_match; intros [= <-]; apply (bool_decide_unpack _); reflexivity.
Qed.

Lemma enrich_configmap_ok cs m :
  enrich_configmap cs m = None \/
  exists text w w', workflow_text m = Some text /\ yaml_Unmarshal text = Some w /\ enrich_workflow cs w = Some w' /\
    enrich_configmap cs m =
      Some match yaml_Marshal w' with
           | Err err => Err (Errorf "re-serialize workflow.yaml: %w" [AErr err])
           | Ok enriched => Ok (map_set "data" (VMap (map_set "workflow.yaml" (VStr enriched) (default [] (NestedMap m ["data"])))) m)
           end.
Proof.
  unfold enrich_configmap. destruct (workflow_text m) as [text|]; [|by left]. simpl.
  destruct (yaml_Unmarshal text) as [w|] eqn:Hw; [|by left]. simpl. destruct (enrich_workflow cs w) as [w'|] eqn:Hw'; [|by left].
  right. exists text, w, w'. split_and!; [done..|]. simpl. f_equal. destruct (yaml_Marshal w'); [|done].
  pose proof (law_TrySetField m (VMap (map_set "workflow.yaml" (VStr a) (default [] (NestedMap m ["data"])))) ["data"]) as Hset.
  destruct (TrySetNestedField _ _ _); [|done]. simpl in Hset. by injection Hset as ->.
Qed.

(** The workflow of a manifest. *)
Definition workflow_of (m : manifest) : option (list (string * value)) := workflow_text m ≫= yaml_Unmarshal.

Abbreviation string_entry := (fun kv : string * value => (fun s => (kv.1, s)) <$> as_string kv.2) (only parsing).

Lemma mapM_set_string (kvs : list (string * value)) data k s :
  mapM string_entry kvs = Some data -> mapM string_entry (map_set k (VStr s) kvs) = Some (map_set k s data).
Proof.
  revert data. induction kvs as [|[k' v] kvs IH]; intros data; [by intros [= <-]|]. cbn [mapM map_set].
  destruct (as_string v) as [t|] eqn:Hv; simpl; rewrite Hv; [|done]. simpl.
  destruct (mapM _ kvs) as [rest|] eqn:Hrest; simpl; [|done]. intros [= <-]. specialize (IH _ eq_refl). simpl.
  destruct (String.eqb k' k); simpl; [by rewrite Hrest|]. by rewrite Hv; simpl; rewrite IH.
Qed.

(** What a dependency reads after enrichment, service by service: the endpoint and
    the reference to the credentials in the secret of the workflow. *)
Inductive contract_field (dep : string) : creds -> string -> value -> Prop :=
  | pg_host c : contract_field dep (PgCreds c) "host" (VStr (pgc_Host c))
  | pg_port c : contract_field dep (PgCreds c) "port" (VStr (pgc_Port c))
  | pg_database c : contract_field dep (PgCreds c) "database" (VStr (pgc_Database c))
  | pg_user c : contract_field dep (PgCreds c) "user" (VStr (pgc_User c))
  | pg_schema c : contract_field dep (PgCreds c) "schema" (VStr (pgc_Schema c))
  | pg_auth c : contract_field dep (PgCreds c) "auth" (VMap [("type", VStr "password"); ("secret", VStr (dep +:+ ".password"))])
  | nats_host c : contract_field dep (NatsCreds c) "host" (VStr (parseHostPort (nc_URL c)).1)
  | nats_port c : contract_field dep (NatsCreds c) "port" (VStr (parseHostPort (nc_URL c)).2)
  | nats_subject c : contract_field dep (NatsCreds c) "subject" (VStr (nc_SubjectPrefix c))
  | nats_auth c : contract_field dep (NatsCreds c) "auth" (VMap [("type", VStr (nc_AuthMethod c)); ("secret", VStr (dep +:+ ".url"))])
  | rustfs_host c : contract_field dep (RustfsCreds c) "host" (VStr (parseHostPort (rc_Endpoint c)).1)
  | rustfs_port c : contract_field dep (RustfsCreds c) "port" (VStr (parseHostPort (rc_Endpoint c)).2)
  | rustfs_container c : contract_field dep (RustfsCreds c) "container" (VStr (rc_Bucket c))
  | rustfs_prefix c : contract_field dep (RustfsCreds c) "prefix" (VStr (rc_Prefix c))
  | rustfs_auth c : contract_field dep (RustfsCreds c) "auth" (VMap [("type", VStr "access-key"); ("secret", VStr (dep +:+ ".secret_key"))]).

(** A dependency that was registered, with the credentials of one of the services. *)
Definition registered (cs : list (string * creds)) (dep : string) (c : creds) : Prop :=
  map_get dep cs = Some c /\ HasPrefix dep "tentacular-" = true /\ (forall x, c <> OtherCreds x).
(** There is something to enrich: a registered dependency whose entry is a map. *)
Definition enrichable (cs : list (string * creds)) (w : list (string * value)) : Prop :=
  exists deps dep c fields, at_path (VMap w) ["contract"; "dependencies"] = Some (VMap deps) /\
    (dep, VMap fields) ∈ deps /\ registered cs dep c.

(** What enrichment makes of a workflow. *)
Record enriched (cs : list (string * creds)) (w w' : list (string * value)) : Prop := {
  enr_dep dep c fields :
    registered cs dep c -> at_path (VMap w) ["contract"; "dependencies"; dep] = Some (VMap fields) ->
    (forall k v, contract_field dep c k v -> at_path (VMap w') ["contract"; "dependencies"; dep; k] = Some v) /\
    (forall k, (forall v, ~ contract_field dep c k v) ->
       at_path (VMap w') ["contract"; "dependencies"; dep; k] = at_path (VMap w) ["contract"; "dependencies"; dep; k]);
  enr_other_dep dep :
    map_get dep cs = None \/ HasPrefix dep "tentacular-" = false ->
    at_path (VMap w') ["contract"; "dependencies"; dep] = at_path (VMap w) ["contract"; "dependencies"; dep];
  enr_contract k p : k <> "dependencies" ->
    at_path (VMap w') ("contract" :: k :: p) = at_path (VMap w) ("contract" :: k :: p);
  enr_rest k p : k <> "contract" -> at_path (VMap w') (k :: p) = at_path (VMap w) (k :: p);
}.

Lemma enrich_fields_spec dep c fs k v : enrich_fields dep c = Some fs -> map_get k fs = Some v <-> contract_field dep c k v.
Proof.
  intros Hf. split.
  - destruct c as [c|c|c|]; cbn [enrich_fields] in Hf; repeat case_match; simplify_eq; cbn [map_get];
      repeat match goal with |- context [String.eqb ?a k] => destruct (String.eqb_spec a k) as [<-|] end;
      intros [= <-];
      repeat match goal with H : parseHostPort ?u = (?a, ?b) |- _ =>
        assert (a = (parseHostPort u).1) by (by rewrite H); assert (b = (parseHostPort u).2) by (by rewrite H); clear H; subst a b end;
      constructor.
  - intros H. destruct H; cbn [enrich_fields] in Hf; repeat case_match; simplify_eq; done.
Qed.

Lemma enrich_fields_some dep c : (forall x, c <> OtherCreds x) <-> is_Some (enrich_fields dep c).
Proof.
  destruct c as [c|c|c|c]; cbn [enrich_fields]; [|destruct (parseHostPort _)..|]; try by (split; [by eexists|done]).
  split; [intros H; by destruct (H c)|by intros []].
Qed.

Lemma enrich_workflow_enrichable cs w : is_Some (enrich_workflow cs w) <-> enrichable cs w.
Proof.
  unfold enrich_workflow, enrichable. cbn [at_path].
  destruct (map_get "contract" w) as [[]|]; try (split; [by intros []|by intros (? & ? & ? & ? & ? & _)]).
  destruct (map_get "dependencies" m) as [[]|]; try (split; [by intros []|by intros (? & ? & ? & ? & ? & _)]).
  transitivity (existsb (dep_modified cs) m0 = true).
  { destruct (existsb _ _); split; try done; by intros []. }
  rewrite existsb_In. split.
  - intros ([dep v] & Hin & Hm). unfold dep_modified, dep_changes in Hm. cbn [fst snd] in Hm.
    destruct (HasPrefix dep "tentacular-") eqn:Hp; cbn [negb] in Hm; [|done].
    destruct (map_get dep cs) as [c|] eqn:Hc; [|done]. cbn [mbind option_bind] in Hm. destruct v; try done.
    exists m0, dep, c, m1. split_and!; [done|done|]. split; [done|split; [done|]]. apply (enrich_fields_some dep).
    destruct (enrich_fields dep c); [by eexists|done].
  - intros (deps & dep & c & fields & [= ->] & Hin & Hc & Hp & [fs Hf]%(enrich_fields_some dep)).
    exists (dep, VMap fields). split; [done|]. unfold dep_modified, dep_changes. cbn [fst snd]. rewrite Hp, Hc. cbn [negb mbind option_bind]. by rewrite Hf.
Qed.

Lemma at_path_app v p q : at_path v (p ++ q)%list = at_path v p ≫= (fun x => at_path x q).
Proof.
  revert v. induction p as [|k p IH]; intros v; [done|]. simpl. destruct v; try done. by destruct (map_get k m).
Qed.

Lemma enrich_workflow_enriched cs w w' : enrich_workflow cs w = Some w' -> enriched cs w w'.
Proof.
  intros H. destruct (enrich_workflow_at _ _ _ H) as (Hrest & Hcontract & Hdep). split; [| |done|done].
  - intros dep c depMap (Hc & Hp & [fs Hf]%(enrich_fields_some dep)) Hat. specialize (Hdep dep). rewrite Hat in Hdep. cbn [fmap option_fmap option_map] in Hdep.
    assert ((enrich_dep cs (dep, VMap depMap)).2 = VMap (set_all depMap fs)) as He.
    { unfold enrich_dep, dep_changes. cbn [fst snd]. rewrite Hp, Hc. cbn [negb mbind option_bind]. by rewrite Hf. }
    rewrite He in Hdep.
    assert (forall k v, at_path v ["contract"; "dependencies"; dep; k] =
                      at_path v ["contract"; "dependencies"; dep] ≫= (fun x => at_path x [k])) as Hsplit
      by (intros k v; apply (at_path_app v ["contract"; "dependencies"; dep] [k])).
    assert (forall k, at_path (VMap w') ["contract"; "dependencies"; dep; k] =
      match map_get k fs with Some v => Some v | None => at_path (VMap w) ["contract"; "dependencies"; dep; k] end) as Hget.
    { intros k. rewrite !Hsplit, Hdep, Hat. simpl. rewrite set_all_get by by eapply enrich_fields_NoDup.
      destruct (map_get k fs); [done|]. by destruct (map_get k depMap). }
    split; [intros k v Hk%(enrich_fields_spec _ _ _ _ _ Hf); by rewrite Hget, Hk|].
    intros k Hno. rewrite Hget. destruct (map_get k fs) as [v|] eqn:Hk; [|done].
    by apply (enrich_fields_spec _ _ _ _ _ Hf), Hno in Hk.
  - intros dep Hno. rewrite (Hdep dep). destruct (at_path _ _) as [v|]; [|done]. simpl. f_equal.
    unfold enrich_dep, dep_changes. cbn [fst snd]. destruct Hno as [->| ->]; [by destruct (HasPrefix dep "tentacular-")|done].
Qed.

(** A manifest that differs in its workflow text only. *)
Lemma workflow_text_set m data text :
  get_string_map m ["data"] = Some data -> GetKind m = "ConfigMap" ->
  let m' := map_set "data" (VMap (map_set "workflow.yaml" (VStr text) (default [] (NestedMap m ["data"])))) m in
  workflow_text m' = Some text /\
  (forall k p, k <> "data" -> at_path (VMap m') (k :: p) = at_path (VMap m) (k :: p)) /\
  (forall k, k <> "workflow.yaml" -> at_path (VMap m') ["data"; k] = at_path (VMap m) ["data"; k]).
Proof.
  intros Hdata Hkind. rewrite law_Map. unfold get_string_map in Hdata.
  destruct (at_path (VMap m) ["data"]) as [[]|] eqn:Hat; try done. simpl in Hat. cbn [default from_option].
  destruct (map_get "data" m) as [d|] eqn:Hd; [|done]. injection Hat as ->. cbv zeta. split_and!.
  - unfold workflow_text. rewrite law_Kind in Hkind |- *. unfold get_string in *. cbn [at_path] in *.
    rewrite map_get_set_ne by done. rewrite Hkind. cbn [negb String.eqb]. rewrite law_StringMap. unfold get_string_map.
    cbn [at_path]. rewrite map_get_set. rewrite (mapM_set_string _ data) by done. cbn [mbind option_bind]. apply map_get_set.
  - intros k p Hk. cbn [at_path]. by rewrite map_get_set_ne.
  - intros k Hk. cbn [at_path]. by rewrite map_get_set, Hd, map_get_set_ne.
Qed.

Lemma enrich_dep_idem cs dep :
  enrich_dep cs (enrich_dep cs dep) = enrich_dep cs dep /\ dep_modified cs (enrich_dep cs dep) = dep_modified cs dep.
Proof.
  destruct dep as [name v]. unfold dep_modified, enrich_dep at 2 3 4.
  destruct (dep_changes cs (name, v)) as [[d fs]|] eqn:Hc; [|unfold enrich_dep; by rewrite Hc].
  assert (dep_changes cs (name, VMap (set_all d fs)) = Some (set_all d fs, fs) /\ NoDup (fs.*1)) as [Hc' Hnd].
  { unfold dep_changes in *. cbn [fst snd] in *. destruct (negb _); [done|].
    destruct (map_get name cs) as [c|]; [|done]. cbn [mbind option_bind] in *. destruct v; try done.
    apply bind_Some in Hc as (fs' & Hf & [= -> ->]). rewrite Hf. split; [done|]. by eapply enrich_fields_NoDup. }
  cbn [fst]. unfold enrich_dep. rewrite Hc'. split; [|done]. cbn [fst]. by rewrite set_all_idem.
Qed.

Lemma enrich_workflow_idem cs w w' : enrich_workflow cs w = Some w' -> enrich_workflow cs w' = Some w'.
Proof.
  unfold enrich_workflow at 1. destruct (map_get "contract" w) as [[]|] eqn:Hc; try done.
  destruct (map_get "dependencies" m) as [[]|] eqn:Hd; try done.
  destruct (existsb _ _) eqn:He; [|done]. intros [= <-]. unfold enrich_workflow. rewrite !map_get_set.
  assert (enrich_dep cs <$> (enrich_dep cs <$> m0) = enrich_dep cs <$> m0) as Hid.
  { rewrite <- list_fmap_compose. apply list_fmap_ext. intros i x _. apply enrich_dep_idem. }
  rewrite Hid.
  assert (existsb (dep_modified cs) (enrich_dep cs <$> m0) = true) as ->.
  { apply existsb_In in He as (x & Hx & Hm). apply existsb_In. exists (enrich_dep cs x).
    split; [by apply list_elem_of_fmap; exists x|]. by rewrite (proj2 (enrich_dep_idem cs x)). }
  f_equal. rewrite (map_set_id "dependencies") by apply map_get_set. apply map_set_id, map_get_set.
Qed.

(** One ConfigMap enriched, and what a second pass makes of it. *)
Lemma enrich_configmap_spec cs m m' :
  enrich_configmap cs m = Some (Ok m') ->
  exists w w', workflow_of m = Some w /\ enrichable cs w /\ workflow_of m' = Some w' /\ enriched cs w w' /\
    (forall k p, k <> "data" -> at_path (VMap m') (k :: p) = at_path (VMap m) (k :: p)) /\
    (forall k, k <> "workflow.yaml" -> at_path (VMap m') ["data"; k] = at_path (VMap m) ["data"; k]) /\
    enrich_configmap cs m' = Some (Ok m').
Proof.
  destruct (enrich_configmap_ok cs m) as [->|(text & w & w' & Ht & Hw & Hen & ->)]; [done|].
  destruct (yaml_Marshal w') as [enr|] eqn:Hmar; [|done]. intros [= <-].
  set (m' := map_set "data" _ m).
  assert (exists data, get_string_map m ["data"] = Some data /\ GetKind m = "ConfigMap") as (data & Hdata & Hkind).
  { unfold workflow_text in Ht. destruct (String.eqb_spec (GetKind m) "ConfigMap") as [Hk|]; [|done]. cbn [negb] in Ht.
    rewrite law_StringMap in Ht. destruct (get_string_map m ["data"]); [by eexists|done]. }
  destruct (workflow_text_set m data enr Hdata Hkind) as (Ht' & Hrest & Hkeys). fold m' in Ht', Hrest, Hkeys.
  assert (yaml_Unmarshal enr = Some w') as Hrt by by apply law_roundtrip.
  exists w, w'. split_and!; [by unfold workflow_of; rewrite Ht|by apply enrich_workflow_enrichable; exists w'|by unfold workflow_of; rewrite Ht'| |done|done|].
  - by apply enrich_workflow_enriched.
  - destruct (enrich_configmap_ok cs m') as [Hno|(text2 & w2 & w3 & Ht2 & Hw2 & Hen2 & ->)].
    + exfalso. revert Hno. unfold enrich_configmap. rewrite Ht'. cbn [mbind option_bind]. rewrite Hrt. cbn [mbind option_bind].
      by rewrite (enrich_workflow_idem _ _ _ Hen).
    + rewrite Ht' in Ht2. injection Ht2 as <-. rewrite Hrt in Hw2. injection Hw2 as <-.
      rewrite (enrich_workflow_idem _ _ _ Hen) in Hen2. injection Hen2 as <-. rewrite Hmar. do 2 f_equal.
      rewrite law_Map. cbn [at_path]. unfold m' at 1. rewrite map_get_set. cbn [default from_option].
      rewrite (map_set_id "workflow.yaml") by apply map_get_set. apply map_set_id. apply map_get_set.
Qed.
End lemmas.

(** A ConfigMap the loop passes over, and one it cannot write back. *)
Definition passed_over `{L : UnstructuredLib} `{Y : YamlLib} (cs : list (string * creds)) (m : manifest) : Prop :=
  forall w, workflow_of m = Some w -> ~ enrichable cs w.
Lemma enrich_configmap_none `{L : UnstructuredLib} `{Y : YamlLib} `{UL : UrlLib} cs m : enrich_configmap cs m = None -> passed_over cs m.
Proof.
  unfold enrich_configmap, passed_over, workflow_of. destruct (workflow_text m) as [text|]; [|done]. cbn [mbind option_bind].
  destruct (yaml_Unmarshal text) as [w|]; [|done]. cbn [mbind option_bind]. intros Hno w2 [= <-] [w' Hw']%enrich_workflow_enrichable.
  by rewrite Hw' in Hno.
Qed.
Lemma enrich_configmap_err `{L : UnstructuredLib} `{!UnstructuredLaws L} `{Y : YamlLib} `{UL : UrlLib} cs m err :
  enrich_configmap cs m = Some (Err err) ->
  exists w w' cause, workflow_of m = Some w /\ enriched cs w w' /\ yaml_Marshal w' = Err cause /\
    err = Errorf "re-serialize workflow.yaml: %w" [AErr cause].
Proof.
  destruct (enrich_configmap_ok cs m) as [->|(text & w & w' & Ht & Hw & Hen & ->)]; [done|].
  destruct (yaml_Marshal w') as [enr|cause] eqn:Hmar; [done|]. intros [= <-]. exists w, w', cause.
  split_and!; [by unfold workflow_of; rewrite Ht|by apply enrich_workflow_enriched|done|done].
Qed.

(** ** Properties *)


(** ** Witnesses *)

Definition plain_workflow : list (string * value) :=
  [("name", VStr "wf");
   ("contract", VMap [("dependencies", VMap
      [("tentacular-postgres", VMap [("protocol", VStr "postgresql")]); ("github", VMap [("host", VStr "api.github.com")])])])].
Definition enriched_workflow : list (string * value) :=
  default [] (enrich_workflow (UL := no_brackets) [("tentacular-postgres", PgCreds pg_example)] plain_workflow).
Definition two_documents : YamlLib := toy_yaml [("plain", plain_workflow); ("enriched", enriched_workflow)].
Definition code_configmap (text : string) : manifest :=
  [("kind", VStr "ConfigMap"); ("metadata", VMap [("name", VStr "wf-code")]);
   ("data", VMap [("workflow.yaml", VStr text); ("main.ts", VStr "run()")])].

