(* ===== verification/Controller.v ===== *)
(** * The exoskeleton controller (pkg/exoskeleton/controller.go)

    Orchestrates the registrars of the enabled backing services.  The four
    registrar interfaces are records of operations; the controller is proved
    against them, and [NewController] fills them with the registrars of this
    development. *)

From S2P Require Import Prelude GoStrings ExoConfig Identity Effects K8sOps.
From S2P Require PgRegistrar NatsRegistrar RustfsRegistrar SpireRegistrar.
#[local] Open Scope string_scope.

Import PgRegistrar (PostgresCreds).
Import NatsRegistrar (NATSCreds).
Import RustfsRegistrar (RustFSCreds, MinioLib).

(** ** Interfaces *)

Record PostgresRegistrarI := {
  pgr_Register : Identity -> prog (res PostgresCreds);
  pgr_Unregister : Identity -> prog (res ());
  pgr_EnsureEnclave : EnclaveIdentity -> prog (res ());
  pgr_CleanupEnclave : EnclaveIdentity -> prog (res ());
}.
Record NATSRegistrarI := {
  natsr_Register : Identity -> prog (res NATSCreds);
  natsr_Unregister : Identity -> prog (res ());
  natsr_EnsureEnclave : EnclaveIdentity -> prog (res ());
  natsr_CleanupEnclave : EnclaveIdentity -> prog (res ());
}.
Record RustFSRegistrarI := {
  rfsr_Register : Identity -> prog (res RustFSCreds);
  rfsr_Unregister : Identity -> prog (res ());
  rfsr_EnsureEnclave : EnclaveIdentity -> prog (res ());
  rfsr_CleanupEnclave : EnclaveIdentity -> prog (res ());
}.
Record SPIRERegistrarI := {
  spr_Register : Identity -> string -> prog (res ());
  spr_Unregister : Identity -> string -> prog (res ());
}.

(** A nil registrar is [None]. *)
Record Controller := {
  ctl_cfg : Config;
  ctl_pg : option PostgresRegistrarI;
  ctl_nats : option NATSRegistrarI;
  ctl_rustfs : option RustFSRegistrarI;
  ctl_spire : option SPIRERegistrarI;
}.

Definition NewControllerWithDeps (cfg : Config) pg nats rustfs spire : Controller :=
  {| ctl_cfg := cfg; ctl_pg := pg; ctl_nats := nats; ctl_rustfs := rustfs; ctl_spire := spire |}.

Record CleanupReport := {
  cr_Postgres : string;
  cr_NATS : string;
  cr_RustFS : string;
  cr_SPIRE : string;
  cr_Performed : bool;
}.

Definition Summary (r : CleanupReport) : string :=
  let part (name v : string) := if set v then [name +:+ " " +:+ v] else [] in
  match (part "postgres" (cr_Postgres r) ++ part "nats" (cr_NATS r) ++ part "rustfs" (cr_RustFS r)
         ++ part "spire" (cr_SPIRE r))%list with
  | [] => "no services cleaned up"
  | parts => Join parts ", "
  end.

Section controller.
Context `{U : Unicode} `{M : MinioLib}.

(** ** Construction *)

Definition pg_registrar (cfg : PostgresConfig) : PostgresRegistrarI :=
  {| pgr_Register := PgRegistrar.Register cfg; pgr_Unregister := PgRegistrar.Unregister;
     pgr_EnsureEnclave := PgRegistrar.EnsureEnclave; pgr_CleanupEnclave := PgRegistrar.CleanupEnclave |}.
Definition nats_registrar (cfg : NATSConfig) : NATSRegistrarI :=
  {| natsr_Register := NatsRegistrar.Register cfg; natsr_Unregister := NatsRegistrar.Unregister cfg;
     natsr_EnsureEnclave := NatsRegistrar.EnsureEnclave; natsr_CleanupEnclave := NatsRegistrar.CleanupEnclave |}.
Definition rustfs_registrar (cfg : RustFSConfig) : RustFSRegistrarI :=
  let r := RustfsRegistrar.NewRustFSRegistrar cfg in
  {| rfsr_Register := RustfsRegistrar.Register r; rfsr_Unregister := RustfsRegistrar.Unregister r;
     rfsr_EnsureEnclave := RustfsRegistrar.EnsureEnclave; rfsr_CleanupEnclave := RustfsRegistrar.CleanupEnclave |}.
Definition spire_registrar (className : string) : SPIRERegistrarI :=
  let cn := SpireRegistrar.NewSPIRERegistrar className in
  {| spr_Register := SpireRegistrar.Register cn; spr_Unregister := SpireRegistrar.Unregister |}.

(** [checkClusterSPIFFEIDCRD] *)
Definition checkClusterSPIFFEIDCRD : prog bool :=
  r ← call (Discover "spire.spiffe.io/v1alpha1");
  match r with
  | Ok _ => Ret true
  | Err _ =>
      r ← call (KGet "apiextensions.k8s.io/v1/customresourcedefinitions" "" "clusterspiffeids.spire.spiffe.io");
      Ret (is_ok r)
  end.

(** How the constructors of the client libraries answer: the Postgres pool (with
    its ping), the NATS connection test of token mode, the minio client. *)
Record connections := {
  cn_postgres : res ();
  cn_nats : res ();
  cn_minio : res ();
}.

(** [NewNATSRegistrar]: SPIFFE mode needs a clientset, token mode a connection. *)
Definition NewNATSRegistrar (cn : connections) (cfg : NATSConfig) (clientset : bool) : res NATSRegistrarI :=
  if nats_SPIFFEEnabled cfg then
    if negb clientset then Err (ErrorNew "nats spiffe mode requires a kubernetes clientset")
    else Ok (nats_registrar cfg)
  else match cn_nats cn with
       | Err err => Err (Errorf "nats connect: %w" [AErr err])
       | Ok _ => Ok (nats_registrar cfg)
       end.

(** An enabled service's registrar, or the labelled error of its constructor. *)
Definition init_service {A} (enabled : bool) (label : string) (r : res A) : res (option A) :=
  if enabled then
    match r with
    | Ok x => Ok (Some x)
    | Err e => Err (Errorf label [AErr e])
    end
  else Ok None.
Definition connected {A} (r : res ()) (x : A) : res A :=
  match r with
  | Ok _ => Ok x
  | Err e => Err e
  end.

(** [NewController]; [k8s] tells whether a Kubernetes client with a dynamic
    client was given. *)
Definition NewController (cn : connections) (cfg : Config) (k8s : bool) : prog (res Controller) :=
  if negb (c_Enabled cfg) then Ret (Ok (NewControllerWithDeps cfg None None None None))
  else
    let services :=
      pg ← init_service (PostgresEnabled cfg) "exoskeleton postgres init: %w"
             (connected (cn_postgres cn) (pg_registrar (c_Postgres cfg)));
      nats ← init_service (NATSEnabled cfg) "exoskeleton nats init: %w" (NewNATSRegistrar cn (c_NATS cfg) k8s);
      rustfs ← init_service (RustFSEnabled cfg) "exoskeleton rustfs init: %w"
                 (connected (cn_minio cn) (rustfs_registrar (c_RustFS cfg)));
      Ok (NewControllerWithDeps cfg pg nats rustfs) in
    match services with
    | Err e => Ret (Err e)
    | Ok mk =>
        if SPIREEnabled cfg && k8s then
          hasCRD ← checkClusterSPIFFEIDCRD;
          Ret (Ok (mk (if hasCRD : bool then Some (spire_registrar (spire_ClassName (c_SPIRE cfg))) else None)))
        else Ret (Ok (mk None))
    end.

(** ** Enclave services *)

(** Step through one required service. *)
Definition ensure_service (c : Controller) (enclave : string) (id : EnclaveIdentity) (svc : string) : prog (res ()) :=
  let missing (name : string) := Ret (Err (Errorf
    ("enclave %q requires " +:+ name +:+ " registrar is not enabled or not configured") [AStr enclave])) in
  let wrap (name : string) (err : error) := Err (Errorf ("ensure " +:+ name +:+ " enclave %q: %w") [AStr enclave; AErr err]) in
  if String.eqb svc "postgres" then
    match ctl_pg c with
    | None => missing "postgres but the Postgres"
    | Some pg => try_ pgr_EnsureEnclave pg id else wrap "postgres" ;; Ret (Ok ())
    end
  else if String.eqb svc "rustfs" || String.eqb svc "s3" then
    match ctl_rustfs c with
    | None => missing "rustfs/s3 but the RustFS"
    | Some r => try_ rfsr_EnsureEnclave r id else wrap "rustfs" ;; Ret (Ok ())
    end
  else if String.eqb svc "nats" then
    match ctl_nats c with
    | None => missing "nats but the NATS"
    | Some n => try_ natsr_EnsureEnclave n id else wrap "nats" ;; Ret (Ok ())
    end
  else Ret (Ok ()).

Fixpoint ensure_services (c : Controller) (enclave : string) (id : EnclaveIdentity) (svcs : list string) : prog (res ()) :=
  match svcs with
  | [] => Ret (Ok ())
  | svc :: rest => try_ ensure_service c enclave id svc else Err ;; ensure_services c enclave id rest
  end.

Definition EnsureEnclaveServices (c : Controller) (enclave : string) (requiredServices : list string) : prog (res ()) :=
  if negb (c_Enabled (ctl_cfg c)) then Ret (Ok ())
  else match requiredServices with
       | [] => Ret (Ok ())
       | _ =>
           match CompileEnclaveIdentity enclave with
           | Err err => Ret (Err (Errorf "enclave identity: %w" [AErr err]))
           | Ok id => ensure_services c enclave id requiredServices
           end
       end.

(** Run an optional step and append its error's message. *)
Definition collect_opt {A} (errs : list string) (label : string) (r : option A) (f : A -> prog (res ())) :
    prog (list string * bool) :=
  match r with
  | None => Ret (errs, false)
  | Some x =>
      out ← f x;
      Ret (match out with
           | Ok _ => (errs, true)
           | Err e => ((errs ++ [label +:+ ": " +:+ ErrorText e])%list, false)
           end)
  end.

Definition CleanupEnclave (c : Controller) (enclaveName : string) : prog (res ()) :=
  if negb (c_Enabled (ctl_cfg c)) then Ret (Ok ())
  else
  match CompileEnclaveIdentity enclaveName with
  | Err err => Ret (Err (Errorf "enclave identity: %w" [AErr err]))
  | Ok id =>
      r1 ← collect_opt [] "postgres" (ctl_pg c) (fun pg => pgr_CleanupEnclave pg id);
      r2 ← collect_opt r1.1 "nats" (ctl_nats c) (fun n => natsr_CleanupEnclave n id);
      r3 ← collect_opt r2.1 "rustfs" (ctl_rustfs c) (fun r => rfsr_CleanupEnclave r id);
      match r3.1 with
      | [] => Ret (Ok ())
      | errs => Ret (Err (Errorf "enclave cleanup errors: %s" [AStr (Join errs "; ")]))
      end
  end.

(** ** Cleanup of a tentacle *)

Definition empty_report : CleanupReport :=
  {| cr_Postgres := ""; cr_NATS := ""; cr_RustFS := ""; cr_SPIRE := ""; cr_Performed := false |}.

(** The report is returned with the error, so both are kept. *)
Definition CleanupWithReport (c : Controller) (namespace name : string) : prog (CleanupReport * option error) :=
  if negb (c_Enabled (ctl_cfg c)) || negb (c_CleanupOnUndeploy (ctl_cfg c)) then Ret (empty_report, None)
  else
  match CompileIdentity namespace name with
  | Err err => Ret (empty_report, Some (Errorf "exoskeleton identity: %w" [AErr err]))
  | Ok id =>
      let when (b : bool) (s : string) := if b then s else "" in
      p ← collect_opt [] "postgres" (ctl_pg c) (fun pg => pgr_Unregister pg id);
      n ← collect_opt p.1 "nats" (ctl_nats c) (fun n => natsr_Unregister n id);
      r ← collect_opt n.1 "rustfs" (ctl_rustfs c) (fun r => rfsr_Unregister r id);
      s ← collect_opt r.1 "spire" (ctl_spire c) (fun s => spr_Unregister s id namespace);
      let report :=
        {| cr_Performed := true; cr_Postgres := when p.2 "schema dropped";
           cr_NATS := when n.2 (if nats_SPIFFEEnabled (c_NATS (ctl_cfg c)) then "authz entry removed" else "no-op");
           cr_RustFS := when r.2 "user removed"; cr_SPIRE := when s.2 "identity removed" |} in
      match s.1 with
      | [] => Ret (report, None)
      | errs => Ret (report, Some (Errorf "exoskeleton cleanup errors: %s" [AStr (Join errs "; ")]))
      end
  end.

Definition Cleanup (c : Controller) (namespace name : string) : prog (option error) :=
  r ← CleanupWithReport c namespace name; Ret r.2.

(** ** Services required by a contract *)

Definition service_of_dep (name : string) : option string :=
  if String.eqb name "tentacular-postgres" then Some "postgres"
  else if String.eqb name "tentacular-rustfs" then Some "rustfs"
  else if String.eqb name "tentacular-nats" then Some "nats"
  else None.

(** The keys of the dependency map, in Go's unspecified iteration order. *)
Definition ExoServicesFromDeps (deps : list string) : list string :=
  SortStrings (foldl (fun services name =>
    match service_of_dep name with
    | Some svc => if existsb (String.eqb svc) services then services else (services ++ [svc])%list
    | None => services
    end) [] deps).

(** ** Queries *)

Definition is_set {A} (o : option A) : bool := match o with Some _ => true | None => false end.
Definition PostgresAvailable (c : Controller) : bool := is_set (ctl_pg c).
Definition NATSAvailable (c : Controller) : bool := is_set (ctl_nats c).
Definition RustFSAvailable (c : Controller) : bool := is_set (ctl_rustfs c).
Definition SPIREAvailable (c : Controller) : bool := is_set (ctl_spire c).
Definition CleanupOnUndeploy (c : Controller) : bool := c_CleanupOnUndeploy (ctl_cfg c).
Definition NATSSpiffeEnabled (c : Controller) : bool := nats_SPIFFEEnabled (c_NATS (ctl_cfg c)).

End controller.

(** ** Lemmas *)

Section lemmas.
Context `{U : Unicode}.

Lemma ensures_collect_opt {A} (D : list event -> Prop) errs label (r : option A) x f :
  stable D -> r = Some x -> ensures D (f x) -> ensures D (collect_opt errs label r f).
Proof. intros HD -> Hf. by apply ensures_bind_l. Qed.

Lemma init_service_set {A} enabled label (r : res A) o :
  init_service enabled label r = Ok o -> is_set o = enabled.
Proof. unfold init_service. destruct enabled, r; intros H; by simplify_eq. Qed.

(** A service name the controller knows, and whether its registrar is there. *)
Definition service_available (c : Controller) (svc : string) : bool :=
  if String.eqb svc "postgres" then PostgresAvailable c
  else if String.eqb svc "rustfs" || String.eqb svc "s3" then RustFSAvailable c
  else if String.eqb svc "nats" then NATSAvailable c
  else true.

Lemma ensure_service_available c enclave id svc :
  returns (fun r => r = Ok () -> service_available c svc = true) (ensure_service c enclave id svc).
Proof.
  unfold ensure_service, service_available, PostgresAvailable, RustFSAvailable, NATSAvailable.
  repeat case_match; simplify_eq/=; try (apply returns_bind; intros; case_match); by apply returns_Ret.
Qed.

Lemma service_of_dep_known d svc : service_of_dep d = Some svc -> svc ∈ ["nats"; "postgres"; "rustfs"].
Proof. unfold service_of_dep. repeat case_match; intros; simplify_eq; set_solver. Qed.

Lemma ExoServices_elem deps svc :
  svc ∈ ExoServicesFromDeps deps <-> exists d, d ∈ deps /\ service_of_dep d = Some svc.
Proof.
  unfold ExoServicesFromDeps. rewrite SortStrings_perm.
  assert (forall acc, svc ∈ foldl (fun services name =>
    match service_of_dep name with
    | Some svc => if existsb (String.eqb svc) services then services else (services ++ [svc])%list
    | None => services
    end) acc deps <-> svc ∈ acc \/ exists d, d ∈ deps /\ service_of_dep d = Some svc) as H.
  { induction deps as [|d deps IH]; intros acc; simpl.
    - split; [by left|]. intros [?|(d & ?%elem_of_nil & _)]; done.
    - rewrite IH. clear IH. destruct (service_of_dep d) as [s|] eqn:Es.
      + assert (svc ∈ (if existsb (String.eqb s) acc then acc else (acc ++ [s])%list) <-> svc ∈ acc \/ svc = s) as ->.
        { destruct (existsb (String.eqb s) acc) eqn:E; [|by rewrite elem_of_app, list_elem_of_singleton].
          apply existsb_In in E as (y & Hy & <-%String.eqb_eq). split; [by left|]. by intros [?| ->]. }
        setoid_rewrite elem_of_cons. split.
        * intros [[?| ->]|(d' & ? & ?)]; [by left|right; by exists d; auto|right; by exists d'; auto].
        * intros [?|(d' & [->|?] & ?)]; [by left; left|left; right; congruence|right; by exists d'].
      + setoid_rewrite elem_of_cons. split.
        * intros [?|(d' & ? & ?)]; [by left|right; by exists d'; auto].
        * intros [?|(d' & [->|?] & ?)]; [by left|congruence|right; by exists d']. }
  rewrite H. split; [intros [?%elem_of_nil|?]; done|by right].
Qed.

Lemma ExoServices_NoDup deps : NoDup (ExoServicesFromDeps deps).
Proof.
  unfold ExoServicesFromDeps. rewrite SortStrings_perm.
  assert (forall acc, NoDup acc -> NoDup (foldl (fun services name =>
    match service_of_dep name with
    | Some svc => if existsb (String.eqb svc) services then services else (services ++ [svc])%list
    | None => services
    end) acc deps)) as H; [|apply H; constructor].
  induction deps as [|d deps IH]; intros acc Hacc; simpl; [done|]. apply IH.
  destruct (service_of_dep d) as [s|]; [|done].
  destruct (existsb (String.eqb s) acc) eqn:E; [done|].
  apply NoDup_app. split; [done|]. split; [|repeat constructor; by intros ?%elem_of_nil].
  intros x Hx ->%list_elem_of_singleton. apply not_true_iff_false in E. apply E.
  apply existsb_In. exists s. by rewrite String.eqb_refl.
Qed.
End lemmas.

(** ** Properties *)

Section properties.
Context `{U : Unicode} `{M : MinioLib}.

(** Cleaning up a tentacle is best effort: whatever the services answer,
    every available registrar is asked to unregister it - so any lasting fact
    that each registrar's own [Unregister] guarantees holds at the end, however
    many of the others failed. *)
Theorem CleanupWithReport_complete c ns name id (D : string -> list event -> Prop) :
  c_Enabled (ctl_cfg c) = true -> c_CleanupOnUndeploy (ctl_cfg c) = true ->
  CompileIdentity ns name = Ok id -> (forall svc, stable (D svc)) ->
  (forall pg, ctl_pg c = Some pg -> ensures (D "postgres") (pgr_Unregister pg id)) ->
  (forall n, ctl_nats c = Some n -> ensures (D "nats") (natsr_Unregister n id)) ->
  (forall r, ctl_rustfs c = Some r -> ensures (D "rustfs") (rfsr_Unregister r id)) ->
  (forall s, ctl_spire c = Some s -> ensures (D "spire") (spr_Unregister s id ns)) ->
  ensures (fun h => (PostgresAvailable c = true -> D "postgres" h) /\ (NATSAvailable c = true -> D "nats" h) /\
                    (RustFSAvailable c = true -> D "rustfs" h) /\ (SPIREAvailable c = true -> D "spire" h))
    (CleanupWithReport c ns name).
Proof.
  intros He Hu Hid HD Hpg Hn Hr Hs. unfold CleanupWithReport. rewrite He, Hu, Hid. cbn [negb orb].
  assert (forall (P : Prop) (b : bool) (D : list event -> Prop) (p : prog (CleanupReport * option error)),
            (b = true -> ensures D p) -> ensures (fun h => b = true -> D h) p) as Hcond.
  { intros _ b D' p H. destruct b.
    - eapply ensures_mono; [|by apply H]. by intros.
    - intros h. eapply holds_mono; [done| |apply holds_any]. by intros. }
  unfold PostgresAvailable, NATSAvailable, RustFSAvailable, SPIREAvailable.
  repeat apply ensures_and; apply (Hcond True); unfold is_set; case_match; try done; intros _.
  - apply ensures_bind_l; [done|]. eapply ensures_collect_opt; eauto.
  - apply ensures_bind_r. intros ?. apply ensures_bind_l; [done|]. eapply ensures_collect_opt; eauto.
  - do 2 (apply ensures_bind_r; intros ?). apply ensures_bind_l; [done|]. eapply ensures_collect_opt; eauto.
  - do 3 (apply ensures_bind_r; intros ?). apply ensures_bind_l; [done|]. eapply ensures_collect_opt; eauto.
Qed.

Lemma collect_opt_returns {A} errs label (r : option A) f :
  returns (fun out => (out.2 = true -> is_set r = true) /\
                      (out.1 = [] -> errs = [] /\ (is_set r = true -> out.2 = true)))
    (collect_opt errs label r f).
Proof.
  unfold collect_opt. destruct r as [x|]; [|by apply returns_Ret].
  apply returns_bind. intros [[]|e]; apply returns_Ret; simpl; [by auto|].
  split; [done|]. by intros [? ?]%app_nil.
Qed.

(** A cleanup that reports no error has unregistered everything: the report
    names exactly the services whose registrar is available. *)
Theorem CleanupWithReport_report c ns name :
  c_Enabled (ctl_cfg c) = true -> c_CleanupOnUndeploy (ctl_cfg c) = true ->
  returns (fun out => out.2 = None ->
             cr_Performed out.1 = true /\
             set (cr_Postgres out.1) = PostgresAvailable c /\ set (cr_NATS out.1) = NATSAvailable c /\
             set (cr_RustFS out.1) = RustFSAvailable c /\ set (cr_SPIRE out.1) = SPIREAvailable c)
    (CleanupWithReport c ns name).
Proof.
  intros He Hu. unfold CleanupWithReport. rewrite He, Hu. cbn [negb orb].
  destruct (CompileIdentity ns name) as [id|]; [|by apply returns_Ret].
  eapply returns_bind_post; [apply collect_opt_returns|]. intros [e1 b1] [H1 N1].
  eapply returns_bind_post; [apply collect_opt_returns|]. intros [e2 b2] [H2 N2].
  eapply returns_bind_post; [apply collect_opt_returns|]. intros [e3 b3] [H3 N3].
  eapply returns_bind_post; [apply collect_opt_returns|]. intros [e4 b4] [H4 N4].
  simpl in *. destruct e4 as [|x l]; apply returns_Ret; simpl; [|done]. intros _.
  destruct (N4 eq_refl) as [-> M4], (N3 eq_refl) as [-> M3], (N2 eq_refl) as [-> M2], (N1 eq_refl) as [_ M1].
  unfold PostgresAvailable, NATSAvailable, RustFSAvailable, SPIREAvailable.
  split; [done|]. repeat split; apply eq_true_iff_eq.
  - split; [destruct b1; [by auto|done]|]. by intros ->%M1.
  - split; [destruct b2; [by auto|done]|]. intros ->%M2. by case_match.
  - split; [destruct b3; [by auto|done]|]. by intros ->%M3.
  - split; [destruct b4; [by auto|done]|]. by intros ->%M4.
Qed.

(** A controller that was constructed has exactly the registrars its
    configuration enables (SPIRE additionally needs its CRD), and a disabled
    exoskeleton has none. *)
Theorem NewController_available cn cfg k8s :
  returns (fun r => match r with
                    | Err _ => True
                    | Ok c => PostgresAvailable c = PostgresEnabled cfg /\ NATSAvailable c = NATSEnabled cfg /\
                              RustFSAvailable c = RustFSEnabled cfg /\
                              (SPIREAvailable c = true -> SPIREEnabled cfg = true) /\ ctl_cfg c = cfg
                    end)
    (NewController cn cfg k8s).
Proof.
  unfold NewController. destruct (c_Enabled cfg) eqn:He; cbn [negb].
  2: { apply returns_Ret. unfold PostgresEnabled, NATSEnabled, RustFSEnabled. rewrite He. done. }
  destruct (init_service (PostgresEnabled cfg) _ _) as [pg|e] eqn:Hpg; res_simpl; [|by apply returns_Ret].
  destruct (init_service (NATSEnabled cfg) _ _) as [n|e] eqn:Hn; simpl; [|by apply returns_Ret].
  destruct (init_service (RustFSEnabled cfg) _ _) as [r|e] eqn:Hr; simpl; [|by apply returns_Ret].
  apply init_service_set in Hpg, Hn, Hr.
  destruct (SPIREEnabled cfg && k8s) eqn:Hs.
  - apply andb_true_iff in Hs as [Hs _].
    apply (returns_bind _ checkClusterSPIFFEIDCRD). intros b. by apply returns_Ret.
  - by apply returns_Ret.
Qed.

(** Enclave services are ensured or refused: when the exoskeleton is enabled
    and [EnsureEnclaveServices] succeeds, every required service it knows has a
    registrar, and the enclave's name is a valid one. *)
Theorem EnsureEnclaveServices_available c enclave svcs :
  c_Enabled (ctl_cfg c) = true ->
  returns (fun r => r = Ok () -> forallb (service_available c) svcs = true /\
                    (svcs <> [] -> ValidateEnclaveName enclave = None))
    (EnsureEnclaveServices c enclave svcs).
Proof.
  intros He. unfold EnsureEnclaveServices. rewrite He. cbn [negb].
  destruct svcs as [|svc svcs]; [by apply returns_Ret|].
  destruct (CompileEnclaveIdentity enclave) as [id|err] eqn:Hid; [|by apply returns_Ret].
  apply CompileEnclaveIdentity_inv in Hid as [Hv _].
  assert (forall l, returns (fun r => r = Ok () -> forallb (service_available c) l = true)
            (ensure_services c enclave id l)) as H.
  { induction l as [|s l IH]; [by apply returns_Ret|]. cbn [ensure_services].
    eapply returns_bind_post; [apply ensure_service_available|]. intros [[]|e] Ha; [|by apply returns_Ret].
    intros h. eapply holds_mono; [done| |apply IH]. intros h1 r Hr Hok. cbn [forallb].
    by rewrite (Ha eq_refl), (Hr Hok). }
  intros h. eapply holds_mono; [done| |apply (H (svc :: svcs))]. intros h1 r Hr Hok. by auto.
Qed.

(** The services of a contract do not depend on the order in which Go
    iterates the dependency map: they are the services of the known
    dependencies, each once, in sorted order. *)
Theorem ExoServicesFromDeps_spec deps deps' :
  deps ≡ₚ deps' ->
  ExoServicesFromDeps deps = ExoServicesFromDeps deps' /\
  NoDup (ExoServicesFromDeps deps) /\
  (forall svc, svc ∈ ExoServicesFromDeps deps <-> exists d, d ∈ deps /\ service_of_dep d = Some svc).
Proof.
  intros Hp. split; [|split; [apply ExoServices_NoDup|intros; apply ExoServices_elem]].
  assert (ExoServicesFromDeps deps ≡ₚ ExoServicesFromDeps deps') as H.
  { apply NoDup_Permutation; [apply ExoServices_NoDup..|]. intros svc. rewrite !ExoServices_elem.
    by setoid_rewrite Hp. }
  apply SortStrings_ext in H. revert H. unfold ExoServicesFromDeps.
  unfold SortStrings at 1 3.
  rewrite !(isort_sorted_id _ (SortStrings _)) by apply SortStrings_sorted. done.
Qed.
End properties.

(** ** Witnesses *)

(** A controller with a SPIRE registrar only, in an enabled configuration. *)
Definition toy_config : Config :=
  {| c_Postgres := {| pg_Host := ""; pg_Port := ""; pg_Database := ""; pg_User := ""; pg_Password := ""; pg_SSLMode := "" |};
     c_RustFS := {| rfs_Endpoint := ""; rfs_AccessKey := ""; rfs_SecretKey := ""; rfs_Bucket := ""; rfs_Region := "" |};
     c_NATS := {| nats_URL := ""; nats_Token := ""; nats_AuthzConfigMap := ""; nats_AuthzNamespace := "";
                  nats_SPIFFEEnabled := false |};
     c_SPIRE := {| spire_ClassName := ""; spire_Enabled := true |};
     c_Auth := {| auth_IssuerURL := ""; auth_ClientID := ""; auth_ClientSecret := ""; auth_TrustedAZPs := [];
                  auth_Enabled := false |};
     c_Enabled := true; c_CleanupOnUndeploy := true |}.
Definition toy_controller : Controller :=
  NewControllerWithDeps toy_config None None None (Some (spire_registrar (U := ascii_tables) "")).

(** The deletion of the tentacle's ClusterSPIFFEID was attempted. *)
Definition spire_deleted (name : string) (h : list event) : Prop :=
  exists x, Ev (KDelete SpireRegistrar.clusterSPIFFEIDs "" name) x ∈ h.

Lemma CleanupWithReport_complete_witness :
  ensures (spire_deleted "tentacle-team-etl") (CleanupWithReport (U := ascii_tables) toy_controller "team" "etl").
Proof.
  assert (exists id, CompileIdentity (U := ascii_tables) "team" "etl" = Ok id) as [id Hid]
    by (eexists; vm_compute; reflexivity).
  assert (id_Workflow id = "etl") as Hw.
  { assert (is_ok (CompileIdentity (U := ascii_tables) "team" "etl") = true) as _ by (vm_compute; reflexivity).
    revert Hid. vm_compute. intros [= <-]. reflexivity. }
  eapply ensures_mono; [|
    apply (CleanupWithReport_complete (U := ascii_tables) toy_controller "team" "etl" id
             (fun svc h => svc = "spire" -> spire_deleted "tentacle-team-etl" h));
    [reflexivity|reflexivity|exact Hid| |discriminate|discriminate|discriminate|]].
  - intros h (_ & _ & _ & H). exact (H eq_refl eq_refl).
  - intros svc h e H Hs. destruct (H Hs) as [x Hx]. exists x. right. exact Hx.
  - intros s [= <-]. intros h. simpl. unfold SpireRegistrar.Unregister. rewrite Hw.
    simpl. split; [exact I|]. intros [[]|e]; simpl; [|destruct (reason_is NotFound e); simpl];
      intros _; eexists; left.
Defined.

Lemma CleanupWithReport_report_witness :
  returns (fun out => out.2 = None -> set (cr_SPIRE out.1) = true)
    (CleanupWithReport (U := ascii_tables) toy_controller "team" "etl").
Proof.
  intros h. eapply holds_mono; [intros ? ? H; exact H| |
    apply (CleanupWithReport_report (U := ascii_tables) toy_controller "team" "etl"); reflexivity].
  intros h' out H Hn. destruct (H Hn) as (_ & _ & _ & _ & Hs). exact Hs.
Defined.

Lemma EnsureEnclaveServices_available_witness :
  returns (fun r => r <> Ok ()) (EnsureEnclaveServices (U := ascii_tables) toy_controller "team" ["postgres"]).
Proof.
  intros h. eapply holds_mono; [intros ? ? H; exact H| |
    apply (EnsureEnclaveServices_available (U := ascii_tables) toy_controller "team" ["postgres"]); reflexivity].
  intros h' out H Hn. destruct (H Hn) as [H1 _]. discriminate H1.
Defined.

Lemma ExoServicesFromDeps_spec_witness :
  ExoServicesFromDeps ["tentacular-rustfs"; "x"; "tentacular-nats"] = ["nats"; "rustfs"] /\
  ExoServicesFromDeps ["tentacular-rustfs"; "x"; "tentacular-nats"]
  = ExoServicesFromDeps ["x"; "tentacular-nats"; "tentacular-rustfs"].
Proof.
  split; [vm_compute; reflexivity|].
  destruct (ExoServicesFromDeps_spec ["tentacular-rustfs"; "x"; "tentacular-nats"]
              ["x"; "tentacular-nats"; "tentacular-rustfs"]) as [H _]; [|exact H].
  etransitivity; [apply Permutation_swap|]. constructor. apply Permutation_swap.
Defined.
