(* ===== verification/Scheduler.v ===== *)
(** * The cron scheduler (pkg/scheduler/scheduler.go, pkg/scheduler/discover.go)

    The table of workflow schedules kept beside the cron library's own jobs.
    The library (robfig/cron) is a parameter with the behaviour its
    documentation states; a job is the workflow it triggers.  Every operation
    runs under the scheduler's mutex, so operations are functions on the state. *)

From S2P Require Import Prelude GoStrings Effects K8sOps.
#[local] Open Scope string_scope.

Definition CronAnnotation : string := "tentacular.io/cron-schedule".

(** [annotationWithFallback] *)
Definition annotationWithFallback (annotations : gmap string string) (newKey : string) : string :=
  let v := default "" (annotations !! newKey) in
  if negb (String.eqb v "") then v
  else if (14 <? String.length newKey)%nat && String.eqb (str_take 14 newKey) "tentacular.io/"
       then default "" (annotations !! ("tentacular.dev/" +:+ str_drop 14 newKey))
  else "".

(** A workflow: namespace and name. *)
Abbreviation workflow := (string * string)%type (only parsing).

Class CronLib := {
  cron : Type;
  EntryID : Type;
  EntryID_eq_dec :: EqDecision EntryID;
  cron_New : cron;
  cron_AddFunc : cron -> string -> workflow -> res (cron * EntryID);
  cron_Remove : cron -> EntryID -> cron;
  (** The job an id runs and its schedule, if the id is active. *)
  cron_job : cron -> EntryID -> option (string * workflow);
}.

Class CronLaws `(CronLib) := {
  job_New id : cron_job cron_New id = None;
  job_AddFunc c spec w c' id :
    cron_AddFunc c spec w = Ok (c', id) ->
    cron_job c id = None /\
    forall id', cron_job c' id' = if decide (id' = id) then Some (spec, w) else cron_job c id';
  job_Remove c id id' : cron_job (cron_Remove c id) id' = if decide (id' = id) then None else cron_job c id';
}.

Section scheduler.
Context `{C : CronLib}.

Record entry := { e_namespace : string; e_name : string; e_schedule : string; e_cronID : EntryID }.

Record Scheduler := { s_cron : cron; s_entries : gmap string entry }.

Definition New : Scheduler := {| s_cron := cron_New; s_entries := ∅ |}.

Definition key_of (namespace name : string) : string := namespace +:+ "/" +:+ name.

(** The tail of [Register], after the old job is gone. *)
Definition add_entry (s : Scheduler) (namespace name schedule : string) : Scheduler * option error :=
  let key := key_of namespace name in
  match cron_AddFunc (s_cron s) schedule (namespace, name) with
  | Err err => (s, Some (Errorf "invalid cron schedule %q for %s: %w" [AStr schedule; AStr key; AErr err]))
  | Ok (c', id) =>
      ({| s_cron := c';
          s_entries := <[key := {| e_cronID := id; e_namespace := namespace; e_name := name;
                                   e_schedule := schedule |}]> (s_entries s) |}, None)
  end.

Definition Register (s : Scheduler) (namespace name schedule : string) : Scheduler * option error :=
  match s_entries s !! key_of namespace name with
  | Some existing =>
      if String.eqb (e_schedule existing) schedule then (s, None)
      else add_entry {| s_cron := cron_Remove (s_cron s) (e_cronID existing); s_entries := s_entries s |}
             namespace name schedule
  | None => add_entry s namespace name schedule
  end.

Definition Deregister (s : Scheduler) (namespace name : string) : Scheduler :=
  let key := key_of namespace name in
  match s_entries s !! key with
  | Some existing => {| s_cron := cron_Remove (s_cron s) (e_cronID existing); s_entries := delete key (s_entries s) |}
  | None => s
  end.

Definition Entries (s : Scheduler) : nat := size (s_entries s).

(** ** Discovery at startup *)

(** One deployment of the inner loop; the count is [registered]. *)
Definition scan_deploy (ns : string) (st : Scheduler * nat) (deploy : object) : Scheduler * nat :=
  let schedule := annotationWithFallback (o_annotations deploy) CronAnnotation in
  if String.eqb schedule "" then st
  else
    let label := default "" (o_labels deploy !! "app.kubernetes.io/name") in
    let wfName := if String.eqb label "" then o_name deploy else label in
    match Register st.1 ns wfName schedule with
    | (s', Some _) => (s', st.2)
    | (s', None) => (s', S st.2)
    end.

Definition ScanWorkflows (s : Scheduler) : prog (Scheduler * res nat) :=
  try namespaces := ListManagedNamespaces
    else (fun err => (s, Err (Errorf "list managed namespaces: %w" [AErr err]))) ;;
  out ← foldM (fun st ns =>
    deploys ← call (KList "deployments" (o_name ns) (ManagedByLabel +:+ "=" +:+ ManagedByValue));
    Ret (match deploys with
         | Ok items => foldl (scan_deploy (o_name ns)) st items
         | Err _ => st
         end)) namespaces (s, O);
  Ret (out.1, Ok out.2).

(** ** Invariant *)

(** The table and the library's jobs agree: every entry's id runs that entry's
    workflow on its schedule, and every job belongs to an entry. *)
Record sched_ok (s : Scheduler) : Prop := {
  entry_runs key e : s_entries s !! key = Some e ->
    key = key_of (e_namespace e) (e_name e) /\
    cron_job (s_cron s) (e_cronID e) = Some (e_schedule e, (e_namespace e, e_name e));
  job_listed id job : cron_job (s_cron s) id = Some job ->
    exists key e, s_entries s !! key = Some e /\ e_cronID e = id;
}.

(** The weaker property that survives a rejected schedule: no job runs without
    the entry that describes it. *)
Definition no_stray (s : Scheduler) : Prop :=
  forall id sch wf, cron_job (s_cron s) id = Some (sch, wf) ->
    exists e, s_entries s !! key_of wf.1 wf.2 = Some e /\ e_cronID e = id /\ e_schedule e = sch.
End scheduler.

(** ** Lemmas *)

Section lemmas.
Context `{C : CronLib} `{!CronLaws C}.

(** All but one workflow's schedule is in order. *)
Definition ok_except (key0 : string) (s : Scheduler) : Prop :=
  (forall key e, key <> key0 -> s_entries s !! key = Some e ->
     key = key_of (e_namespace e) (e_name e) /\
     cron_job (s_cron s) (e_cronID e) = Some (e_schedule e, (e_namespace e, e_name e))) /\
  (forall id job, cron_job (s_cron s) id = Some job ->
     exists key e, key <> key0 /\ s_entries s !! key = Some e /\ e_cronID e = id).

Lemma id_inj s key1 key2 e1 e2 :
  sched_ok s -> s_entries s !! key1 = Some e1 -> s_entries s !! key2 = Some e2 ->
  e_cronID e1 = e_cronID e2 -> key1 = key2.
Proof.
  intros Hs H1 H2 He. destruct (entry_runs _ Hs _ _ H1) as [-> J1], (entry_runs _ Hs _ _ H2) as [-> J2].
  rewrite He in J1. rewrite J1 in J2. congruence.
Qed.

Lemma ok_removed s key e :
  sched_ok s -> s_entries s !! key = Some e ->
  ok_except key {| s_cron := cron_Remove (s_cron s) (e_cronID e); s_entries := s_entries s |}.
Proof.
  intros Hs He. split; simpl.
  - intros key' e' Hne He'. rewrite job_Remove.
    destruct (decide (e_cronID e' = e_cronID e)) as [Hid|]; [|by apply Hs].
    destruct Hne. by eapply id_inj.
  - intros id job. rewrite job_Remove. destruct (decide (id = e_cronID e)) as [|Hne]; [done|].
    intros (key' & e' & He' & Hid)%Hs. exists key', e'. split; [|done]. intros ->. congruence.
Qed.

Lemma ok_absent s key : sched_ok s -> s_entries s !! key = None -> ok_except key s.
Proof.
  intros Hs Hk. split; [intros; by apply Hs|].
  intros id job (key' & e' & He' & Hid)%Hs. exists key', e'. split; [congruence|done].
Qed.

Lemma add_entry_ok s ns name schedule s' :
  ok_except (key_of ns name) s -> add_entry s ns name schedule = (s', None) ->
  sched_ok s' /\ (exists e, s_entries s' !! key_of ns name = Some e /\ e_schedule e = schedule) /\
  (forall key, key <> key_of ns name -> s_entries s' !! key = s_entries s !! key).
Proof.
  intros [Hrun Hlist] H. unfold add_entry in H.
  destruct (cron_AddFunc _ _ _) as [[c' id]|] eqn:Hadd; [|done]. injection H as <-.
  destruct (job_AddFunc _ _ _ _ _ Hadd) as [Hfree Hjobs]. split; [split; simpl|split; simpl].
  - intros key e. rewrite Hjobs. intros [[<- <-]|[Hne He]]%lookup_insert_Some; simpl.
    + by rewrite decide_True.
    + destruct (Hrun key e) as [Hk Hj]; [done|done|]. split; [done|].
      destruct (decide (e_cronID e = id)) as [<-|]; [congruence|done].
  - intros id' job. rewrite Hjobs. destruct (decide (id' = id)) as [->|Hne].
    + intros _. eexists _, _. split; [apply lookup_insert_eq|done].
    + intros (key & e & Hk & He & Hid)%Hlist. exists key, e. by rewrite lookup_insert_ne.
  - eexists. split; [apply lookup_insert_eq|done].
  - intros key Hne. by rewrite lookup_insert_ne.
Qed.

Lemma sched_ok_no_stray s : sched_ok s -> no_stray s.
Proof.
  intros Hs id sch wf Hj. destruct (job_listed _ Hs id _ Hj) as (key & e & He & Hid).
  destruct (entry_runs _ Hs _ _ He) as [Hk Hr]. rewrite Hid, Hj in Hr. injection Hr as -> ->. exists e. cbn. by rewrite <- Hk.
Qed.
Lemma no_stray_New : no_stray New.
Proof. intros id sch wf. simpl. by rewrite job_New. Qed.

Lemma add_entry_no_stray s ns name schedule :
  (forall id sch wf, cron_job (s_cron s) id = Some (sch, wf) ->
     exists e, key_of wf.1 wf.2 <> key_of ns name /\
       s_entries s !! key_of wf.1 wf.2 = Some e /\ e_cronID e = id /\ e_schedule e = sch) ->
  no_stray (add_entry s ns name schedule).1 /\
  (Entries (add_entry s ns name schedule).1 <=
     if (add_entry s ns name schedule).2 is Some _ then Entries s else S (Entries s))%nat.
Proof.
  intros Hs. unfold add_entry. destruct (cron_AddFunc _ _ _) as [[c' id]|err] eqn:Hadd; simpl.
  - destruct (job_AddFunc _ _ _ _ _ Hadd) as [_ Hjobs]. split.
    + intros id' sch wf. simpl. rewrite Hjobs. destruct (decide (id' = id)) as [->|Hne].
      * intros [= <- <-]. simpl. rewrite lookup_insert_eq. by eexists.
      * intros (e & Hk & He & Hid & Hsch)%Hs. exists e. by rewrite lookup_insert_ne by done.
    + unfold Entries. simpl. rewrite map_size_insert. destruct (s_entries s !! _); simpl; lia.
  - split; [|done]. intros id sch wf (e & _ & He)%Hs. by exists e.
Qed.

Lemma Register_no_stray s ns name schedule :
  no_stray s ->
  no_stray (Register s ns name schedule).1 /\
  (Entries (Register s ns name schedule).1 <=
     if (Register s ns name schedule).2 is Some _ then Entries s else S (Entries s))%nat.
Proof.
  intros Hs. unfold Register. destruct (s_entries s !! key_of ns name) as [e|] eqn:He.
  - destruct (String.eqb _ _); [by split; simpl; [|lia]|].
    apply (add_entry_no_stray {| s_cron := _; s_entries := _ |}). simpl. intros id sch wf.
    rewrite job_Remove. destruct (decide (id = e_cronID e)) as [|Hne]; [done|].
    intros (e' & He' & Hid & Hsch)%Hs. exists e'. split; [|done]. intros Hk. rewrite Hk, He in He'. congruence.
  - apply add_entry_no_stray. intros id sch wf (e' & He' & ?)%Hs. exists e'. split; [congruence|done].
Qed.

Lemma scan_deploys_ok ns items st :
  no_stray st.1 /\ (Entries st.1 <= st.2)%nat ->
  no_stray (foldl (scan_deploy ns) st items).1 /\
  (Entries (foldl (scan_deploy ns) st items).1 <= (foldl (scan_deploy ns) st items).2)%nat.
Proof.
  revert st. induction items as [|d items IH]; intros st [Hs Hn]; [done|]. simpl. apply IH. unfold scan_deploy.
  destruct (String.eqb _ ""); [done|]. cbn zeta.
  match goal with |- context [Register ?a ?b ?c ?d] => destruct (Register_no_stray a b c d Hs) as [H1 H2];
    destruct (Register a b c d) as [s' [err|]] end; simpl in *; split; [done|lia|done|lia].
Qed.
End lemmas.

(** ** Properties *)

Section properties.
Context `{C : CronLib} `{!CronLaws C}.

(** Registration keeps the table and the cron jobs in agreement: when it
    succeeds the workflow has exactly the new schedule, no other workflow is
    affected and the invariant holds; a schedule the library rejects leaves a
    workflow that had none, and everything else, as it was. *)
Theorem Register_spec s ns name schedule :
  sched_ok s ->
  match Register s ns name schedule with
  | (s', None) =>
      sched_ok s' /\ (exists e, s_entries s' !! key_of ns name = Some e /\ e_schedule e = schedule) /\
      (forall key, key <> key_of ns name -> s_entries s' !! key = s_entries s !! key)
  | (s', Some _) => s_entries s' = s_entries s /\ (s_entries s !! key_of ns name = None -> s' = s)
  end.
Proof.
  intros Hs. unfold Register. destruct (s_entries s !! key_of ns name) as [e|] eqn:He.
  - destruct (String.eqb_spec (e_schedule e) schedule) as [Heq|Hne].
    + split; [done|]. split; [|done]. by exists e.
    + pose proof (ok_removed s _ e Hs He) as Hex.
      destruct (add_entry _ ns name schedule) as [s' [err|]] eqn:Ha.
      * unfold add_entry in Ha. by destruct (cron_AddFunc _ _ _) as [[? ?]|]; [|injection Ha as <- _].
      * by eapply add_entry_ok in Ha.
  - pose proof (ok_absent s _ Hs He) as Hex.
    destruct (add_entry s ns name schedule) as [s' [err|]] eqn:Ha.
    + unfold add_entry in Ha. by destruct (cron_AddFunc _ _ _) as [[? ?]|]; [|injection Ha as <- _].
    + by eapply add_entry_ok in Ha.
Qed.

(** Replacing a schedule by one the library rejects silently disables the
    workflow: its old job is gone while its entry still shows the old schedule,
    and registering the old schedule again reports success and restores nothing. *)
Theorem Register_rejected_disables s ns name schedule e s' err :
  sched_ok s -> s_entries s !! key_of ns name = Some e -> e_schedule e <> schedule ->
  Register s ns name schedule = (s', Some err) ->
  s_entries s' !! key_of ns name = Some e /\ cron_job (s_cron s') (e_cronID e) = None /\
  Register s' ns name (e_schedule e) = (s', None).
Proof.
  intros Hs He Hne H. unfold Register in H. rewrite He, (proj2 (String.eqb_neq _ _) Hne) in H.
  unfold add_entry in H. destruct (cron_AddFunc _ _ _) as [[? ?]|]; [done|]. injection H as <- <-.
  split; [done|]. split; [simpl; by rewrite job_Remove, decide_True|].
  unfold Register. cbn [s_entries]. by rewrite He, String.eqb_refl.
Qed.

(** Deregistering removes the workflow's entry and its job and nothing else. *)
Theorem Deregister_spec s ns name :
  sched_ok s ->
  let s' := Deregister s ns name in
  sched_ok s' /\ s_entries s' = delete (key_of ns name) (s_entries s) /\
  (forall e, s_entries s !! key_of ns name = Some e -> cron_job (s_cron s') (e_cronID e) = None).
Proof.
  intros Hs. unfold Deregister. destruct (s_entries s !! key_of ns name) as [e|] eqn:He; simpl.
  - destruct (ok_removed s _ e Hs He) as [Hrun Hlist]. simpl in *. split; [split; simpl|split; [done|]].
    + intros key e' [Hne He']%lookup_delete_Some. by apply Hrun.
    + intros id job (key & e' & Hk & He' & Hid)%Hlist. exists key, e'. split; [|done].
      by rewrite lookup_delete_ne.
    + intros e' [= <-]. by rewrite job_Remove, decide_True.
  - split; [done|]. split; [|done]. by rewrite delete_id.
Qed.

(** The scan at startup leaves no stray job: whatever the cluster answers
    and whichever schedules the library rejects, every job that the scheduler runs
    afterwards is that of a listed workflow, on its listed schedule, and no more
    workflows are listed than registrations were counted. *)
Theorem ScanWorkflows_ok :
  returns (fun out => no_stray out.1 /\ forall n, out.2 = Ok n -> (Entries out.1 <= n)%nat) (ScanWorkflows New).
Proof.
  unfold ScanWorkflows. apply returns_bind. intros [namespaces|err]; cbn zeta;
    [|apply returns_Ret; split; [apply no_stray_New|done]].
  eapply returns_bind_post with (P := fun st => no_stray st.1 /\ (Entries st.1 <= st.2)%nat);
    [|intros [s n] [Hs Hn]; apply returns_Ret; split; [done|by intros ? [= <-]]].
  apply returns_foldM; [|by split; [apply no_stray_New|]].
  intros st ns Hst. apply returns_bind. intros [items|err]; apply returns_Ret; [|done].
  by apply scan_deploys_ok.
Qed.
End properties.

(** ** Witnesses *)

(** A cron library that hands out increasing ids and accepts every schedule but
    the empty one. *)
Definition toy_AddFunc (c : nat * gmap nat (string * workflow)) (spec : string) (w : workflow) :=
  if String.eqb spec "" then Err (ErrorNew "empty spec string")
  else Ok ((S c.1, <[c.1 := (spec, w)]> (c.2)), c.1).

Definition toy_cron : CronLib := {|
  cron := nat * gmap nat (string * workflow);
  EntryID := nat;
  cron_New := (0%nat, ∅);
  cron_AddFunc := toy_AddFunc;
  cron_Remove := fun c id => (c.1, delete id c.2);
  cron_job := fun c id => if (id <? c.1)%nat then c.2 !! id else None;
|}.

Lemma toy_laws : @CronLaws toy_cron.
Proof.
  split; simpl.
  - done.
  - intros [n m] spec w c' id. unfold toy_AddFunc. destruct (String.eqb spec ""); [done|]. simpl.
    intros [= <- <-]. split; [by rewrite Nat.ltb_irrefl|]. intros id'. simpl.
    destruct (decide (id' = n)) as [->|Hne].
    + rewrite (proj2 (Nat.ltb_lt n (S n))) by lia. by rewrite lookup_insert_eq.
    + rewrite lookup_insert_ne by done.
      destruct (Nat.ltb_spec id' n), (Nat.ltb_spec id' (S n)); try done; lia.
  - intros [n m] id id'. simpl. destruct (decide (id' = id)) as [->|Hne].
    + rewrite lookup_delete_eq. by destruct (_ <? _)%nat.
    + by rewrite lookup_delete_ne.
Qed.

(** One workflow, scheduled. *)
Definition one_workflow : @Scheduler toy_cron := (Register (C := toy_cron) New "ns" "wf" "@daily").1.

Lemma one_workflow_ok : sched_ok (C := toy_cron) one_workflow.
Proof.
  assert (sched_ok (C := toy_cron) New) as Hnew.
  { split; simpl; [intros key e; by rewrite lookup_empty|done]. }
  assert (ok_except (C := toy_cron) (key_of "ns" "wf") New) as Hex by (by apply ok_absent).
  by destruct (add_entry_ok (CronLaws0 := toy_laws) New "ns" "wf" "@daily" one_workflow Hex eq_refl).
Qed.

Lemma Register_spec_witness :
  let s' := (Register (C := toy_cron) one_workflow "ns" "wf" "@hourly").1 in
  sched_ok (C := toy_cron) s' /\
  exists e, s_entries s' !! "ns/wf" = Some e /\ e_schedule e = "@hourly".
Proof.
  destruct (Register_spec (CronLaws0 := toy_laws) one_workflow "ns" "wf" "@hourly" one_workflow_ok) as (H1 & H2 & _).
  split; [exact H1|exact H2].
Defined.

Lemma Register_rejected_disables_witness :
  exists (e : @entry toy_cron) s' err,
    Register (C := toy_cron) one_workflow "ns" "wf" "" = (s', Some err) /\
    s_entries s' !! "ns/wf" = Some e /\ cron_job (CronLib := toy_cron) (s_cron s') (e_cronID e) = None /\
    Register (C := toy_cron) s' "ns" "wf" "@daily" = (s', None).
Proof.
  pose (e := @Build_entry toy_cron "ns" "wf" "@daily" 0%nat).
  exists e, (Register (C := toy_cron) one_workflow "ns" "wf" "").1,
    (Errorf "invalid cron schedule %q for %s: %w" [AStr ""; AStr "ns/wf"; AErr (ErrorNew "empty spec string")]).
  split; [reflexivity|].
  refine (Register_rejected_disables (CronLaws0 := toy_laws) one_workflow "ns" "wf" "" e _ _
            one_workflow_ok _ _ _); [reflexivity|discriminate|reflexivity].
Defined.

Lemma Deregister_spec_witness :
  let s' := Deregister (C := toy_cron) one_workflow "ns" "wf" in
  sched_ok (C := toy_cron) s' /\ s_entries s' = delete "ns/wf" (s_entries one_workflow).
Proof.
  destruct (Deregister_spec (CronLaws0 := toy_laws) one_workflow "ns" "wf" one_workflow_ok) as (H1 & H2 & _).
  split; [exact H1|exact H2].
Defined.

(** A deployment that the scan schedules. *)
Lemma ScanWorkflows_ok_witness :
  exists deploy : object,
    o_annotations deploy !! CronAnnotation = Some "@daily" /\
    (let s := (scan_deploy (C := toy_cron) "ns" (New, O) deploy).1 in Entries s = 1%nat) /\
    returns (fun out => no_stray (C := toy_cron) out.1 /\ forall n, out.2 = Ok n -> (Entries out.1 <= n)%nat)
      (ScanWorkflows New).
Proof.
  exists {| o_name := "wf"; o_namespace := "ns"; o_labels := ∅; o_annotations := {[ CronAnnotation := "@daily" ]};
            o_resourceVersion := "1"; o_created := 0; o_body := [] |}.
  split; [reflexivity|]. split; [reflexivity|]. exact (ScanWorkflows_ok (CronLaws0 := toy_laws)).
Defined.
