(* ===== verification/AuthzHelpers.v ===== *)
(** * Authorization helpers of the tool handlers (pkg/tools/authz_helpers.go)

    What a handler does before it touches a resource: require an identity,
    check the enclave layer, resolve an omitted namespace. *)

From S2P Require Import Prelude GoStrings Mode Annotations Auth Evaluator Effects K8sOps.
#[local] Open Scope string_scope.

Definition errAmbiguousNamespace : error :=
  ErrorNew "namespace required: caller belongs to multiple enclaves — specify namespace explicitly".
Definition errNoDeployer : error :=
  ErrorNew "authentication required: no deployer identity in request context".

Definition requireDeployer (deployer : option DeployerInfo) (eval : option Evaluator) : res () :=
  match deployer with
  | Some _ => Ok ()
  | None =>
      match eval with
      | None => Ok ()
      | Some ev => if negb (ev_Enabled ev) then Ok () else Err errNoDeployer
      end
  end.

Section helpers.
Context `{U : Unicode}.

Definition checkAuthz (eval : option Evaluator) (deployer : option DeployerInfo)
    (nsAnnotations resourceAnnotations : annotations) (action : Action) : Decision :=
  CheckTentacle eval deployer nsAnnotations resourceAnnotations action.

(** A namespace that is not found is treated as pre-authz and allowed. *)
Definition checkNamespaceAuthz (namespace : string) (deployer : option DeployerInfo)
    (eval : option Evaluator) (action : Action) : prog (res ()) :=
  match eval with
  | None => Ret (Ok ())
  | Some _ =>
      r ← call (KGet "namespaces" "" namespace);
      match r with
      | Err err => if reason_is NotFound err then Ret (Ok ())
                   else Ret (Err (Errorf "get namespace %q: %w" [AStr namespace; AErr err]))
      | Ok ns =>
          let decision := CheckEnclave eval deployer (o_annotations ns) action in
          if negb (dec_Allowed decision)
          then Ret (Err (Errorf "permission denied: %s" [AStr (dec_Reason decision)]))
          else Ret (Ok ())
      end
  end.

(** [isEnclaveParticipant] (pkg/tools/enclave.go) *)
Definition isEnclaveParticipant (info : EnclaveInfo) (email : string) : bool :=
  let emailLower := ToLower email in
  String.eqb (ToLower (ei_Owner info)) emailLower || existsb (fun m => String.eqb m emailLower) (ei_Members info).

(** The loop of [resolveNamespace]: the enclaves the caller participates in. *)
Definition enclaves_of (email : string) (namespaces : list object) : list string :=
  o_name <$> List.filter (fun ns => IsEnclave (o_annotations ns)
                                    && isEnclaveParticipant (ReadEnclaveInfo (o_annotations ns)) email) namespaces.

Definition resolveNamespace (namespace : string) (deployer : option DeployerInfo) : prog (res string) :=
  if negb (String.eqb namespace "") then Ret (Ok namespace)
  else
  match deployer with
  | None => Ret (Err (ErrorNew "namespace required: no OIDC identity available for auto-resolution"))
  | Some d =>
      if String.eqb (d_Email d) ""
      then Ret (Err (ErrorNew "namespace required: no OIDC identity available for auto-resolution"))
      else
        try namespaces := ListManagedNamespaces
          else (fun err => Err (Errorf "resolve namespace: list managed namespaces: %w" [AErr err])) ;;
        match enclaves_of (d_Email d) namespaces with
        | [] => Ret (Err (Errorf "namespace required: caller %q belongs to no enclaves" [AStr (d_Email d)]))
        | [m] => Ret (Ok m)
        | _ => Ret (Err errAmbiguousNamespace)
        end
  end.

Definition fetchNamespaceAnnotations (namespace : string) : prog (res annotations) :=
  r ← call (KGet "namespaces" "" namespace);
  match r with
  | Err err => if reason_is NotFound err then Ret (Ok ∅)
               else Ret (Err (Errorf "get namespace %q: %w" [AStr namespace; AErr err]))
  | Ok ns => Ret (Ok (o_annotations ns))
  end.

(** ** Lemmas *)

Lemma isEnclaveParticipant_spec info email :
  isEnclaveParticipant info email = true <->
  ToLower email = ToLower (ei_Owner info) \/ ToLower email ∈ ei_Members info.
Proof.
  unfold isEnclaveParticipant. rewrite orb_true_iff, String.eqb_eq, existsb_In. split.
  - intros [->|(x & Hx & <-%String.eqb_eq)]; auto.
  - intros [->|H]; [by left|right]. eexists. by rewrite String.eqb_refl.
Qed.

(** Whoever participates in an enclave passes its member or owner test. *)
Lemma participant_principal ann d :
  isEnclaveParticipant (ReadEnclaveInfo ann) (d_Email d) = true -> ToLower (d_Email d) <> "" ->
  is_enclave_owner ann d \/ is_member ann d.
Proof.
  rewrite isEnclaveParticipant_spec. intros [H|H] Hne; [left|by right].
  unfold is_enclave_owner, named_by. simpl in H. by rewrite <- H.
Qed.
End helpers.

(** ** Properties *)

Section properties.
Context `{U : Unicode}.

(** Namespace resolution never guesses: an omitted namespace resolves only
    to the one enclave of the listing the caller owns or belongs to, and an
    explicit one is used as given without asking the cluster. *)
Theorem resolveNamespace_spec namespace deployer h :
  holds (every (fun r => namespace = "" /\
                         r = KList "namespaces" "" (ManagedByLabel +:+ "=" +:+ ManagedByValue)))
    (fun h' r => match r with
                 | Err _ => namespace = ""
                 | Ok name =>
                     (namespace <> "" /\ name = namespace /\ h' = h) \/
                     (namespace = "" /\ exists d items, deployer = Some d /\ d_Email d <> "" /\
                        h' = Ev (KList "namespaces" "" (ManagedByLabel +:+ "=" +:+ ManagedByValue)) (Ok items) :: h /\
                        enclaves_of (d_Email d) items = [name])
                 end)
    h (resolveNamespace namespace deployer).
Proof.
  unfold resolveNamespace. destruct (String.eqb_spec namespace "") as [Hn|Hn]; cbn [negb].
  2: { left. done. }
  destruct deployer as [d|]; [|done]. destruct (String.eqb_spec (d_Email d) "") as [|He]; [done|].
  unfold ListManagedNamespaces. simpl. split; [done|]. intros [items|e]; simpl; [|done].
  destruct (enclaves_of (d_Email d) items) as [|m [|m2 ms]] eqn:Em; simpl; [done| |done].
  right. split; [done|]. by exists d, items.
Qed.

(** With OIDC not configured, every request the middleware lets through is
    refused by the tool handlers of an enabled evaluator: the bearer-token
    middleware attaches no identity, and [requireDeployer] demands one. *)
Theorem bearer_only_refused `{L : OidcLib} token url next r ev :
  rq_deployer r = None -> ev_Enabled ev = true ->
  (exists msg, DualAuthMiddleware token None url next r = writeUnauthorized url msg) \/
  (DualAuthMiddleware token None url next r = next r /\
   requireDeployer (DeployerFromContext r) (Some ev) = Err errNoDeployer).
Proof.
  intros Hr He. unfold DualAuthMiddleware.
  destruct (Middleware_cases token url next r) as [H|[_ H]]; [by left|right].
  split; [done|]. unfold DeployerFromContext. rewrite Hr. simpl. by rewrite He.
Qed.
End properties.

(** ** Witnesses *)

Lemma bearer_only_refused_witness :
  let r := {| rq_Method := "POST"; rq_Path := "/mcp"; rq_Authorization := "Bearer s3cret"; rq_deployer := None |} in
  rs_status (DualAuthMiddleware (U := ascii_tables) (L := toy_oidc) "s3cret" None "" toy_next r) = 200%Z /\
  requireDeployer (DeployerFromContext r) (Some (NewEvaluator DefaultMode)) = Err errNoDeployer.
Proof.
  intros r. split; [vm_compute; reflexivity|].
  destruct (bearer_only_refused (U := ascii_tables) (L := toy_oidc) "s3cret" "" toy_next r
              (NewEvaluator DefaultMode) eq_refl eq_refl) as [[msg H]|[_ H]].
  - apply (f_equal rs_status) in H. vm_compute in H. discriminate H.
  - exact H.
Defined.
