(* ===== verification/EnclaveTools.v ===== *)
(** * The enclave tools (pkg/tools/enclave.go)

    The five [enclave_*] handlers: provisioning with its rollback, metadata and
    listing, the read-modify-write of [enclave_sync] with its conflict retries,
    and deprovisioning. *)

From S2P Require Import Prelude GoStrings GoTime Guard Mode Annotations ExoConfig Auth Evaluator Identity.
From S2P Require Import Effects K8sOps Controller AuthzHelpers.
#[local] Open Scope string_scope.

Definition validQuotaPresets (preset : string) : bool := str_in preset ["small"; "medium"; "large"].
Definition annotationEnclaveQuotaPreset : string := "tentacular.io/enclave-quota-preset".
Definition enclaveRequiredServices : list string := ["postgres"; "rustfs"].
(** A package variable no code of the repository assigns. *)
Definition MaxEnclavesPerOwner : nat := 10.
Definition maxSyncRetries : nat := 3.

(** ** Parameters and results *)

Record EnclaveProvisionParams := {
  pp_Name : string;
  pp_OwnerEmail : string;
  pp_OwnerSub : string;
  pp_Platform : string;
  pp_ChannelID : string;
  pp_ChannelName : string;
  pp_QuotaPreset : string;
  pp_DefaultMode : string;
  pp_Members : list string;
}.
Record EnclaveProvisionResult := {
  pr_Name : string;
  pr_Status : string;
  pr_QuotaPreset : string;
  pr_Owner : string;
  pr_Members : list string;
  pr_ResourcesCreated : list string;
}.
Record EnclaveExoService := { xs_Name : string; xs_Available : bool }.
Record EnclaveInfoResult := {
  ir_CreatedAt : string;
  ir_Owner : string;
  ir_OwnerSub : string;
  ir_Platform : string;
  ir_ChannelID : string;
  ir_ChannelName : string;
  ir_Status : string;
  ir_QuotaPreset : string;
  ir_Name : string;
  ir_UpdatedAt : string;
  ir_Members : list string;
  ir_ExoServices : list EnclaveExoService;
  ir_TentacleCount : nat;
}.
Record EnclaveListItem := {
  li_Name : string;
  li_Owner : string;
  li_Status : string;
  li_Platform : string;
  li_ChannelName : string;
  li_CreatedAt : string;
  li_Members : list string;
}.
Record EnclaveSyncParams := {
  sp_Name : string;
  sp_NewOwner : string;
  sp_NewChannelName : string;
  sp_NewStatus : string;
  sp_NewMode : string;
  sp_NewQuotaPreset : string;
  sp_AddMembers : list string;
  sp_RemoveMembers : list string;
}.
Record OwnershipTransfer := {
  ot_TentacleName : string;
  ot_FromOwner : string;
  ot_ToOwner : string;
  ot_Error : string;
  ot_Success : bool;
}.
Record EnclaveSyncResult := {
  sr_Name : string;
  sr_Updated : list string;
  sr_Transfers : list OwnershipTransfer;
  sr_Enclave : EnclaveInfoResult;
}.
Record EnclaveDeprovisionResult := {
  dr_Name : string;
  dr_Deleted : bool;
  dr_TentaclesRemoved : nat;
}.

Section enclave.
Context `{U : Unicode}.

(** An OIDC caller, as opposed to the platform operator's bearer token. *)
Definition is_oidc (deployer : option DeployerInfo) : option DeployerInfo :=
  match deployer with
  | Some d => if String.eqb (d_Provider d) "bearer-token" then None else Some d
  | None => None
  end.

(** ** Provisioning *)

Definition countEnclavesOwnedBy (ownerEmail : string) : prog (res nat) :=
  try namespaces := ListManagedNamespaces else Err ;;
  Ret (Ok (length (List.filter (fun ns =>
             IsEnclave (o_annotations ns)
             && String.eqb (ToLower (ei_Owner (ReadEnclaveInfo (o_annotations ns)))) ownerEmail) namespaces))).

Definition provision_info (params : EnclaveProvisionParams) (now : string) : EnclaveInfo :=
  {| ei_Enclave := pp_Name params; ei_Owner := pp_OwnerEmail params; ei_OwnerSub := pp_OwnerSub params;
     ei_Members := pp_Members params; ei_Platform := pp_Platform params; ei_ChannelID := pp_ChannelID params;
     ei_ChannelName := pp_ChannelName params; ei_DefaultMode := pp_DefaultMode params;
     ei_Status := "active"; ei_CreatedAt := now; ei_UpdatedAt := now |}.

(** [maps.Copy]-style loop: the entries of [new] override. *)
Definition annotate (ns : object) (new : annotations) : object :=
  with_annotations ns (new ∪ o_annotations ns).

(** The steps after the namespace exists.  The flag is [exoProvisioned] at return. *)
Definition provision_body (exoCtrl : option Controller) (params : EnclaveProvisionParams) (preset : string) :
    prog (bool * res EnclaveProvisionResult) :=
  let name := pp_Name params in
  let failed (f : string) (err : error) := (false, Err (Errorf f [AErr err])) in
  t ← call Now;
  let info := provision_info params (FormatRFC3339 t) in
  match ValidateEnclaveInfo info with
  | Some err => Ret (failed "invalid enclave info: %w" err)
  | None =>
    try ns := call (KGet "namespaces" "" name)
      else failed "namespace created but failed to fetch for annotation: %w" ;;
    let ns' := annotate ns (<[annotationEnclaveQuotaPreset := preset]> (WriteEnclaveAnnotations info)) in
    try_ call (KUpdate "namespaces" "" ns')
      else failed "namespace created but failed to annotate with enclave metadata: %w" ;;
    try_ CreateDefaultDenyPolicy name
      else failed "namespace created but failed to create default-deny network policy: %w" ;;
    try_ CreateDNSAllowPolicy name
      else failed "namespace created but failed to create allow-dns network policy: %w" ;;
    try_ CreateResourceQuota name preset
      else failed "namespace created but failed to create resource quota: %w" ;;
    try_ CreateLimitRange name
      else failed "namespace created but failed to create limit range: %w" ;;
    try_ CreateWorkflowServiceAccount name
      else failed "namespace created but failed to create workflow service account: %w" ;;
    try_ CreateWorkflowRole name
      else failed "namespace created but failed to create workflow role: %w" ;;
    try_ CreateWorkflowRoleBinding name
      else failed "namespace created but failed to create workflow role binding: %w" ;;
    let created :=
      ["namespace/" +:+ name; "annotation/enclave-metadata"; "networkpolicy/default-deny";
       "networkpolicy/allow-dns"; "resourcequota/tentacular-quota"; "limitrange/tentacular-limits";
       "serviceaccount/tentacular-workflow"; "role/tentacular-workflow"; "rolebinding/tentacular-workflow"] in
    let done (created : list string) :=
      {| pr_Name := name; pr_Status := "active"; pr_QuotaPreset := preset; pr_Owner := pp_OwnerEmail params;
         pr_Members := pp_Members params; pr_ResourcesCreated := created |} in
    match exoCtrl with
    | None => Ret (false, Ok (done created))
    | Some c =>
        try_ EnsureEnclaveServices c name enclaveRequiredServices
          else (fun err => (true, Err (Errorf "enclave provisioned but exoskeleton services failed (namespace deleted): %w" [AErr err]))) ;;
        Ret (true, Ok (done (created ++ ["exoskeleton/postgres"; "exoskeleton/rustfs"])%list))
    end
  end.

(** The deferred rollback: it runs when the body failed. *)
Definition provision_rollback (exoCtrl : option Controller) (name : string) (exoProvisioned : bool) : prog () :=
  _ ← (match exoCtrl with
       | Some c => if exoProvisioned then _ ← CleanupEnclave c name; Ret () else Ret ()
       | None => Ret ()
       end);
  _ ← DeleteNamespace name; Ret ().

Definition handleEnclaveProvision (exoCtrl : option Controller) (params : EnclaveProvisionParams) :
    prog (res EnclaveProvisionResult) :=
  let preset := if String.eqb (pp_QuotaPreset params) "" then "medium" else pp_QuotaPreset params in
  if negb (validQuotaPresets preset)
  then Ret (Err (Errorf "invalid quota_preset %q; valid values: small, medium, large" [AStr preset]))
  else
  match ValidateMembers (pp_Members params) with
  | Some err => Ret (Err err)
  | None =>
    try existingCount := countEnclavesOwnedBy (ToLower (pp_OwnerEmail params))
      else (fun err => Err (Errorf "checking enclave count: %w" [AErr err])) ;;
    if (MaxEnclavesPerOwner <=? existingCount)%nat
    then Ret (Err (Errorf "owner %q already has %d enclaves (limit: %d)"
                     [AStr (pp_OwnerEmail params); AInt (Z.of_nat existingCount); AInt (Z.of_nat MaxEnclavesPerOwner)]))
    else
      try_ CreateNamespace (pp_Name params) else Err ;;
      out ← provision_body exoCtrl params preset;
      let (exoProvisioned, result) := out : bool * res EnclaveProvisionResult in
      match result with
      | Ok r => Ret (Ok r)
      | Err err => _ ← provision_rollback exoCtrl (pp_Name params) exoProvisioned; Ret (Err err)
      end
  end.

(** The tool: guards, then the owner identity forced on OIDC callers. *)
Definition enclave_provision (exoCtrl : option Controller) (eval : option Evaluator)
    (deployer : option DeployerInfo) (params : EnclaveProvisionParams) : prog (res EnclaveProvisionResult) :=
  match CheckNamespace (pp_Name params) with
  | Some err => Ret (Err err)
  | None =>
    match requireDeployer deployer eval with
    | Err err => Ret (Err err)
    | Ok _ =>
        match is_oidc deployer with
        | Some d =>
            if String.eqb (d_Email d) ""
            then Ret (Err (ErrorNew "permission denied: OIDC caller has no email claim; cannot provision enclave"))
            else if String.eqb (d_Subject d) ""
            then Ret (Err (ErrorNew "permission denied: OIDC caller has no subject claim; cannot provision enclave"))
            else handleEnclaveProvision exoCtrl
                   {| pp_Name := pp_Name params; pp_OwnerEmail := d_Email d; pp_OwnerSub := d_Subject d;
                      pp_Platform := pp_Platform params; pp_ChannelID := pp_ChannelID params;
                      pp_ChannelName := pp_ChannelName params; pp_QuotaPreset := pp_QuotaPreset params;
                      pp_DefaultMode := pp_DefaultMode params; pp_Members := pp_Members params |}
        | None => handleEnclaveProvision exoCtrl params
        end
    end
  end.

(** ** Metadata and listing *)

Definition buildEnclaveExoServices (exoCtrl : option Controller) : list EnclaveExoService :=
  match exoCtrl with
  | None => [{| xs_Name := "postgres"; xs_Available := false |}; {| xs_Name := "rustfs"; xs_Available := false |}]
  | Some c => [{| xs_Name := "postgres"; xs_Available := PostgresAvailable c |};
               {| xs_Name := "rustfs"; xs_Available := RustFSAvailable c |}]
  end.

(** The test both readers share: participant, or other-read in the mode. *)
Definition visible_to (ann : annotations) (email : string) : bool :=
  isEnclaveParticipant (ReadEnclaveInfo ann) email || OtherRead (resolve_mode DefaultEnclaveMode ann).

Definition handleEnclaveInfo (exoCtrl : option Controller) (name : string) (deployer : option DeployerInfo) :
    prog (res EnclaveInfoResult) :=
  try ns := call (KGet "namespaces" "" name)
    else (fun err => Err (Errorf "get namespace %q: %w" [AStr name; AErr err])) ;;
  let ann := o_annotations ns in
  if negb (IsEnclave ann) then Ret (Err (Errorf "namespace %q is not an enclave" [AStr name]))
  else
    let info := ReadEnclaveInfo ann in
    if match is_oidc deployer with Some d => negb (visible_to ann (d_Email d)) | None => false end
    then Ret (Err (Errorf "permission denied: caller is not the enclave owner or a member of %q" [AStr name]))
    else
      deps ← call (KList "deployments" name "");
      let tentacleCount := match deps with Ok items => length items | Err _ => O end in
      Ret (Ok {| ir_Name := ei_Enclave info; ir_Owner := ei_Owner info; ir_OwnerSub := ei_OwnerSub info;
                 ir_Members := ei_Members info; ir_Platform := ei_Platform info;
                 ir_ChannelID := ei_ChannelID info; ir_ChannelName := ei_ChannelName info;
                 ir_Status := ei_Status info; ir_QuotaPreset := ann_get ann annotationEnclaveQuotaPreset;
                 ir_CreatedAt := ei_CreatedAt info; ir_UpdatedAt := ei_UpdatedAt info;
                 ir_TentacleCount := tentacleCount; ir_ExoServices := buildEnclaveExoServices exoCtrl |}).

Definition enclave_info (exoCtrl : option Controller) (eval : option Evaluator)
    (deployer : option DeployerInfo) (name : string) : prog (res EnclaveInfoResult) :=
  match CheckNamespace name with
  | Some err => Ret (Err err)
  | None => match requireDeployer deployer eval with
            | Err err => Ret (Err err)
            | Ok _ => handleEnclaveInfo exoCtrl name deployer
            end
  end.

(** [ns.Status.Phase] *)
Definition ns_phase (ns : object) : string :=
  match map_get "phase" (as_map (map_get "status" (o_body ns))) with
  | Some (VStr s) => s
  | _ => ""
  end.

Definition list_item (ns : object) : EnclaveListItem :=
  let info := ReadEnclaveInfo (o_annotations ns) in
  {| li_Name := ei_Enclave info; li_Owner := ei_Owner info; li_Status := ei_Status info;
     li_Members := ei_Members info; li_Platform := ei_Platform info;
     li_ChannelName := ei_ChannelName info; li_CreatedAt := ei_CreatedAt info |}.

(** The filter of the loop. *)
Definition listed (callerEmail : string) (ns : object) : bool :=
  negb (String.eqb (ns_phase ns) "Terminating") && IsEnclave (o_annotations ns)
  && (String.eqb callerEmail "" || visible_to (o_annotations ns) callerEmail).

Definition handleEnclaveList (callerEmail : string) : prog (res (list EnclaveListItem)) :=
  try namespaces := ListManagedNamespaces else Err ;;
  Ret (Ok (list_item <$> List.filter (listed callerEmail) namespaces)).

Definition enclave_list (eval : option Evaluator) (deployer : option DeployerInfo) (callerEmail : string) :
    prog (res (list EnclaveListItem)) :=
  match requireDeployer deployer eval with
  | Err err => Ret (Err err)
  | Ok _ => handleEnclaveList (match is_oidc deployer with Some d => d_Email d | None => callerEmail end)
  end.

(** ** Synchronisation *)

(** The variables [attemptEnclaveSync] threads through its sections; [ss_ann]
    is the annotation map of the fetched namespace, which the code mutates in
    place. *)
Record sync_state := {
  ss_info : EnclaveInfo;
  ss_ann : annotations;
  ss_updated : list string;
  ss_transfers : list OwnershipTransfer;
}.

Definition note (st : sync_state) (what : string) : sync_state :=
  {| ss_info := ss_info st; ss_ann := ss_ann st; ss_updated := (ss_updated st ++ [what])%list;
     ss_transfers := ss_transfers st |}.
Definition with_info (st : sync_state) (info : EnclaveInfo) : sync_state :=
  {| ss_info := info; ss_ann := ss_ann st; ss_updated := ss_updated st; ss_transfers := ss_transfers st |}.
Definition with_ann (st : sync_state) (ann : annotations) : sync_state :=
  {| ss_info := ss_info st; ss_ann := ann; ss_updated := ss_updated st; ss_transfers := ss_transfers st |}.
Definition set_members (info : EnclaveInfo) (members : list string) : EnclaveInfo :=
  {| ei_Enclave := ei_Enclave info; ei_Owner := ei_Owner info; ei_OwnerSub := ei_OwnerSub info;
     ei_Platform := ei_Platform info; ei_ChannelID := ei_ChannelID info; ei_ChannelName := ei_ChannelName info;
     ei_Status := ei_Status info; ei_DefaultMode := ei_DefaultMode info; ei_CreatedAt := ei_CreatedAt info;
     ei_UpdatedAt := ei_UpdatedAt info; ei_Members := members |}.

(** [isOwnerOp]: a new channel name alone is not one. *)
Definition isOwnerOp (p : EnclaveSyncParams) : bool :=
  set (sp_NewOwner p) || (0 <? length (sp_AddMembers p))%nat || (0 <? length (sp_RemoveMembers p))%nat
  || set (sp_NewStatus p) || set (sp_NewMode p) || set (sp_NewQuotaPreset p).

(** The owner check; the comparison is case-sensitive in the source. *)
Definition sync_authorized (p : EnclaveSyncParams) (info : EnclaveInfo) (deployer : option DeployerInfo) : res () :=
  match is_oidc deployer with
  | Some d =>
      if isOwnerOp p then
        if String.eqb (d_Email d) "" then Err (ErrorNew "permission denied: OIDC caller has no email claim")
        else if negb (String.eqb (d_Email d) (ei_Owner info))
             then Err (Errorf "permission denied: only the enclave owner may modify enclave %q" [AStr (sp_Name p)])
        else Ok ()
      else Ok ()
  | None => Ok ()
  end.

(** The loop over the additions: skip the owner and whoever is there already. *)
Fixpoint add_members (owner : string) (members add : list string) : list string :=
  match add with
  | [] => members
  | m :: rest =>
      if negb (str_in m members) && negb (String.eqb m owner)
      then add_members owner (members ++ [m]) rest
      else add_members owner members rest
  end.

Definition sync_add (p : EnclaveSyncParams) (st : sync_state) : res sync_state :=
  match sp_AddMembers p with
  | [] => Ok st
  | add =>
      let info := set_members (ss_info st) (add_members (ei_Owner (ss_info st)) (ei_Members (ss_info st)) add) in
      match ValidateMembers (ei_Members info) with
      | Some err => Err err
      | None => Ok (note (with_info st info) "members")
      end
  end.

Definition transfer_owner (depAnn : annotations) (newOwner : string) : annotations :=
  <[AnnotationOwnerSub := ""]> (<[AnnotationOwnerEmail := newOwner]> (<[AnnotationOwner := newOwner]> depAnn)).

(** One deployment of the loop of [transferOrphanedTentacles]. *)
Definition transfer_one (namespace : string) (removed : list string) (newOwner : string)
    (result : list OwnershipTransfer) (dep : object) : prog (list OwnershipTransfer) :=
  let currentOwner := ToLower (ann_get (o_annotations dep) AnnotationOwner) in
  if String.eqb currentOwner "" || negb (str_in currentOwner (ToLower <$> removed)) then Ret result
  else
    r ← call (KUpdate "deployments" namespace (with_annotations dep (transfer_owner (o_annotations dep) newOwner)));
    let (success, message) := match r with
                              | Ok _ => (true, "")
                              | Err e => (false, ErrorText e)
                              end in
    Ret (result ++ [{| ot_TentacleName := o_name dep; ot_FromOwner := currentOwner; ot_ToOwner := newOwner;
                       ot_Error := message; ot_Success := success |}])%list.

Definition transferOrphanedTentacles (namespace : string) (removedMembers : list string) (newOwner : string) :
    prog (res (list OwnershipTransfer)) :=
  try deps := call (KList "deployments" namespace "app.kubernetes.io/managed-by=tentacular")
    else (fun err => Err (Errorf "list deployments in %q: %w" [AStr namespace; AErr err])) ;;
  transfers ← foldM (transfer_one namespace removedMembers newOwner) deps [];
  Ret (Ok transfers).

Definition sync_remove (p : EnclaveSyncParams) (st : sync_state) : prog sync_state :=
  match sp_RemoveMembers p with
  | [] => Ret st
  | remove =>
      let info := set_members (ss_info st)
                    (List.filter (fun m => negb (str_in m remove)) (ei_Members (ss_info st))) in
      let st1 := with_info st info in
      let st2 := if str_in "members" (ss_updated st1) then st1 else note st1 "members" in
      r ← transferOrphanedTentacles (sp_Name p) remove (ei_Owner info);
      let transfers := match r with Ok ts => ts | Err _ => [] end in
      let st3 := {| ss_info := ss_info st2; ss_ann := ss_ann st2; ss_updated := ss_updated st2;
                    ss_transfers := transfers |} in
      Ret (match transfers with [] => st3 | _ => note st3 "ownership_transfers" end)
  end.

Definition set_owner (info : EnclaveInfo) (owner : string) (members : list string) : EnclaveInfo :=
  {| ei_Enclave := ei_Enclave info; ei_Owner := owner; ei_OwnerSub := "";
     ei_Platform := ei_Platform info; ei_ChannelID := ei_ChannelID info; ei_ChannelName := ei_ChannelName info;
     ei_Status := ei_Status info; ei_DefaultMode := ei_DefaultMode info; ei_CreatedAt := ei_CreatedAt info;
     ei_UpdatedAt := ei_UpdatedAt info; ei_Members := members |}.

Definition sync_owner (p : EnclaveSyncParams) (st : sync_state) : res sync_state :=
  let info := ss_info st in
  if negb (set (sp_NewOwner p)) then Ok st
  else if String.eqb (sp_NewOwner p) (ei_Owner info)
       then Err (Errorf "new_owner %q is already the enclave owner" [AStr (sp_NewOwner p)])
  else if negb (isEnclaveParticipant info (sp_NewOwner p))
       then Err (Errorf "new_owner %q must be a current member before ownership transfer" [AStr (sp_NewOwner p)])
  else
    let newMembers := (List.filter (fun m => negb (String.eqb m (sp_NewOwner p))) (ei_Members info)
                       ++ [ei_Owner info])%list in
    Ok (note (with_info st (set_owner info (sp_NewOwner p) newMembers)) "owner").

(** Records with one field replaced. *)
Definition set_channel (info : EnclaveInfo) (name : string) : EnclaveInfo :=
  {| ei_Enclave := ei_Enclave info; ei_Owner := ei_Owner info; ei_OwnerSub := ei_OwnerSub info;
     ei_Platform := ei_Platform info; ei_ChannelID := ei_ChannelID info; ei_ChannelName := name;
     ei_Status := ei_Status info; ei_DefaultMode := ei_DefaultMode info; ei_CreatedAt := ei_CreatedAt info;
     ei_UpdatedAt := ei_UpdatedAt info; ei_Members := ei_Members info |}.
Definition set_status (info : EnclaveInfo) (status : string) : EnclaveInfo :=
  {| ei_Enclave := ei_Enclave info; ei_Owner := ei_Owner info; ei_OwnerSub := ei_OwnerSub info;
     ei_Platform := ei_Platform info; ei_ChannelID := ei_ChannelID info; ei_ChannelName := ei_ChannelName info;
     ei_Status := status; ei_DefaultMode := ei_DefaultMode info; ei_CreatedAt := ei_CreatedAt info;
     ei_UpdatedAt := ei_UpdatedAt info; ei_Members := ei_Members info |}.
Definition set_mode (info : EnclaveInfo) (mode : string) : EnclaveInfo :=
  {| ei_Enclave := ei_Enclave info; ei_Owner := ei_Owner info; ei_OwnerSub := ei_OwnerSub info;
     ei_Platform := ei_Platform info; ei_ChannelID := ei_ChannelID info; ei_ChannelName := ei_ChannelName info;
     ei_Status := ei_Status info; ei_DefaultMode := mode; ei_CreatedAt := ei_CreatedAt info;
     ei_UpdatedAt := ei_UpdatedAt info; ei_Members := ei_Members info |}.
Definition set_updated_at (info : EnclaveInfo) (t : string) : EnclaveInfo :=
  {| ei_Enclave := ei_Enclave info; ei_Owner := ei_Owner info; ei_OwnerSub := ei_OwnerSub info;
     ei_Platform := ei_Platform info; ei_ChannelID := ei_ChannelID info; ei_ChannelName := ei_ChannelName info;
     ei_Status := ei_Status info; ei_DefaultMode := ei_DefaultMode info; ei_CreatedAt := ei_CreatedAt info;
     ei_UpdatedAt := t; ei_Members := ei_Members info |}.

Definition sync_channel (p : EnclaveSyncParams) (st : sync_state) : sync_state :=
  if set (sp_NewChannelName p)
  then note (with_info st (set_channel (ss_info st) (sp_NewChannelName p))) "channel_name" else st.

Definition sync_status (p : EnclaveSyncParams) (st : sync_state) : res sync_state :=
  if negb (set (sp_NewStatus p)) then Ok st
  else if str_in (sp_NewStatus p) ["active"; "frozen"]
       then Ok (note (with_info st (set_status (ss_info st) (sp_NewStatus p))) "status")
  else Err (Errorf "invalid status %q; valid values: active, frozen" [AStr (sp_NewStatus p)]).

Definition sync_mode (p : EnclaveSyncParams) (st : sync_state) : res sync_state :=
  if negb (set (sp_NewMode p)) then Ok st
  else match ParseMode (sp_NewMode p) with
       | Err _ => Err (Errorf ("invalid mode %q; must be a 9-character rwx string (e.g. " +:+ String dquote ("rwxrwx---" +:+ String dquote ")"))
                        [AStr (sp_NewMode p)])
       | Ok _ =>
           let st1 := with_info st (set_mode (ss_info st) (sp_NewMode p)) in
           Ok (note (with_ann st1 (<[AnnotationMode := sp_NewMode p]> (ss_ann st1))) "mode")
       end.

Definition sync_quota (p : EnclaveSyncParams) (st : sync_state) : prog (res sync_state) :=
  if negb (set (sp_NewQuotaPreset p)) then Ret (Ok st)
  else if negb (validQuotaPresets (sp_NewQuotaPreset p))
       then Ret (Err (Errorf "invalid quota_preset %q; valid values: small, medium, large" [AStr (sp_NewQuotaPreset p)]))
  else
    try_ UpdateResourceQuota (sp_Name p) (sp_NewQuotaPreset p)
      else (fun err => Err (Errorf "updating resource quota: %w" [AErr err])) ;;
    Ret (Ok (note (with_ann st (<[annotationEnclaveQuotaPreset := sp_NewQuotaPreset p]> (ss_ann st))) "quota_preset")).

Definition sync_info_result (info : EnclaveInfo) : EnclaveInfoResult :=
  {| ir_Name := ei_Enclave info; ir_Owner := ei_Owner info; ir_OwnerSub := ei_OwnerSub info;
     ir_Members := ei_Members info; ir_Platform := ei_Platform info; ir_ChannelID := ei_ChannelID info;
     ir_ChannelName := ei_ChannelName info; ir_Status := ei_Status info; ir_CreatedAt := ei_CreatedAt info;
     ir_UpdatedAt := ei_UpdatedAt info; ir_QuotaPreset := ""; ir_ExoServices := []; ir_TentacleCount := 0 |}.

(** The write at the end of a cycle.  The flag is [isConflict]. *)
Definition sync_write (p : EnclaveSyncParams) (ns : object) (st : sync_state) : prog (bool * res EnclaveSyncResult) :=
  match ss_updated st with
  | [] => Ret (false, Err (ErrorNew "no updates specified; provide at least one of add_members, remove_members, new_owner, new_channel_name, new_status, new_mode, or new_quota_preset"))
  | updated =>
      t ← call Now;
      let info := set_updated_at (ss_info st) (FormatRFC3339 t) in
      let ns' := with_annotations ns (WriteEnclaveAnnotations info ∪ ss_ann st) in
      r ← call (KUpdate "namespaces" "" ns');
      match r with
      | Err err =>
          if reason_is Conflict err then Ret (true, Err err)
          else Ret (false, Err (Errorf "update namespace %q enclave annotations: %w" [AStr (sp_Name p); AErr err]))
      | Ok _ =>
          Ret (false, Ok {| sr_Name := sp_Name p; sr_Updated := updated;
                            sr_Enclave := sync_info_result info; sr_Transfers := ss_transfers st |})
      end
  end.

(** The sections between the owner check and the write, in order. *)
Definition sync_sections (p : EnclaveSyncParams) (st : sync_state) : prog (res sync_state) :=
  match sync_add p st with
  | Err e => Ret (Err e)
  | Ok st1 =>
      st2 ← sync_remove p st1;
      match (st3 ← sync_owner p st2; st4 ← sync_status p (sync_channel p st3); sync_mode p st4) with
      | Err e => Ret (Err e)
      | Ok st5 => sync_quota p st5
      end
  end.

Definition attemptEnclaveSync (p : EnclaveSyncParams) (deployer : option DeployerInfo) :
    prog (bool * res EnclaveSyncResult) :=
  let failed (err : error) := (false, Err err) in
  try ns := call (KGet "namespaces" "" (sp_Name p))
    else (fun err => failed (Errorf "get namespace %q: %w" [AStr (sp_Name p); AErr err])) ;;
  let ann := o_annotations ns in
  if negb (IsEnclave ann) then Ret (failed (Errorf "namespace %q is not an enclave" [AStr (sp_Name p)]))
  else
    let info := ReadEnclaveInfo ann in
    match sync_authorized p info deployer with
    | Err err => Ret (failed err)
    | Ok _ =>
        try st := sync_sections p {| ss_info := info; ss_ann := ann; ss_updated := []; ss_transfers := [] |}
          else failed ;;
        sync_write p ns st
    end.

(** The retry loop, [attempts] iterations left. *)
Fixpoint sync_retries (attempts : nat) (p : EnclaveSyncParams) (deployer : option DeployerInfo) :
    prog (res EnclaveSyncResult) :=
  match attempts with
  | O => Ret (Err (Errorf "enclave_sync: conflict persisted after %d retries for %q"
                     [AInt (Z.of_nat maxSyncRetries); AStr (sp_Name p)]))
  | S attempts' =>
      out ← attemptEnclaveSync p deployer;
      match out with
      | (true, Err _) => sync_retries attempts' p deployer
      | (_, result) => Ret result
      end
  end.
Definition handleEnclaveSync : EnclaveSyncParams -> option DeployerInfo -> prog (res EnclaveSyncResult) :=
  sync_retries maxSyncRetries.

Definition enclave_sync (eval : option Evaluator) (deployer : option DeployerInfo) (p : EnclaveSyncParams) :
    prog (res EnclaveSyncResult) :=
  match CheckNamespace (sp_Name p) with
  | Some err => Ret (Err err)
  | None => match requireDeployer deployer eval with
            | Err err => Ret (Err err)
            | Ok _ => handleEnclaveSync p deployer
            end
  end.

(** ** Deprovisioning *)

Definition deprovision_authorized (name : string) (info : EnclaveInfo) (deployer : option DeployerInfo) : res () :=
  match is_oidc deployer with
  | Some d =>
      if String.eqb (d_Email d) ""
      then Err (ErrorNew "permission denied: OIDC caller has no email claim; cannot verify enclave ownership")
      else if negb (String.eqb (d_Email d) (ei_Owner info))
           then Err (Errorf "permission denied: only the enclave owner may deprovision enclave %q" [AStr name])
      else Ok ()
  | None => Ok ()
  end.

Definition handleEnclaveDeprovision (exoCtrl : option Controller) (name : string) (deployer : option DeployerInfo) :
    prog (res EnclaveDeprovisionResult) :=
  try ns := call (KGet "namespaces" "" name)
    else (fun err => Err (Errorf "get namespace %q: %w" [AStr name; AErr err])) ;;
  let ann := o_annotations ns in
  if negb (IsEnclave ann) then Ret (Err (Errorf "namespace %q is not an enclave" [AStr name]))
  else
  match deprovision_authorized name (ReadEnclaveInfo ann) deployer with
  | Err err => Ret (Err err)
  | Ok _ =>
      deps ← call (KList "deployments" name "");
      let items := match deps with Ok items => items | Err _ => [] end in
      tentaclesRemoved ← foldM (fun n dep =>
        r ← call (KDelete "deployments" name (o_name dep));
        Ret (if is_ok r then S n else n)) items O;
      _ ← (match exoCtrl with
           | Some c => foldM (fun _ dep => _ ← Cleanup c name (o_name dep); Ret ()) items ()
           | None => Ret ()
           end);
      _ ← (match exoCtrl with
           | Some c => _ ← CleanupEnclave c name; Ret ()
           | None => Ret ()
           end);
      try_ DeleteNamespace name else Err ;;
      Ret (Ok {| dr_Name := name; dr_Deleted := true; dr_TentaclesRemoved := tentaclesRemoved |})
  end.

Definition enclave_deprovision (exoCtrl : option Controller) (eval : option Evaluator)
    (deployer : option DeployerInfo) (name : string) : prog (res EnclaveDeprovisionResult) :=
  match CheckNamespace name with
  | Some err => Ret (Err err)
  | None => match requireDeployer deployer eval with
            | Err err => Ret (Err err)
            | Ok _ => handleEnclaveDeprovision exoCtrl name deployer
            end
  end.

End enclave.

(** ** Lemmas *)

Section lemmas.
Context `{U : Unicode}.

(** The caller was seen to own the enclave: a fetch of its namespace returned
    enclave annotations that name the caller. *)
Definition seen_owner (name : string) (d : DeployerInfo) (e : event) : Prop :=
  exists ns, e = Ev (KGet "namespaces" "" name) (Ok ns) /\ IsEnclave (o_annotations ns) = true /\
             d_Email d <> "" /\ d_Email d = ann_get (o_annotations ns) AnnotationEnclaveOwner.

(** What an owner-only tool may ask for: the fetch, or anything once ownership was seen. *)
Definition owner_gate (name : string) (d : DeployerInfo) (h : list event) (r : req) : Prop :=
  r = KGet "namespaces" "" name \/ happened (seen_owner name d) h.

Lemma holds_owner_gate {A} name d h (p : prog A) :
  happened (seen_owner name d) h -> holds (owner_gate name d) whatever h p.
Proof.
  intros H. eapply holds_mono; [| |apply (holds_stable _ h p (happened_stable _) H)]; [|done].
  intros h' r H'. by right.
Qed.

Lemma attempt_owner_gate p d h :
  d_Provider d <> "bearer-token" -> isOwnerOp p = true ->
  holds (owner_gate (sp_Name p) d) whatever h (attemptEnclaveSync p (Some d)).
Proof.
  intros Hp Hop. apply holds_try, holds_call_bind; [by left|]. intros [ns|e]; [|done]. simpl.
  destruct (IsEnclave (o_annotations ns)) eqn:He; cbn [negb]; [|done].
  unfold sync_authorized, is_oidc. rewrite (proj2 (String.eqb_neq _ _) Hp), Hop.
  destruct (String.eqb_spec (d_Email d) "") as [|Hne]; [done|].
  destruct (String.eqb_spec (d_Email d) (ei_Owner (ReadEnclaveInfo (o_annotations ns)))) as [Ho|]; [|done].
  cbn [negb]. apply holds_owner_gate, happened_now. by exists ns.
Qed.

Lemma retries_owner_gate n p d h :
  d_Provider d <> "bearer-token" -> isOwnerOp p = true ->
  holds (owner_gate (sp_Name p) d) whatever h (sync_retries n p (Some d)).
Proof.
  intros Hp Hop. revert h. induction n as [|n IH]; intros h; [done|]. cbn [sync_retries].
  apply holds_bind. eapply holds_mono; [done| |by apply attempt_owner_gate].
  intros h' [[] [r|e]] _; simpl; done || apply IH.
Qed.

(** *** Transfers *)

Lemma transfer_owner_other ann newOwner k :
  k <> AnnotationOwner -> k <> AnnotationOwnerEmail -> k <> AnnotationOwnerSub ->
  transfer_owner ann newOwner !! k = ann !! k.
Proof. intros. unfold transfer_owner. by rewrite !lookup_insert_ne by congruence. Qed.

(** *** Member lists read back *)

Lemma member_lower m : canonical_member m -> is_ascii m = true -> ToLower m = m.
Proof.
  intros (_ & _ & Hn) Ha. unfold member_norm in Hn. rewrite <- Hn at 1. rewrite <- Hn at 2.
  apply ToLower_ascii_idem. pose proof (TrimSpace_trimmed m Ha) as Ht.
  unfold trimmed in Ht. rewrite !andb_true_iff in Ht. by destruct Ht as [[? _] _].
Qed.

Lemma ParseMembers_Format_norm ms :
  Forall (fun m => no_byte "," m = true /\ member_norm m <> "") ms ->
  ParseMembers (FormatMembers ms) = member_norm <$> ms.
Proof.
  intros Hall. destruct ms as [|m ms]; [done|]. unfold ParseMembers, FormatMembers.
  assert (Split (Join (m :: ms) ",") "," = m :: ms) as Hs.
  { apply Split_Join; [done|]. eapply Forall_impl; [exact Hall|]. by intros x [? _]. }
  destruct (String.eqb_spec (Join (m :: ms) ",") "") as [He|_].
  - rewrite He in Hs. simpl in Hs. injection Hs as <- <-.
    apply Forall_cons in Hall as [[_ Hn] _]. by destruct Hn.
  - rewrite Hs. clear Hs. induction Hall as [|x l [_ Hx] _ IH]; [done|].
    rewrite fmap_cons. cbn [List.filter]. rewrite (proj2 (String.eqb_neq _ _) Hx). cbn [negb].
    by rewrite IH.
Qed.

Lemma ReadEnclaveInfo_Write_members info :
  ei_Members (ReadEnclaveInfo (WriteEnclaveAnnotations info)) = ParseMembers (FormatMembers (ei_Members info)).
Proof. unfold ReadEnclaveInfo, WriteEnclaveAnnotations. by ann_lookup. Qed.
Lemma ReadEnclaveInfo_Write_owner info :
  ei_Owner (ReadEnclaveInfo (WriteEnclaveAnnotations info)) = ei_Owner info.
Proof. unfold ReadEnclaveInfo, WriteEnclaveAnnotations. by ann_lookup. Qed.
End lemmas.

(** ** Properties: ownership *)

Section ownership.
Context `{U : Unicode} `{M : RustfsRegistrar.MinioLib}.

(** C2: Only the owner changes an enclave: when an OIDC caller asks
    [enclave_sync] for an owner operation, every request it causes beyond
    fetching the namespace - in each retry, whatever else happens in the cluster
    - comes after a fetch that returned the caller as the enclave's owner. *)
Theorem enclave_sync_owner_only eval d p h :
  d_Provider d <> "bearer-token" -> isOwnerOp p = true ->
  holds (owner_gate (sp_Name p) d) whatever h (enclave_sync eval (Some d) p).
Proof.
  intros Hp Hop. unfold enclave_sync. destruct (CheckNamespace _); [done|].
  destruct (requireDeployer _ _); [|done]. by apply retries_owner_gate.
Qed.

(** C20: Only the owner deletes an enclave: every request [enclave_deprovision]
    causes for an OIDC caller - each deployment, each service and the namespace -
    comes after a fetch that returned the caller as the owner, and success is
    reported only after the namespace deletion was accepted. *)
Theorem enclave_deprovision_owner_only exoCtrl eval d name h :
  d_Provider d <> "bearer-token" ->
  holds (owner_gate name d)
    (fun h' r => match r with
                 | Ok out => dr_Deleted out = true /\ exists h0, h' = Ev (KDelete "namespaces" "" name) (Ok ()) :: h0
                 | Err _ => True
                 end)
    h (enclave_deprovision exoCtrl eval (Some d) name).
Proof.
  intros Hp. unfold enclave_deprovision. destruct (CheckNamespace _); [done|].
  destruct (requireDeployer _ _); [|done]. unfold handleEnclaveDeprovision.
  apply holds_try, holds_call_bind; [by left|]. intros [ns|e]; [|done]. simpl.
  destruct (IsEnclave (o_annotations ns)) eqn:He; cbn [negb]; [|done].
  unfold deprovision_authorized, is_oidc. rewrite (proj2 (String.eqb_neq _ _) Hp).
  destruct (String.eqb_spec (d_Email d) "") as [|Hne]; [done|].
  destruct (String.eqb_spec (d_Email d) (ei_Owner (ReadEnclaveInfo (o_annotations ns)))) as [Ho|]; [|done].
  cbn [negb].
  assert (happened (seen_owner name d) (Ev (KGet "namespaces" "" name) (Ok ns) :: h)) as Hseen
    by (apply happened_now; by exists ns).
  revert Hseen. generalize (Ev (KGet "namespaces" "" name) (Ok ns) :: h). clear. intros h Hseen.
  set (D := happened (seen_owner name d)) in *.
  assert (forall A (p : prog A) h, D h -> holds (owner_gate name d) (fun h' _ => D h') h p) as Hgate.
  { intros A p h' H. eapply holds_mono; [| |apply (holds_stable D h' p (happened_stable _) H)]; [|done].
    intros h'' r H'. by right. }
  apply holds_call_bind; [by right|]. intros deps. cbn zeta.
  apply holds_bind. eapply holds_mono; [done| |apply Hgate; by apply happened_stable]. intros h1 n H1.
  apply holds_bind. eapply holds_mono; [done| |by apply Hgate]. intros h2 [] H2.
  apply holds_bind. eapply holds_mono; [done| |by apply Hgate]. intros h3 [] H3.
  simpl. split; [by right|]. intros [[]|e]; simpl; [|done]. split; [done|]. by eexists.
Qed.

(** Ownership transfer on member removal is confined: the only deployments
    rewritten are listed tentacles whose owner is one of the removed members, and
    each keeps everything but its three owner annotations, which then name the
    enclave owner and no subject. *)
Theorem transferOrphanedTentacles_confined namespace removed newOwner h :
  holds
    (fun h r => is_write r = true ->
       exists items dep, Ev (KList "deployments" namespace "app.kubernetes.io/managed-by=tentacular") (Ok items) ∈ h /\
         dep ∈ items /\ ToLower (ann_get (o_annotations dep) AnnotationOwner) ∈ (ToLower <$> removed) /\
         exists o, r = KUpdate "deployments" namespace o /\
           o = with_annotations dep (o_annotations o) /\
           ann_get (o_annotations o) AnnotationOwner = newOwner /\
           ann_get (o_annotations o) AnnotationOwnerEmail = newOwner /\
           ann_get (o_annotations o) AnnotationOwnerSub = "" /\
           forall k, k <> AnnotationOwner -> k <> AnnotationOwnerEmail -> k <> AnnotationOwnerSub ->
                     o_annotations o !! k = o_annotations dep !! k)
    whatever h (transferOrphanedTentacles namespace removed newOwner).
Proof.
  unfold transferOrphanedTentacles. apply holds_try, holds_call_bind; [done|].
  intros [items|e]; [|done]. simpl.
  set (ev := Ev (KList "deployments" namespace _) (Ok items)).
  apply holds_bind, (holds_foldM _ (fun h' _ => ev ∈ h') _); [|done|by left].
  intros h' acc dep Hdep Hev. unfold transfer_one.
  destruct (String.eqb _ "" || negb (str_in _ _)) eqn:E; [done|].
  apply orb_false_iff in E as [_ E]. apply negb_false_iff, str_in_spec in E.
  apply holds_call_bind.
  - intros _. exists items, dep. split; [done|]. split; [done|]. split; [done|].
    eexists. split; [reflexivity|]. split; [done|]. cbn [o_annotations with_annotations].
    unfold transfer_owner.
    split; [by rewrite !ann_get_insert_ne, ann_get_insert by done|].
    split; [by rewrite ann_get_insert_ne, ann_get_insert by done|].
    split; [by rewrite ann_get_insert|]. intros. by apply transfer_owner_other.
  - intros [o|e]; simpl; by right.
Qed.

(** Nobody loses access in an ownership transfer: after the new owner is
    installed and the annotations are written, everybody who was the owner or a
    member still is one or the other, the old owner as a member; the new owner
    was a participant before. *)
Theorem sync_owner_keeps_participants p st st' :
  sync_owner p st = Ok st' -> sp_NewOwner p <> "" ->
  let info := ss_info st in
  Forall canonical_member (ei_Members info) -> Forall (fun m => is_ascii m = true) (ei_Members info) ->
  trimmed (ei_Owner info) && set (ei_Owner info) && no_byte "," (ei_Owner info) = true ->
  let info' := ReadEnclaveInfo (WriteEnclaveAnnotations (ss_info st')) in
  ei_Owner info' = sp_NewOwner p /\ isEnclaveParticipant info (sp_NewOwner p) = true /\
  ToLower (ei_Owner info) ∈ ei_Members info' /\
  (forall email, isEnclaveParticipant info email = true -> isEnclaveParticipant info' email = true).
Proof.
  intros Hs Hne info Hm Hasc Ho info'. rewrite !andb_true_iff, set_true in Ho. destruct Ho as [[Ht Hon] Hoc].
  unfold sync_owner in Hs. fold info in Hs. rewrite (proj2 (set_true _) Hne) in Hs. cbn [negb] in Hs.
  destruct (String.eqb (sp_NewOwner p) (ei_Owner info)); [done|].
  destruct (isEnclaveParticipant info (sp_NewOwner p)) eqn:Hpart; cbn [negb] in Hs; [|done].
  injection Hs as <-. unfold info'. cbn [ss_info note with_info].
  set (kept := List.filter (fun m => negb (String.eqb m (sp_NewOwner p))) (ei_Members info)).
  assert (member_norm (ei_Owner info) = ToLower (ei_Owner info)) as Hnorm
    by (unfold member_norm; by rewrite trimmed_TrimSpace).
  assert (Forall canonical_member kept) as Hk.
  { unfold kept. rewrite Forall_forall in Hm |- *. intros x Hx. apply Hm.
    apply list_elem_of_In, filter_In in Hx as [Hx _]. by apply list_elem_of_In. }
  assert (ToLower (ei_Owner info) <> "") as Hlo.
  { unfold trimmed in Ht. rewrite !andb_true_iff in Ht. destruct Ht as [[Ha _] _].
    unfold ToLower. rewrite Ha. destruct (ei_Owner info); done. }
  assert (ei_Members (ReadEnclaveInfo (WriteEnclaveAnnotations
            (set_owner info (sp_NewOwner p) (kept ++ [ei_Owner info])))) = (kept ++ [ToLower (ei_Owner info)])%list) as Hmem.
  { rewrite ReadEnclaveInfo_Write_members, ParseMembers_Format_norm.
    - cbn [ei_Members set_owner]. rewrite fmap_app. simpl. rewrite Hnorm. f_equal.
      clear -Hk. induction Hk as [|x l (_ & _ & Hx) _ IH]; [done|]. rewrite fmap_cons, Hx. by f_equal.
    - cbn [ei_Members set_owner]. apply Forall_app. split.
      + eapply Forall_impl; [exact Hk|]. intros x (Hx1 & Hx2 & Hx3). by rewrite Hx3.
      + constructor; [|constructor]. by rewrite Hnorm. }
  split; [by rewrite ReadEnclaveInfo_Write_owner|]. split; [done|]. rewrite Hmem.
  split; [apply elem_of_app; right; by left|].
  intros email. rewrite !isEnclaveParticipant_spec, Hmem, ReadEnclaveInfo_Write_owner.
  cbn [ei_Owner set_owner]. rewrite elem_of_app. intros [He|He].
  - right. right. rewrite He. by left.
  - destruct (decide (ToLower email = sp_NewOwner p)) as [Hx|Hx].
    + left. rewrite Hx in He |- *. rewrite Forall_forall in Hm, Hasc.
      symmetry. apply member_lower; [by apply Hm|by apply Hasc].
    + right. left. unfold kept. apply list_elem_of_In, filter_In. split; [by apply list_elem_of_In|].
      by rewrite negb_true_iff, String.eqb_neq.
Qed.
End ownership.

(** ** Properties: provisioning *)

Section provisioning.
Context `{U : Unicode} `{M : RustfsRegistrar.MinioLib}.

(** The creation of the namespace was accepted. *)
Definition ns_created (name : string) (e : event) : Prop :=
  match e with
  | Ev (KCreate k _ o) x => k = "namespaces" /\ o_name o = name /\ is_ok x = true
  | _ => False
  end.

(** The last thing that happened was an attempt to delete the namespace. *)
Definition just_deleted (name : string) (h : list event) : Prop :=
  exists x h', h = Ev (KDelete "namespaces" "" name) x :: h'.

Lemma rollback_deletes exoCtrl name b h :
  holds any_request (fun h' _ => just_deleted name h') h (provision_rollback exoCtrl name b).
Proof.
  unfold provision_rollback. apply holds_bind. eapply holds_mono; [done| |apply holds_any].
  intros h' [] _. apply holds_bind. unfold DeleteNamespace. apply holds_try, holds_call_bind; [done|].
  intros [[]|e]; by eexists _, _.
Qed.

Lemma handle_provision_rollback exoCtrl params h :
  ~ happened (ns_created (pp_Name params)) h ->
  holds any_request
    (fun h' r => match r with
                 | Ok _ => True
                 | Err _ => happened (ns_created (pp_Name params)) h' -> just_deleted (pp_Name params) h'
                 end)
    h (handleEnclaveProvision exoCtrl params).
Proof.
  intros Hno. unfold handleEnclaveProvision. cbn zeta.
  destruct (validQuotaPresets _); cbn [negb]; [|by intros ?%Hno].
  destruct (ValidateMembers _); [by intros ?%Hno|].
  assert (forall e, (match e with Ev (KCreate _ _ _) _ => False | _ => True end) ->
            ~ happened (ns_created (pp_Name params)) (e :: h)) as Hother.
  { intros e He (e' & [->|Hin]%elem_of_cons & Hc); [|by apply Hno; exists e'].
    by destruct e as [[] ?]. }
  apply holds_try. unfold countEnclavesOwnedBy, ListManagedNamespaces.
  apply holds_try, holds_try, holds_call_bind; [done|]. intros [items|e]; [|by intros ?%Hother].
  cbn [holds]. destruct (_ <=? _)%nat; [by intros ?%Hother|].
  specialize (Hother (Ev (KList "namespaces" "" (ManagedByLabel +:+ "=" +:+ ManagedByValue)) (Ok items)) I).
  revert Hother. generalize (Ev (KList "namespaces" "" (ManagedByLabel +:+ "=" +:+ ManagedByValue)) (Ok items) :: h).
  clear Hno h. intros h Hno. apply holds_try. unfold CreateNamespace, create_or.
  apply holds_try, holds_call_bind; [done|]. intros [o|e].
  2: { intros (e' & [->|Hin]%elem_of_cons & Hc); [|by destruct Hno; exists e'].
       by destruct Hc as (_ & _ & ?). }
  cbn [holds]. apply holds_bind. eapply holds_mono; [done| |apply holds_any].
  intros h' [b [r|err]] _; [done|]. apply holds_bind.
  eapply holds_mono; [done| |apply rollback_deletes]. intros h'' [] Hd. by intros _.
Qed.

(** C3: Provisioning is all or nothing: an [enclave_provision] that fails after
    the namespace was created - at any later step, for any reason - ends with
    the deletion of that namespace. *)
Theorem enclave_provision_rollback exoCtrl eval deployer params h :
  ~ happened (ns_created (pp_Name params)) h ->
  holds any_request
    (fun h' r => match r with
                 | Ok _ => True
                 | Err _ => happened (ns_created (pp_Name params)) h' -> just_deleted (pp_Name params) h'
                 end)
    h (enclave_provision exoCtrl eval deployer params).
Proof.
  intros Hno. unfold enclave_provision. destruct (CheckNamespace _); [by intros ?%Hno|].
  destruct (requireDeployer _ _); [|by intros ?%Hno].
  destruct (is_oidc deployer) as [d|]; [|by apply handle_provision_rollback].
  destruct (String.eqb (d_Email d) ""); [by intros ?%Hno|].
  destruct (String.eqb (d_Subject d) ""); [by intros ?%Hno|].
  match goal with |- context [handleEnclaveProvision _ ?p] =>
    exact (handle_provision_rollback exoCtrl p h Hno) end.
Qed.

(** *** Who an enclave is provisioned for *)

(** Requests that leave Namespace objects alone. *)
Definition ns_quiet (r : req) : Prop :=
  match r with
  | KCreate k _ _ | KUpdate k _ _ | KDelete k _ _ => k <> "namespaces"
  | _ => True
  end.

(** What the enclave tools rely on of a controller: its enclave operations do
    not write Namespace objects. *)
Class EnclaveQuiet (c : Controller) := {
  ensure_quiet enclave svcs h : holds (every ns_quiet) whatever h (EnsureEnclaveServices c enclave svcs);
  cleanup_quiet enclave h : holds (every ns_quiet) whatever h (CleanupEnclave c enclave);
}.

(** The registrars of this development implement it. *)
#[export] Instance production_quiet cfg pg nats rustfs spire :
  EnclaveQuiet (NewControllerWithDeps cfg (pg_registrar <$> pg) (nats_registrar <$> nats)
                  (rustfs_registrar <$> rustfs) spire).
Proof.
  split.
  - intros enclave svcs h. unfold EnsureEnclaveServices. destruct (negb _); [done|].
    destruct svcs as [|svc svcs]; [done|]. destruct (CompileEnclaveIdentity enclave) as [id|]; [|done].
    generalize (svc :: svcs). clear. intros l. revert h. induction l as [|svc l IH]; intros h; [done|].
    cbn [ensure_services]. apply holds_try.
    unfold ensure_service. destruct (String.eqb svc "postgres"); [destruct pg; [apply IH|done]|].
    destruct (_ || _); [destruct rustfs; [apply IH|done]|].
    destruct (String.eqb svc "nats"); [destruct nats; [apply IH|done]|]. apply IH.
  - intros enclave h. unfold CleanupEnclave. destruct (negb _); [done|].
    destruct (CompileEnclaveIdentity enclave) as [id|]; [|done].
    by destruct pg, nats, rustfs.
Qed.

(** What provisioning may do to Namespace objects: create one only after
    counting fewer than the limit, and write annotations that name the owner. *)
Definition provision_gate (params : EnclaveProvisionParams) (h : list event) (r : req) : Prop :=
  match r with
  | KCreate k _ _ =>
      k = "namespaces" -> exists items, Ev (KList "namespaces" "" (ManagedByLabel +:+ "=" +:+ ManagedByValue)) (Ok items) ∈ h /\
        (length (List.filter (fun ns => IsEnclave (o_annotations ns)
                   && String.eqb (ToLower (ei_Owner (ReadEnclaveInfo (o_annotations ns))))
                                 (ToLower (pp_OwnerEmail params))) items) < MaxEnclavesPerOwner)%nat
  | KUpdate k _ o =>
      k = "namespaces" ->
      ann_get (o_annotations o) AnnotationEnclave = pp_Name params /\
      ann_get (o_annotations o) AnnotationEnclaveOwner = pp_OwnerEmail params /\
      ann_get (o_annotations o) AnnotationEnclaveOwnerSub = pp_OwnerSub params /\
      ann_get (o_annotations o) AnnotationEnclaveStatus = "active"
  | KDelete k _ name => k = "namespaces" -> name = pp_Name params
  | _ => True
  end.

Lemma quiet_gate params h r : ns_quiet r -> provision_gate params h r.
Proof.
  unfold ns_quiet, provision_gate. by destruct r.
Qed.

Lemma annotate_get ns new k v : new !! k = Some v -> ann_get (o_annotations (annotate ns new)) k = v.
Proof.
  intros H. unfold annotate, ann_get. cbn [o_annotations with_annotations].
  by rewrite (lookup_union_Some_l _ _ _ _ H).
Qed.

Lemma holds_quiet {A} params (Q : list event -> A -> Prop) (p : prog A) h :
  (forall h' a, Q h' a) -> holds (every ns_quiet) whatever h p -> holds (provision_gate params) Q h p.
Proof. intros HQ. apply holds_mono; [intros; by apply quiet_gate|done]. Qed.

(** Each helper of [K8sOps] creates one object of another kind. *)
Lemma helpers_quiet name preset h :
  holds (every ns_quiet) whatever h (CreateDefaultDenyPolicy name) /\
  holds (every ns_quiet) whatever h (CreateDNSAllowPolicy name) /\
  holds (every ns_quiet) whatever h (CreateResourceQuota name preset) /\
  holds (every ns_quiet) whatever h (CreateLimitRange name) /\
  holds (every ns_quiet) whatever h (CreateWorkflowServiceAccount name) /\
  holds (every ns_quiet) whatever h (CreateWorkflowRole name) /\
  holds (every ns_quiet) whatever h (CreateWorkflowRoleBinding name).
Proof.
  assert (forall k o f g h, k <> "namespaces" -> holds (every ns_quiet) whatever h (create_or k name o f g)) as Hc.
  { intros k o f g h' Hk. apply holds_try, holds_call_bind; [done|]. by intros [|]. }
  unfold CreateResourceQuota. destruct (quotaPresets !! preset); repeat split; try done; by apply Hc.
Qed.

(** A quiet step of the body, whatever comes of it. *)
Lemma gate_step {A B} params (Q : list event -> B -> Prop) h (p : prog (res A)) f k :
  (forall h' b, Q h' b) -> holds (every ns_quiet) whatever h p ->
  (forall h' x, holds (provision_gate params) Q h' (k x)) ->
  holds (provision_gate params) Q h (try_with f p k).
Proof.
  intros HQ Hp Hk. apply holds_try. eapply holds_mono; [| |exact Hp].
  - intros. by apply quiet_gate.
  - intros h' [x|e] _; [apply Hk|apply HQ].
Qed.

Lemma body_gate c params preset h :
  (match c with Some c => EnclaveQuiet c | None => True end) ->
  holds (provision_gate params) whatever h (provision_body c params preset).
Proof.
  intros Hq. unfold provision_body. cbn zeta. apply holds_call_bind; [done|]. intros t.
  destruct (ValidateEnclaveInfo _); [done|].
  apply holds_try, holds_call_bind; [done|]. intros [ns|e]; [|done]. cbn [holds].
  apply holds_try, holds_call_bind.
  { intros _. repeat split; apply annotate_get; rewrite lookup_insert_ne by discriminate;
      unfold WriteEnclaveAnnotations; ann_lookup; reflexivity. }
  intros [o|e]; [|done]. cbn [holds].
  pose proof (helpers_quiet (pp_Name params) preset) as Hh.
  do 7 (apply gate_step; [done|apply Hh|]; intros ? []).
  destruct c as [c|]; [|done]. by apply gate_step; [done|apply Hq|].
Qed.

Lemma handle_provision_gate c params h :
  (match c with Some c => EnclaveQuiet c | None => True end) ->
  holds (provision_gate params) whatever h (handleEnclaveProvision c params).
Proof.
  intros Hq. unfold handleEnclaveProvision. cbn zeta. destruct (negb _); [done|].
  destruct (ValidateMembers _); [done|].
  apply holds_try. unfold countEnclavesOwnedBy, ListManagedNamespaces.
  apply holds_try, holds_try, holds_call_bind; [done|]. intros [items|e]; [|done]. cbn [holds].
  destruct (Nat.leb_spec MaxEnclavesPerOwner (length (List.filter (fun ns => IsEnclave (o_annotations ns)
     && String.eqb (ToLower (ei_Owner (ReadEnclaveInfo (o_annotations ns)))) (ToLower (pp_OwnerEmail params))) items)))
    as [|Hlt]; [done|].
  apply holds_try. unfold CreateNamespace, create_or. apply holds_try, holds_call_bind.
  { intros _. exists items. split; [by left|exact Hlt]. }
  intros [o|e]; [|done]. cbn [holds]. apply holds_bind.
  eapply holds_mono; [done| |by apply body_gate]. intros h' [b [r|err]] _; [done|].
  apply holds_bind. unfold provision_rollback.
  eapply (holds_mono (provision_gate params) _ whatever); [done|done|].
  apply holds_bind. eapply (holds_mono _ _ whatever).
  - done.
  - intros h1 [] _. unfold DeleteNamespace. apply holds_bind, holds_try, holds_call_bind; [done|].
    by intros [|].
  - destruct c as [c|]; [|done]. destruct b; [|done]. apply holds_bind.
    eapply holds_mono; [| |apply Hq]; [intros; by apply quiet_gate|done].
Qed.

(** C21: Provisioning is bounded and attributed: a namespace is created only
    after a listing that showed the owner fewer than the limit of enclaves, the
    only enclave metadata ever written names the new enclave and its owner, and
    for an OIDC caller that owner is the caller, whatever the parameters say. *)
Theorem enclave_provision_attributed exoCtrl eval deployer params h :
  (match exoCtrl with Some c => EnclaveQuiet c | None => True end) ->
  let owner := match is_oidc deployer with
               | Some d => (d_Email d, d_Subject d)
               | None => (pp_OwnerEmail params, pp_OwnerSub params)
               end in
  holds (provision_gate
           {| pp_Name := pp_Name params; pp_OwnerEmail := owner.1; pp_OwnerSub := owner.2;
              pp_Platform := pp_Platform params; pp_ChannelID := pp_ChannelID params;
              pp_ChannelName := pp_ChannelName params; pp_QuotaPreset := pp_QuotaPreset params;
              pp_DefaultMode := pp_DefaultMode params; pp_Members := pp_Members params |})
    whatever h (enclave_provision exoCtrl eval deployer params).
Proof.
  intros Hq owner. unfold enclave_provision. destruct (CheckNamespace _); [done|].
  destruct (requireDeployer _ _); [|done]. unfold owner. clear owner.
  destruct (is_oidc deployer) as [d|]; cbn [fst snd].
  - destruct (String.eqb (d_Email d) ""); [done|]. destruct (String.eqb (d_Subject d) ""); [done|].
    by apply handle_provision_gate.
  - destruct params. by apply handle_provision_gate.
Qed.
End provisioning.

(** ** Properties: visibility *)

Section visibility.
Context `{U : Unicode}.

(** What the metadata tools show is what the evaluator would let an OIDC
    caller with an email read, plus an enclave's own members even where the mode
    denies members reading. *)
Theorem visible_to_spec ev d ann :
  ev_Enabled ev = true -> d_Provider d <> "bearer-token" -> ToLower (d_Email d) <> "" ->
  IsEnclave ann = true ->
  visible_to ann (d_Email d) = true <->
  dec_Allowed (CheckEnclave (Some ev) (Some d) ann Read) = true \/ is_member ann d.
Proof.
  intros He Hp Hne Hen. rewrite CheckEnclave_enabled by done. unfold enclave_allows.
  unfold IsEnclave in Hen. rewrite negb_true_iff, String.eqb_neq in Hen.
  unfold visible_to. rewrite orb_true_iff, isEnclaveParticipant_spec.
  change (ToLower (d_Email d) ∈ ei_Members (ReadEnclaveInfo ann)) with (is_member ann d).
  assert (OtherRead (resolve_mode DefaultEnclaveMode ann)
          = triple_allows (resolve_mode DefaultEnclaveMode ann) 0 Read) as ->.
  { unfold OtherRead, ModeOtherRead. by rewrite has_bit_testbit. }
  unfold is_enclave_owner, named_by, enclave_principal.
  assert (forall P Q : Prop, (P \/ Q) <-> (Q \/ P)) as Hsw by tauto.
  destruct (bool_decide_reflect (is_member ann d)) as [Hm|Hm]; cbn [principal_base]; [tauto|].
  split.
  - intros [[Ho|?]|Ht]; [|done|].
    + left. right. split; [done|]. left. split; [|exact Ho]. intros H0. apply Hne.
      rewrite Ho. exact H0.
    + left. right. split; [done|]. by right.
  - intros [[?|[_ [[_ Ho]|Ht]]]|?]; [done|by left; left|by right|done].
Qed.

(** An OIDC caller without an email claim is not filtered: it lists every enclave. *)
Lemma enclave_list_no_email d ns :
  d_Provider d <> "bearer-token" -> d_Email d = "" ->
  listed (match is_oidc (Some d) with Some d => d_Email d | None => "" end) ns
  = negb (String.eqb (ns_phase ns) "Terminating") && IsEnclave (o_annotations ns).
Proof.
  intros Hp He. unfold is_oidc. rewrite (proj2 (String.eqb_neq _ _) Hp), He.
  unfold listed. by rewrite andb_true_r.
Qed.
End visibility.

(** ** Witnesses *)

Definition sync_example : EnclaveSyncParams :=
  {| sp_Name := "team"; sp_NewOwner := "bob@x.org"; sp_NewChannelName := ""; sp_NewStatus := "";
     sp_NewMode := ""; sp_NewQuotaPreset := ""; sp_AddMembers := []; sp_RemoveMembers := [] |}.

Lemma enclave_sync_owner_only_witness :
  holds (owner_gate "team" bob) whatever []
    (enclave_sync (U := ascii_tables) (Some (NewEvaluator DefaultMode)) (Some bob) sync_example).
Proof.
  apply (enclave_sync_owner_only (U := ascii_tables) (Some (NewEvaluator DefaultMode)) bob sync_example);
    [discriminate|reflexivity].
Defined.

Lemma enclave_deprovision_owner_only_witness :
  holds (owner_gate "team" bob) whatever []
    (enclave_deprovision (U := ascii_tables) None (Some (NewEvaluator DefaultMode)) (Some bob) "team").
Proof.
  eapply holds_mono; [intros h r H; exact H| |
    apply (enclave_deprovision_owner_only (U := ascii_tables) None (Some (NewEvaluator DefaultMode)) bob "team");
    discriminate].
  intros h r _. exact I.
Defined.

Definition provision_example : EnclaveProvisionParams :=
  {| pp_Name := "team"; pp_OwnerEmail := "ada@x.org"; pp_OwnerSub := "1"; pp_Platform := "slack";
     pp_ChannelID := "C1"; pp_ChannelName := "team"; pp_QuotaPreset := ""; pp_DefaultMode := "";
     pp_Members := ["bob@x.org"] |}.

Lemma enclave_provision_rollback_witness :
  holds any_request
    (fun h' r => match r with
                 | Ok _ => True
                 | Err _ => happened (ns_created "team") h' -> just_deleted "team" h'
                 end) []
    (enclave_provision (U := ascii_tables) None None None provision_example).
Proof.
  apply (enclave_provision_rollback (U := ascii_tables) None None None provision_example).
  intros (e & He & _). by apply elem_of_nil in He.
Defined.

Lemma enclave_provision_attributed_witness :
  holds (provision_gate (U := ascii_tables) provision_example) whatever []
    (enclave_provision (U := ascii_tables) None None None provision_example).
Proof.
  exact (enclave_provision_attributed (U := ascii_tables) None None None provision_example [] I).
Defined.

(** Provisioning runs to completion in an empty cluster. *)
Example enclave_provision_runs :
  pr_ResourcesCreated <$> (match (exec (enclave_provision (U := ascii_tables) None None None provision_example) empty_cluster).1 with
                           | Ok r => Some r
                           | Err _ => None
                           end)
  = Some ["namespace/team"; "annotation/enclave-metadata"; "networkpolicy/default-deny";
          "networkpolicy/allow-dns"; "resourcequota/tentacular-quota"; "limitrange/tentacular-limits";
          "serviceaccount/tentacular-workflow"; "role/tentacular-workflow"; "rolebinding/tentacular-workflow"].
Proof. vm_compute. reflexivity. Qed.

Lemma sync_owner_keeps_participants_witness :
  exists st', sync_owner (U := ascii_tables) sync_example
      {| ss_info := ReadEnclaveInfo (U := ascii_tables) ann_example; ss_ann := ann_example;
         ss_updated := []; ss_transfers := [] |} = Ok st' /\
    isEnclaveParticipant (U := ascii_tables)
      (ReadEnclaveInfo (U := ascii_tables) (WriteEnclaveAnnotations (ss_info st'))) "Ada@x.org" = true.
Proof.
  eexists. split; [vm_compute; reflexivity|].
  eapply (sync_owner_keeps_participants (U := ascii_tables) sync_example
            {| ss_info := ReadEnclaveInfo (U := ascii_tables) ann_example; ss_ann := ann_example;
               ss_updated := []; ss_transfers := [] |});
    [vm_compute; reflexivity|discriminate| | | |].
  - apply (ParseMembers_canonical (U := ascii_tables)). vm_compute. reflexivity.
  - vm_compute. repeat constructor.
  - vm_compute. reflexivity.
  - vm_compute. reflexivity.
Defined.

Lemma visible_to_spec_witness :
  visible_to (U := ascii_tables) ann_example (d_Email bob) = true <->
  dec_Allowed (CheckEnclave (U := ascii_tables) (Some (NewEvaluator DefaultMode)) (Some bob) ann_example Read) = true
  \/ is_member (U := ascii_tables) ann_example bob.
Proof.
  apply (visible_to_spec (U := ascii_tables) (NewEvaluator DefaultMode) bob ann_example);
    [reflexivity|discriminate|vm_compute; discriminate|vm_compute; reflexivity].
Defined.
