(* ===== verification/PsaDefaults.v ===== *)
(** * Security defaults of applied workloads (pkg/tools/deploy.go)

    Before it validates and applies a workload, the server fills in the security
    settings the restricted policy asks for, where the author left them out. *)

From S2P Require Import Prelude GoStrings Effects K8sOps Unstructured Psa.
#[local] Open Scope string_scope.

Section defaults.
Context `{L : UnstructuredLib}.

Definition setIfAbsent (obj : manifest) (v : value) (fields : list string) : manifest :=
  if NestedFieldFound obj fields then obj else SetNestedField obj v fields.

(** [m[key] == s] on a map of interface values. *)
Definition key_is (key s : string) (v : value) : bool :=
  match v with
  | VMap m => match map_get key m with
              | Some (VStr s') => String.eqb s' s
              | _ => false
              end
  | _ => false
  end.

(** The settings of one container, in order. *)
Definition container_defaults (c : manifest) : manifest :=
  let c := setIfAbsent c (VBool false) ["securityContext"; "allowPrivilegeEscalation"] in
  let c := setIfAbsent c (VBool true) ["securityContext"; "readOnlyRootFilesystem"] in
  let c := setIfAbsent c (VBool true) ["securityContext"; "runAsNonRoot"] in
  let c := setIfAbsent c (VList [VStr "ALL"]) ["securityContext"; "capabilities"; "drop"] in
  setIfAbsent c (VStr "RuntimeDefault") ["securityContext"; "seccompProfile"; "type"].

(** The body of the container loop; the flag says whether the container has a
    [/tmp] mount afterwards. *)
Definition ensure_container (c : manifest) : manifest * bool :=
  let c := container_defaults c in
  let vms := default [] (NestedSlice c ["volumeMounts"]) in
  let containerHasTmp := existsb (key_is "mountPath" "/tmp") vms in
  if is_true (NestedBool c ["securityContext"; "readOnlyRootFilesystem"]) && negb containerHasTmp
  then (SetNestedSlice c (vms ++ [VMap [("name", VStr "tmp"); ("mountPath", VStr "/tmp")]])%list ["volumeMounts"], true)
  else (c, containerHasTmp).

Definition ensure_element (cRaw : value) : value * bool :=
  match cRaw with
  | VMap c => let (c', needs) := ensure_container c in (VMap c', needs)
  | _ => (cRaw, false)
  end.

(** One of the two container lists. *)
Definition ensure_field (podSpecPath : list string) (st : manifest * bool) (field : string) : manifest * bool :=
  let path := (podSpecPath ++ [field])%list in
  match NestedSlice st.1 path with
  | None => st
  | Some containersRaw =>
      let done := ensure_element <$> containersRaw in
      (SetNestedSlice st.1 done.*1 path, st.2 || existsb id done.*2)
  end.

Definition ensure_tmp_volume (obj : manifest) (podSpecPath : list string) : manifest :=
  let path := (podSpecPath ++ ["volumes"])%list in
  let volumes := default [] (NestedSlice obj path) in
  if existsb (key_is "name" "tmp") volumes then obj
  else SetNestedSlice obj (volumes ++ [VMap [("name", VStr "tmp"); ("emptyDir", VMap [])]])%list path.

(** The pod-level settings. *)
Definition pod_defaults (obj : manifest) (podSpecPath : list string) : manifest :=
  let obj := setIfAbsent obj (VBool true) (podSpecPath ++ ["securityContext"; "runAsNonRoot"])%list in
  setIfAbsent obj (VStr "RuntimeDefault") (podSpecPath ++ ["securityContext"; "seccompProfile"; "type"])%list.

Definition ensurePodSpecPSA (obj : manifest) (podSpecPath : list string) : manifest :=
  let st := foldl (ensure_field podSpecPath) (pod_defaults obj podSpecPath, false) ["containers"; "initContainers"] in
  if st.2 then ensure_tmp_volume st.1 podSpecPath else st.1.

(** One manifest of the loop of [ensurePSACompliance]. *)
Definition ensure_manifest (m : manifest) : manifest :=
  match pod_spec_path (default "" (NestedString m ["kind"])) with
  | Some path => ensurePodSpecPSA m path
  | None => m
  end.

Definition ensurePSACompliance (manifests : list manifest) : list manifest := ensure_manifest <$> manifests.
End defaults.

(** ** Specification *)

(** The value a field has once the default is filled in. *)
Definition effective (m : manifest) (p : list string) (v : value) : option value :=
  match at_path (VMap m) p with
  | Some x => Some x
  | None => if blocked m p then None else Some v
  end.

(** What the author of a container wrote, completed with the defaults, is allowed. *)
Definition author_ok (podRun podSeccomp : bool) (c : manifest) : Prop :=
  (podRun = true \/ effective c ["securityContext"; "runAsNonRoot"] (VBool true) = Some (VBool true)) /\
  effective c ["securityContext"; "allowPrivilegeEscalation"] (VBool false) = Some (VBool false) /\
  (exists l drop, effective c ["securityContext"; "capabilities"; "drop"] (VList [VStr "ALL"]) = Some (VList l) /\
                  mapM as_string l = Some drop /\ containsALL drop = true) /\
  (podSeccomp = true \/
   exists t, effective c ["securityContext"; "seccompProfile"; "type"] (VStr "RuntimeDefault") = Some (VStr t) /\
             isValidSeccompType t = true).

Definition pod_run (m : manifest) (path : list string) : bool :=
  match effective m (path ++ ["securityContext"; "runAsNonRoot"])%list (VBool true) with
  | Some (VBool b) => b
  | _ => false
  end.
Definition pod_seccomp (m : manifest) (path : list string) : bool :=
  match effective m (path ++ ["securityContext"; "seccompProfile"; "type"])%list (VStr "RuntimeDefault") with
  | Some (VStr t) => isValidSeccompType t
  | _ => false
  end.

(** The containers of a manifest as its author wrote them. *)
Definition author_workload_ok (m : manifest) : Prop :=
  forall path, pod_spec_path (default "" (get_string m ["kind"])) = Some path ->
  forall field cs c, field ∈ ["containers"; "initContainers"] ->
    at_path (VMap m) (path ++ [field])%list = Some (VList cs) -> VMap c ∈ cs ->
    author_ok (pod_run m path) (pod_seccomp m path) c.

(** ** Lemmas *)

Section lemmas.
Context `{L : UnstructuredLib} `{!UnstructuredLaws L}.

Lemma setIfAbsent_found m v p x : at_path (VMap m) p = Some x -> setIfAbsent m v p = m.
Proof. intros H. unfold setIfAbsent. rewrite law_Found, H. by rewrite bool_decide_true. Qed.

Lemma setIfAbsent_at m v p : p <> [] -> at_path (VMap (setIfAbsent m v p)) p = effective m p v.
Proof.
  intros Hp. unfold effective. destruct (at_path (VMap m) p) as [x|] eqn:H.
  - by rewrite (setIfAbsent_found _ _ _ _ H).
  - unfold setIfAbsent. rewrite law_Found, H, bool_decide_false by by intros [? ?].
    rewrite law_SetField. by apply at_set_field.
Qed.

Lemma setIfAbsent_at_ne m v p q : apartb p q = true -> at_path (VMap (setIfAbsent m v p)) q = at_path (VMap m) q.
Proof.
  intros Ha. unfold setIfAbsent. destruct (NestedFieldFound m p); [done|].
  rewrite law_SetField. by apply at_set_field_ne.
Qed.

Lemma setIfAbsent_blocked_ne m v p q : apartb p q = true -> blocked (setIfAbsent m v p) q = blocked m q.
Proof.
  intros Ha. unfold setIfAbsent. destruct (NestedFieldFound m p); [done|].
  rewrite law_SetField. by apply blocked_set_field.
Qed.

(** Defaults for other fields do not change the effective value of one. *)
Lemma setIfAbsent_effective_ne m v p q w : apartb p q = true -> effective (setIfAbsent m v p) q w = effective m q w.
Proof. intros Ha. unfold effective. by rewrite setIfAbsent_at_ne, setIfAbsent_blocked_ne. Qed.

(** The field [p] after a run of defaults, one of them its own. *)
Ltac default_at :=
  repeat rewrite setIfAbsent_at_ne by reflexivity; rewrite setIfAbsent_at by done;
  repeat rewrite setIfAbsent_effective_ne by reflexivity; reflexivity.

Lemma container_defaults_at c p v :
  (p, v) ∈ [(["securityContext"; "allowPrivilegeEscalation"], VBool false);
            (["securityContext"; "runAsNonRoot"], VBool true);
            (["securityContext"; "capabilities"; "drop"], VList [VStr "ALL"]);
            (["securityContext"; "seccompProfile"; "type"], VStr "RuntimeDefault")] ->
  at_path (VMap (container_defaults c)) p = effective c p v.
Proof.
  unfold container_defaults. cbn zeta. rewrite !elem_of_cons, elem_of_nil.
  intros [[= -> ->]|[[= -> ->]|[[= -> ->]|[[= -> ->]|[]]]]]; default_at.
Qed.

Lemma ensure_container_at c p :
  apartb ["volumeMounts"] p = true -> at_path (VMap (ensure_container c).1) p = at_path (VMap (container_defaults c)) p.
Proof.
  intros Ha. unfold ensure_container. cbn zeta. destruct (_ && _); [|done]. cbn [fst].
  rewrite law_SetSlice. by apply at_set_field_ne.
Qed.

Lemma ensure_container_compliant podRun podSeccomp c :
  compliant podRun podSeccomp (ensure_container c).1 <-> author_ok podRun podSeccomp c.
Proof.
  unfold compliant, author_ok. rewrite !law_Bool, !law_StringSlice, !law_String. unfold get_string.
  rewrite !ensure_container_at by reflexivity.
  erewrite !container_defaults_at by (rewrite !elem_of_cons; naive_solver).
  set (r := effective c _ (VBool true)). set (a := effective c _ (VBool false)).
  set (d := effective c _ (VList [VStr "ALL"])). set (s := effective c _ (VStr "RuntimeDefault")).
  assert (forall (o : option value) b, match o with Some (VBool b') => Some b' | _ => None end = Some b
                                       <-> o = Some (VBool b)) as Hb.
  { intros [[]|] b'; split; try done; by intros [= <-]. }
  rewrite !Hb.
  assert ((exists drop, match d with Some (VList l) => mapM as_string l | _ => None end = Some drop /\ containsALL drop = true)
          <-> exists l drop, d = Some (VList l) /\ mapM as_string l = Some drop /\ containsALL drop = true) as ->.
  { split; [|by intros (l & drop & -> & H); eauto]. intros (drop & Hd & H).
    destruct d as [[]|]; try done. by exists l, drop. }
  assert ((exists t, s ≫= as_string = Some t /\ isValidSeccompType t = true)
          <-> exists t, s = Some (VStr t) /\ isValidSeccompType t = true) as ->; [|done].
  split; [|by intros (t & -> & H); eauto]. intros (t & (v & -> & Hv)%bind_Some & H).
  destruct v; try done. injection Hv as ->. eauto.
Qed.

(** *** The container lists *)

Definition ensured (cs : list value) : list value := (ensure_element <$> cs).*1.

Lemma ensure_field_at path st f :
  at_path (VMap (ensure_field path st f).1) (path ++ [f])%list =
  match at_path (VMap st.1) (path ++ [f])%list with
  | Some (VList cs) => Some (VList (ensured cs))
  | o => o
  end.
Proof.
  unfold ensure_field. cbn zeta. rewrite law_Slice.
  destruct (at_path (VMap st.1) (path ++ [f])%list) as [[]|] eqn:H; cbn [fst]; try exact H.
  rewrite law_SetSlice, at_set_field by by destruct path. by rewrite (at_not_blocked _ _ _ H).
Qed.

Lemma ensure_field_at_ne path st f q :
  apartb (path ++ [f])%list q = true -> at_path (VMap (ensure_field path st f).1) q = at_path (VMap st.1) q.
Proof.
  intros Ha. unfold ensure_field. cbn zeta. destruct (NestedSlice st.1 _); [|done]. cbn [fst].
  rewrite law_SetSlice. by apply at_set_field_ne.
Qed.

Lemma ensure_tmp_volume_at_ne m path q :
  apartb (path ++ ["volumes"])%list q = true -> at_path (VMap (ensure_tmp_volume m path)) q = at_path (VMap m) q.
Proof.
  intros Ha. unfold ensure_tmp_volume. cbn zeta. destruct (existsb _ _); [done|].
  rewrite law_SetSlice. by apply at_set_field_ne.
Qed.

(** Apart from the volumes, the result is what the two container loops leave. *)
Lemma ensurePodSpec_loops m path q :
  apartb (path ++ ["volumes"])%list q = true ->
  at_path (VMap (ensurePodSpecPSA m path)) q =
  at_path (VMap (ensure_field path (ensure_field path (pod_defaults m path, false) "containers") "initContainers").1) q.
Proof.
  intros Ha. unfold ensurePodSpecPSA. cbn [foldl]. cbn zeta.
  destruct (ensure_field _ _ "initContainers") as [o []]; [by apply ensure_tmp_volume_at_ne|done].
Qed.

(** The pod's two settings take their effective values. *)
Lemma ensurePodSpec_pod m path q v :
  (q, v) ∈ [(["securityContext"; "runAsNonRoot"], VBool true);
            (["securityContext"; "seccompProfile"; "type"], VStr "RuntimeDefault")] ->
  at_path (VMap (ensurePodSpecPSA m path)) (path ++ q)%list = effective m (path ++ q)%list v.
Proof.
  intros Hq. rewrite ensurePodSpec_loops by (rewrite apartb_app; by in_cases Hq).
  rewrite !ensure_field_at_ne by (rewrite apartb_app; by in_cases Hq). cbn [fst]. unfold pod_defaults.
  in_cases Hq.
  - rewrite setIfAbsent_at_ne by by rewrite apartb_app. apply setIfAbsent_at. by destruct path.
  - rewrite setIfAbsent_at by by destruct path. apply setIfAbsent_effective_ne. by rewrite apartb_app.
Qed.

(** Each container of the two lists takes its defaults. *)
Lemma ensurePodSpec_containers m path f :
  f ∈ ["containers"; "initContainers"] ->
  at_path (VMap (ensurePodSpecPSA m path)) (path ++ [f])%list =
  match at_path (VMap m) (path ++ [f])%list with
  | Some (VList cs) => Some (VList (ensured cs))
  | o => o
  end.
Proof.
  intros Hf. rewrite ensurePodSpec_loops by (rewrite apartb_app; by in_cases Hf).
  assert (at_path (VMap (pod_defaults m path)) (path ++ [f])%list = at_path (VMap m) (path ++ [f])%list) as <-.
  { unfold pod_defaults. by rewrite !setIfAbsent_at_ne by (rewrite apartb_app; by in_cases Hf). }
  in_cases Hf.
  - rewrite ensure_field_at_ne by by rewrite apartb_app. by rewrite ensure_field_at.
  - rewrite ensure_field_at. by rewrite ensure_field_at_ne by by rewrite apartb_app.
Qed.

Lemma ensured_elem c cs : VMap c ∈ ensured cs <-> exists c0, VMap c0 ∈ cs /\ c = (ensure_container c0).1.
Proof.
  unfold ensured. rewrite list_elem_of_fmap. setoid_rewrite list_elem_of_fmap. split.
  - intros (y & Hy & (x & -> & Hx)). destruct x; try done. cbn [ensure_element] in Hy.
    exists m. split; [done|]. by destruct (ensure_container m); injection Hy as ->.
  - intros (c0 & Hc0 & ->). eexists. split; [|by eexists]. simpl. by destruct (ensure_container c0).
Qed.

(** The path to the pod spec starts with [spec]. *)
Lemma pod_spec_path_kind k path : pod_spec_path k = Some path -> exists rest, path = "spec" :: rest.
Proof. unfold pod_spec_path. split_matches; intros [= <-]; by eexists. Qed.

Lemma pod_defaults_kind m path : (exists rest, path = "spec" :: rest) -> at_path (VMap (ensurePodSpecPSA m path)) ["kind"] = at_path (VMap m) ["kind"].
Proof.
  intros [rest ->]. rewrite ensurePodSpec_loops by done. rewrite !ensure_field_at_ne by done.
  cbn [fst]. unfold pod_defaults. by rewrite !setIfAbsent_at_ne.
Qed.

(** The policy on a manifest after the defaults is the specification before them. *)
Lemma ensure_manifest_ok m : workload_ok (ensure_manifest m) <-> author_workload_ok m.
Proof.
  unfold workload_ok, author_workload_ok, ensure_manifest. rewrite law_Kind, law_String.
  set (k := default "" (get_string m ["kind"])).
  destruct (pod_spec_path k) as [path|] eqn:Hp.
  2: { fold k. rewrite Hp. by split. }
  assert (default "" (get_string (ensurePodSpecPSA m path) ["kind"]) = k) as ->.
  { unfold k, get_string. by rewrite pod_defaults_kind by by eapply pod_spec_path_kind. }
  rewrite Hp. assert (pod_run_as_non_root (ensurePodSpecPSA m path) path = pod_run m path) as Hrun.
  { unfold pod_run_as_non_root, pod_run, is_true. rewrite law_Bool.
    erewrite ensurePodSpec_pod by by left. by destruct (effective _ _ _) as [[]|]. }
  assert (pod_seccomp_ok (ensurePodSpecPSA m path) path = pod_seccomp m path) as Hsec.
  { unfold pod_seccomp_ok, pod_seccomp. rewrite law_String. unfold get_string.
    erewrite ensurePodSpec_pod by (right; by left). by destruct (effective _ _ _) as [[]|]. }
  split; intros H p [= <-] f cs c Hf.
  - intros Hcs Hc. apply ensure_container_compliant. rewrite <- Hrun, <- Hsec. eapply H; [done|exact Hf| |].
    + rewrite law_Slice, ensurePodSpec_containers, Hcs by done. reflexivity.
    + apply ensured_elem. eauto.
  - rewrite law_Slice, ensurePodSpec_containers by done.
    destruct (at_path (VMap m) (path ++ [f])%list) as [[]|] eqn:Hcs; try done. intros [= <-].
    intros (c0 & Hc0 & ->)%ensured_elem. rewrite Hrun, Hsec. apply ensure_container_compliant. by eapply H.
Qed.
End lemmas.

(** ** Properties *)

(** C29: The defaults are enough and never override the author: after
    [ensurePSACompliance], [ValidatePSA] accepts the manifests exactly when the
    level is privileged or every container of every workload is allowed with the
    values its author set, completed by the defaults where a field was left out. *)
Theorem ensurePSACompliance_ValidatePSA `{U : Unicode} `{L : UnstructuredLib} `{!UnstructuredLaws L}
    namespace level manifests :
  ValidatePSA namespace level (ensurePSACompliance manifests) = None <->
  level = "" \/ level = PSALevelPrivileged \/ Forall author_workload_ok manifests.
Proof.
  rewrite ValidatePSA_None. unfold ensurePSACompliance. rewrite Forall_fmap.
  assert (Forall (workload_ok ∘ ensure_manifest) manifests <-> Forall author_workload_ok manifests) as ->; [|done].
  rewrite !Forall_forall. unfold compose. by setoid_rewrite ensure_manifest_ok.
Qed.

(** ** Witnesses *)

(** A deployment whose author says nothing about security. *)
Definition plain_deployment : manifest :=
  [("apiVersion", VStr "apps/v1"); ("kind", VStr "Deployment"); ("metadata", VMap [("name", VStr "wf")]);
   ("spec", VMap [("template", VMap [("spec", VMap
      [("containers", VList [VMap [("name", VStr "engine"); ("image", VStr "e:1")]])])])])].

Lemma ensurePSACompliance_ValidatePSA_witness :
  ValidatePSA (U := ascii_tables) (L := path_lib) "ns" "restricted" [plain_deployment] <> None /\
  Forall author_workload_ok [plain_deployment].
Proof.
  split; [by vm_compute|].
  assert (ValidatePSA (U := ascii_tables) (L := path_lib) "ns" "restricted"
            (ensurePSACompliance (L := path_lib) [plain_deployment]) = None) as H by by vm_compute.
  apply (ensurePSACompliance_ValidatePSA (U := ascii_tables) (UnstructuredLaws0 := path_laws)) in H.
  by destruct H as [?|[?|?]].
Defined.
