(* ===== verification/Enrich.v ===== *)
(** * Manifest enrichment (pkg/exoskeleton/enrich.go)

    What the server adds to the manifests of a workflow before they are applied:
    who deployed it and who owns it, the flags and network rules its telemetry
    needs, and the volume of its SPIRE identity.  A Go manifest is a map that the
    functions change in place; here each returns the changed list. *)

From S2P Require Import Prelude GoStrings GoTime Mode Annotations Auth.
From S2P Require Import Effects K8sOps Unstructured PsaDefaults.
#[local] Open Scope string_scope.

Section enrich.
Context `{L : UnstructuredLib}.

(** A loop that changes the first manifest it finds and returns. *)
Fixpoint on_first (found : manifest -> bool) (f : manifest -> manifest) (manifests : list manifest) : list manifest :=
  match manifests with
  | [] => []
  | m :: rest => if found m then f m :: rest else m :: on_first found f rest
  end.

Definition is_kind (kind : string) (m : manifest) : bool := String.eqb (GetKind m) kind.

(** ** Ownership and provenance *)

Record AnnotateDeployerParams := {
  ad_ExistingAnnotations : annotations;
  ad_Mode : string;
  ad_Deployer : DeployerInfo;
  ad_IsUpdate : bool;
}.

Definition ownershipKeys : list string :=
  ["tentacular.io/owner"; "tentacular.io/owner-sub"; "tentacular.io/owner-email"; "tentacular.io/owner-name";
   "tentacular.io/mode"; "tentacular.io/created-at"].

(** Provenance, stamped on every apply. *)
Definition provenance (p : AnnotateDeployerParams) (now : string) (ann : annotations) : annotations :=
  let d := ad_Deployer p in
  let deployedBy := if String.eqb (d_Email d) "" then "bearer-token" else d_Email d in
  let deployedVia := if String.eqb (d_AgentType d) "" then "unknown" else d_AgentType d in
  <["tentacular.io/auth-provider" := d_Provider d]>
    (<["tentacular.io/deployed-at" := now]>
      (<["tentacular.io/deployed-via" := deployedVia]> (<["tentacular.io/deployed-by" := deployedBy]> ann))).

(** The loop that carries the ownership of the existing Deployment forward. *)
Definition carry_forward (existing ann : annotations) : annotations :=
  foldl (fun ann k => match existing !! k with
                      | Some v => if String.eqb v "" then ann else <[k := v]> ann
                      | None => ann
                      end) ann ownershipKeys.

Definition isOwnerOrBearer (p : AnnotateDeployerParams) : bool :=
  let owner := ann_get (ad_ExistingAnnotations p) "tentacular.io/owner" in
  String.eqb (d_Provider (ad_Deployer p)) "bearer-token" || String.eqb owner ""
  || (negb (String.eqb (d_Email (ad_Deployer p)) "") && String.eqb (d_Email (ad_Deployer p)) owner).

Definition stamp_update (p : AnnotateDeployerParams) (now : string) (ann : annotations) : annotations :=
  let ann := carry_forward (ad_ExistingAnnotations p) ann in
  let ann := if isOwnerOrBearer p && negb (String.eqb (ad_Mode p) "") then <["tentacular.io/mode" := ad_Mode p]> ann
             else ann in
  <["tentacular.io/updated-by-email" := d_Email (ad_Deployer p)]>
    (<["tentacular.io/updated-by-sub" := d_Subject (ad_Deployer p)]> (<["tentacular.io/updated-at" := now]> ann)).

Definition stamp_create (p : AnnotateDeployerParams) (now : string) (ann : annotations) : annotations :=
  let d := ad_Deployer p in
  let ann := <["tentacular.io/owner" := d_Email d]> (<["tentacular.io/created-at" := now]> ann) in
  let ann := if String.eqb (d_Subject d) "" then ann else <["tentacular.io/owner-sub" := d_Subject d]> ann in
  <["tentacular.io/mode" := ad_Mode p]>
    (<["tentacular.io/owner-name" := d_DisplayName d]> (<["tentacular.io/owner-email" := d_Email d]> ann)).

Definition annotate_deployer (p : AnnotateDeployerParams) (now : string) (m : manifest) : manifest :=
  if negb (is_kind "Deployment" m) then m
  else
    let ann := provenance p now (GetAnnotations m) in
    SetAnnotations m (if ad_IsUpdate p then stamp_update p now ann else stamp_create p now ann).

Definition AnnotateDeployer (manifests : list manifest) (p : AnnotateDeployerParams) : prog (list manifest) :=
  t ← call Now; Ret (annotate_deployer p (FormatRFC3339 t) <$> manifests).

(** ** Command-line flags *)

Definition toStringSlice (v : value) : option (list string) :=
  match v with
  | VList raw => mapM as_string raw
  | _ => None
  end.

(** Change the first argument with the prefix; [None] when there is none or when
    its replacement is none. *)
Fixpoint patch_arg (prefix : string) (f : string -> option string) (slice : list string) : option (list string) :=
  match slice with
  | [] => None
  | arg :: rest =>
      if HasPrefix arg prefix then arg' ← f arg; Some (arg' :: rest)
      else rest' ← patch_arg prefix f rest; Some (arg :: rest')
  end.

(** A flag in the string slice of a container's field. *)
Definition patch_flag (prefix : string) (f : string -> option string) (container : manifest) (field : string) :
    option manifest :=
  raw ← map_get field container;
  slice ← toStringSlice raw;
  slice' ← patch_arg prefix f slice;
  Some (map_set field (VList (VStr <$> slice')) container).

Definition allow_net (hosts : list string) (arg : string) : string :=
  let existing := TrimPrefix arg "--allow-net=" in
  if String.eqb existing "" || String.eqb existing "none" then "--allow-net=" +:+ Join hosts ","
  else arg +:+ "," +:+ Join hosts ",".

Definition patchAllowNetInSlice (container : manifest) (field : string) (hosts : list string) : option manifest :=
  patch_flag "--allow-net=" (fun arg => Some (allow_net hosts arg)) container field.

Definition allow_env (vars : list string) (arg : string) : option string :=
  let existing := TrimPrefix arg "--allow-env=" in
  let existingSet := if String.eqb existing "" then [] else Split existing "," in
  match List.filter (fun v => negb (str_in v existingSet)) vars with
  | [] => None
  | toAdd => Some (if String.eqb existing "" then "--allow-env=" +:+ Join toAdd ","
                   else arg +:+ "," +:+ Join toAdd ",")
  end.

Definition patchAllowEnvInSlice (container : manifest) (field : string) (vars : list string) : option manifest :=
  patch_flag "--allow-env=" (allow_env vars) container field.

Definition otelVars : list string :=
  ["OTEL_DENO"; "OTEL_EXPORTER_OTLP_ENDPOINT"; "OTEL_EXPORTER_OTLP_PROTOCOL"; "OTEL_RESOURCE_ATTRIBUTES";
   "OTEL_SERVICE_NAME"].
Definition otelCollectorHost : string := "otel-collector.tentacular-observability.svc.cluster.local:4318".

Definition containers_path : list string := ["spec"; "template"; "spec"; "containers"].

(** Try the arguments, then the command; whether the container changed is the
    caller's reason to write it back. *)
Definition args_or_command (patch : manifest -> string -> option manifest) (container : manifest) : option manifest :=
  match patch container "args" with
  | Some c => Some c
  | None => patch container "command"
  end.

Definition write_container (m : manifest) (containers : list value) (container : manifest) : manifest :=
  SetNestedSlice m (VMap container :: tail containers) containers_path.

(** The Deployment of [patchDeploymentOTelEnv]. *)
Definition patch_otel (m : manifest) : manifest :=
  match NestedSlice m containers_path with
  | Some (VMap container :: rest) =>
      let containers := VMap container :: rest in
      let env := args_or_command (fun c field => patchAllowEnvInSlice c field otelVars) container in
      let container := default container env in
      let m := if env is Some c then write_container m containers c else m in
      let net := args_or_command (fun c field => patchAllowNetInSlice c field [otelCollectorHost]) container in
      if net is Some c then write_container m containers c else m
  | _ => m
  end.

Definition patchDeploymentOTelEnv (manifests : list manifest) : list manifest :=
  on_first (is_kind "Deployment") patch_otel manifests.

Definition workflow_label_path : list string :=
  ["spec"; "template"; "metadata"; "labels"; "tentacular.io/workflow"].

Definition patch_label (workflowName : string) (m : manifest) : manifest :=
  if String.eqb (default "" (NestedString m workflow_label_path)) workflowName then m
  else SetNestedField m (VStr workflowName) workflow_label_path.

Definition patchDeploymentWorkflowLabel (manifests : list manifest) (workflowName : string) : list manifest :=
  on_first (is_kind "Deployment") (patch_label workflowName) manifests.

(** ** Network policy *)

Definition int_key_is (key : string) (n : Z) (v : value) : bool :=
  match v with
  | VMap m => match map_get key m with
              | Some (VInt n') => (n' =? n)%Z
              | _ => false
              end
  | _ => false
  end.

Definition mentions_otel_port (rule : value) : bool :=
  match rule with
  | VMap em => existsb (fun p => int_key_is "port" 4318 p || int_key_is "port" 4317 p)
                 (default [] (NestedSlice em ["ports"]))
  | _ => false
  end.

Definition otel_port (n : Z) : value := VMap [("protocol", VStr "TCP"); ("port", VInt n)].
Definition otel_rule : manifest :=
  [("to", VList [VMap
      [("namespaceSelector", VMap [("matchLabels", VMap [("kubernetes.io/metadata.name", VStr "tentacular-observability")])]);
       ("podSelector", VMap [("matchLabels", VMap [("app.kubernetes.io/component", VStr "collector")])])]]);
   ("ports", VList [otel_port 4317; otel_port 4318])].

Definition patch_otel_egress (m : manifest) : manifest :=
  let egress := default [] (NestedSlice m ["spec"; "egress"]) in
  if existsb mentions_otel_port egress then m
  else SetNestedSlice m (egress ++ [VMap otel_rule])%list ["spec"; "egress"].

Definition patchNetworkPolicyOTelEgress (manifests : list manifest) (workflowName : string) : list manifest :=
  on_first (fun m => is_kind "NetworkPolicy" m && String.eqb (GetName m) (workflowName +:+ "-netpol"))
    patch_otel_egress manifests.

(** ** SPIRE *)

Definition volumes_path : list string := ["spec"; "template"; "spec"; "volumes"].
Definition spire_volume : value :=
  VMap [("name", VStr "spiffe-workload-api");
        ("csi", VMap [("driver", VStr "csi.spiffe.io"); ("readOnly", VBool true)])].
Definition spire_mount : value :=
  VMap [("name", VStr "spiffe-workload-api"); ("mountPath", VStr "/run/spire/sockets"); ("readOnly", VBool true)].

(** One Deployment: the changed manifest and whether the loop goes on. *)
Definition patch_spire (m : manifest) : manifest * bool :=
  let volumes := default [] (NestedSlice m volumes_path) in
  if existsb (key_is "name" "spiffe-workload-api") volumes then (m, false)
  else
    let m := SetNestedSlice m (volumes ++ [spire_volume])%list volumes_path in
    match NestedSlice m containers_path with
    | Some (VMap container :: rest) =>
        let mounts := match map_get "volumeMounts" container with Some (VList l) => l | _ => [] end in
        (write_container m (VMap container :: rest)
           (map_set "volumeMounts" (VList (mounts ++ [spire_mount])%list) container), false)
    | _ => (m, true)
    end.

Fixpoint patchDeploymentSpireVolume (manifests : list manifest) : list manifest :=
  match manifests with
  | [] => []
  | m :: rest =>
      if negb (is_kind "Deployment" m) then m :: patchDeploymentSpireVolume rest
      else let (m', go_on) := patch_spire m in
           m' :: (if go_on then patchDeploymentSpireVolume rest else rest)
  end.
End enrich.

(** ** Lemmas *)

Section lemmas.
Context `{L : UnstructuredLib} `{!UnstructuredLaws L}.

(** One key of the carry-forward loop. *)
Definition carry_key (existing : annotations) (ann : annotations) (k : string) : annotations :=
  match existing !! k with
  | Some v => if String.eqb v "" then ann else <[k := v]> ann
  | None => ann
  end.

Lemma carry_keys_keep existing keys ann k v :
  existing !! k = Some v -> v <> "" -> ann !! k = Some v -> foldl (carry_key existing) ann keys !! k = Some v.
Proof.
  intros Hk Hv. revert ann. induction keys as [|k' keys IH]; intros ann Ha; simpl; [done|].
  apply IH. unfold carry_key. destruct (existing !! k') as [v'|] eqn:Hk'; [|done].
  destruct (String.eqb_spec v' "") as [|Hne]; [done|].
  destruct (decide (k' = k)) as [->|]; [rewrite lookup_insert_eq; congruence|by rewrite lookup_insert_ne].
Qed.

Lemma carry_forward_in existing ann k v :
  k ∈ ownershipKeys -> existing !! k = Some v -> v <> "" -> carry_forward existing ann !! k = Some v.
Proof.
  unfold carry_forward. change (fun ann k => _) with (carry_key existing). generalize ownershipKeys as keys.
  intros keys Hin Hk Hv. revert ann. induction keys as [|k' keys IH]; intros ann; [by apply elem_of_nil in Hin|].
  simpl. apply elem_of_cons in Hin as [<-|Hin]; [|by apply IH]. apply carry_keys_keep; [done..|].
  unfold carry_key. rewrite Hk. rewrite (proj2 (String.eqb_neq _ _) Hv). apply lookup_insert_eq.
Qed.

(** Who sets the mode on an update: the operator, the owner, and anybody where
    there is no owner. *)
Lemma isOwnerOrBearer_spec p :
  let owner := ann_get (ad_ExistingAnnotations p) "tentacular.io/owner" in
  isOwnerOrBearer p = true <->
  d_Provider (ad_Deployer p) = "bearer-token" \/ owner = "" \/ d_Email (ad_Deployer p) = owner.
Proof.
  unfold isOwnerOrBearer. cbv zeta. rewrite !orb_true_iff, andb_true_iff, negb_true_iff, !String.eqb_eq, String.eqb_neq.
  destruct (decide (ann_get (ad_ExistingAnnotations p) "tentacular.io/owner" = "")); [tauto|].
  split; [tauto|]. intros [?|[?|He]]; [tauto..|]. right. by rewrite He.
Qed.

(** The stamps of an update touch none of the ownership keys but the mode. *)
Lemma stamp_update_key p now ann k v :
  k ∈ ownershipKeys -> ad_ExistingAnnotations p !! k = Some v -> v <> "" ->
  k <> AnnotationMode \/ isOwnerOrBearer p = false \/ ad_Mode p = "" ->
  stamp_update p now ann !! k = Some v.
Proof.
  intros Hin Hk Hv Hm. unfold stamp_update.
  assert (k <> "tentacular.io/updated-by-email" /\ k <> "tentacular.io/updated-by-sub" /\ k <> "tentacular.io/updated-at")
    as (H1 & H2 & H3) by (clear -Hin; unfold ownershipKeys in Hin; in_cases Hin; done).
  rewrite !lookup_insert_ne by done.
  destruct (isOwnerOrBearer p && negb (String.eqb (ad_Mode p) "")) eqn:Hb; [|by apply carry_forward_in].
  apply andb_true_iff in Hb as [Hb Hne%negb_true_iff%String.eqb_neq].
  destruct Hm as [Hm|[Hm|Hm]]; [|congruence|done]. rewrite lookup_insert_ne by done. by apply carry_forward_in.
Qed.

Lemma stamp_update_mode p now ann :
  isOwnerOrBearer p = true -> ad_Mode p <> "" -> stamp_update p now ann !! AnnotationMode = Some (ad_Mode p).
Proof.
  intros Hb Hm%String.eqb_neq. unfold stamp_update. rewrite Hb, Hm. cbn [andb negb].
  rewrite !lookup_insert_ne by done. apply lookup_insert_eq.
Qed.

(** *** Idempotence *)

Lemma on_first_idem found f manifests :
  (forall m, found m = true -> found (f m) = true /\ f (f m) = f m) ->
  on_first found f (on_first found f manifests) = on_first found f manifests.
Proof.
  intros H. induction manifests as [|m rest IH]; simpl; [done|].
  destruct (found m) eqn:Hm; simpl; [|by rewrite Hm, IH].
  destruct (H m Hm) as [-> ->]. done.
Qed.

Lemma is_kind_at kind m m' :
  at_path (VMap m') ["kind"] = at_path (VMap m) ["kind"] -> is_kind kind m' = is_kind kind m.
Proof. intros H. unfold is_kind. rewrite !law_Kind. unfold get_string. by rewrite H. Qed.

Lemma SetSlice_at m l p q :
  apartb p q = true -> at_path (VMap (SetNestedSlice m l p)) q = at_path (VMap m) q.
Proof. intros H. rewrite law_SetSlice. by apply at_set_field_ne. Qed.

Lemma otel_rule_mentions : mentions_otel_port (VMap otel_rule) = true.
Proof. unfold mentions_otel_port. rewrite law_Slice. reflexivity. Qed.

Lemma patch_otel_egress_idem m : patch_otel_egress (patch_otel_egress m) = patch_otel_egress m.
Proof.
  unfold patch_otel_egress at 2 3. destruct (existsb mentions_otel_port _) eqn:He.
  { unfold patch_otel_egress. by rewrite He. }
  set (egress := default [] (NestedSlice m ["spec"; "egress"])) in *.
  unfold patch_otel_egress. destruct (blocked m ["spec"; "egress"]) eqn:Hb.
  - assert (SetNestedSlice m (egress ++ [VMap otel_rule])%list ["spec"; "egress"] = m) as Hm.
    { rewrite law_SetSlice. unfold set_field. by rewrite set_path_blocked. }
    rewrite Hm. fold egress. by rewrite He.
  - rewrite (law_Slice (SetNestedSlice m _ _)), law_SetSlice, at_set_field, Hb by done. cbn [from_option id].
    rewrite existsb_app. cbn [existsb]. by rewrite otel_rule_mentions, orb_true_r.
Qed.

Lemma patch_label_idem name m : patch_label name (patch_label name m) = patch_label name m.
Proof.
  unfold patch_label at 2 3. destruct (String.eqb _ name) eqn:He; [unfold patch_label; by rewrite He|].
  unfold patch_label. destruct (blocked m workflow_label_path) eqn:Hb.
  - assert (SetNestedField m (VStr name) workflow_label_path = m) as Hm.
    { rewrite law_SetField. unfold set_field. by rewrite set_path_blocked. }
    rewrite Hm. by rewrite He.
  - rewrite (law_String (SetNestedField m _ _)). unfold get_string.
    rewrite law_SetField, at_set_field, Hb by done. cbn. by rewrite String.eqb_refl.
Qed.

(** A flag that was patched is not patched again. *)
Lemma patch_arg_idem prefix f slice slice' :
  (forall arg arg', HasPrefix arg prefix = true -> f arg = Some arg' -> HasPrefix arg' prefix = true /\ f arg' = None) ->
  patch_arg prefix f slice = Some slice' -> patch_arg prefix f slice' = None.
Proof.
  intros Hf. revert slice'. induction slice as [|arg rest IH]; intros slice'; simpl; [done|].
  destruct (HasPrefix arg prefix) eqn:Hp.
  - intros (arg' & Ha & [= <-])%bind_Some. destruct (Hf arg arg' Hp Ha) as [Hp' Hn]. simpl. by rewrite Hp', Hn.
  - intros (rest' & Hr & [= <-])%bind_Some. simpl. by rewrite Hp, (IH _ Hr).
Qed.

Lemma toStringSlice_strings l : toStringSlice (VList (VStr <$> l)) = Some l.
Proof. simpl. apply mapM_Some, Forall2_fmap_l. induction l; by constructor. Qed.

Lemma patch_flag_idem prefix f container field container' :
  (forall arg arg', HasPrefix arg prefix = true -> f arg = Some arg' -> HasPrefix arg' prefix = true /\ f arg' = None) ->
  patch_flag prefix f container field = Some container' -> patch_flag prefix f container' field = None.
Proof.
  intros Hf. unfold patch_flag. intros (raw & _ & (slice & _ & (slice' & Hs & [= <-])%bind_Some)%bind_Some)%bind_Some.
  rewrite map_get_set. cbn [mbind option_bind]. rewrite toStringSlice_strings. cbn [mbind option_bind].
  by rewrite (patch_arg_idem _ _ _ _ Hf Hs).
Qed.

(** A variable name: not empty and without a comma. *)
Definition var_name (v : string) : bool := no_byte "," v && negb (String.eqb v "").

Lemma allow_env_idem vars arg arg' :
  forallb var_name vars = true -> HasPrefix arg "--allow-env=" = true -> allow_env vars arg = Some arg' ->
  HasPrefix arg' "--allow-env=" = true /\ allow_env vars arg' = None.
Proof.
  rewrite forallb_True, Forall_forall. intros Hc [e ->]%HasPrefix_true. unfold allow_env. rewrite TrimPrefix_app.
  set (old := if String.eqb e "" then [] else Split e ",").
  destruct (List.filter (fun v => negb (str_in v old)) vars) as [|v0 toAdd0] eqn:Hadd; [done|].
  rewrite <- Hadd. set (toAdd := List.filter _ vars) in *. intros [= <-].
  set (e' := if String.eqb e "" then Join toAdd "," else e +:+ String "," (Join toAdd ",")).
  assert ((if String.eqb e "" then "--allow-env=" +:+ Join toAdd ","
           else ("--allow-env=" +:+ e) +:+ "," +:+ Join toAdd ",") = "--allow-env=" +:+ e') as ->.
  { unfold e'. destruct (String.eqb e ""); [done|]. by rewrite str_app_assoc. }
  split; [apply HasPrefix_app|]. rewrite TrimPrefix_app.
  assert (Forall (fun v => var_name v = true) toAdd) as Hnames.
  { apply Forall_forall. intros v Hv%list_elem_of_In. apply Hc, list_elem_of_In. by apply filter_In in Hv as [? _]. }
  assert (Split (Join toAdd ",") "," = toAdd) as Hsplit.
  { apply Split_Join; [by rewrite Hadd|]. eapply Forall_impl; [exact Hnames|]. by intros v [? _]%andb_true_iff. }
  assert ((if String.eqb e' "" then [] else Split e' ",") = old ++ toAdd)%list as ->.
  { unfold e', old. destruct (String.eqb_spec e "") as [He|He].
    - rewrite Hsplit. destruct (String.eqb_spec (Join toAdd ",") "") as [Hj|]; [|done].
      rewrite Hj in Hsplit. rewrite <- Hsplit in Hnames. by apply Forall_cons in Hnames as [? _].
    - rewrite Split_app_any, Hsplit. by destruct e. }
  assert (forall v, v ∈ vars -> str_in v (old ++ toAdd)%list = true) as Hin.
  { intros v Hv. apply str_in_spec, elem_of_app. destruct (str_in v old) eqn:Hs; [left; by apply str_in_spec|right].
    apply list_elem_of_In, filter_In. by rewrite Hs, <- list_elem_of_In. }
  assert (List.filter (fun v => negb (str_in v (old ++ toAdd)%list)) vars = []) as ->; [|done].
  revert Hin. generalize (old ++ toAdd)%list as known. clear. intros known Hin. induction vars as [|v vars IH]; [done|]. simpl. rewrite Hin by by left. simpl.
  apply IH. intros w Hw. apply Hin. by right.
Qed.
End lemmas.

(** ** Properties *)

(** C23: What re-applying a workflow does to its ownership: in every Deployment, the
    owner, the owner's identity and the creation time of the existing Deployment
    are carried forward whatever the new manifest says.  The permission mode is the
    one passed, if one was and the caller is the operator or the owner, or the
    existing Deployment names no owner, where it is anybody's; otherwise the existing
    mode is kept. *)
Theorem AnnotateDeployer_keeps_ownership `{L : UnstructuredLib} `{!UnstructuredLaws L} manifests p :
  ad_IsUpdate p = true ->
  let existing := ad_ExistingAnnotations p in
  let owner := ann_get existing "tentacular.io/owner" in
  let caller := ad_Deployer p in
  returns (fun manifests' => length manifests' = length manifests /\
    forall i m m', manifests !! i = Some m -> manifests' !! i = Some m' ->
      if is_kind "Deployment" m then
        blocked m ["metadata"; "annotations"] = false ->
        (forall k v, k ∈ ["tentacular.io/owner"; "tentacular.io/owner-sub"; "tentacular.io/owner-email"; "tentacular.io/owner-name";
                         "tentacular.io/created-at"] ->
           existing !! k = Some v -> v <> "" -> GetAnnotations m' !! k = Some v) /\
        (ad_Mode p <> "" -> d_Provider caller = "bearer-token" \/ owner = "" \/ d_Email caller = owner ->
           GetAnnotations m' !! "tentacular.io/mode" = Some (ad_Mode p)) /\
        (ad_Mode p = "" \/ (d_Provider caller <> "bearer-token" /\ owner <> "" /\ d_Email caller <> owner) ->
           forall v, existing !! "tentacular.io/mode" = Some v -> v <> "" -> GetAnnotations m' !! "tentacular.io/mode" = Some v)
      else m' = m) (AnnotateDeployer manifests p).
Proof.
  intros Hu existing owner caller. unfold AnnotateDeployer. apply returns_bind. intros t. apply returns_Ret.
  split; [apply length_fmap|]. intros i m m' Hi Hi'. rewrite list_lookup_fmap, Hi in Hi'. injection Hi' as <-.
  unfold annotate_deployer. destruct (is_kind "Deployment" m); [|done]. cbn [negb]. rewrite Hu.
  intros Hb. rewrite law_Annotations by done. pose proof (isOwnerOrBearer_spec p) as Hspec. cbv zeta in Hspec. fold existing owner caller in Hspec.
  split_and!.
  - intros k v Hin Hk Hv. apply stamp_update_key; [|done..|].
    + unfold ownershipKeys. clear -Hin. set_solver.
    + left. clear -Hin. in_cases Hin; done.
  - intros Hm Hwho. apply (stamp_update_mode p); [by apply Hspec|done].
  - intros Hwho v Hk Hv. apply (stamp_update_key p _ _ AnnotationMode); [unfold ownershipKeys; set_solver|done..|].
    right. destruct Hwho as [?|(? & ? & ?)]; [by right|]. left. apply not_true_iff_false. rewrite Hspec. tauto.
Qed.

(** Redeploying does not pile up what telemetry needs: the environment
    variables are allowed once however often a container is patched, and the
    workflow label and the egress rule of the collector are added once. *)
Theorem otel_patches_idempotent `{L : UnstructuredLib} `{!UnstructuredLaws L} manifests workflow :
  (forall container field container', patchAllowEnvInSlice container field otelVars = Some container' ->
     patchAllowEnvInSlice container' field otelVars = None) /\
  (let labelled := patchDeploymentWorkflowLabel manifests workflow in
   patchDeploymentWorkflowLabel labelled workflow = labelled) /\
  (let opened := patchNetworkPolicyOTelEgress manifests workflow in
   patchNetworkPolicyOTelEgress opened workflow = opened).
Proof.
  split; [|split].
  - intros c field c'. apply patch_flag_idem. intros arg arg'. by apply allow_env_idem.
  - apply on_first_idem. intros m Hm. split; [|apply patch_label_idem].
    etransitivity; [apply is_kind_at|exact Hm]. unfold patch_label. destruct (String.eqb _ _); [done|]. rewrite law_SetField. by apply at_set_field_ne.
  - apply on_first_idem. intros m Hm. split; [|apply patch_otel_egress_idem].
    etransitivity; [|exact Hm]. unfold patch_otel_egress. destruct (existsb _ _); [done|]. f_equal.
    + apply is_kind_at. by apply SetSlice_at.
    + rewrite !law_Name. unfold get_string. by rewrite SetSlice_at.
Qed.

(** ** Witnesses *)

Definition member : DeployerInfo :=
  {| d_Email := "eve@x.org"; d_DisplayName := ""; d_Subject := "eve"; d_Provider := "google"; d_AgentType := "";
     d_SessionID := "" |}.
(** A member re-applies bob's workflow with a manifest that claims it. *)
Definition claiming : manifest :=
  map_set "metadata" (VMap [("name", VStr "wf");
     ("annotations", VMap [("tentacular.io/owner", VStr "eve@x.org"); ("tentacular.io/mode", VStr "rwxrwxrwx")])])
    plain_deployment.
Definition claim : AnnotateDeployerParams :=
  {| ad_ExistingAnnotations := {[ "tentacular.io/owner" := "bob@x.org"; "tentacular.io/mode" := "rwxrwx---" ]};
     ad_Mode := "rwxrwxrwx"; ad_Deployer := member; ad_IsUpdate := true |}.

Lemma AnnotateDeployer_keeps_ownership_witness :
  returns (fun manifests' => exists m', manifests' = [m'] /\
             GetAnnotations (UnstructuredLib := path_lib) m' !! "tentacular.io/owner" = Some "bob@x.org" /\
             GetAnnotations (UnstructuredLib := path_lib) m' !! "tentacular.io/mode" = Some "rwxrwx---")
    (AnnotateDeployer (L := path_lib) [claiming] claim).
Proof.
  intros h. eapply holds_mono; [done| |apply (AnnotateDeployer_keeps_ownership (UnstructuredLaws0 := path_laws) [claiming] claim eq_refl)].
  intros h' ms [Hlen H]. destruct ms as [|m' [|]]; try done. exists m'. split; [done|].
  specialize (H 0%nat claiming m' eq_refl eq_refl eq_refl). cbv beta in H.
  destruct H as (H & _ & Hmode). split.
  - apply H; [by left|done..].
  - apply Hmode; [|done..]. right. split_and!; done.
Defined.

Definition deno_container (flag : string) : manifest :=
  [("name", VStr "engine"); ("args", VList [VStr "run"; VStr flag])].

Lemma otel_patches_idempotent_witness :
  patchAllowEnvInSlice (deno_container "--allow-env=HOME") "args" ["OTEL_DENO"] =
    Some (deno_container "--allow-env=HOME,OTEL_DENO") /\
  patchNetworkPolicyOTelEgress (L := path_lib) (patchNetworkPolicyOTelEgress (L := path_lib) [claiming] "wf") "wf" =
    patchNetworkPolicyOTelEgress (L := path_lib) [claiming] "wf".
Proof. split; [reflexivity|]. apply (otel_patches_idempotent (UnstructuredLaws0 := path_laws) [claiming] "wf"). Defined.

(** The collector's host, in contrast, is appended on every pass. *)
Example allow_net_not_idempotent :
  let once := allow_net ["c:4318"] "--allow-net=a:80" in
  once = "--allow-net=a:80,c:4318" /\ allow_net ["c:4318"] once = "--allow-net=a:80,c:4318,c:4318".
Proof. split; reflexivity. Qed.
