(* ===== verification/Egress.v ===== *)
(** * Reaching the backing services (pkg/exoskeleton/enrich.go)

    A workflow that depends on backing services must be able to reach them: its
    Deployment gets their hosts on its allow list, its network policy one egress
    rule per service.  A service outside the cluster is opened by address only,
    and not at all when its name does not resolve. *)

From S2P Require Import Prelude GoStrings Identity Effects K8sOps Unstructured Json GoUrl Injector Contract Enrich.
From S2P Require Import PgRegistrar NatsRegistrar RustfsRegistrar.
#[local] Open Scope string_scope.

Section egress.
Context `{L : UnstructuredLib} `{UL : UrlLib}.

(** ** Hosts on the allow list *)

Definition exo_host (c : creds) : list string :=
  let host_port h p := if negb (String.eqb h "") && negb (String.eqb p "") then [h +:+ ":" +:+ p] else [] in
  match c with
  | PgCreds v => [pgc_Host v +:+ ":" +:+ pgc_Port v]
  | NatsCreds v => let (h, p) := parseHostPort (nc_URL v) in host_port h p
  | RustfsCreds v => let (h, p) := parseHostPort (rc_Endpoint v) in host_port h p
  | OtherCreds _ => []
  end.
Definition collectExoHosts (cs : list (string * creds)) : list string :=
  SortStrings (mjoin ((fun dep => exo_host dep.2) <$> cs)).

(** One manifest: [None] where the loop goes on. *)
Definition patch_allow_net (hosts : list string) (m : manifest) : option (list (string * value)) :=
  if negb (is_kind "Deployment" m) then None
  else
    match NestedSlice m containers_path with
    | Some (VMap container :: rest) =>
        c ← args_or_command (fun c field => patchAllowNetInSlice c field hosts) container;
        Some (write_container m (VMap container :: rest) c)
    | _ => None
    end.

(** A loop over manifests that changes the first one it can. *)
Fixpoint change_first (f : list (string * value) -> option (list (string * value)))
    (manifests : list (list (string * value))) : list (list (string * value)) :=
  match manifests with
  | [] => []
  | m :: rest =>
      match f m with
      | Some m' => m' :: rest
      | None => m :: change_first f rest
      end
  end.

Definition patchDeploymentAllowNet (manifests : list (list (string * value))) (cs : list (string * creds)) :
    list (list (string * value)) :=
  match collectExoHosts cs with
  | [] => manifests
  | hosts => change_first (patch_allow_net hosts) manifests
  end.

(** ** Egress rules *)

(** The well-known names of services in the cluster:
    [svc.ns.svc], [svc.ns.svc.cluster] and [svc.ns.svc.cluster.local]. *)
Definition isInClusterHost (host : string) : bool :=
  match Split host "." with
  | _ :: _ :: kind :: rest =>
      String.eqb kind "svc" &&
      match rest with
      | [] => true
      | zone :: rest' => Nat.leb (length rest') 1 && String.eqb zone "cluster"
      end
  | _ => false
  end.

Record svcEndpoint := { ep_name : string; ep_host : string; ep_port : string }.

Definition endpoint (dep : string * creds) : list svcEndpoint :=
  let ep h p := if negb (String.eqb h "") && negb (String.eqb p "")
                then [{| ep_name := dep.1; ep_host := h; ep_port := p |}] else [] in
  match dep.2 with
  | PgCreds v => ep (pgc_Host v) (pgc_Port v)
  | NatsCreds v => let (h, p) := parseHostPort (nc_URL v) in ep h p
  | RustfsCreds v => let (h, p) := parseHostPort (rc_Endpoint v) in ep h p
  | OtherCreds _ => []
  end.
Definition endpoint_leb (a b : svcEndpoint) : bool := str_leb (ep_name a) (ep_name b).
Definition endpoints (cs : list (string * creds)) : list svcEndpoint := isort endpoint_leb (mjoin (endpoint <$> cs)).

Definition tcp_port (port : Z) : value := VMap [("protocol", VStr "TCP"); ("port", VInt port)].
Definition namespace_rule (targetNS : string) (port : Z) : value :=
  VMap [("to", VList [VMap [("namespaceSelector",
                             VMap [("matchLabels", VMap [("kubernetes.io/metadata.name", VStr targetNS)])])]]);
        ("ports", VList [tcp_port port])].
Definition cidr (ip : string) : string := if has_byte ip ":" then ip +:+ "/128" else ip +:+ "/32".
Definition address_rule (ips : list string) (port : Z) : value :=
  VMap [("to", VList ((fun ip => VMap [("ipBlock", VMap [("cidr", VStr (cidr ip))])]) <$> ips));
        ("ports", VList [tcp_port port])].

Definition host_namespace (host : string) : string := default "" (Split host "." !! 1%nat).

(** The rule of one endpoint; none if its port is no number or its host does not
    resolve. *)
Definition egress_rule (ep : svcEndpoint) : prog (option value) :=
  match ParseInt64 (ep_port ep) with
  | None => Ret None
  | Some port =>
      if isInClusterHost (ep_host ep) then Ret (Some (namespace_rule (host_namespace (ep_host ep)) port))
      else
        ips ← call (LookupHost (ep_host ep));
        Ret match ips with
            | Ok (ip :: ips) => Some (address_rule (ip :: ips) port)
            | _ => None
            end
  end.

Definition add_rule (egress : list value) (ep : svcEndpoint) : prog (list value) :=
  rule ← egress_rule ep;
  Ret match rule with
      | Some r => (egress ++ [r])%list
      | None => egress
      end.

Definition is_netpol (workflowName : string) (m : manifest) : bool :=
  is_kind "NetworkPolicy" m && String.eqb (GetName m) (workflowName +:+ "-netpol").

Definition open_egress (cs : list (string * creds)) (m : manifest) : prog (list (string * value)) :=
  egress ← foldM add_rule (endpoints cs) (default [] (NestedSlice m ["spec"; "egress"]));
  Ret (SetNestedSlice m egress ["spec"; "egress"]).

Fixpoint patch_netpol (cs : list (string * creds)) (workflowName : string) (manifests : list (list (string * value))) :
    prog (list (list (string * value))) :=
  match manifests with
  | [] => Ret []
  | m :: rest =>
      if is_netpol workflowName m then m' ← open_egress cs m; Ret (m' :: rest)
      else rest' ← patch_netpol cs workflowName rest; Ret (m :: rest')
  end.

Definition patchNetworkPolicyExoEgress (manifests : list (list (string * value))) (cs : list (string * creds))
    (workflowName : string) : prog (list (list (string * value))) :=
  match cs with
  | [] => Ret manifests
  | _ => patch_netpol cs workflowName manifests
  end.
End egress.

(** ** Lemmas *)

Section lemmas.
Context `{L : UnstructuredLib} `{!UnstructuredLaws L} `{UL : UrlLib}.

(** *** What the network policy may come to hold *)

(** Where a service is reached. *)
Inductive reaches : creds -> string -> string -> Prop :=
  | reaches_postgres c : reaches (PgCreds c) (pgc_Host c) (pgc_Port c)
  | reaches_nats c host port : parseHostPort (nc_URL c) = (host, port) -> reaches (NatsCreds c) host port
  | reaches_rustfs c host port : parseHostPort (rc_Endpoint c) = (host, port) -> reaches (RustfsCreds c) host port.
(** A registered service with a host and a numeric port. *)
Definition service (cs : list (string * creds)) (host : string) (n : Z) : Prop :=
  exists dep c port, (dep, c) ∈ cs /\ reaches c host port /\ host <> "" /\ port <> "" /\ ParseInt64 port = Some n.

(** The names of services in the cluster, and the namespace they name. *)
Definition cluster_name (host ns : string) : Prop :=
  exists svc rest, Split host "." = svc :: ns :: "svc" :: rest /\ (rest = [] \/ rest = ["cluster"] \/ exists tld, rest = ["cluster"; tld]).

(** The two rules: one TCP port, of the pods of one namespace, or of single addresses. *)
Definition to_namespace (ns : string) (n : Z) : value :=
  VMap [("to", VList [VMap [("namespaceSelector", VMap [("matchLabels", VMap [("kubernetes.io/metadata.name", VStr ns)])])]]);
        ("ports", VList [VMap [("protocol", VStr "TCP"); ("port", VInt n)]])].
Definition single_address (ip : string) : value :=
  VMap [("ipBlock", VMap [("cidr", VStr (if existsb (Ascii.eqb ":") (list_ascii_of_string ip) then ip +:+ "/128" else ip +:+ "/32"))])].
Definition to_addresses (ips : list string) (n : Z) : value :=
  VMap [("to", VList (single_address <$> ips)); ("ports", VList [VMap [("protocol", VStr "TCP"); ("port", VInt n)]])].

(** A rule that opens what one service needs: towards the namespace in its name, or
    towards the addresses a lookup of its name returned, of which there is at least
    one. *)
Definition narrow (cs : list (string * creds)) (h : list event) (r : value) : Prop :=
  exists host n, service cs host n /\
    ((exists ns, cluster_name host ns /\ r = to_namespace ns n) \/
     (~ (exists ns, cluster_name host ns) /\
      exists ips, ips <> [] /\ Ev (LookupHost host) (Ok ips) ∈ h /\ r = to_addresses ips n)).
(** A service that got its rule: it is in the cluster, or its name was looked up
    and, if addresses were found, these were opened. *)
Definition opened (rules : list value) (h : list event) (host : string) (n : Z) : Prop :=
  (forall ns, cluster_name host ns -> to_namespace ns n ∈ rules) /\
  (~ (exists ns, cluster_name host ns) ->
   exists x, Ev (LookupHost host) x ∈ h /\ forall ips, x = Ok ips -> ips <> [] -> to_addresses ips n ∈ rules).
(** The policy of the workflow, by its name. *)
Definition own_policy (wf : string) (m : manifest) : Prop := GetKind m = "NetworkPolicy" /\ GetName m = wf +:+ "-netpol".

Lemma narrow_stable cs r : stable (fun h => narrow cs h r).
Proof.
  intros h e (host & n & Hs & Hr). exists host, n. split; [done|]. destruct Hr as [Hr|(Hc & ips & Hne & Hin & Hr)]; [by left|right].
  split; [done|]. exists ips. split_and!; [done|by right|done].
Qed.
Lemma opened_stable rules host n : stable (fun h => opened rules h host n).
Proof. intros h e (Hin & Hout). split; [done|]. intros Hno. destruct (Hout Hno) as (x & Hx & Hr). exists x. split; [by right|done]. Qed.
Lemma opened_more rules rules' h host n : rules ⊆ rules' -> opened rules h host n -> opened rules' h host n.
Proof.
  intros Hs (Hin & Hout). split; [intros ns Hns; by apply Hs, Hin|]. intros Hno. destruct (Hout Hno) as (x & Hx & Hr).
  exists x. split; [done|]. intros ips Hi Hne. by apply Hs, Hr.
Qed.

Lemma stable_app (D : list event -> Prop) new h : stable D -> D h -> D (new ++ h)%list.
Proof. intros HD Hh. induction new as [|e new IH]; [done|]. by apply HD. Qed.

Lemma endpoints_in cs ep : ep ∈ endpoints cs <-> exists dep, dep ∈ cs /\ ep ∈ endpoint dep.
Proof.
  unfold endpoints. rewrite isort_perm, list_elem_of_join. split.
  - intros (l & Hep & Hl). apply list_elem_of_fmap in Hl as (dep & -> & Hdep). by exists dep.
  - intros (dep & Hdep & Hep). exists (endpoint dep). split; [done|]. apply list_elem_of_fmap. by exists dep.
Qed.
Lemma endpoint_reaches dep c ep :
  ep ∈ endpoint (dep, c) <-> reaches c (ep_host ep) (ep_port ep) /\ ep_name ep = dep /\ ep_host ep <> "" /\ ep_port ep <> "".
Proof.
  assert (forall h p, ep ∈ (if negb (String.eqb h "") && negb (String.eqb p "") then [{| ep_name := dep; ep_host := h; ep_port := p |}] else [])
            <-> (ep_host ep = h /\ ep_port ep = p) /\ ep_name ep = dep /\ ep_host ep <> "" /\ ep_port ep <> "") as Hone.
  { intros h p. destruct (String.eqb_spec h "") as [->|Hh], (String.eqb_spec p "") as [->|Hp]; cbn [negb andb];
      rewrite ?elem_of_nil, ?list_elem_of_singleton; try (split; [done|]; by intros ((-> & ->) & _ & ? & ?)).
    split; [by intros ->|]. destruct ep as [en eh epp]. cbn. by intros ((-> & ->) & -> & _). }
  unfold endpoint. destruct c as [c|c|c|c]; cbn [fst snd].
  - rewrite Hone. split; intros (Hr & Hrest); (split; [|exact Hrest]); [destruct Hr as [-> ->]; constructor|by inversion Hr].
  - destruct (parseHostPort (nc_URL c)) as [h p] eqn:He. rewrite Hone. split; intros (Hr & Hrest); (split; [|exact Hrest]).
    + destruct Hr as [-> ->]. by constructor.
    + inversion Hr as [|? ? ? He'|]. rewrite He in He'. by injection He'.
  - destruct (parseHostPort (rc_Endpoint c)) as [h p] eqn:He. rewrite Hone. split; intros (Hr & Hrest); (split; [|exact Hrest]).
    + destruct Hr as [-> ->]. by constructor.
    + inversion Hr as [| |? ? ? He']. rewrite He in He'. by injection He'.
  - rewrite elem_of_nil. split; [done|]. intros [Hr _]. inversion Hr.
Qed.
Lemma service_endpoint cs host n :
  service cs host n <-> exists ep, ep ∈ endpoints cs /\ ep_host ep = host /\ ParseInt64 (ep_port ep) = Some n.
Proof.
  setoid_rewrite endpoints_in. split.
  - intros (dep & c & port & Hin & Hr & Hh & Hp & Hn). exists {| ep_name := dep; ep_host := host; ep_port := port |}.
    split_and!; [|done..]. exists (dep, c). split; [done|]. by apply endpoint_reaches.
  - intros (ep & ([dep c] & Hin & (Hr & _ & Hh & Hp)%endpoint_reaches) & <- & Hn). by exists dep, c, (ep_port ep).
Qed.

Lemma isInClusterHost_spec host ns :
  cluster_name host ns <-> isInClusterHost host = true /\ host_namespace host = ns.
Proof.
  unfold cluster_name, isInClusterHost, host_namespace. split.
  - intros (svc & rest & -> & Hrest). cbn. split; [|done]. destruct Hrest as [->|[->|[tld ->]]]; done.
  - intros [Hc <-]. destruct (Split host ".") as [|svc [|ns [|kind rest]]] eqn:Hs; try done. cbn in *.
    destruct (String.eqb_spec kind "svc") as [->|]; [|done]. cbn [andb] in Hc. exists svc, rest. split; [done|].
    destruct rest as [|zone rest]; [by left|right]. apply andb_true_iff in Hc as [Hl ->%String.eqb_eq].
    destruct rest as [|tld [|? ?]]; [by left|right; by exists tld|done].
Qed.
Lemma not_cluster_name host : isInClusterHost host = false -> ~ exists ns, cluster_name host ns.
Proof. intros Hc [ns [Ht _]%isInClusterHost_spec]. congruence. Qed.

Lemma address_rule_spec ips n : address_rule ips n = to_addresses ips n.
Proof.
  unfold address_rule, to_addresses. assert ((fun ip => VMap [("ipBlock", VMap [("cidr", VStr (cidr ip))])]) <$> ips = single_address <$> ips) as ->; [|done].
  apply list_fmap_ext. intros i ip _. unfold single_address, cidr. assert (has_byte ip ":" = existsb (Ascii.eqb ":") (list_ascii_of_string ip)) as ->; [|done].
  unfold has_byte, no_byte. induction ip as [|c ip IH]; [done|]. cbn [str_forallb list_ascii_of_string existsb].
  rewrite (Ascii.eqb_sym ":" c). by destruct (Ascii.eqb c ":").
Qed.

Lemma egress_rule_narrow cs h ep :
  ep ∈ endpoints cs ->
  holds any_request (fun h' r =>
    (forall r', r = Some r' -> narrow cs h' r') /\
    (forall n, ParseInt64 (ep_port ep) = Some n -> opened (default [] ((fun r' => [r']) <$> r)) h' (ep_host ep) n) /\
    (exists new, h' = new ++ h)%list) h (egress_rule ep).
Proof.
  intros Hep. unfold egress_rule. destruct (ParseInt64 (ep_port ep)) as [n|] eqn:Hport; [|by split_and!; [| |exists []]].
  assert (service cs (ep_host ep) n) as Hs by (apply service_endpoint; by exists ep).
  destruct (isInClusterHost (ep_host ep)) eqn:Hin.
  - assert (cluster_name (ep_host ep) (host_namespace (ep_host ep))) as Hc by by apply isInClusterHost_spec.
    split_and!; [| |by exists []].
    + intros r' [= <-]. exists (ep_host ep), n. split; [done|]. left. by eexists.
    + intros ? [= <-]. split; [|intros Hno; by destruct Hno; eexists].
      intros ns [_ <-]%isInClusterHost_spec. by left.
  - pose proof (not_cluster_name _ Hin) as Hno. split; [done|]. intros x.
    split_and!; [| |by exists [Ev (LookupHost (ep_host ep)) x]].
    + destruct x as [[|ip ips]|]; [done| |done]. intros r' [= <-]. exists (ep_host ep), n. split; [done|]. right. split; [done|].
      exists (ip :: ips). split_and!; [done|by left|apply address_rule_spec].
    + intros ? [= <-]. split; [intros ns Hns; by destruct Hno; exists ns|]. intros _. exists x. split; [by left|].
      intros [|ip ips] -> Hne; [done|]. rewrite address_rule_spec. by left.
Qed.

(** The rules the loop adds. *)
Definition added (cs : list (string * creds)) (old : list value) (done : list svcEndpoint) (h : list event)
    (egress : list value) : Prop :=
  exists rules, egress = (old ++ rules)%list /\ Forall (narrow cs h) rules /\
    forall ep n, ep ∈ done -> ParseInt64 (ep_port ep) = Some n -> opened rules h (ep_host ep) n.

Lemma add_rules_added cs h old :
  holds any_request (added cs old (endpoints cs)) h (foldM add_rule (endpoints cs) old).
Proof.
  apply (holds_foldM_pre _ (added cs old)) with (done := []); [|done|].
  - intros pre ep post h' egress Heq (rules & -> & Hrules & Hall). unfold add_rule. apply holds_bind.
    eapply holds_mono; [done| |apply (egress_rule_narrow cs)].
    2: { simpl in Heq. rewrite <- Heq. apply elem_of_app. right. by left. }
    intros h2 r (Hr & Hopen & new & ->). cbn [holds].
    assert (Forall (narrow cs (new ++ h')%list) rules) as Hrules2.
    { eapply Forall_impl; [exact Hrules|]. intros x Hx. apply (stable_app (fun h => narrow cs h x)); [apply narrow_stable|exact Hx]. }
    exists (rules ++ default [] ((fun r' => [r']) <$> r))%list. split_and!.
    + destruct r as [r|]; cbn; [by rewrite <- (assoc_L (++)%list)|by rewrite app_nil_r].
    + apply Forall_app. split; [done|]. destruct r as [r|]; cbn; [constructor; [by apply Hr|constructor]|constructor].
    + intros ep' n [Hep| ->]%elem_of_snoc Hn.
      * eapply opened_more; [|apply (stable_app (fun h => opened rules h (ep_host ep') n)); [apply opened_stable|by apply Hall]]. set_solver.
      * eapply opened_more; [|by apply Hopen]. set_solver.
  - exists []. split_and!; [by rewrite app_nil_r|constructor|]. by intros ? ? ?%elem_of_nil.
Qed.

Lemma is_netpol_spec wf m : is_netpol wf m = true <-> own_policy wf m.
Proof. unfold is_netpol, is_kind, own_policy. by rewrite andb_true_iff, !String.eqb_eq. Qed.

(** *** Iteration order *)

Lemma endpoint_name dep ep : ep ∈ endpoint dep -> endpoint dep = [ep] /\ ep_name ep = dep.1.
Proof.
  unfold endpoint. destruct dep as [name [c|c|c|]]; cbn [fst snd]; repeat case_match;
    rewrite ?list_elem_of_singleton, ?elem_of_nil; by try intros ->.
Qed.

Lemma endpoint_leb_total a b : endpoint_leb a b = true \/ endpoint_leb b a = true.
Proof. apply str_leb_total. Qed.
Lemma endpoint_leb_trans a b c : endpoint_leb a b = true -> endpoint_leb b c = true -> endpoint_leb a c = true.
Proof. apply str_leb_trans. Qed.

Lemma key_unique {A} (l : list (string * A)) a b : NoDup (l.*1) -> a ∈ l -> b ∈ l -> a.1 = b.1 -> a = b.
Proof.
  intros Hnd Ha Hb Hk. destruct a as [k x], b as [k2 y]. simpl in Hk. subst k2.
  pose proof (map_get_in k x l Hnd Ha). pose proof (map_get_in k y l Hnd Hb). congruence.
Qed.

Lemma endpoints_perm cs cs' : cs ≡ₚ cs' -> NoDup (cs.*1) -> endpoints cs = endpoints cs'.
Proof.
  intros Hp Hnd. assert (endpoints cs ≡ₚ endpoints cs') as Hperm.
  { unfold endpoints. rewrite !isort_perm. by rewrite Hp. }
  apply (StronglySorted_unique_strong (fun a b => endpoint_leb a b = true)).
  - intros a b Ha Hb H1 H2. assert (ep_name a = ep_name b) as Hn by by apply str_leb_antisym.
    rewrite <- Hperm in Hb. apply endpoints_in in Ha as (d1 & Hd1 & Ha). apply endpoints_in in Hb as (d2 & Hd2 & Hb).
    apply endpoint_name in Ha as [Ha Hna]. apply endpoint_name in Hb as [Hb Hnb].
    assert (d1 = d2) as -> by (eapply key_unique; [exact Hnd|done|done|congruence]). congruence.
  - apply isort_strongly; [apply endpoint_leb_total|apply endpoint_leb_trans].
  - apply isort_strongly; [apply endpoint_leb_total|apply endpoint_leb_trans].
  - done.
Qed.

Lemma collectExoHosts_perm cs cs' : cs ≡ₚ cs' -> collectExoHosts cs = collectExoHosts cs'.
Proof. intros Hp. unfold collectExoHosts. apply SortStrings_ext. by rewrite Hp. Qed.

Lemma map_get_perm {A} k (m m' : list (string * A)) : m ≡ₚ m' -> NoDup (m.*1) -> map_get k m = map_get k m'.
Proof.
  intros Hp Hnd. destruct (map_get k m') as [v|] eqn:Hk.
  - apply map_get_in; [done|]. rewrite Hp. clear -Hk.
    induction m' as [|[k' v'] m IH]; simpl in Hk; [done|]. destruct (String.eqb_spec k' k) as [->|].
    + injection Hk as ->. by left.
    + right. by apply IH.
  - apply map_get_not_in. rewrite Hp. clear -Hk.
    induction m' as [|[k' v'] m IH]; [apply not_elem_of_nil|]. simpl in Hk. destruct (String.eqb_spec k' k) as [->|]; [done|].
    apply not_elem_of_cons. split; [done|by apply IH].
Qed.

Lemma enrich_dep_perm cs cs' dep :
  cs ≡ₚ cs' -> NoDup (cs.*1) -> enrich_dep cs dep = enrich_dep cs' dep /\ dep_modified cs dep = dep_modified cs' dep.
Proof.
  intros Hp Hnd. unfold enrich_dep, dep_modified, dep_changes. by rewrite (map_get_perm dep.1 cs cs').
Qed.

Lemma enrich_workflow_perm cs cs' w : cs ≡ₚ cs' -> NoDup (cs.*1) -> enrich_workflow cs w = enrich_workflow cs' w.
Proof.
  intros Hp Hnd. unfold enrich_workflow. destruct (map_get "contract" w) as [[]|]; try done.
  destruct (map_get "dependencies" m) as [[]|]; try done.
  assert (enrich_dep cs <$> m0 = enrich_dep cs' <$> m0) as ->
    by (apply list_fmap_ext; intros i x _; by apply enrich_dep_perm).
  assert (existsb (dep_modified cs) m0 = existsb (dep_modified cs') m0) as ->; [|done].
  induction m0 as [|x l IH]; [done|]. simpl. by rewrite IH, (proj2 (enrich_dep_perm cs cs' x Hp Hnd)).
Qed.

Lemma enrichContractDeps_perm `{Y : YamlLib} manifests cs cs' :
  cs ≡ₚ cs' -> NoDup (cs.*1) -> enrichContractDeps manifests cs = enrichContractDeps manifests cs'.
Proof.
  intros Hp Hnd. induction manifests as [|m rest IH]; [done|]. simpl.
  assert (enrich_configmap cs m = enrich_configmap cs' m) as ->; [|by rewrite IH].
  unfold enrich_configmap. destruct (workflow_text m); [|done]. simpl. destruct (yaml_Unmarshal s); [|done]. simpl.
  by rewrite (enrich_workflow_perm cs cs').
Qed.

Lemma buildExoStringData_perm `{U : Unicode} ns wf cs cs' k :
  cs ≡ₚ cs' -> NoDup (cs.*1) -> map_get k (buildExoStringData ns wf cs) = map_get k (buildExoStringData ns wf cs').
Proof.
  intros Hp Hnd. assert (NoDup (cs'.*1)) as Hnd' by by rewrite <- Hp.
  assert (forall k, map_get k (set_all [] (mjoin (service_entry <$> cs))) = map_get k (set_all [] (mjoin (service_entry <$> cs')))) as Hset.
  { intros k'. rewrite !set_all_get by by apply service_entries_NoDup.
    by rewrite (map_get_perm k' _ (mjoin (service_entry <$> cs'))) by first [by rewrite Hp|by apply service_entries_NoDup]. }
  unfold buildExoStringData. destruct (CompileIdentity ns wf); [|done].
  destruct (decide (k = "tentacular-identity")) as [->|Hne]; [by rewrite !map_get_set|by rewrite !map_get_set_ne].
Qed.
End lemmas.

(** ** Properties *)

(** C18: Opening the network for the backing services is exact and fails closed.
    Nothing changes unless there are credentials and a network policy named for the
    workflow, and then only the first such policy does: to the rules it has, rules
    are added each of which opens a single TCP port of a registered service, towards
    the one namespace its name lies in or towards single addresses its name resolved
    to; a rule for every destination is never added.  Each service with a host and a
    numeric port gets its rule, unless its name is outside the cluster and the lookup
    failed or found no address. *)
Theorem exo_egress_closed `{L : UnstructuredLib} `{!UnstructuredLaws L} `{UL : UrlLib} manifests cs wf :
  holds any_request (fun h' ms' =>
    (ms' = manifests /\ (cs = [] \/ Forall (fun m => ~ own_policy wf m) manifests)) \/
    exists before m after rules, let egress := default [] (NestedSlice m ["spec"; "egress"]) in
      cs <> [] /\ (manifests = before ++ m :: after)%list /\
      (ms' = before ++ SetNestedSlice m (egress ++ rules)%list ["spec"; "egress"] :: after)%list /\
      Forall (fun m => ~ own_policy wf m) before /\ own_policy wf m /\ Forall (narrow cs h') rules /\
      forall host n, service cs host n -> opened rules h' host n)
    [] (patchNetworkPolicyExoEgress manifests cs wf).
Proof.
  unfold patchNetworkPolicyExoEgress. destruct cs as [|c cs]; [left; split; [done|by left]|]. set (all := c :: cs).
  generalize (@nil event). induction manifests as [|m rest IH]; intros h; [left; split; [done|right; constructor]|]. cbn [patch_netpol].
  destruct (is_netpol wf m) eqn:Hm.
  - apply is_netpol_spec in Hm. apply holds_bind. unfold open_egress. apply holds_bind.
    eapply holds_mono; [done| |apply (add_rules_added all)]. intros h' egress (rules & -> & Hn & Hall).
    right. exists [], m, rest, rules. cbv zeta. split_and!; [done..|constructor|exact Hm|exact Hn|].
    intros host n (ep & Hep & <- & Hn')%service_endpoint. by apply Hall.
  - assert (~ own_policy wf m) as Hno by (rewrite <- is_netpol_spec; congruence).
    apply holds_bind. eapply holds_mono; [done| |apply IH].
    intros h' ms' [[-> [?|Hall]]|(b & x & a & rules & Hc & Heq & -> & Hb & Hx)]; [done|left; split; [done|right; by constructor]|right].
    exists (m :: b), x, a, rules. cbv zeta in *. split_and!; [done|by rewrite Heq|done|by constructor|apply Hx..].
Qed.

(** C40: The order in which Go iterates over the credentials has no effect: the
    allow list, the network policy, the contract and the data of the workflow's
    Secret come out the same. *)
Theorem iteration_order_irrelevant `{L : UnstructuredLib} `{UL : UrlLib} `{Y : YamlLib} `{U : Unicode}
    manifests ns wf cs cs' :
  cs ≡ₚ cs' -> NoDup (cs.*1) ->
  patchDeploymentAllowNet manifests cs = patchDeploymentAllowNet manifests cs' /\
  patchNetworkPolicyExoEgress manifests cs wf = patchNetworkPolicyExoEgress manifests cs' wf /\
  enrichContractDeps manifests cs = enrichContractDeps manifests cs' /\
  forall k, map_get k (buildExoStringData ns wf cs) = map_get k (buildExoStringData ns wf cs').
Proof.
  intros Hp Hnd. split_and!.
  - unfold patchDeploymentAllowNet. by rewrite (collectExoHosts_perm cs cs').
  - assert (patch_netpol cs wf manifests = patch_netpol cs' wf manifests) as Heq.
    { induction manifests as [|m rest IH]; [done|]. simpl. unfold open_egress. by rewrite (endpoints_perm cs cs'), IH. }
    unfold patchNetworkPolicyExoEgress. destruct cs, cs'; try done.
    + by apply Permutation_nil_cons in Hp.
    + symmetry in Hp. by apply Permutation_nil_cons in Hp.
  - by apply enrichContractDeps_perm.
  - intros k. by apply buildExoStringData_perm.
Qed.

(** ** Witnesses *)

Definition nats_creds_example : NATSCreds :=
  {| nc_URL := "nats://nats.exo.svc:4222"; nc_Token := ""; nc_SubjectPrefix := "tentacular.ns.wf.>";
     nc_Protocol := "nats"; nc_AuthMethod := "spiffe" |}.
Definition two_services : list (string * creds) :=
  [("tentacular-postgres", PgCreds pg_example); ("tentacular-nats", NatsCreds nats_creds_example)].
Definition wf_netpol : manifest :=
  [("kind", VStr "NetworkPolicy"); ("metadata", VMap [("name", VStr "wf-netpol")]); ("spec", VMap [("egress", VList [VNull])])].

(** The policy keeps its rule and gets one for each service. *)
Lemma exo_egress_closed_witness :
  (exec (patchNetworkPolicyExoEgress (L := path_lib) (UL := no_brackets) [wf_netpol] two_services "wf") empty_cluster).1 =
    [map_set "spec" (VMap [("egress", VList [VNull; to_namespace "exo" 4222; to_namespace "exo" 5432])]) wf_netpol] /\
  holds any_request (fun _ ms' => exists rules, ms' = [SetNestedSlice (UnstructuredLib := path_lib) wf_netpol (VNull :: rules) ["spec"; "egress"]] /\
      to_namespace "exo" 4222 ∈ rules /\ to_namespace "exo" 5432 ∈ rules) []
    (patchNetworkPolicyExoEgress (L := path_lib) (UL := no_brackets) [wf_netpol] two_services "wf").
Proof.
  split; [vm_compute; reflexivity|].
  eapply holds_mono; [done| |apply (exo_egress_closed (UnstructuredLaws0 := path_laws) (UL := no_brackets) [wf_netpol] two_services "wf")].
  intros h' ms' [[_ [?|Hno]]|(b & m & a & rules & _ & Heq & -> & _ & _ & _ & Hopen)].
  - done.
  - exfalso. inversion Hno as [|? ? H _]. by apply H.
  - destruct b as [|? [|]]; [|discriminate Heq..]. injection Heq as <- <-. exists rules. split_and!; [done| |].
    + refine (proj1 (Hopen "nats.exo.svc" 4222%Z _) "exo" _); [|exists "nats", []; split; [reflexivity|by left]].
      eexists "tentacular-nats", _, "4222". split_and!; [right; left|constructor; reflexivity|done|done|reflexivity].
    + refine (proj1 (Hopen (pgc_Host pg_example) 5432%Z _) "exo" _); [|eexists _, _; split; [reflexivity|]; first [by left|by right; left|right; right; by eexists]].
      eexists "tentacular-postgres", _, "5432". split_and!; [left|apply reaches_postgres|done|done|reflexivity].
Defined.

Lemma iteration_order_irrelevant_witness :
  patchDeploymentAllowNet (L := path_lib) (UL := no_brackets) [wf_netpol] two_services =
  patchDeploymentAllowNet (L := path_lib) (UL := no_brackets) [wf_netpol] (reverse two_services).
Proof.
  apply (iteration_order_irrelevant (L := path_lib) (UL := no_brackets) (Y := toy_yaml []) (U := ascii_tables) [wf_netpol] "ns" "wf").
  - symmetry. apply reverse_Permutation.
  - apply (bool_decide_unpack _). reflexivity.
Defined.
