(* ===== verification/Process.v ===== *)
(** * Processing the manifests of a workflow (ProcessManifests of pkg/exoskeleton/controller.go)

    Everything the exoskeleton does to a workflow before it is applied: telemetry,
    detection of the declared dependencies, registration with each backing
    service, and the delivery of the credentials. *)

From S2P Require Import Prelude GoStrings ExoConfig Identity Effects K8sOps Unstructured Json GoUrl.
From S2P Require Import Injector Contract Enrich Egress Controller.
From S2P Require PgRegistrar NatsRegistrar RustfsRegistrar.
#[local] Open Scope string_scope.

Abbreviation manifests_t := (list (list (string * value))) (only parsing).

(** ** Service information *)

Record ExoskeletonServiceInfo := {
  esi_Name : string;
  esi_Host : string;
  esi_Port : string;
  esi_Protocol : string;
  esi_Available : bool;
  esi_SPIFFEEnabled : bool;
}.
Record ExoskeletonInfo := {
  ei_Services : list ExoskeletonServiceInfo;
  ei_AuthEnabled : bool;
  ei_AuthIssuer : string;
  ei_Enabled : bool;
}.

Section process.
Context `{U : Unicode} `{L : UnstructuredLib} `{Y : YamlLib} `{UL : UrlLib}.

Definition Enabled (c : Controller) : bool := c_Enabled (ctl_cfg c).
Definition AuthIssuer (c : Controller) : string := auth_IssuerURL (c_Auth (ctl_cfg c)).

Definition service_info (name host port protocol : string) (available spiffe : bool) : ExoskeletonServiceInfo :=
  {| esi_Name := name; esi_Host := host; esi_Port := port; esi_Protocol := protocol; esi_Available := available;
     esi_SPIFFEEnabled := spiffe |}.

Definition ServiceInfo (c : Controller) : option ExoskeletonInfo :=
  let cfg := ctl_cfg c in
  if negb (c_Enabled cfg) then None
  else
    let (natsHost, natsPort) := parseHostPort (nats_URL (c_NATS cfg)) in
    let (rustfsHost, rustfsPort) := parseHostPort (rfs_Endpoint (c_RustFS cfg)) in
    Some {| ei_Services :=
              [service_info "postgres" (pg_Host (c_Postgres cfg)) (pg_Port (c_Postgres cfg)) "postgresql" (PostgresAvailable c) false;
               service_info "nats" natsHost natsPort "nats" (NATSAvailable c) (nats_SPIFFEEnabled (c_NATS cfg));
               service_info "rustfs" rustfsHost rustfsPort "s3" (RustFSAvailable c) false;
               service_info "spire" "" "" "spiffe" (SPIREAvailable c) false];
            ei_AuthEnabled := AuthEnabled cfg;
            ei_AuthIssuer := if AuthEnabled cfg then AuthIssuer c else "";
            ei_Enabled := true |}.

(** ** Registration *)

Definition not_configured (dep env : string) : error :=
  ErrorNew ("workflow requires " +:+ dep +:+ " but TENTACULAR_EXOSKELETON_" +:+ env +:+ " is not enabled or not configured").

(** Register with a service, if it is there, and keep its credentials. *)
Definition register_with {R C} (reg : option R) (register : R -> prog (res C)) (wrap : C -> creds)
    (dep env label : string) (cs : list (string * creds)) : prog (res (list (string * creds))) :=
  match reg with
  | None => Ret (Err (not_configured dep env))
  | Some r =>
      try c := register r else (fun err => Err (Errorf (label +:+ " registration: %w") [AErr err])) ;;
      Ret (Ok (map_set dep (wrap c) cs))
  end.

Definition register_dep (c : Controller) (id : Identity) (cs : list (string * creds)) (dep : string) :
    prog (res (list (string * creds))) :=
  if String.eqb dep "tentacular-postgres"
  then register_with (ctl_pg c) (fun r => pgr_Register r id) PgCreds dep "POSTGRES" "postgres" cs
  else if String.eqb dep "tentacular-nats"
  then register_with (ctl_nats c) (fun r => natsr_Register r id) NatsCreds dep "NATS" "nats" cs
  else if String.eqb dep "tentacular-rustfs"
  then register_with (ctl_rustfs c) (fun r => rfsr_Register r id) RustfsCreds dep "RUSTFS" "rustfs" cs
  else Ret (Ok cs).

(** ** Delivery *)

Definition inject (namespace name : string) (manifests : manifests_t) (cs : list (string * creds)) :
    prog (res (list (list (string * value)))) :=
  match cs with
  | [] => Ret (Ok manifests)
  | _ =>
      match enrichContractDeps manifests cs with
      | Err err => Ret (Err (Errorf "enrich contract deps: %w" [AErr err]))
      | Ok manifests =>
          match BuildSecretManifest namespace name cs with
          | Err err => Ret (Err (Errorf "build secret manifest: %w" [AErr err]))
          | Ok secret =>
              let manifests := patchDeploymentAllowNet (manifests ++ [secret])%list cs in
              manifests ← patchNetworkPolicyExoEgress manifests cs name;
              Ret match mergeExoCredsIntoUserSecret manifests namespace name cs with
                  | Err err => Err (Errorf "merge exo creds: %w" [AErr err])
                  | Ok manifests => Ok manifests
                  end
          end
      end
  end.

Definition telemetry (name : string) (manifests : manifests_t) : list (list (string * value)) :=
  patchNetworkPolicyOTelEgress (patchDeploymentWorkflowLabel (patchDeploymentOTelEnv manifests) name) name.

(** The SPIRE registration; its failure is only logged. *)
Definition spire_step (c : Controller) (id : Identity) (namespace : string) (manifests : manifests_t) :
    prog (list (list (string * value))) :=
  match ctl_spire c with
  | None => Ret manifests
  | Some r =>
      out ← spr_Register r id namespace;
      Ret match out with
          | Err _ => manifests
          | Ok _ => patchDeploymentSpireVolume manifests
          end
  end.

Definition ProcessManifests (c : Controller) (namespace name : string) (manifests : manifests_t) :
    prog (res (list (list (string * value)))) :=
  if negb (c_Enabled (ctl_cfg c)) then Ret (Ok manifests)
  else
    let manifests := telemetry name manifests in
    match detectExoDeps manifests with
    | [] => Ret (Ok manifests)
    | deps =>
        match CompileIdentity namespace name with
        | Err err => Ret (Err (Errorf "exoskeleton identity: %w" [AErr err]))
        | Ok id =>
            try cs := foldE (register_dep c id) deps [] else Err ;;
            try manifests := inject namespace name manifests cs else Err ;;
            manifests ← spire_step c id namespace manifests;
            Ret (Ok manifests)
        end
    end.
End process.

(** ** Lemmas *)

Section lemmas.
Context `{U : Unicode} `{L : UnstructuredLib} `{!UnstructuredLaws L} `{Y : YamlLib} `{UL : UrlLib}.

Lemma is_kind_other k k' m : k <> k' -> is_kind k m = true -> is_kind k' m = false.
Proof. unfold is_kind. intros Hne ->%String.eqb_eq. by apply String.eqb_neq. Qed.

Lemma workflow_text_other k m : k <> "ConfigMap" -> is_kind k m = true -> workflow_text m = None.
Proof. intros Hne Hk%(is_kind_other k "ConfigMap"); [|done]. unfold workflow_text. unfold is_kind in Hk. by rewrite Hk. Qed.

(** *** Telemetry leaves the contract alone *)

Lemma write_container_kind k m cs c : is_kind k (write_container m cs c) = is_kind k m.
Proof. apply is_kind_at. by apply SetSlice_at. Qed.

Lemma patch_otel_kind k m : is_kind k (patch_otel m) = is_kind k m.
Proof. unfold patch_otel. repeat case_match; by rewrite ?write_container_kind. Qed.

Lemma patch_label_kind k name m : is_kind k (patch_label name m) = is_kind k m.
Proof.
  unfold patch_label. destruct (String.eqb _ name); [done|]. apply is_kind_at. rewrite law_SetField. by apply at_set_field_ne.
Qed.

Lemma patch_otel_egress_kind k m : is_kind k (patch_otel_egress m) = is_kind k m.
Proof. unfold patch_otel_egress. destruct (existsb _ _); [done|]. apply is_kind_at. by apply SetSlice_at. Qed.

Lemma on_first_detect found f manifests :
  (forall m, found m = true -> workflow_text m = None /\ workflow_text (f m) = None) ->
  detectExoDeps (on_first found f manifests) = detectExoDeps manifests.
Proof.
  intros H. induction manifests as [|m rest IH]; [done|]. simpl. destruct (found m) eqn:Hm; simpl.
  - destruct (H m Hm) as [-> ->]. done.
  - by rewrite IH.
Qed.

Lemma telemetry_detect name manifests : detectExoDeps (telemetry name manifests) = detectExoDeps manifests.
Proof.
  unfold telemetry, patchNetworkPolicyOTelEgress, patchDeploymentWorkflowLabel, patchDeploymentOTelEnv.
  rewrite !on_first_detect; [done|..].
  - intros m Hm. split; [by eapply (workflow_text_other "Deployment")|].
    apply (workflow_text_other "Deployment"); [done|]. by rewrite patch_otel_kind.
  - intros m Hm. split; [by eapply (workflow_text_other "Deployment")|].
    apply (workflow_text_other "Deployment"); [done|]. by rewrite patch_label_kind.
  - intros m [Hm _]%andb_true_iff. split; [by eapply (workflow_text_other "NetworkPolicy")|].
    apply (workflow_text_other "NetworkPolicy"); [done|]. by rewrite patch_otel_egress_kind.
Qed.

(** *** The SPIRE volume leaves every other manifest alone *)

Lemma spire_volume_keeps m manifests :
  m ∈ manifests -> is_kind "Deployment" m = false -> m ∈ patchDeploymentSpireVolume manifests.
Proof.
  intros Hin Hk. induction manifests as [|x rest IH]; [by apply elem_of_nil in Hin|]. simpl.
  apply elem_of_cons in Hin as [<-|Hin]; [rewrite Hk; by left|].
  destruct (is_kind "Deployment" x); cbn [negb]; [|right; by apply IH].
  destruct (patch_spire x) as [x' go_on]. right. destruct go_on; [by apply IH|done].
Qed.

Lemma user_secret_not_deployment wf m : is_user_secret wf m = true -> is_kind "Deployment" m = false.
Proof. unfold is_user_secret. intros [Hk _]%andb_true_iff. by apply (is_kind_other "Secret"). Qed.

(** *** Registration *)

(** What is known of the credentials each registrar returns. *)
Context (P : string -> creds -> Prop).

Definition registrars_give (c : Controller) (id : Identity) : Prop :=
  (forall r, ctl_pg c = Some r -> returns (fun x => forall k, x = Ok k -> P "tentacular-postgres" (PgCreds k)) (pgr_Register r id)) /\
  (forall r, ctl_nats c = Some r -> returns (fun x => forall k, x = Ok k -> P "tentacular-nats" (NatsCreds k)) (natsr_Register r id)) /\
  (forall r, ctl_rustfs c = Some r -> returns (fun x => forall k, x = Ok k -> P "tentacular-rustfs" (RustfsCreds k)) (rfsr_Register r id)).

(** The credentials collected for the dependencies seen so far. *)
Definition collected (done : list string) (cs : list (string * creds)) : Prop :=
  NoDup (cs.*1) /\
  (forall dep c, (dep, c) ∈ cs -> P dep c /\ service_of_dep dep <> None /\ is_Some (service_object c)) /\
  (forall dep, dep ∈ done -> service_of_dep dep <> None -> dep ∈ cs.*1).

Lemma collected_set done cs dep c :
  collected done cs -> P dep c -> service_of_dep dep <> None -> is_Some (service_object c) ->
  collected (done ++ [dep]) (map_set dep c cs).
Proof.
  intros (Hnd & Hin & Hall) HP Hdep Hobj. split_and!; [by apply map_set_NoDup| |].
  - intros d x Hx. assert (map_get d (map_set dep c cs) = Some x) as Hg by (by apply map_get_in; [apply map_set_NoDup|]).
    destruct (decide (dep = d)) as [->|Hne].
    + rewrite map_get_set in Hg. by injection Hg as <-.
    + rewrite map_get_set_ne in Hg by done. apply Hin. clear -Hg.
      induction cs as [|[k v] cs IH]; [done|]. simpl in Hg. destruct (String.eqb_spec k d) as [->|];
        [injection Hg as ->; by left|right; by apply IH].
  - intros d [Hd| ->]%elem_of_snoc Hs; apply map_set_keys; [right; by apply Hall|by left].
Qed.

Lemma register_with_collected {R C} (reg : option R) register (wrap : C -> creds) dep env label done cs :
  (forall r, reg = Some r -> returns (fun x => forall k, x = Ok k -> P dep (wrap k)) (register r)) ->
  (forall k, is_Some (service_object (wrap k))) -> service_of_dep dep <> None -> collected done cs ->
  returns (fun x => forall cs', x = Ok cs' -> collected (done ++ [dep]) cs')
    (register_with reg register wrap dep env label cs).
Proof.
  intros Hreg Hobj Hdep Hcs. unfold register_with. destruct reg as [r|]; [|by apply returns_Ret].
  intros h. apply holds_try. eapply holds_mono; [done| |by apply (Hreg r)].
  intros h' [k|e] Hk; simpl; [|done]. intros cs' [= <-]. apply collected_set; [done|by apply Hk|done|apply Hobj].
Qed.

Lemma register_dep_collected c id dep done cs :
  registrars_give c id -> collected done cs ->
  returns (fun x => forall cs', x = Ok cs' -> collected (done ++ [dep]) cs') (register_dep c id cs dep).
Proof.
  intros (Hpg & Hnats & Hrfs) Hcs. unfold register_dep.
  destruct (String.eqb_spec dep "tentacular-postgres") as [->|H1]; [by apply register_with_collected|].
  destruct (String.eqb_spec dep "tentacular-nats") as [->|H2]; [by apply register_with_collected|].
  destruct (String.eqb_spec dep "tentacular-rustfs") as [->|H3]; [by apply register_with_collected|].
  apply returns_Ret. intros cs' [= <-]. destruct Hcs as (Hnd & Hin & Hall). split_and!; [done..|].
  intros d [Hd| ->]%elem_of_snoc Hs; [by apply Hall|]. destruct Hs. unfold service_of_dep.
  by rewrite (proj2 (String.eqb_neq _ _) H1), (proj2 (String.eqb_neq _ _) H2), (proj2 (String.eqb_neq _ _) H3).
Qed.

Lemma register_deps_collected c id deps :
  registrars_give c id ->
  returns (fun x => forall cs, x = Ok cs -> collected deps cs) (foldE (register_dep c id) deps []).
Proof.
  intros Hreg h. apply (holds_foldE _ (fun done _ cs => collected done cs)) with (done := []).
  - intros pre dep post h' cs _ Hcs. eapply holds_mono; [done| |by apply register_dep_collected].
    intros h2 [cs'|e] H; [by apply H|done].
  - intros h' cs Hcs cs' [= <-]. exact Hcs.
  - split_and!; [constructor| |]; [by intros ? ? ?%elem_of_nil|by intros ? ?%elem_of_nil].
Qed.

(** *** Delivery *)

(** A Secret of the workflow that holds every service's credentials. *)
Definition delivered (name : string) (cs : list (string * creds)) (ms : manifests_t) : Prop :=
  exists m, m ∈ ms /\ is_user_secret name m = true /\
    forall dep c obj, (dep, c) ∈ cs -> service_object c = Some obj ->
      exists text o, get_string m ["stringData"; dep] = Some text /\ parse_json text = Some (VMap o) /\
        forall f v, (f, v) ∈ obj -> map_get f o = Some (VStr v).

Context (HP : forall dep c obj, P dep c -> service_object c = Some obj -> Forall (fun kv => utf8 kv.1 /\ utf8 kv.2) obj).

Lemma inject_delivers ns name manifests cs done :
  collected done cs -> cs <> [] ->
  returns (fun x => forall ms, x = Ok ms -> delivered name cs ms) (inject ns name manifests cs).
Proof.
  intros (Hnd & Hin & _) Hne. unfold inject. destruct cs as [|c0 cs0]; [done|]. set (cs := c0 :: cs0) in *.
  destruct (enrichContractDeps manifests cs); [|by apply returns_Ret].
  destruct (BuildSecretManifest ns name cs); [|by apply returns_Ret]. cbv zeta.
  apply returns_bind. intros ms. apply returns_Ret.
  destruct (merge_delivers ms ns name cs Hnd) as (ms' & m & -> & Hm & Hu & Hread & _).
  - intros dep c obj Hdep Hobj. destruct (Hin _ _ Hdep) as (Hp & Hknown & _). split; [by intros ->|by eapply HP].
  - intros ms2 [= <-]. by exists m.
Qed.

Lemma spire_step_delivers c id ns name cs ms :
  delivered name cs ms -> returns (delivered name cs) (spire_step c id ns ms).
Proof.
  intros (m & Hm & Hu & Hread). unfold spire_step. destruct (ctl_spire c) as [r|]; [|apply returns_Ret; by exists m].
  apply returns_bind. intros [[]|e]; apply returns_Ret; exists m; (split; [|done]); [|done].
  apply spire_volume_keeps; [done|]. by eapply user_secret_not_deployment.
Qed.
End lemmas.

(** ** Properties *)

(** C17: From declaration to delivery.  If processing succeeds on an enabled
    exoskeleton, then for every backing service the workflow's contract declares,
    the manifests contain the workflow's Secret with a text under the dependency's
    name that decodes to an object with all the fields of credentials that
    service's registrar returned ([P] is any property its results have). *)
Theorem ProcessManifests_delivers `{U : Unicode} `{L : UnstructuredLib} `{!UnstructuredLaws L} `{Y : YamlLib}
    `{UL : UrlLib} (P : string -> creds -> Prop) c ns name manifests :
  (forall dep c obj, P dep c -> service_object c = Some obj -> Forall (fun kv => utf8 kv.1 /\ utf8 kv.2) obj) ->
  c_Enabled (ctl_cfg c) = true ->
  (forall id, CompileIdentity ns name = Ok id -> registrars_give P c id) ->
  returns (fun r => forall ms dep, r = Ok ms -> dep ∈ detectExoDeps manifests -> service_of_dep dep <> None ->
     exists m k obj text o, m ∈ ms /\ is_user_secret name m = true /\ P dep k /\ service_object k = Some obj /\
       get_string m ["stringData"; dep] = Some text /\ parse_json text = Some (VMap o) /\
       forall f v, (f, v) ∈ obj -> map_get f o = Some (VStr v))
    (ProcessManifests c ns name manifests).
Proof.
  intros HP He Hreg. unfold ProcessManifests. rewrite He. cbn [negb]. cbv zeta. rewrite telemetry_detect.
  destruct (detectExoDeps manifests) as [|d deps]; [apply returns_Ret; by intros ms dep _ ?%elem_of_nil|].
  destruct (CompileIdentity ns name) as [id|err]; [|by apply returns_Ret].
  intros h. apply holds_try. eapply holds_mono; [done| |by apply (register_deps_collected P), Hreg].
  intros h1 [cs|e] Hcs; [|done]. specialize (Hcs cs eq_refl). apply holds_try.
  destruct (decide (cs = [])) as [->|Hne].
  { simpl. apply holds_bind. eapply holds_mono; [done| |apply holds_any]. intros h2 ms2 _ ms dep _ Hdep Hs.
    destruct Hcs as (_ & _ & Hall). specialize (Hall dep Hdep Hs). by apply elem_of_nil in Hall. }
  eapply holds_mono; [done| |by eapply (inject_delivers P HP)].
  intros h2 [ms|e] Hms; [|done]. specialize (Hms ms eq_refl). apply holds_bind.
  eapply holds_mono; [done| |by apply spire_step_delivers]. intros h3 ms3 (m & Hm & Hu & Hread) ms4 dep [= <-] Hdep Hs.
  destruct Hcs as (_ & Hin & Hall). specialize (Hall dep Hdep Hs).
  apply list_elem_of_fmap in Hall as ([dep' k] & -> & Hk). destruct (Hin _ _ Hk) as (HPk & _ & obj & Hobj).
  destruct (Hread _ _ _ Hk Hobj) as (text & o & H1 & H2 & H3). by exists m, k, obj, text, o.
Qed.

(** ** Witnesses *)

Definition ready_registrar : PostgresRegistrarI :=
  {| pgr_Register := fun _ => Ret (Ok pg_example); pgr_Unregister := fun _ => Ret (Ok ());
     pgr_EnsureEnclave := fun _ => Ret (Ok ()); pgr_CleanupEnclave := fun _ => Ret (Ok ()) |}.
Definition enabled_controller : Controller :=
  NewControllerWithDeps
    {| c_Postgres := c_Postgres toy_config; c_RustFS := c_RustFS toy_config; c_NATS := c_NATS toy_config;
       c_SPIRE := c_SPIRE toy_config; c_Auth := c_Auth toy_config; c_Enabled := true; c_CleanupOnUndeploy := false |}
    (Some ready_registrar) None None None.

Lemma ProcessManifests_delivers_witness :
  exists ms m text o,
    (exec (ProcessManifests (U := ascii_tables) (L := path_lib) (Y := two_documents) (UL := no_brackets)
             enabled_controller "ns" "wf" [code_configmap "plain"]) empty_cluster).1 = Ok ms /\
    m ∈ ms /\ get_string m ["stringData"; "tentacular-postgres"] = Some text /\ parse_json text = Some (VMap o) /\
    map_get "password" o = Some (VStr "s<cr>et").
Proof.
  pose proof (ProcessManifests_delivers (U := ascii_tables) (UnstructuredLaws0 := path_laws) (Y := two_documents)
                (UL := no_brackets) (fun dep k => k = PgCreds pg_example) enabled_controller "ns" "wf" [code_configmap "plain"]) as H.
  assert (exists ms, (exec (ProcessManifests (U := ascii_tables) (L := path_lib) (Y := two_documents) (UL := no_brackets)
             enabled_controller "ns" "wf" [code_configmap "plain"]) empty_cluster).1 = Ok ms) as [ms Hms].
  { apply is_ok_true. vm_compute. reflexivity. }
  eapply (holds_run cluster_handler any_request _ [] _ empty_cluster) in H.
  - destruct (H ms "tentacular-postgres" Hms) as (m & k & obj & text & o & Hm & _ & -> & [= <-] & H1 & H2 & H3).
    + vm_compute. left.
    + done.
    + exists ms, m, text, o. split_and!; [exact Hms|done..|]. apply H3. do 4 right. by left.
  - intros dep c obj -> [= <-]. repeat constructor; by apply ascii_utf8.
  - done.
  - intros id _. split_and!; [|done|done]. intros r [= <-]. apply returns_Ret. by intros k [= <-].
Defined.
