(* ===== verification/Deploy.v ===== *)
(** * Applying and removing workflows (pkg/tools/deploy.go)

    The handlers behind [wf_apply], [wf_remove] and [wf_status]: a named set of
    manifests is applied to a managed namespace under a release label, resources
    of the release that are no longer in the set are collected, and removal
    deletes what the label marks. *)

From S2P Require Import Prelude GoStrings Guard Annotations ExoConfig Auth Evaluator.
From S2P Require Import Effects K8sOps Unstructured Psa PsaDefaults Controller Scheduler AuthzHelpers.
#[local] Open Scope string_scope.

Definition releaseLabelKey : string := "tentacular.io/release".

Definition allowedKinds (kind : string) : bool :=
  str_in kind ["Deployment"; "Service"; "PersistentVolumeClaim"; "NetworkPolicy"; "ConfigMap"; "Secret";
               "Job"; "CronJob"; "Ingress"].

Record GVR := { g_Group : string; g_Version : string; g_Resource : string }.

#[export] Instance GVR_eq_dec : EqDecision GVR.
Proof. solve_decision. Defined.

Definition gvr (group version resource : string) : GVR :=
  {| g_Group := group; g_Version := version; g_Resource := resource |}.

Definition knownGVRs : list GVR :=
  [gvr "apps" "v1" "deployments"; gvr "" "v1" "services"; gvr "" "v1" "configmaps"; gvr "" "v1" "secrets";
   gvr "batch" "v1" "jobs"; gvr "batch" "v1" "cronjobs"; gvr "networking.k8s.io" "v1" "networkpolicies";
   gvr "networking.k8s.io" "v1" "ingresses"; gvr "" "v1" "persistentvolumeclaims"].

(** The kind a dynamic client of the resource addresses: the built-in ones share
    their objects with the typed clients, which the requests name by the plural. *)
Definition gvr_kind (g : GVR) : kind :=
  if bool_decide (g ∈ knownGVRs) then g_Resource g
  else g_Group g +:+ "/" +:+ g_Version g +:+ "/" +:+ g_Resource g.

Record WorkflowApplyParams := {
  wa_Namespace : string;
  wa_Name : string;
  wa_Mode : string;
  wa_Manifests : list (list (string * value));
}.
Record WorkflowApplyResult := {
  war_Name : string;
  war_Namespace : string;
  war_Created : Z;
  war_Updated : Z;
  war_Deleted : Z;
}.
Record WorkflowRemoveParams := { wr_Namespace : string; wr_Name : string }.
Record WorkflowRemoveResult := {
  wrr_Name : string;
  wrr_Namespace : string;
  wrr_ExoCleanupDetails : string;
  wrr_Deleted : Z;
  wrr_ExoCleanedUp : bool;
}.
Record WorkflowStatusParams := { wst_Namespace : string; wst_Name : string; wst_Detail : bool }.
Record WorkflowResourceStatus := { ws_Kind : string; ws_Name : string; ws_Reason : string; ws_Ready : bool }.
Record WorkflowPodInfo := { wp_Name : string; wp_Phase : string; wp_NodeName : string; wp_Ready : bool }.
Record WorkflowEventInfo := { we_Type : string; we_Reason : string; we_Message : string; we_Count : Z }.
Record WorkflowStatusResult := {
  wsr_Name : string;
  wsr_Namespace : string;
  wsr_Version : string;
  wsr_Resources : list WorkflowResourceStatus;
  wsr_Pods : list WorkflowPodInfo;
  wsr_Events : list WorkflowEventInfo;
  wsr_Replicas : Z;
  wsr_Available : Z;
  wsr_Ready : bool;
}.

Section deploy.
Context `{U : Unicode} `{L : UnstructuredLib}.

(** ** Resolving resources *)

(** The search through the discovery lists: the first resource of the kind in a
    list of the group version. *)
Definition find_resource (lists : list (string * list (string * string))) (apiVersion kind : string) :
    option (string * string) :=
  head (List.filter (fun r => String.eqb r.2 kind)
          (mjoin (snd <$> List.filter (fun rl => String.eqb rl.1 apiVersion) lists))).

(** What [resolveGVR] makes of the discovery result. *)
Definition resolved (r : option (list (string * list (string * string))) * option error) (apiVersion kind : string) :
    res GVR :=
  match r with
  | (None, Some err) => Err (Errorf "discovery failed: %w" [AErr err])
  | (lists, _) =>
      match find_resource (default [] lists) apiVersion kind with
      | None => Err (Errorf "no resource found for apiVersion=%q kind=%q" [AStr apiVersion; AStr kind])
      | Some r =>
          match ParseGroupVersion apiVersion with
          | Err err => Err (Errorf "parse group version %q: %w" [AStr apiVersion; AErr err])
          | Ok (group, version) => Ok (gvr group version r.1)
          end
      end
  end.

Definition resolveGVR (apiVersion kind : string) : prog (res GVR) :=
  r ← call ServerGroupsAndResources; Ret (resolved r apiVersion kind).

Definition resourceKey (g : GVR) (name : string) : string := Sprintf "%s/%s/%s" [g_Group g; g_Resource g; name].

(** ** Apply *)

Record apply_state := { as_created : Z; as_updated : Z; as_applied : list string }.

(** The object as it is sent: namespace and release label set. *)
Definition labelled (ns release : string) (m : manifest) : manifest :=
  let m := SetNamespace m ns in
  SetLabels m (<[releaseLabelKey := release]> (GetLabels m)).

(** One manifest of the loop. *)
Definition apply_manifest (ns release : string) (st : apply_state) (m : manifest) : prog (res apply_state) :=
  let apiVersion := GetAPIVersion m in
  let kind := GetKind m in
  if String.eqb apiVersion "" || String.eqb kind ""
  then Ret (Err (ErrorNew "manifest missing apiVersion or kind"))
  else if negb (allowedKinds kind)
  then Ret (Err (Errorf "kind %q is not permitted in workflow manifests; allowed kinds: Deployment, Service, PersistentVolumeClaim, NetworkPolicy, ConfigMap, Secret, Job, CronJob, Ingress" [AStr kind]))
  else
    try g := resolveGVR apiVersion kind
      else (fun err => Err (Errorf "resolve GVR for %s/%s: %w" [AStr apiVersion; AStr kind; AErr err])) ;;
    let obj := labelled ns release m in
    let name := GetName obj in
    if String.eqb name "" then Ret (Err (Errorf "manifest of kind %s is missing a name" [AStr kind]))
    else
      let applied := resourceKey g name :: as_applied st in
      existing ← call (KGet (gvr_kind g) ns name);
      match existing with
      | Err err =>
          if reason_is NotFound err then
            try_ call (KCreate (gvr_kind g) ns (of_manifest ns obj))
              else (fun err => Err (Errorf "create %s/%s: %w" [AStr kind; AStr name; AErr err])) ;;
            Ret (Ok {| as_created := as_created st + 1; as_updated := as_updated st; as_applied := applied |})
          else Ret (Err (Errorf "get %s/%s: %w" [AStr kind; AStr name; AErr err]))
      | Ok old =>
          let obj := SetResourceVersion obj (o_resourceVersion old) in
          try_ call (KUpdate (gvr_kind g) ns (of_manifest ns obj))
            else (fun err => Err (Errorf "update %s/%s: %w" [AStr kind; AStr name; AErr err])) ;;
          Ret (Ok {| as_created := as_created st; as_updated := as_updated st + 1; as_applied := applied |})
      end.

Definition release_selector (release : string) : string := Sprintf "%s=%s" [releaseLabelKey; release].

(** Deletion of the listed objects of one resource that [keep] does not hold
    back; failures are skipped. *)
Definition delete_items (ns : string) (g : GVR) (keep : string -> bool) (deleted : Z) (items : list object) : prog Z :=
  foldM (fun deleted item =>
    if keep (resourceKey g (o_name item)) then Ret deleted
    else r ← call (KDelete (gvr_kind g) ns (o_name item));
         Ret (match r with Ok _ => (deleted + 1)%Z | Err _ => deleted end)) items deleted.

(** The collection loop over the known resources. *)
Definition delete_released (ns release : string) (keep : string -> bool) : prog Z :=
  foldM (fun deleted g =>
    list ← call (KList (gvr_kind g) ns (release_selector release));
    match list with
    | Err _ => Ret deleted
    | Ok items => delete_items ns g keep deleted items
    end) knownGVRs 0%Z.

Definition handleWorkflowApply (params : WorkflowApplyParams) : prog (res WorkflowApplyResult) :=
  let ns := wa_Namespace params in
  let release := wa_Name params in
  try_ CheckManagedNamespace ns else Err ;;
  let manifests := ensurePSACompliance (wa_Manifests params) in
  try psaLevel := NamespacePSALevel ns else Err ;;
  match ValidatePSA ns psaLevel manifests with
  | Some err => Ret (Err (ErrorNew (psa_Error err)))
  | None =>
      try st := foldE (apply_manifest ns release) manifests {| as_created := 0; as_updated := 0; as_applied := [] |}
        else Err ;;
      deleted ← delete_released ns release (fun key => str_in key (as_applied st));
      Ret (Ok {| war_Name := release; war_Namespace := ns; war_Created := as_created st;
                 war_Updated := as_updated st; war_Deleted := deleted |})
  end.

(** ** Remove *)

Definition handleWorkflowRemove (params : WorkflowRemoveParams) : prog (res WorkflowRemoveResult) :=
  try_ CheckManagedNamespace (wr_Namespace params) else Err ;;
  deleted ← delete_released (wr_Namespace params) (wr_Name params) (fun _ => false);
  Ret (Ok {| wrr_Name := wr_Name params; wrr_Namespace := wr_Namespace params; wrr_ExoCleanupDetails := "";
             wrr_Deleted := deleted; wrr_ExoCleanedUp := false |}).

(** ** Status *)

(** A typed field of an API object: the number at a path, zero if it is absent. *)
Definition int_at (o : object) (path : list string) : option Z :=
  match at_path (VMap (o_body o)) path with
  | Some (VInt z) => Some z
  | _ => None
  end.
Definition string_at (m : manifest) (path : list string) : string := default "" (get_string m path).
Definition list_at (m : manifest) (path : list string) : list value :=
  match at_path (VMap m) path with
  | Some (VList l) => l
  | _ => []
  end.

(** [replicaCount] (pkg/tools/discover.go): a nil pointer counts as one. *)
Definition replicaCount (replicas : option Z) : Z := default 1%Z replicas.

(** The loop over a job's conditions. *)
Fixpoint job_readiness (conditions : list value) : bool * string :=
  match conditions with
  | [] => (false, "job in progress")
  | c :: rest =>
      if key_is "type" "Complete" c && key_is "status" "True" c then (true, "")
      else if key_is "type" "Failed" c && key_is "status" "True" c then (false, "job failed")
      else job_readiness rest
  end.

Definition resourceReadiness (obj : manifest) (resource : string) : bool * string :=
  if String.eqb resource "deployments" then
    let readyReplicas := default 0%Z (NestedInt64 obj ["status"; "readyReplicas"]) in
    let found := NestedInt64 obj ["spec"; "replicas"] in
    let replicas := default 1%Z found in
    if bool_decide (is_Some found) && (replicas =? 0)%Z then (true, "")
    else if (replicas <=? readyReplicas)%Z then (true, "")
    else (false, Sprintf "%d/%d replicas ready" [pretty readyReplicas; pretty replicas])
  else if String.eqb resource "jobs" then job_readiness (default [] (NestedSlice obj ["status"; "conditions"]))
  else (true, "").

Definition resource_status (g : GVR) (item : object) : WorkflowResourceStatus :=
  let (ready, reason) := resourceReadiness (o_body item) (g_Resource g) in
  {| ws_Kind := GetKind (o_body item); ws_Name := o_name item; ws_Reason := reason; ws_Ready := ready |}.

Definition release_status (ns release : string) : prog (list WorkflowResourceStatus) :=
  foldM (fun acc g =>
    list ← call (KList (gvr_kind g) ns (release_selector release));
    Ret (match list with
         | Err _ => acc
         | Ok items => (acc ++ (resource_status g <$> items))%list
         end)) knownGVRs [].

(** Replicas, availability, readiness and version from the Deployment, if it was
    found. *)
Definition deployment_status (deploy : res object) : Z * Z * bool * string :=
  match deploy with
  | Err _ => (0, 0, false, "")%Z
  | Ok d =>
      let spec := int_at d ["spec"; "replicas"] in
      let replicas := replicaCount spec in
      let available := default 0%Z (int_at d ["status"; "availableReplicas"]) in
      (replicas, available,
       if bool_decide (is_Some spec) && (replicas =? 0)%Z then true else (replicas <=? available)%Z,
       default "" (o_labels d !! "app.kubernetes.io/version"))
  end.

Definition pod_ready (pod : object) : bool :=
  existsb (fun c => key_is "type" "Ready" c && key_is "status" "True" c)
    (list_at (o_body pod) ["status"; "conditions"]).
Definition pod_info (pod : object) : WorkflowPodInfo :=
  {| wp_Name := o_name pod; wp_Phase := string_at (o_body pod) ["status"; "phase"];
     wp_NodeName := string_at (o_body pod) ["spec"; "nodeName"]; wp_Ready := pod_ready pod |}.
Definition event_info (e : object) : WorkflowEventInfo :=
  {| we_Type := string_at (o_body e) ["type"]; we_Reason := string_at (o_body e) ["reason"];
     we_Message := string_at (o_body e) ["message"]; we_Count := default 0%Z (int_at e ["count"]) |}.

Definition status_detail (ns release : string) : prog (list WorkflowPodInfo * list WorkflowEventInfo) :=
  pods ← call (KList "pods" ns (release_selector release));
  events ← call (KListFields "events" ns ("involvedObject.name=" +:+ release));
  Ret (match pods with Ok l => pod_info <$> l | Err _ => [] end,
       match events with Ok l => event_info <$> l | Err _ => [] end).

Definition handleWorkflowStatus (params : WorkflowStatusParams) : prog (res WorkflowStatusResult) :=
  let ns := wst_Namespace params in
  let name := wst_Name params in
  try_ CheckManagedNamespace ns else Err ;;
  resources ← release_status ns name;
  deploy ← call (KGet "deployments" ns name);
  let '(replicas, available, ready, version) := deployment_status deploy in
  detail ← (if wst_Detail params then status_detail ns name else Ret ([], []));
  Ret (Ok {| wsr_Name := name; wsr_Namespace := ns; wsr_Version := version; wsr_Resources := resources;
             wsr_Pods := detail.1; wsr_Events := detail.2; wsr_Replicas := replicas;
             wsr_Available := available; wsr_Ready := ready |}).

(** ** The tools *)

(** The check on the workflow's Deployment that [wf_remove] and [wf_status]
    share: when it exists the caller must be allowed the action on it; when it
    does not, nothing is checked. *)
Definition check_deployment (eval : option Evaluator) (deployer : option DeployerInfo) (ns name : string)
    (action : Action) : prog (res ()) :=
  dep ← call (KGet "deployments" ns name);
  match dep with
  | Ok dep =>
      try nsAnn := fetchNamespaceAnnotations ns else Err ;;
      let d := checkAuthz eval deployer nsAnn (o_annotations dep) action in
      Ret (if negb (dec_Allowed d) then Err (Errorf "permission denied: %s" [AStr (dec_Reason d)]) else Ok ())
  | Err err =>
      Ret (if negb (reason_is NotFound err) then Err (Errorf "check deployment %q: %w" [AStr name; AErr err])
           else Ok ())
  end.

(** The guards every tool starts with. *)
Definition guarded {A} (ns name : string) (deployer : option DeployerInfo) (eval : option Evaluator)
    (p : prog (res A)) : prog (res A) :=
  match CheckNamespace ns with
  | Some err => Ret (Err err)
  | None =>
      match CheckName name with
      | Some err => Ret (Err err)
      | None => match requireDeployer deployer eval with
                | Err err => Ret (Err err)
                | Ok _ => p
                end
      end
  end.

Definition wf_status (eval : option Evaluator) (deployer : option DeployerInfo) (params : WorkflowStatusParams) :
    prog (res WorkflowStatusResult) :=
  guarded (wst_Namespace params) (wst_Name params) deployer eval
    (try_ check_deployment eval deployer (wst_Namespace params) (wst_Name params) Read else Err ;;
     handleWorkflowStatus params).
End deploy.

Section remove.
Context `{U : Unicode} `{C : CronLib}.

Definition with_cleanup (r : WorkflowRemoveResult) (report : CleanupReport) : WorkflowRemoveResult :=
  if cr_Performed report
  then {| wrr_Name := wrr_Name r; wrr_Namespace := wrr_Namespace r; wrr_ExoCleanupDetails := Summary report;
          wrr_Deleted := wrr_Deleted r; wrr_ExoCleanedUp := true |}
  else r.

(** [wf_remove]: the scheduler is changed before the resources are deleted, the
    exoskeleton cleaned up after. *)
Definition wf_remove (sched : option Scheduler) (exoCtrl : option Controller) (eval : option Evaluator)
    (deployer : option DeployerInfo) (params : WorkflowRemoveParams) :
    prog (option Scheduler * res WorkflowRemoveResult) :=
  let ns := wr_Namespace params in
  let name := wr_Name params in
  allowed ← guarded ns name deployer eval (check_deployment eval deployer ns name Write);
  match allowed with
  | Err err => Ret (sched, Err err)
  | Ok _ =>
      let sched := (fun s => Deregister s ns name) <$> sched in
      result ← handleWorkflowRemove params;
      match result, exoCtrl with
      | Ok r, Some c => report ← CleanupWithReport c ns name; Ret (sched, Ok (with_cleanup r report.1))
      | _, _ => Ret (sched, result)
      end
  end.
End remove.

(** ** Specification *)

Section spec.
Context `{U : Unicode} `{L : UnstructuredLib}.

(** The namespace was fetched and carried the managed label. *)
Definition seen_managed (ns : string) (h : list event) : Prop :=
  exists o, Ev (KGet "namespaces" "" ns) (Ok o) ∈ h /\ o_labels o !! "app.kubernetes.io/managed-by" = Some "tentacular".

(** The namespace was fetched and its security level admits the manifests. *)
Definition seen_admitted (ns : string) (manifests : list manifest) (h : list event) : Prop :=
  exists o, Ev (KGet "namespaces" "" ns) (Ok o) ∈ h /\ ValidatePSA ns (psa_level o) manifests = None.

(** The request creates, or replaces the version read of, one of the manifests. *)
Definition applies (params : WorkflowApplyParams) (h : list event) (r : req) : Prop :=
  exists g m obj, m ∈ ensurePSACompliance (wa_Manifests params) /\ allowedKinds (GetKind m) = true /\
    obj = labelled (wa_Namespace params) (wa_Name params) m /\
    (r = KCreate (gvr_kind g) (wa_Namespace params) (of_manifest (wa_Namespace params) obj) \/
     exists old, Ev (KGet (gvr_kind g) (wa_Namespace params) (GetName obj)) (Ok old) ∈ h /\
       r = KUpdate (gvr_kind g) (wa_Namespace params)
             (of_manifest (wa_Namespace params) (SetResourceVersion obj (o_resourceVersion old)))).

(** The request deletes an object listed as part of the release. *)
Definition removes (ns release : string) (h : list event) (r : req) : Prop :=
  exists g items item, g ∈ knownGVRs /\
    Ev (KList (gvr_kind g) ns (release_selector release)) (Ok items) ∈ h /\ item ∈ items /\
    r = KDelete (gvr_kind g) ns (o_name item).

(** No object of this kind and name was created or updated before. *)
Definition not_applied (h : list event) (k : kind) (ns name : string) : Prop :=
  forall o x, o_name o = name -> (Ev (KCreate k ns o) x ∉ h) /\ (Ev (KUpdate k ns o) x ∉ h).

(** The manifest was created or updated, and the cluster accepted it. *)
Definition was_applied (ns release : string) (m : manifest) (h : list event) : Prop :=
  exists g x, Ev (KCreate (gvr_kind g) ns (of_manifest ns (labelled ns release m))) (Ok x) ∈ h \/
    (exists v, Ev (KUpdate (gvr_kind g) ns (of_manifest ns (SetResourceVersion (labelled ns release m) v))) (Ok x) ∈ h).
End spec.

(** ** Lemmas *)

Lemma known_kinds_distinct :
  forallb (fun g => no_byte "/" (g_Resource g) &&
                    forallb (fun g' => implb (String.eqb (g_Resource g') (g_Resource g)) (bool_decide (g' = g))) knownGVRs)
    knownGVRs = true.
Proof. reflexivity. Qed.

Lemma gvr_kind_inj g g' : g ∈ knownGVRs -> gvr_kind g' = gvr_kind g -> g' = g.
Proof.
  intros Hg. pose proof known_kinds_distinct as H. rewrite forallb_True, Forall_forall in H.
  specialize (H g Hg). apply andb_true_iff in H as [Hs H]. rewrite forallb_True, Forall_forall in H.
  unfold gvr_kind. rewrite (bool_decide_true (g ∈ knownGVRs)) by done. case_bool_decide as Hg'.
  - intros He. specialize (H g' Hg'). cbv beta in H. rewrite He, String.eqb_refl in H. by apply bool_decide_eq_true in H.
  - intros He. exfalso. rewrite <- He in Hs. unfold no_byte in Hs. rewrite !str_forallb_app in Hs. simpl in Hs.
    by rewrite andb_false_r in Hs.
Qed.

Section lemmas.
Context `{U : Unicode} `{L : UnstructuredLib} `{!UnstructuredLaws L}.

(** What has been created or updated is among the applied keys. *)
Definition keys_recorded (ns : string) (keys : list string) (h : list event) : Prop :=
  forall k o x, Ev (KCreate k ns o) x ∈ h \/ Ev (KUpdate k ns o) x ∈ h ->
    exists g, k = gvr_kind g /\ resourceKey g (o_name o) ∈ keys.

Lemma keys_not_applied ns keys h g name :
  g ∈ knownGVRs -> keys_recorded ns keys h -> str_in (resourceKey g name) keys = false ->
  not_applied h (gvr_kind g) ns name.
Proof.
  intros Hg Hr Hk o x <-. split; intros He;
    (destruct (Hr (gvr_kind g) o x) as (g' & Heq & Hin); [auto|]);
    symmetry in Heq; apply gvr_kind_inj in Heq as ->; try done;
    apply not_true_iff_false in Hk; apply Hk; by apply str_in_spec.
Qed.

Definition ev_req (e : event) : req := match e with Ev r _ => r end.

(** Only a create or an update needs its own key added. *)
Lemma keys_recorded_read ns keys h r x :
  match r with KCreate _ _ _ | KUpdate _ _ _ => False | _ => True end ->
  keys_recorded ns keys h -> keys_recorded ns keys (Ev r x :: h).
Proof.
  intros Hr Hk k o y. rewrite !elem_of_cons. intros [[He|He]|[He|He]]; eauto;
    apply (f_equal ev_req) in He; simpl in He; by subst r.
Qed.

Lemma keys_recorded_write ns keys h r x g o :
  r = KCreate (gvr_kind g) ns o \/ r = KUpdate (gvr_kind g) ns o -> keys_recorded ns keys h ->
  keys_recorded ns (resourceKey g (o_name o) :: keys) (Ev r x :: h).
Proof.
  intros Hr Hk k o' y. rewrite !elem_of_cons. intros Hev.
  assert ((k = gvr_kind g /\ o' = o) \/ Ev (KCreate k ns o') y ∈ h \/ Ev (KUpdate k ns o') y ∈ h) as [[-> ->]|Hold].
  { destruct Hev as [[He|He]|[He|He]]; auto; apply (f_equal ev_req) in He; simpl in He; subst r;
      destruct Hr as [[= -> ->]|[= -> ->]]; auto. }
  - exists g. split; [done|by left].
  - destruct (Hk _ _ _ Hold) as (g' & -> & Hin). exists g'. split; [done|by right].
Qed.

(** The two writes of one iteration. *)
Definition apply_gate (params : WorkflowApplyParams) (h : list event) (r : req) : Prop :=
  is_write r = true -> applies params h r.

Lemma apply_manifest_holds params m st h :
  let ns := wa_Namespace params in
  m ∈ ensurePSACompliance (wa_Manifests params) -> keys_recorded ns (as_applied st) h ->
  holds (apply_gate params)
    (fun h' r => match r with
                 | Err _ => True
                 | Ok st' => keys_recorded ns (as_applied st') h' /\
                             as_created st' + as_updated st' = as_created st + as_updated st + 1 /\
                             was_applied ns (wa_Name params) m h'
                 end%Z)
    h (apply_manifest ns (wa_Name params) st m).
Proof.
  intros ns Hm Hk. unfold apply_manifest. cbn zeta. fold ns.
  destruct (_ || _); [done|]. destruct (allowedKinds (GetKind m)) eqn:Ha; [|done]. cbn [negb].
  hstep. unfold resolveGVR. hstep; [done|]. intros d. cbn [holds].
  destruct (resolved d _ _) as [g|err]; [|done]. set (obj := labelled ns (wa_Name params) m).
  apply (keys_recorded_read _ _ _ ServerGroupsAndResources d) in Hk; [|done].
  destruct (String.eqb (GetName obj) ""); [done|]. hstep; [done|]. intros existing.
  apply (keys_recorded_read _ _ _ (KGet (gvr_kind g) ns (GetName obj)) existing) in Hk; [|done].
  destruct existing as [old|err]; [|destruct (reason_is NotFound err); [|done]]; hstep; hstep.
  - intros _. exists g, m, obj. do 3 (split; [done|]). right. exists old. split; [by left|done].
  - intros [x|e]; [|done]. cbn [holds as_applied as_created as_updated]. split; [|split].
    + pose proof (keys_recorded_write ns (as_applied st) _ (KUpdate (gvr_kind g) ns (of_manifest ns (SetResourceVersion obj (o_resourceVersion old)))) (Ok x) g _ (or_intror eq_refl) Hk) as Hw.
      cbn [o_name of_manifest] in Hw. by rewrite law_SetRV_Name in Hw.
    + lia.
    + exists g, x. right. eexists. by left.
  - intros _. exists g, m, obj. do 3 (split; [done|]). by left.
  - intros [x|e]; [|done]. cbn [holds as_applied as_created as_updated]. split; [|split].
    + exact (keys_recorded_write ns (as_applied st) _ (KCreate (gvr_kind g) ns (of_manifest ns obj)) (Ok x) g _ (or_introl eq_refl) Hk).
    + lia.
    + exists g, x. left. by left.
Qed.

(** *** Deleting what a release left *)

(** Facts that listing and deleting do not undo. *)
Definition kept_by_deletes (J : list event -> Prop) : Prop :=
  forall h r x, match r with KList _ _ _ | KDelete _ _ _ => True | _ => False end -> J h -> J (Ev r x :: h).

Definition delete_gate (ns release : string) (keep : string -> bool) (J : list event -> Prop)
    (h : list event) (r : req) : Prop :=
  J h /\ (is_write r = true ->
    exists g items item, g ∈ knownGVRs /\
      Ev (KList (gvr_kind g) ns (release_selector release)) (Ok items) ∈ h /\ item ∈ items /\
      r = KDelete (gvr_kind g) ns (o_name item) /\ keep (resourceKey g (o_name item)) = false).

(** Every object of the resource that was listed and is not kept was tried. *)
Definition resource_removed (ns release : string) (keep : string -> bool) (h : list event) (g : GVR) : Prop :=
  exists x, Ev (KList (gvr_kind g) ns (release_selector release)) x ∈ h /\
    forall items, x = Ok items -> forall item, item ∈ items -> keep (resourceKey g (o_name item)) = false ->
      exists y, Ev (KDelete (gvr_kind g) ns (o_name item)) y ∈ h.

Lemma resource_removed_stable ns release keep g : stable (fun h => resource_removed ns release keep h g).
Proof.
  intros h e (x & Hx & H). exists x. split; [by right|]. intros items Hi item Hit Hk.
  destruct (H items Hi item Hit Hk) as [y Hy]. exists y. by right.
Qed.

Lemma delete_items_holds ns release keep J g items deleted h :
  kept_by_deletes J -> J h -> g ∈ knownGVRs ->
  Ev (KList (gvr_kind g) ns (release_selector release)) (Ok items) ∈ h ->
  holds (delete_gate ns release keep J) (fun h' _ => J h' /\ resource_removed ns release keep h' g)
    h (delete_items ns g keep deleted items).
Proof.
  intros HJ Hh Hg Hl. unfold delete_items.
  apply (holds_foldM_pre _ (fun pre h' _ => J h' /\
    Ev (KList (gvr_kind g) ns (release_selector release)) (Ok items) ∈ h' /\
    forall item, item ∈ pre -> keep (resourceKey g (o_name item)) = false ->
      exists y, Ev (KDelete (gvr_kind g) ns (o_name item)) y ∈ h')) with (done := []).
  - intros pre item post h' acc Heq (Hj & Hli & Hpre). destruct (keep _) eqn:Hk.
    + split; [done|]. split; [done|]. intros it [Hit| ->]%elem_of_snoc; [by apply Hpre|congruence].
    + hstep.
      * split; [done|]. intros _. exists g, items, item. do 2 (split; [done|]). split; [|done].
        simpl in Heq. rewrite <- Heq, elem_of_app, elem_of_cons. by right; left.
      * intros x. cbn [holds]. split; [by apply HJ|]. split; [by right|].
        intros it [Hit| ->]%elem_of_snoc; [|by eexists; left].
        intros Hki. destruct (Hpre it Hit Hki) as [y Hy]. exists y. by right.
  - intros h' acc (Hj & Hli & Hall). split; [done|]. exists (Ok items). split; [done|].
    intros ? [= <-]. exact Hall.
  - split; [done|]. split; [done|]. by intros it ?%elem_of_nil.
Qed.

Lemma delete_released_holds ns release keep J h :
  kept_by_deletes J -> J h ->
  holds (delete_gate ns release keep J)
    (fun h' _ => J h' /\ forall g, g ∈ knownGVRs -> resource_removed ns release keep h' g)
    h (delete_released ns release keep).
Proof.
  intros HJ Hh. unfold delete_released.
  apply (holds_foldM_pre _ (fun pre h' _ => J h' /\ forall g, g ∈ pre -> resource_removed ns release keep h' g))
    with (done := []); [|done|split; [done|by intros g ?%elem_of_nil]].
  intros pre g post h' acc Heq [Hj Hpre]. apply holds_call_bind; [by split|]. intros [items|err].
  - assert (g ∈ knownGVRs) as Hg by (simpl in Heq; rewrite <- Heq, elem_of_app, elem_of_cons; by right; left).
    pose proof (delete_items_holds ns release keep J g items acc
                  (Ev (KList (gvr_kind g) ns (release_selector release)) (Ok items) :: h') HJ ltac:(by apply HJ) Hg ltac:(by left)) as Hitems.
    apply (holds_keep _ _ (fun h2 => forall g', g' ∈ pre -> resource_removed ns release keep h2 g')) in Hitems.
    + eapply holds_mono; [done| |exact Hitems]. intros h2 d [[Hj2 Hr] Hp]. split; [done|].
      intros g' [Hg'| ->]%elem_of_snoc; auto.
    + intros h2 e H g' Hg'. apply resource_removed_stable. by apply H.
    + intros g' Hg'. apply resource_removed_stable. by apply Hpre.
  - split; [by apply HJ|]. intros g' [Hg'| ->]%elem_of_snoc.
    + apply resource_removed_stable. by apply Hpre.
    + exists (Err err). split; [by left|done].
Qed.

(** *** The whole handlers *)

Lemma seen_managed_stable ns : stable (seen_managed ns).
Proof. intros h e (o & Ho & H). exists o. split; [by right|done]. Qed.
Lemma seen_admitted_stable ns ms : stable (seen_admitted ns ms).
Proof. intros h e (o & Ho & H). exists o. split; [by right|done]. Qed.
Lemma was_applied_stable ns release m : stable (was_applied ns release m).
Proof. intros h e (g & x & [H|[v H]]); exists g, x; [left|right; exists v]; by right. Qed.

(** The check that opens every handler reads the namespace and nothing else. *)
Lemma managed_label o : IsManagedNamespace (Some o) = true -> o_labels o !! "app.kubernetes.io/managed-by" = Some "tentacular".
Proof. unfold IsManagedNamespace. rewrite String.eqb_eq. change ManagedByLabel with "app.kubernetes.io/managed-by". by destruct (o_labels o !! _) as [v|]; cbn; [intros ->|]. Qed.

Lemma CheckManaged_holds ns h (R : list event -> req -> Prop) :
  (forall h r, is_write r = false -> R h r) -> 
  holds R (fun h' r => match r with Ok _ => seen_managed ns h' | Err _ => True end /\
                       exists x, h' = Ev (KGet "namespaces" "" ns) x :: h) h (CheckManagedNamespace ns).
Proof.
  intros HR. unfold CheckManagedNamespace, GetNamespace. hstep. hstep. hstep; [by apply HR|].
  intros [o|err]; cbn [holds]; [|by eauto]. destruct (IsManagedNamespace (Some o)) eqn:Hm; cbn [negb holds]; [|by eauto].
  split; [|by eauto]. exists o. split; [by left|by apply managed_label].
Qed.

Definition apply_ready (params : WorkflowApplyParams) (h : list event) : Prop :=
  seen_managed (wa_Namespace params) h /\
  seen_admitted (wa_Namespace params) (ensurePSACompliance (wa_Manifests params)) h.

Lemma apply_ready_stable params : stable (apply_ready params).
Proof. intros h e [H1 H2]. split; [by apply seen_managed_stable|by apply seen_admitted_stable]. Qed.

(** The loop over the manifests. *)
Lemma apply_loop_holds params h :
  let ns := wa_Namespace params in
  let manifests := ensurePSACompliance (wa_Manifests params) in
  keys_recorded ns [] h ->
  holds (apply_gate params)
    (fun h' r => match r with
                 | Err _ => True
                 | Ok st => keys_recorded ns (as_applied st) h' /\
                            as_created st + as_updated st = Z.of_nat (length manifests) /\
                            forall m, m ∈ manifests -> was_applied ns (wa_Name params) m h'
                 end%Z)
    h (foldE (apply_manifest ns (wa_Name params)) manifests {| as_created := 0; as_updated := 0; as_applied := [] |}).
Proof.
  intros ns manifests Hk.
  apply (holds_foldE _ (fun pre h' st => keys_recorded ns (as_applied st) h' /\
           as_created st + as_updated st = Z.of_nat (length pre) /\
           forall m, m ∈ pre -> was_applied ns (wa_Name params) m h')%Z) with (done := []); [|done|].
  - intros pre m post h' st Heq (Hk' & Hn & Hpre).
    assert (m ∈ manifests) as Hm by (simpl in Heq; rewrite <- Heq, elem_of_app, elem_of_cons; by right; left).
    pose proof (apply_manifest_holds params m st h' Hm Hk') as Hstep.
    apply (holds_keep _ _ (fun h2 => forall m, m ∈ pre -> was_applied ns (wa_Name params) m h2)) in Hstep;
      [|intros h2 e H m' Hm'; by apply was_applied_stable, H|exact Hpre].
    eapply holds_mono; [done| |exact Hstep]. intros h2 [st2|e]; [|done]. intros ((Hk2 & Hn2 & Hw) & Hp). split; [done|]. split.
    + rewrite length_app. simpl. lia.
    + by intros m' [Hm'| ->]%elem_of_snoc; [apply Hp|].
  - split; [done|]. split; [done|]. by intros m ?%elem_of_nil.
Qed.

(** From an empty history, the whole of [handleWorkflowApply]. *)
Lemma handleWorkflowApply_holds params :
  let ns := wa_Namespace params in
  holds (fun h r => is_write r = true -> apply_ready params h /\
           (applies params h r \/
            removes ns (wa_Name params) h r /\ forall k name, r = KDelete k ns name -> not_applied h k ns name))
    (fun h' r => match r with
                 | Err _ => True
                 | Ok out => (war_Created out + war_Updated out = Z.of_nat (length (wa_Manifests params)))%Z /\
                             forall m, m ∈ ensurePSACompliance (wa_Manifests params) -> was_applied ns (wa_Name params) m h'
                 end)
    [] (handleWorkflowApply params).
Proof.
  intros ns. unfold handleWorkflowApply. cbn zeta. fold ns. hstep.
  eapply holds_mono; [by intros ? ? H; exact H| |apply CheckManaged_holds; intros h r ->; done].
  intros h [[]|err] [Hman [x1 ->]]; [|done]. unfold NamespacePSALevel. hstep. hstep. hstep; [done|].
  intros [o|err]; [|done]. cbn [holds].
  destruct (ValidatePSA ns (psa_level o) (ensurePSACompliance (wa_Manifests params))) eqn:Hpsa; [done|].
  match goal with |- holds _ _ ?h _ => set (h0 := h) end.
  assert (apply_ready params h0) as Hready.
  { split; [by apply seen_managed_stable|]. exists o. split; [by left|done]. }
  assert (keys_recorded ns [] h0) as Hk0.
  { unfold h0. do 2 (apply keys_recorded_read; [done|]). intros k o' y [H|H]; by apply elem_of_nil in H. }
  hstep. pose proof (apply_loop_holds params h0 Hk0) as Hloop.
  apply (holds_with (apply_ready params)) in Hloop; [|by apply apply_ready_stable|done].
  eapply holds_mono; [| |exact Hloop].
  { intros h r [Hd Hg] Hw. split; [done|]. left. by apply Hg. }
  intros h [st|err] [Hd Hst]; [|done]. destruct Hst as (Hkeys & Hn & Happ). apply holds_bind.
  eapply holds_mono; [| |apply (delete_released_holds ns (wa_Name params) _ (fun h' => apply_ready params h' /\
     keys_recorded ns (as_applied st) h' /\
     forall m, m ∈ ensurePSACompliance (wa_Manifests params) -> was_applied ns (wa_Name params) m h'))].
  - intros h' r ((Hr & Hkr & _) & Hdel) Hw. destruct (Hdel Hw) as (g & items & item & Hg & Hl & Hi & -> & Hkeep).
    split; [done|]. right. split; [by exists g, items, item|]. intros k name [= <- <-].
    by eapply keys_not_applied.
  - intros h' d ((_ & _ & Hall) & _). split; [|done]. cbn [war_Created war_Updated].
    rewrite Hn. unfold ensurePSACompliance. by rewrite length_fmap.
  - intros h' r x Hr (H1 & H2 & H3). split; [by apply apply_ready_stable|]. split.
    + apply keys_recorded_read; [by destruct r|done].
    + intros m Hm. by apply was_applied_stable, H3.
  - done.
Qed.
End lemmas.

(** The check of the tools: either the Deployment was fetched and the caller may
    act on it, or the cluster said that there is none. *)
Section checks.
Context `{U : Unicode}.

Definition permitted (eval : option Evaluator) (deployer : option DeployerInfo) (ns name : string) (action : Action)
    (h : list event) : Prop :=
  exists dep nsAnn, Ev (KGet "deployments" ns name) (Ok dep) ∈ h /\
    dec_Allowed (CheckTentacle eval deployer nsAnn (o_annotations dep) action) = true /\
    ((exists o, Ev (KGet "namespaces" "" ns) (Ok o) ∈ h /\ nsAnn = o_annotations o) \/
     (exists err, Ev (KGet "namespaces" "" ns) (Err err) ∈ h /\ reason_is NotFound err = true /\ nsAnn = ∅)).
Definition checked (eval : option Evaluator) (deployer : option DeployerInfo) (ns name : string) (action : Action)
    (h : list event) : Prop :=
  permitted eval deployer ns name action h \/ missing "deployments" ns name h.

Lemma checked_stable eval deployer ns name action : stable (checked eval deployer ns name action).
Proof.
  intros h e [(dep & nsAnn & Hd & Ha & Hn)|(err & He & Hr)]; [left|right; exists err; split; [by right|done]].
  exists dep, nsAnn. split; [by right|]. split; [done|].
  destruct Hn as [(o & Ho & ->)|(err & He & Hr)]; [left; exists o|right; exists err]; (split; [by right|done]).
Qed.

Lemma check_deployment_holds eval deployer ns name action h :
  holds (every (fun r => is_write r = false))
    (fun h' r => match r with Ok _ => checked eval deployer ns name action h' | Err _ => True end)
    h (check_deployment eval deployer ns name action).
Proof.
  unfold check_deployment. apply holds_call_bind; [done|]. intros [dep|err].
  - hstep. unfold fetchNamespaceAnnotations. apply holds_call_bind; [done|]. intros [o|err]; cbn [holds].
    + unfold checkAuthz. destruct (dec_Allowed _) eqn:Ha; cbn [negb holds]; [|done].
      left. exists dep, (o_annotations o). split; [by right; left|]. split; [exact Ha|]. left. exists o. split; [by left|done].
    + destruct (reason_is NotFound err) eqn:Hr; [|done]. cbn [holds]. unfold checkAuthz.
      destruct (dec_Allowed _) eqn:Ha; cbn [negb holds]; [|done].
      left. exists dep, ∅. split; [by right; left|]. split; [exact Ha|]. right. exists err. split; [by left|done].
  - cbn [holds]. destruct (reason_is NotFound err) eqn:Hr; [|done]. cbn [negb]. right. exists err. split; [by left|done].
Qed.

Lemma guarded_holds {A} R (Q : list event -> res A -> Prop) ns name deployer eval (p : prog (res A)) h :
  (forall h err, Q h (Err err)) -> holds R Q h p -> holds R Q h (guarded ns name deployer eval p).
Proof.
  intros HQ Hp. unfold guarded. destruct (CheckNamespace ns); [apply HQ|]. destruct (CheckName name); [apply HQ|].
  by destruct (requireDeployer deployer eval); [|apply HQ].
Qed.

Lemma handleWorkflowRemove_holds params h :
  let ns := wr_Namespace params in
  holds (fun h r => is_write r = true -> seen_managed ns h /\ removes ns (wr_Name params) h r)
    (fun h' r => match r with
                 | Ok _ => forall g, g ∈ knownGVRs -> resource_removed ns (wr_Name params) (fun _ => false) h' g
                 | Err _ => True
                 end)
    h (handleWorkflowRemove params).
Proof.
  intros ns. unfold handleWorkflowRemove. fold ns. hstep.
  eapply holds_mono; [by intros ? ? H; exact H| |apply CheckManaged_holds; by intros ? ? ->].
  intros h' [[]|err] [Hman _]; [|done]. apply holds_bind.
  eapply holds_mono; [| |apply (delete_released_holds ns (wr_Name params) (fun _ => false) (seen_managed ns))].
  - intros h2 r [Hm Hdel] Hw. destruct (Hdel Hw) as (g & items & item & Hg & Hl & Hi & -> & _).
    split; [done|]. by exists g, items, item.
  - intros h2 d [_ H]. exact H.
  - intros h2 r x _. apply seen_managed_stable.
  - done.
Qed.
End checks.

(** ** Properties *)

Section properties.
Context `{U : Unicode} `{L : UnstructuredLib}.

(** C12: Applying is confined: every change [wf_apply]'s handler makes to the
    cluster comes after the namespace was seen to be managed and its security
    level to admit the manifests, is in that namespace, and either creates or
    updates - at the version read - one of the given manifests, of a permitted kind
    and labelled with the release, or deletes an object that was listed as part of
    the release and was not among those just created or updated. *)
Theorem handleWorkflowApply_confined `{!UnstructuredLaws L} params :
  let ns := wa_Namespace params in
  holds (fun h r => is_write r = true ->
           seen_managed ns h /\ seen_admitted ns (ensurePSACompliance (wa_Manifests params)) h /\
           (applies params h r \/
            removes ns (wa_Name params) h r /\ forall k name, r = KDelete k ns name -> not_applied h k ns name))
    whatever [] (handleWorkflowApply params).
Proof.
  intros ns. eapply holds_mono; [| |apply handleWorkflowApply_holds]; [|done].
  intros h r H Hw. destruct (H Hw) as [[H1 H2] H3]. done.
Qed.

(** Applying is complete: when the handler reports success, every manifest -
    with the security defaults filled in - was created or updated and the cluster
    accepted it, and the two counts add up to the number of manifests. *)
Theorem handleWorkflowApply_complete `{!UnstructuredLaws L} params :
  holds any_request
    (fun h r => match r with
                | Err _ => True
                | Ok out =>
                    (war_Created out + war_Updated out = Z.of_nat (length (wa_Manifests params)))%Z /\
                    forall m, m ∈ ensurePSACompliance (wa_Manifests params) ->
                      was_applied (wa_Namespace params) (wa_Name params) m h
                end)
    [] (handleWorkflowApply params).
Proof. eapply holds_mono; [| |apply handleWorkflowApply_holds]; done. Qed.

(** [wf_status] never writes; it reports after the same check as the other
    tools, and it calls a workflow ready exactly when its Deployment was found
    with as many available replicas as it asks for - one unless stated, and none
    being enough for a workflow scaled to zero. *)
Theorem wf_status_spec eval deployer params h :
  let ns := wst_Namespace params in
  let name := wst_Name params in
  holds (every (fun r => is_write r = false))
    (fun h' r => match r with
                 | Err _ => True
                 | Ok out =>
                     checked eval deployer ns name Read h' /\
                     exists x, Ev (KGet "deployments" ns name) x ∈ h' /\
                       (wsr_Ready out = true <->
                        exists d, x = Ok d /\
                          let desired := default 1%Z (int_at d ["spec"; "replicas"]) in
                          (desired = 0 \/ desired <= default 0 (int_at d ["status"; "availableReplicas"]))%Z)
                 end)
    h (wf_status eval deployer params).
Proof.
  intros ns name. unfold wf_status. fold ns name. apply guarded_holds; [done|]. hstep.
  eapply holds_mono; [done| |apply check_deployment_holds]. intros h1 [[]|err] Hc; [|done].
  unfold handleWorkflowStatus. cbn zeta. fold ns name. hstep.
  pose proof (CheckManaged_holds ns h1 (every (fun r => is_write r = false)) (fun _ _ H => H)) as Hm.
  apply (holds_keep _ _ _ _ _ (checked_stable eval deployer ns name Read) Hc) in Hm.
  eapply holds_mono; [done| |exact Hm].
  intros h2 [[]|err] [_ Hc2]; [|done]. apply holds_bind.
  eapply (holds_mono (every (fun r => is_write r = false)) _ (fun h' _ => checked eval deployer ns name Read h')); [done| |].
  2: { unfold release_status. apply (holds_foldM _ (fun h' _ => checked eval deployer ns name Read h')); [|done|done].
       intros h' acc g _ Hc'. apply holds_call_bind; [done|]. intros x. by apply checked_stable. }
  intros h3 resources Hc3. apply holds_call_bind; [done|]. intros deploy.
  destruct (deployment_status deploy) as [[[replicas available] ready] version] eqn:Hs.
  assert (holds (every (fun r => is_write r = false))
            (fun h' (_ : list WorkflowPodInfo * list WorkflowEventInfo) =>
               checked eval deployer ns name Read h' /\ Ev (KGet "deployments" ns name) deploy ∈ h')
            (Ev (KGet "deployments" ns name) deploy :: h3)
            (if wst_Detail params then status_detail ns name else Ret ([], []))) as Hd.
  { apply (checked_stable _ _ _ _ _ h3 (Ev (KGet "deployments" ns name) deploy)) in Hc3.
    destruct (wst_Detail params); [|by split; [|left]]. unfold status_detail.
    apply holds_call_bind; [done|]. intros pods. apply holds_call_bind; [done|]. intros evs.
    split; [by do 2 apply checked_stable|by do 2 right; left]. }
  apply holds_bind. eapply holds_mono; [done| |exact Hd]. intros h4 detail [Hc4 Hin]. split; [done|].
  exists deploy. split; [done|]. cbn [wsr_Ready]. destruct deploy as [d|err]; simpl in Hs; injection Hs as <- <- <- <-.
  - unfold replicaCount. set (r := default 1%Z _). set (a := default 0%Z _). split.
    + intros H. exists d. split; [done|]. cbn zeta. fold r a.
      destruct (bool_decide _ && (r =? 0)%Z) eqn:Hz; [left|right; by apply Z.leb_le].
      apply andb_true_iff in Hz as [_ Hz]. by apply Z.eqb_eq.
    + intros (d' & [= <-] & [H|H]); fold r in H; try fold a in H.
      * unfold r in H |- *. destruct (int_at d ["spec"; "replicas"]) as [n|]; [|done]. simpl in *. by subst n.
      * apply Z.leb_le in H. rewrite H. by destruct (_ && _).
  - split; [done|]. by intros (d & ? & _).
Qed.
End properties.

Section remove_properties.
Context `{U : Unicode} `{C : CronLib}.

(** C13: Removing asks first and is complete: whatever the cluster answers, every
    request that changes something - resources, and the backing services after
    them - comes after a get of the Deployment of the workflow's name that either
    returned one on which the evaluator allows the caller to write, or was answered
    with not-found; in that second case the code asks for nobody's permission
    ([wf_remove_not_found_unchecked]).  When success is reported, every object listed
    as part of the release was asked to be deleted. *)
Theorem wf_remove_checked sched exoCtrl eval deployer params h :
  let ns := wr_Namespace params in
  let name := wr_Name params in
  holds (fun h' r => is_write r = true -> permitted eval deployer ns name Write h' \/ missing "deployments" ns name h')
    (fun h' out => match out.2 with
                   | Err _ => True
                   | Ok _ => forall g, g ∈ knownGVRs -> resource_removed ns name (fun _ => false) h' g
                   end)
    h (wf_remove sched exoCtrl eval deployer params).
Proof.
  intros ns name. unfold wf_remove. fold ns name. apply holds_bind.
  eapply holds_mono; [|intros h' a H; exact H|apply guarded_holds; [|eapply holds_mono; [done| |apply check_deployment_holds]]].
  - intros h' r Hr Hw. unfold every in Hr. congruence.
  - done.
  - intros h1 [[]|err] Hc; [|done]. apply holds_bind.
    eapply holds_mono; [| |apply (holds_with (checked eval deployer ns name Write) _ _ _ _
       (checked_stable eval deployer ns name Write) Hc (handleWorkflowRemove_holds params h1))]; [by intros ? ? [? _]|].
    intros h2 [r|err] [Hc2 Hr]; [|by destruct exoCtrl]. destruct exoCtrl as [c|]; [|done]. apply holds_bind.
    eapply holds_mono; [| |apply (holds_with _ _ _ _ (CleanupWithReport c ns name)
       (fun h e (H : checked eval deployer ns name Write h /\
                     forall g, g ∈ knownGVRs -> resource_removed ns name (fun _ => false) h g) =>
          conj (checked_stable _ _ _ _ _ h e (proj1 H))
               (fun g Hg => resource_removed_stable _ _ _ _ h e (proj2 H g Hg))) (conj Hc2 Hr) (holds_any h2 _))].
    + by intros ? ? [[? _] _].
    + by intros h3 report [[_ H] _].
Qed.

(** Where the cluster has no Deployment of the workflow's name, [wf_remove]
    asks for no permission: whoever calls, with whatever evaluator, the resources
    under the release label are deleted and the workflow's backing services are
    cleaned up. *)
Theorem wf_remove_not_found_unchecked sched exoCtrl eval d params err :
  let ns := wr_Namespace params in
  let name := wr_Name params in
  CheckNamespace ns = None -> CheckName name = None -> reason_is NotFound err = true ->
  exists k, wf_remove sched exoCtrl eval (Some d) params = Call (KGet "deployments" ns name) k /\
    k (Err err) =
      (result ← handleWorkflowRemove params;
       match result, exoCtrl with
       | Ok r, Some c =>
           report ← CleanupWithReport c ns name;
           Ret ((fun s => Deregister s ns name) <$> sched, Ok (with_cleanup r report.1))
       | _, _ => Ret ((fun s => Deregister s ns name) <$> sched, result)
       end).
Proof.
  intros ns name Hns Hname Hr. unfold wf_remove. fold ns name. unfold guarded. rewrite Hns, Hname.
  cbn [requireDeployer]. unfold check_deployment. eexists. split; [reflexivity|]. simpl. rewrite Hr. reflexivity.
Qed.
End remove_properties.

(** ** Witnesses *)

Definition managed_ns : object :=
  {| o_name := "team"; o_namespace := ""; o_labels := {[ ManagedByLabel := ManagedByValue; PSAEnforceLabel := "restricted" ]};
     o_annotations := ∅; o_resourceVersion := "1"; o_created := 0; o_body := [] |}.

(** A managed namespace with somebody else's Deployment. *)
Definition theirs : object :=
  {| o_name := "theirs"; o_namespace := "team"; o_labels := {[ releaseLabelKey := "theirs" ]};
     o_annotations := {[ AnnotationOwner := "bob@x.org" ]}; o_resourceVersion := "7"; o_created := 0;
     o_body := [("kind", VStr "Deployment")] |}.
Definition team_cluster : cluster :=
  {| cl_objects := {[ ("namespaces", "", "team") := managed_ns; ("deployments", "team", "theirs") := theirs ]};
     cl_version := 10; cl_clock := 0; cl_sql := []; cl_admin := []; cl_buckets := ∅ |}.

Definition apply_params (deployment : string) : WorkflowApplyParams :=
  {| wa_Namespace := "team"; wa_Name := "mine"; wa_Mode := "";
     wa_Manifests := [map_set "metadata" (VMap [("name", VStr deployment)]) plain_deployment] |}.

Abbreviation run_apply := (handleWorkflowApply (U := ascii_tables) (L := path_lib)) (only parsing).

(** The release label and the owner of a Deployment in a cluster. *)
Definition release_and_owner (c : cluster) (name : string) : option (string * string) :=
  (fun o => (default "" (o_labels o !! releaseLabelKey), ann_get (o_annotations o) AnnotationOwner))
  <$> cl_objects c !! ("deployments", "team", name).

Lemma handleWorkflowApply_confined_witness :
  (exec (run_apply (apply_params "mine")) team_cluster).1 =
    Ok {| war_Name := "mine"; war_Namespace := "team"; war_Created := 1; war_Updated := 0; war_Deleted := 0 |} /\
  holds (fun h r => is_write r = true -> seen_managed "team" h) whatever [] (run_apply (apply_params "mine")).
Proof.
  split; [by vm_compute|]. eapply holds_mono; [| |apply (handleWorkflowApply_confined (UnstructuredLaws0 := path_laws))]; [|done].
  intros h r H Hw. apply (H Hw).
Defined.

Lemma handleWorkflowApply_complete_witness :
  match (exec (run_apply (apply_params "mine")) team_cluster).1 with
  | Ok out => (war_Created out + war_Updated out)%Z = 1%Z
  | Err _ => False
  end /\
  holds any_request (fun _ r => match r with Ok out => (war_Created out + war_Updated out)%Z = 1%Z | Err _ => True end)
    [] (run_apply (apply_params "mine")).
Proof.
  split; [by vm_compute|]. eapply holds_mono; [| |apply (handleWorkflowApply_complete (UnstructuredLaws0 := path_laws))]; [done|].
  intros h [out|]; [|done]. by intros [H _].
Defined.

(** The names of the manifests are not compared with the workflow's: applying
    the workflow [mine] with a manifest named [theirs] replaces the other
    workflow's Deployment and takes it into the release [mine]. *)
Example handleWorkflowApply_takes_over :
  release_and_owner team_cluster "theirs" = Some ("theirs", "bob@x.org") /\
  release_and_owner (exec (run_apply (apply_params "theirs")) team_cluster).2 "theirs" = Some ("mine", "").
Proof. by vm_compute. Qed.

(** A stranger removes a release that has no Deployment of its own name. *)
Definition their_data : object :=
  {| o_name := "d"; o_namespace := "team"; o_labels := {[ releaseLabelKey := "theirs-data" ]}; o_annotations := ∅;
     o_resourceVersion := "8"; o_created := 0; o_body := [] |}.
Definition stranger : DeployerInfo :=
  {| d_Email := "eve@x.org"; d_DisplayName := ""; d_Subject := "eve"; d_Provider := "google"; d_AgentType := "";
     d_SessionID := "" |}.

Lemma wf_remove_not_found_unchecked_witness :
  let p := {| wr_Namespace := "team"; wr_Name := "theirs-data" |} in
  let remove := wf_remove (U := ascii_tables) (C := toy_cron) None None
                  (Some {| ev_DefaultMode := 0; ev_Enabled := true |}) (Some stranger) p in
  match (exec remove (with_objects team_cluster
           (<[("configmaps", "team", "d") := their_data]> (cl_objects team_cluster)))).1.2 with
  | Ok out => wrr_Deleted out = 1%Z
  | Err _ => False
  end /\
  exists k q, remove = Call (KGet "deployments" "team" "theirs-data") k /\
    k (Err (APIError NotFound "deployments theirs-data not found")) = (handleWorkflowRemove (U := ascii_tables) p ≫= q).
Proof.
  intros p remove. split; [by vm_compute|].
  destruct (wf_remove_not_found_unchecked (U := ascii_tables) (C := toy_cron)
              None None (Some {| ev_DefaultMode := 0; ev_Enabled := true |}) stranger p
              (APIError NotFound "deployments theirs-data not found")) as (k & Hk & Hn);
    [reflexivity|reflexivity|reflexivity|].
  exists k. eexists. split; [exact Hk|exact Hn].
Defined.
