(* ===== verification/WfApply.v ===== *)
(** * The wf_apply tool (pkg/tools/deploy.go, pkg/k8s/prewarm.go)

    Everything around the apply handler: the checks before it, the exoskeleton's
    processing of the manifests, the descriptions every node must have, and what
    follows a successful apply: the cron schedule and the warming of the module
    cache. *)

From S2P Require Import Prelude GoStrings Mode Guard Annotations ExoConfig Auth Evaluator.
From S2P Require Import Effects K8sOps Unstructured Json GoUrl Proxy PgRegistrar Injector Contract Enrich Controller Process.
From S2P Require Import PsaDefaults Scheduler AuthzHelpers Deploy.
#[local] Open Scope string_scope.

(** ** Module dependencies (prewarm.go) *)

Record ModuleDep := { md_Protocol : string; md_Host : string; md_Version : string }.

Definition buildModuleURL (proxyNamespace : string) (dep : ModuleDep) : string :=
  "http://esm-sh." +:+ proxyNamespace +:+ ".svc.cluster.local:8080" +:+
  (if String.eqb (md_Protocol dep) "jsr" then "/jsr/" +:+ md_Host dep else "/" +:+ md_Host dep) +:+
  (if String.eqb (md_Version dep) "" then "" else "@" +:+ md_Version dep).

(** One request each; they run side by side in the code, and none depends on
    another.  The failures are counted and logged. *)
Definition prewarm_one (proxyNamespace : string) (failed : nat) (dep : ModuleDep) : prog nat :=
  r ← call (HTTPDo "GET" (buildModuleURL proxyNamespace dep) "");
  Ret match r with
      | inl _ => S failed
      | inr _ => failed
      end.
Definition PrewarmModules (proxyNamespace : string) (deps : list ModuleDep) : prog (option error) :=
  match deps with
  | [] => Ret None
  | _ => _ ← foldM (prewarm_one proxyNamespace) deps 0%nat; Ret None
  end.

(** [defaultProxyNamespace] *)
Definition defaultProxyNamespace : string := Proxy.DefaultNamespace.

(** ** Node descriptions *)

Record NodeMeta := { nm_Name : string; nm_Description : string }.
Definition node_fields : list (string * (NodeMeta -> value -> option NodeMeta)) :=
  [("name", fun x v => s ← decode_string (nm_Name x) v; Some {| nm_Name := s; nm_Description := nm_Description x |});
   ("description", fun x v => s ← decode_string (nm_Description x) v; Some {| nm_Name := nm_Name x; nm_Description := s |})].
Definition no_node : NodeMeta := {| nm_Name := ""; nm_Description := "" |}.
Definition decode_nodes : value -> option (list NodeMeta) := decode_list no_node (decode_struct node_fields).
Definition decode_names : value -> option (list string) := decode_list "" decode_string.

Section apply.
Context `{U : Unicode} `{L : UnstructuredLib} `{Y : YamlLib} `{UL : UrlLib} `{C : CronLib}.

(** The node names of the first Deployment: [None] where nothing is to be
    checked. *)
Fixpoint node_names (manifests : list (list (string * value))) : res (option (list string)) :=
  match manifests with
  | [] => Ok None
  | m :: rest =>
      if negb (is_kind "Deployment" m) then node_names rest
      else
        match GetAnnotations m !! "tentacular.io/nodes" with
        | None => Ok None
        | Some nodesJSON =>
            if String.eqb nodesJSON "" then Ok None
            else match Unmarshal decode_names nodesJSON with
                 | None => Err (Errorf "malformed tentacular.io/nodes annotation: %w" [AErr json_error])
                 | Some names => Ok (Some names)
                 end
        end
  end.

(** The nodes the first metadata ConfigMap describes. *)
Fixpoint described_nodes (manifests : list (list (string * value))) : list string :=
  match manifests with
  | [] => []
  | m :: rest =>
      if negb (is_kind "ConfigMap" m) || negb (HasSuffix (GetName m) "-metadata") then described_nodes rest
      else
        match (data ← NestedStringMap m ["data"]; text ← map_get "node_descriptions" data; Unmarshal decode_nodes text) with
        | Some descs => nm_Name <$> List.filter (fun d => negb (String.eqb (nm_Description d) "")) descs
        | None => []
        end
  end.

Definition validateNodeDescriptions (manifests : list (list (string * value))) : res () :=
  match node_names manifests with
  | Err err => Err err
  | Ok None => Ok ()
  | Ok (Some names) =>
      match List.find (fun name => negb (str_in name (described_nodes manifests))) names with
      | Some name =>
          Err (Errorf "node %q: description is required (add description field in workflow.yaml)" [AStr name])
      | None => Ok ()
      end
  end.

(** ** Module dependencies of a workflow *)

Definition module_key (d : dependencyYAML) : string := dy_Protocol d +:+ ":" +:+ dy_Host d +:+ "@" +:+ dy_Version d.
Definition module_dep (d : dependencyYAML) : ModuleDep :=
  {| md_Protocol := dy_Protocol d; md_Host := dy_Host d; md_Version := dy_Version d |}.

(** The loop over the dependencies, with the keys seen so far. *)
Fixpoint unique_modules (seen : list string) (deps : list (string * dependencyYAML)) : list ModuleDep :=
  match deps with
  | [] => []
  | (_, d) :: rest =>
      if negb (str_in (dy_Protocol d) ["jsr"; "npm"]) then unique_modules seen rest
      else if str_in (module_key d) seen then unique_modules seen rest
      else module_dep d :: unique_modules (module_key d :: seen) rest
  end.

Fixpoint extractModuleDeps (manifests : list (list (string * value))) : list ModuleDep :=
  match manifests with
  | [] => []
  | m :: rest =>
      match workflow_text m ≫= yaml_workflow with
      | Some (Some deps) => unique_modules [] deps
      | _ => extractModuleDeps rest
      end
  end.

(** ** Before the apply *)

Definition ensureEnclaveServicesIfNeeded (exoCtrl : Controller) (namespace : string)
    (manifests : list (list (string * value))) : prog (res ()) :=
  ns ← call (KGet "namespaces" "" namespace);
  match ns with
  | Err err => Ret (Err (Errorf "get namespace %q: %w" [AStr namespace; AErr err]))
  | Ok ns =>
      if negb (IsEnclave (o_annotations ns)) then Ret (Ok ())
      else EnsureEnclaveServices exoCtrl namespace (ExoServicesFromDeps (DetectExoDepsSlice manifests))
  end.

Definition is_frozen (nsAnn : annotations) : bool :=
  IsEnclave nsAnn && String.eqb (ei_Status (ReadEnclaveInfo nsAnn)) "frozen".

Definition apply_mode (params : WorkflowApplyParams) (nsAnn : annotations) (eval : option Evaluator) : res string :=
  if negb (String.eqb (wa_Mode params) "") then
    match ParseMode (wa_Mode params) with
    | Err parseErr => Err (Errorf "invalid mode %q: %w" [AStr (wa_Mode params); AErr parseErr])
    | Ok m => Ok (ModeString m)
    end
  else if IsEnclave nsAnn then Ok (ModeString DefaultEnclaveMode)
  else Ok (ModeString (match eval with Some e => ev_DefaultMode e | None => DefaultMode end)).

(** The check for an update or a creation: the annotations of the existing
    Deployment, if there is one. *)
Definition apply_authz (eval : option Evaluator) (deployer : option DeployerInfo) (ns name : string) (nsAnn : annotations) :
    prog (res (option annotations)) :=
  existing ← call (KGet "deployments" ns name);
  match existing with
  | Ok d =>
      let decision := checkAuthz eval deployer nsAnn (o_annotations d) Write in
      Ret (if negb (dec_Allowed decision) then Err (Errorf "permission denied: %s" [AStr (dec_Reason decision)])
           else Ok (Some (o_annotations d)))
  | Err err =>
      if reason_is NotFound err then
        try_ checkNamespaceAuthz ns deployer eval Write else Err ;; Ret (Ok None)
      else Ret (Err (Errorf "check deployment %q: %w" [AStr name; AErr err]))
  end.

Definition with_manifests (params : WorkflowApplyParams) (manifests : list (list (string * value))) : WorkflowApplyParams :=
  {| wa_Namespace := wa_Namespace params; wa_Name := wa_Name params; wa_Mode := wa_Mode params;
     wa_Manifests := manifests |}.

Definition bearer : DeployerInfo :=
  {| d_Email := ""; d_DisplayName := ""; d_Subject := ""; d_Provider := "bearer-token"; d_AgentType := ""; d_SessionID := "" |}.

(** The exoskeleton's part. *)
Definition exo_manifests (exoCtrl : option Controller) (deployer : option DeployerInfo) (params : WorkflowApplyParams)
    (mode : string) (existing : option annotations) : prog (res (list (list (string * value)))) :=
  match exoCtrl with
  | None => Ret (Ok (wa_Manifests params))
  | Some c =>
      try_ ensureEnclaveServicesIfNeeded c (wa_Namespace params) (wa_Manifests params) else Err ;;
      try processed := ProcessManifests c (wa_Namespace params) (wa_Name params) (wa_Manifests params)
        else (fun exoErr => Err (Errorf "exoskeleton: %w" [AErr exoErr])) ;;
      manifests ← AnnotateDeployer processed
        {| ad_ExistingAnnotations := default ∅ existing; ad_Mode := mode; ad_Deployer := default bearer deployer;
           ad_IsUpdate := match existing with Some _ => true | None => false end |};
      Ret (Ok manifests)
  end.

(** ** After the apply *)

Definition syncCronSchedule (sched : Scheduler) (namespace name : string) : prog Scheduler :=
  deploy ← call (KGet "deployments" namespace name);
  Ret match deploy with
      | Err _ => sched
      | Ok d =>
          let schedule := GetAnnotation (o_annotations d) CronAnnotation in
          if String.eqb schedule "" then Deregister sched namespace name
          else (Register sched namespace name schedule).1
      end.

(** What the tool leaves behind: the scheduler, its answer, and the warming it
    starts in the background, if any. *)
Record applied := {
  ap_sched : option Scheduler;
  ap_result : res WorkflowApplyResult;
  ap_prewarm : option (string * list ModuleDep);
}.
Definition refused (sched : option Scheduler) (err : error) : applied :=
  {| ap_sched := sched; ap_result := Err err; ap_prewarm := None |}.

Definition sync_opt (sched : option Scheduler) (ns name : string) : prog (option Scheduler) :=
  match sched with
  | None => Ret None
  | Some s => s' ← syncCronSchedule s ns name; Ret (Some s')
  end.

Definition proxy_namespace (getenv : string -> string) : string :=
  let proxyNS := getenv "TENTACULAR_PROXY_NAMESPACE" in
  if String.eqb proxyNS "" then defaultProxyNamespace else proxyNS.

(** The part of the tool after the checks. *)
Definition apply_rest (getenv : string -> string) (sched : option Scheduler) (exoCtrl : option Controller)
    (deployer : option DeployerInfo) (params : WorkflowApplyParams) (mode : string) (existing : option annotations) : prog applied :=
  let ns := wa_Namespace params in
  let name := wa_Name params in
  try manifests := exo_manifests exoCtrl deployer params mode existing else (refused sched) ;;
  match validateNodeDescriptions manifests with
  | Err err => Ret (refused sched err)
  | Ok _ =>
      result ← handleWorkflowApply (with_manifests params manifests);
      match result with
      | Err err => Ret (refused sched err)
      | Ok r =>
          sched ← sync_opt sched ns name;
          Ret {| ap_sched := sched; ap_result := Ok r;
                 ap_prewarm := match extractModuleDeps manifests with
                               | [] => None
                               | deps => Some (proxy_namespace getenv, deps)
                               end |}
      end
  end.

Definition wf_apply (getenv : string -> string) (sched : option Scheduler) (exoCtrl : option Controller)
    (eval : option Evaluator) (deployer : option DeployerInfo) (params : WorkflowApplyParams) : prog applied :=
  let ns := wa_Namespace params in
  let name := wa_Name params in
  try nsAnn := guarded ns name deployer eval (fetchNamespaceAnnotations ns) else (refused sched) ;;
  if is_frozen nsAnn
  then Ret (refused sched (Errorf "enclave %q is frozen: new deployments and updates are blocked"
                             [AStr (ei_Enclave (ReadEnclaveInfo nsAnn))]))
  else
    match apply_mode params nsAnn eval with
    | Err err => Ret (refused sched err)
    | Ok mode =>
        try existing := apply_authz eval deployer ns name nsAnn else (refused sched) ;;
        apply_rest getenv sched exoCtrl deployer params mode existing
    end.
End apply.

(** ** Specification *)

Section spec.
Context `{U : Unicode}.

(** The annotations the tool decides on: the namespace's, none if there is no
    such namespace. *)
Definition namespace_seen (ns : string) (nsAnn : annotations) (h : list event) : Prop :=
  (exists o, Ev (KGet "namespaces" "" ns) (Ok o) ∈ h /\ nsAnn = o_annotations o) \/
  (exists err, Ev (KGet "namespaces" "" ns) (Err err) ∈ h /\ reason_is NotFound err = true /\ nsAnn = ∅).

(** The caller may update the Deployment there is. *)
Definition may_update (eval : option Evaluator) (deployer : option DeployerInfo) (ns name : string) (nsAnn : annotations)
    (h : list event) : Prop :=
  exists dep, Ev (KGet "deployments" ns name) (Ok dep) ∈ h /\
    dec_Allowed (CheckTentacle eval deployer nsAnn (o_annotations dep) Write) = true.

(** The check on a namespace: without an evaluator there is none; otherwise the
    namespace that was fetched lets the caller in, or the cluster answered that there
    is no such namespace. *)
Definition admitted (eval : option Evaluator) (deployer : option DeployerInfo) (ns : string) (action : Action) (h : list event) : Prop :=
  exists o, Ev (KGet "namespaces" "" ns) (Ok o) ∈ h /\ dec_Allowed (CheckEnclave eval deployer (o_annotations o) action) = true.
Definition namespace_checked (eval : option Evaluator) (deployer : option DeployerInfo) (ns : string) (action : Action)
    (h : list event) : Prop :=
  eval = None \/ admitted eval deployer ns action h \/ missing "namespaces" "" ns h.

(** There is none, and the caller may create one in the namespace. *)
Definition may_create (eval : option Evaluator) (deployer : option DeployerInfo) (ns name : string) (h : list event) : Prop :=
  missing "deployments" ns name h /\ namespace_checked eval deployer ns Write h.

(** An enclave that is frozen. *)
Definition frozen (nsAnn : annotations) : Prop :=
  ann_get nsAnn "tentacular.io/enclave" <> "" /\ ann_get nsAnn "tentacular.io/enclave-status" = "frozen".

Definition may_apply (eval : option Evaluator) (deployer : option DeployerInfo) (ns name : string) (h : list event) : Prop :=
  exists nsAnn, namespace_seen ns nsAnn h /\ ~ frozen nsAnn /\
    (may_update eval deployer ns name nsAnn h \/ may_create eval deployer ns name h).
End spec.

Section schedule.
Context `{U : Unicode} `{C : CronLib}.

(** The jobs left when the workflow's own is taken away. *)
Definition without (s : Scheduler) (ns name : string) : Scheduler :=
  match s_entries s !! key_of ns name with
  | Some e => {| s_cron := cron_Remove (s_cron s) (e_cronID e); s_entries := s_entries s |}
  | None => s
  end.

(** The table shows the workflow on a schedule; the workflow has a job on one. *)
Definition shown (s : Scheduler) (ns name schedule : string) : Prop :=
  exists e, s_entries s !! key_of ns name = Some e /\ e_schedule e = schedule.
Definition runs_on (s : Scheduler) (ns name schedule : string) : Prop :=
  exists id, cron_job (s_cron s) id = Some (schedule, (ns, name)).

(** What the schedules are after a successful apply, by the Deployment read last:
    nothing changes if there is none, or if the table shows its schedule already;
    otherwise the workflow runs on the annotated schedule, or, if that is absent or
    rejected, on none. *)
Definition synced (s : Scheduler) (ns name : string) (deploy : res object) (s' : Scheduler) : Prop :=
  match deploy with
  | Err _ => s' = s
  | Ok d =>
      let schedule := GetAnnotation (o_annotations d) CronAnnotation in
      (forall key, key <> key_of ns name -> s_entries s' !! key = s_entries s !! key) /\
      if String.eqb schedule "" then s_entries s' !! key_of ns name = None /\ forall sch, ~ runs_on s' ns name sch
      else (shown s ns name schedule -> s' = s) /\
           (~ shown s ns name schedule ->
            match cron_AddFunc (s_cron (without s ns name)) schedule (ns, name) with
            | Ok _ => shown s' ns name schedule /\ forall sch, runs_on s' ns name sch <-> sch = schedule
            | Err _ => s_entries s' = s_entries s /\ forall sch, ~ runs_on s' ns name sch
            end)
  end.
End schedule.

(** ** Lemmas *)

Section lemmas.
Context `{U : Unicode} `{L : UnstructuredLib} `{Y : YamlLib} `{UL : UrlLib} `{C : CronLib}.

Lemma namespace_seen_stable ns ann : stable (namespace_seen ns ann).
Proof. intros h e [(o & Ho & H)|(err & He & H)]; [left; exists o|right; exists err]; (split; [by right|done]). Qed.

Lemma may_update_stable eval d ns name ann : stable (may_update eval d ns name ann).
Proof. intros h e (dep & Hd & H). exists dep. split; [by right|done]. Qed.

Lemma namespace_checked_stable eval d ns action : stable (namespace_checked eval d ns action).
Proof.
  intros h e [->|[(o & Ho & H)|H]]; [by left|right; left; exists o; split; [by right|done]|]. do 2 right. by apply missing_stable.
Qed.
Lemma may_create_stable eval d ns name : stable (may_create eval d ns name).
Proof. intros h e [Hm H]. split; [by apply missing_stable|by apply namespace_checked_stable]. Qed.

Lemma may_apply_stable eval d ns name : stable (may_apply eval d ns name).
Proof.
  intros h e (ann & Hs & Hf & H). exists ann. split; [by apply namespace_seen_stable|]. split; [done|].
  destruct H; [left; by apply may_update_stable|right; by apply may_create_stable].
Qed.

Lemma fetchNamespaceAnnotations_holds ns h :
  holds (every (fun r => is_write r = false))
    (fun h' r => match r with Ok ann => namespace_seen ns ann h' | Err _ => True end)
    h (fetchNamespaceAnnotations ns).
Proof.
  unfold fetchNamespaceAnnotations. apply holds_call_bind; [done|]. intros [o|err]; simpl.
  - left. exists o. split; [by left|done].
  - destruct (reason_is NotFound err) eqn:Hr; simpl; [|done]. right. exists err. split; [by left|done].
Qed.

Lemma checkNamespaceAuthz_holds ns d eval action h :
  holds (every (fun r => is_write r = false))
    (fun h' r => match r with Ok _ => namespace_checked eval d ns action h' | Err _ => True end)
    h (checkNamespaceAuthz ns d eval action).
Proof.
  unfold checkNamespaceAuthz. destruct eval as [ev|]; [|by left].
  apply holds_call_bind; [done|]. intros [o|err].
  - destruct (dec_Allowed (CheckEnclave (Some ev) d (o_annotations o) action)) eqn:Ha; [|done].
    right; left. exists o. split; [by left|done].
  - destruct (reason_is NotFound err) eqn:Hr; [|done]. do 2 right. by apply missing_now.
Qed.

Lemma apply_authz_holds eval d ns name nsAnn h :
  holds (every (fun r => is_write r = false))
    (fun h' r => match r with
                 | Ok _ => may_update eval d ns name nsAnn h' \/ may_create eval d ns name h'
                 | Err _ => True
                 end)
    h (apply_authz eval d ns name nsAnn).
Proof.
  unfold apply_authz. apply holds_call_bind; [done|]. intros [dep|err]; cbv zeta.
  - unfold checkAuthz. destruct (dec_Allowed _) eqn:Ha; simpl; [|done]. left. exists dep. split; [by left|done].
  - destruct (reason_is NotFound err) eqn:Hr; [|done]. hstep.
    pose proof (checkNamespaceAuthz_holds ns d eval Write (Ev (KGet "deployments" ns name) (Err err) :: h)) as Hc.
    apply (holds_keep _ _ _ _ _ (missing_stable "deployments" ns name) (missing_now _ _ _ _ _ Hr)) in Hc.
    eapply holds_mono; [done| |exact Hc]. intros h' [[]|e] [H Hm]; [|done]. by right.
Qed.

Lemma not_frozen nsAnn : is_frozen nsAnn = false -> ~ frozen nsAnn.
Proof.
  unfold is_frozen, frozen, IsEnclave. cbn [ei_Status ReadEnclaveInfo]. intros Hf [He Hs].
  change AnnotationEnclave with "tentacular.io/enclave" in Hf. change AnnotationEnclaveStatus with "tentacular.io/enclave-status" in Hf.
  apply String.eqb_neq in He. by rewrite He, Hs in Hf.
Qed.

(** Once the checks have passed, what follows is free to write. *)
Lemma holds_granted {A} (D : list event -> Prop) (Q : list event -> A -> Prop) h (p : prog A) :
  stable D -> D h -> holds any_request Q h p -> holds (fun h' r => is_write r = true -> D h') Q h p.
Proof.
  intros HD Hh Hp. eapply holds_mono; [| |apply (holds_with D _ _ _ _ HD Hh Hp)]; [by intros ? ? [? _]|by intros ? ? [_ ?]].
Qed.

(** A refusal leaves the scheduler and the module cache as they were. *)
Definition quiet_refusal (sched : option Scheduler) (h : list event) (out : applied) : Prop :=
  match ap_result out with
  | Ok _ => True
  | Err _ => ap_sched out = sched /\ ap_prewarm out = None
  end.

Lemma quiet_refused sched h err : quiet_refusal sched h (refused sched err).
Proof. done. Qed.
Hint Resolve quiet_refused : core.

Lemma apply_rest_quiet getenv sched exo d params mode existing h :
  holds any_request (quiet_refusal sched) h (apply_rest getenv sched exo d params mode existing).
Proof.
  unfold apply_rest. cbv zeta. hstep. eapply holds_mono; [done| |apply holds_any]. intros h1 [ms|e] _; [|done].
  destruct (validateNodeDescriptions ms); [|done]. apply holds_bind.
  eapply holds_mono; [done| |apply holds_any]. intros h2 [r|e] _; [|done]. apply holds_bind.
  eapply holds_mono; [done| |apply holds_any]. done.
Qed.
End lemmas.

Section schedule_lemmas.
Context `{U : Unicode} `{C : CronLib} `{!CronLaws C}.

(** The jobs of a workflow are those of its entry. *)
Lemma no_stray_runs s ns name sch :
  no_stray s -> runs_on s ns name sch ->
  exists e, s_entries s !! key_of ns name = Some e /\ e_schedule e = sch /\ cron_job (s_cron s) (e_cronID e) = Some (sch, (ns, name)).
Proof. intros Hs [id Hid]. destruct (Hs _ _ _ Hid) as (e & He & <- & Hsch). by exists e. Qed.

(** Once its job is taken away a workflow has none. *)
Lemma without_stopped s ns name sch : no_stray s -> ~ runs_on (without s ns name) ns name sch.
Proof.
  intros Hs [id Hid]. unfold without in Hid. destruct (s_entries s !! key_of ns name) as [e|] eqn:He.
  - cbn [s_cron] in Hid. rewrite job_Remove in Hid. destruct (decide (id = e_cronID e)) as [|Hne]; [done|].
    destruct (Hs _ _ _ Hid) as (e' & He' & <- & _). cbn [fst snd] in He'. congruence.
  - destruct (Hs _ _ _ Hid) as (e' & He' & _). cbn [fst snd] in He'. congruence.
Qed.

Lemma Register_unshown s ns name schedule :
  ~ shown s ns name schedule -> Register s ns name schedule = add_entry (without s ns name) ns name schedule.
Proof.
  intros Hn. unfold Register, without. destruct (s_entries s !! key_of ns name) as [e|] eqn:He; [|done].
  destruct (String.eqb_spec (e_schedule e) schedule) as [Heq|]; [|done]. destruct Hn. by exists e.
Qed.
Lemma without_entries s ns name : s_entries (without s ns name) = s_entries s.
Proof. unfold without. by destruct (s_entries s !! _). Qed.
Lemma Register_shown s ns name schedule : shown s ns name schedule -> Register s ns name schedule = (s, None).
Proof. intros (e & He & <-). unfold Register. by rewrite He, String.eqb_refl. Qed.
Lemma not_shown_dec s ns name schedule : shown s ns name schedule \/ ~ shown s ns name schedule.
Proof.
  unfold shown. destruct (s_entries s !! key_of ns name) as [e|]; [|right; by intros (e & [=] & _)].
  destruct (decide (e_schedule e = schedule)) as [Heq|Hne]; [left; by exists e|right; by intros (e' & [= <-] & ?)].
Qed.

(** A registration of another schedule than the table shows. *)
Lemma Register_synced s ns name schedule :
  no_stray s -> ~ shown s ns name schedule ->
  let s' := (Register s ns name schedule).1 in
  (forall key, key <> key_of ns name -> s_entries s' !! key = s_entries s !! key) /\
  match cron_AddFunc (s_cron (without s ns name)) schedule (ns, name) with
  | Ok _ => shown s' ns name schedule /\ forall sch, runs_on s' ns name sch <-> sch = schedule
  | Err _ => s_entries s' = s_entries s /\ forall sch, ~ runs_on s' ns name sch
  end.
Proof.
  intros Hs Hn s'. pose proof (without_stopped s ns name) as Hstop. pose proof (without_entries s ns name) as Hent.
  unfold s'. rewrite Register_unshown by done. unfold add_entry.
  destruct (cron_AddFunc _ _ _) as [[c' id]|err] eqn:Ha; cbn [fst].
  - destruct (job_AddFunc _ _ _ _ _ Ha) as [_ Hjobs]. rewrite Hent. split; [|split].
    + intros key Hne. cbn [s_entries]. by rewrite lookup_insert_ne.
    + eexists. cbn [s_entries]. rewrite lookup_insert_eq. done.
    + intros sch. split.
      * intros [id' Hid]. cbn [s_cron] in Hid. rewrite Hjobs in Hid. destruct (decide (id' = id)); [congruence|].
        destruct (Hstop sch Hs). by exists id'.
      * intros ->. exists id. cbn [s_cron]. by rewrite Hjobs, decide_True.
  - rewrite Hent. split_and!; [done|done|]. intros sch. by apply Hstop.
Qed.

Lemma Deregister_synced s ns name :
  no_stray s ->
  let s' := Deregister s ns name in
  (forall key, key <> key_of ns name -> s_entries s' !! key = s_entries s !! key) /\
  s_entries s' !! key_of ns name = None /\ forall sch, ~ runs_on s' ns name sch.
Proof.
  intros Hs s'. unfold s', Deregister. pose proof (without_stopped s ns name) as Hstop. unfold without in Hstop.
  destruct (s_entries s !! key_of ns name) as [e|] eqn:He.
  - split_and!; [intros key Hne; cbn; by rewrite lookup_delete_ne|apply lookup_delete_eq|]. intros sch Hr. by apply (Hstop sch Hs).
  - split_and!; [done|done|]. intros sch. by apply Hstop.
Qed.

Lemma sync_synced s ns name deploy :
  no_stray s ->
  synced s ns name deploy
    match deploy with
    | Err _ => s
    | Ok d =>
        let schedule := GetAnnotation (o_annotations d) CronAnnotation in
        if String.eqb schedule "" then Deregister s ns name else (Register s ns name schedule).1
    end.
Proof.
  intros Hs. destruct deploy as [d|err]; [|done]. unfold synced. cbv zeta. set (schedule := GetAnnotation _ _).
  destruct (String.eqb schedule ""); [by apply Deregister_synced|].
  destruct (not_shown_dec s ns name schedule) as [Hsh|Hn].
  - rewrite Register_shown by done. by split_and!.
  - destruct (Register_synced s ns name schedule Hs Hn) as [H1 H2]. by split_and!.
Qed.
End schedule_lemmas.

(** ** Properties *)

Section properties.
Context `{U : Unicode} `{L : UnstructuredLib} `{Y : YamlLib} `{UL : UrlLib} `{C : CronLib}.

(** C14: Whatever the cluster answers, the tool changes nothing - no resource, no
    database, no bucket - before the namespace was read and is not frozen and the
    check for the case at hand passed: a Deployment of the workflow's name was found
    and the evaluator allows the caller to write it; or there is none, and the
    evaluator allows the caller to write in the namespace that was fetched - of which
    only a namespace that the cluster says does not exist is exempt, and a server
    without an evaluator.  A refusal for any reason leaves the schedules alone and
    warms nothing. *)
Theorem wf_apply_authorized getenv sched exoCtrl eval deployer params h :
  let ns := wa_Namespace params in
  let name := wa_Name params in
  holds (fun h' r => is_write r = true -> may_apply eval deployer ns name h') (quiet_refusal sched)
    h (wf_apply getenv sched exoCtrl eval deployer params).
Proof.
  intros ns name. unfold wf_apply. fold ns name. hstep.
  assert (forall {A} (p : prog A) Q h, holds (every (fun r => is_write r = false)) Q h p ->
    holds (fun h' r => is_write r = true -> may_apply eval deployer ns name h') Q h p) as Hread.
  { intros A p Q h0. apply holds_mono; [|done]. intros h' r Hr Hw. unfold every in Hr. congruence. }
  apply guarded_holds; [by apply quiet_refused|].
  eapply holds_mono; [by intros ? ? H; exact H| |apply Hread, fetchNamespaceAnnotations_holds].
  intros h1 [nsAnn|err] Hns; [|done]. destruct (is_frozen nsAnn) eqn:Hf; [done|].
  destruct (apply_mode params nsAnn eval) as [mode|err]; [|done]. hstep.
  pose proof (apply_authz_holds eval deployer ns name nsAnn h1) as Ha.
  apply (holds_keep _ _ _ _ _ (namespace_seen_stable ns nsAnn) Hns) in Ha.
  eapply holds_mono; [by intros ? ? H; exact H| |apply Hread, Ha]. intros h2 [existing|err] [Hok Hns2]; [|done].
  apply holds_granted; [apply may_apply_stable| |apply apply_rest_quiet]. exists nsAnn. split_and!; [done|by apply not_frozen|done].
Qed.


(** C33: After a successful apply the schedules follow the Deployment read back, from
    every state the server can be in ([no_stray], which [System.schedules_in_order]
    shows to be one in which every job is that of its entry): no other workflow's
    entry changes; without the annotation the workflow has neither entry nor job; a
    schedule that the table shows already changes nothing - also where an earlier
    rejection has left the entry without a job; any other schedule becomes the only
    one the workflow runs on if the library accepts it, and leaves the old entry with
    no job if it does not. *)
Theorem wf_apply_schedule `{!CronLaws C} getenv s exoCtrl eval deployer params h :
  no_stray s ->
  let ns := wa_Namespace params in
  let name := wa_Name params in
  holds any_request
    (fun h' out => match ap_result out with
                   | Err _ => ap_sched out = Some s
                   | Ok _ => exists s' deploy, ap_sched out = Some s' /\
                       head h' = Some (Ev (KGet "deployments" ns name) deploy) /\ synced s ns name deploy s'
                   end)
    h (wf_apply getenv (Some s) exoCtrl eval deployer params).
Proof.
  intros Hs ns name. unfold wf_apply. fold ns name. hstep.
  eapply holds_mono; [done| |apply holds_any]. intros h1 [nsAnn|err] _; [|done].
  destruct (is_frozen nsAnn); [done|]. destruct (apply_mode params nsAnn eval); [|done]. hstep.
  eapply holds_mono; [done| |apply holds_any]. intros h2 [existing|err] _; [|done]. unfold apply_rest. hstep.
  eapply holds_mono; [done| |apply holds_any]. intros h3 [ms|err] _; [|done].
  destruct (validateNodeDescriptions ms); [|done]. apply holds_bind.
  eapply holds_mono; [done| |apply holds_any]. intros h4 [r|err] _; [|done]. cbn [sync_opt].
  do 2 apply holds_bind.
  unfold syncCronSchedule. apply holds_call_bind; [done|]. intros deploy. simpl.
  eexists _, deploy. split; [reflexivity|]. split; [done|]. by apply sync_synced.
Qed.
End properties.

(** ** Witnesses *)

(** A scheduled workflow, applied to a cluster that runs it already. *)
Definition nightly : manifest :=
  map_set "metadata" (VMap [("name", VStr "mine"); ("annotations", VMap [(CronAnnotation, VStr "@daily")])]) plain_deployment.
Definition nightly_params : WorkflowApplyParams :=
  {| wa_Namespace := "team"; wa_Name := "mine"; wa_Mode := ""; wa_Manifests := [nightly] |}.

Abbreviation apply_toy := (wf_apply (U := ascii_tables) (L := path_lib) (Y := two_documents) (UL := no_brackets) (C := toy_cron)
  (fun _ => "")) (only parsing).

Lemma wf_apply_schedule_witness :
  let out := (exec (apply_toy (Some one_workflow) None None None nightly_params) team_cluster).1 in
  is_ok (ap_result out) = true /\
  (e_schedule (C := toy_cron) <$> (ap_sched out ≫= fun s => s_entries (C := toy_cron) s !! "team/mine")) = Some "@daily" /\
  exists s' deploy, ap_sched out = Some s' /\ synced (C := toy_cron) one_workflow "team" "mine" deploy s'.
Proof.
  intros out. assert (is_ok (ap_result out) = true) as Hok by by vm_compute. split; [done|]. split; [by vm_compute|].
  pose proof (holds_run_history cluster_handler any_request _ [] _ team_cluster
    (wf_apply_schedule (U := ascii_tables) (L := path_lib) (Y := two_documents) (UL := no_brackets) (C := toy_cron)
       (CronLaws0 := toy_laws) (fun _ => "") one_workflow None None None nightly_params [] (sched_ok_no_stray _ one_workflow_ok))) as [h' H].
  change (run cluster_handler _ team_cluster).1 with out in H. clearbody out.
  destruct (ap_result out); [|done]. destruct H as (s' & deploy & H1 & _ & H3). by exists s', deploy.
Defined.

(** The workflow is registered with its services before its manifests are
    validated: an update that is refused for a missing description, or by the
    namespace or security checks of the apply, has already replaced the password
    the running workflow holds. *)
Definition pg_config : PostgresConfig :=
  {| pg_Host := pgc_Host pg_example; pg_Port := pgc_Port pg_example; pg_Database := pgc_Database pg_example;
     pg_User := "admin"; pg_Password := ""; pg_SSLMode := "" |}.
Definition pg_controller : Controller :=
  NewControllerWithDeps (ctl_cfg enabled_controller) (Some (pg_registrar (U := ascii_tables) pg_config)) None None None.
Definition undescribed_params : WorkflowApplyParams :=
  {| wa_Namespace := "team"; wa_Name := "mine"; wa_Mode := "";
     wa_Manifests :=
       [map_set "metadata" (VMap [("name", VStr "mine"); ("annotations", VMap [("tentacular.io/nodes", VStr ("[" +:+ Json.encode_string "fetch" +:+ "]"))])])
          plain_deployment; code_configmap "plain"] |}.

Definition mine_creds : PostgresCreds :=
  {| pgc_Host := pg_Host pg_config; pgc_Port := pg_Port pg_config; pgc_Database := pg_Database pg_config;
     pgc_User := "tn_team_mine"; pgc_Password := ""; pgc_Schema := "tn_team_mine"; pgc_Protocol := "postgresql" |}.
Definition mine_documents : YamlLib :=
  toy_yaml [("plain", plain_workflow);
            ("enriched", default [] (enrich_workflow (UL := no_brackets) [("tentacular-postgres", PgCreds mine_creds)] plain_workflow))].

Example refused_apply_changes_password :
  let '(out, c) := exec (wf_apply (U := ascii_tables) (L := path_lib) (Y := mine_documents) (UL := no_brackets) (C := toy_cron)
                           (fun _ => "") None (Some pg_controller) None None undescribed_params) team_cluster in
  ap_result out = Err (Errorf "node %q: description is required (add description field in workflow.yaml)" [AStr "fetch"]) /\
  last (cl_sql c) = Some (sql_create_role (U := ascii_tables) "tn_team_mine" (String.concat "" (replicate 32 "0"))).
Proof. by vm_compute. Qed.
