(* ===== verification/Run.v ===== *)
(** * Running workflows (pkg/k8s/run.go, pkg/tools/run.go, pkg/scheduler/scheduler.go)

    A run is a POST to the workflow's own service.  While the service cannot be
    reached it is repeated every three seconds, until the context is done: the
    loop of the code has no bound of its own, so it takes fuel here, and the fuel
    is shown to be enough for every context that keeps its deadline. *)

From S2P Require Import Prelude GoStrings Guard Annotations Auth Evaluator.
From S2P Require Import Effects K8sOps Json GoUrl AuthzHelpers Unstructured Deploy Scheduler WfApply.
#[local] Open Scope string_scope.

(** ** The request (k8s/run.go) *)

(** Seconds. *)
Definition runRetryInterval : Z := 3.

Section run.
Context `{U : Unicode} `{UL : UrlLib}.

(** One attempt: the body, or an error and whether it is a failure to connect. *)
Definition tryRunOnce (url payload namespace name : string) : prog (bool * error + string) :=
  match Parse url with
  | None => Ret (inl (false, Errorf "create request for %s/%s: %w" [AStr namespace; AStr name; AErr url_error]))
  | Some _ =>
      r ← call (HTTPDo "POST" url payload);
      Ret match r with
          | inl (isDial, err) => inl (isDial, Errorf "trigger workflow %s/%s: %w" [AStr namespace; AStr name; AErr err])
          | inr (_, Err err) => inl (false, Errorf "read workflow response: %w" [AErr err])
          | inr (status, Ok body) =>
              if ((status <? 200) || (300 <=? status))%Z
              then inl (false, Errorf "workflow %s/%s returned HTTP %d: %s" [AStr namespace; AStr name; AInt status; AStr body])
              else if String.eqb body "" then inr "null"
              else inr body
          end
  end.

Definition run_url (namespace name : string) : string :=
  Sprintf "http://%s.%s.svc.cluster.local:8080/run" [name; namespace].
Definition run_payload (input : string) : string := if String.eqb input "" then "{}" else input.

(** The loop; [None] where the fuel is used up. *)
Fixpoint run_loop (fuel : nat) (url payload namespace name : string) : prog (option (res string)) :=
  match fuel with
  | O => Ret None
  | S fuel =>
      r ← tryRunOnce url payload namespace name;
      match r with
      | inr body => Ret (Some (Ok body))
      | inl (false, err) => Ret (Some (Err err))
      | inl (true, lastErr) =>
          done ← call (WaitOrDone runRetryInterval);
          match done with
          | Some ctxErr =>
              Ret (Some (Err (Errorf "trigger workflow %s/%s: %w (last error: %w)"
                                [AStr namespace; AStr name; AErr ctxErr; AErr lastErr])))
          | None => run_loop fuel url payload namespace name
          end
      end
  end.

(** Attempts a context with a time-out of so many seconds leaves room for. *)
Definition attempts (timeout : Z) : nat := S (Z.to_nat (timeout / runRetryInterval)).

Definition RunWorkflow (timeout : Z) (namespace name input : string) : prog (option (res string)) :=
  run_loop (attempts timeout) (run_url namespace name) (run_payload input) namespace name.

(** ** The wf_run tool (tools/run.go) *)

Record WfRunParams := { rn_Namespace : string; rn_Name : string; rn_Input : string; rn_TimeoutS : Z }.
Record WfRunResult := {
  rr_Output : option (list (string * value));
  rr_Name : string;
  rr_Namespace : string;
  rr_DurationMs : Z;
}.

Definition run_timeout (timeoutS : Z) : Z :=
  if ((0 <? timeoutS) && (timeoutS <=? 600))%Z then timeoutS
  else if (600 <? timeoutS)%Z then 600
  else 120.

(** The output as an object; anything else is kept as text. *)
Definition run_output (raw : string) : option (list (string * value)) :=
  if String.eqb raw "" then None
  else match Unmarshal decode_object raw with
       | Some output => output
       | None => Some [("raw", VStr raw)]
       end.

Definition handleWfRun (params : WfRunParams) : prog (option (res WfRunResult)) :=
  let ns := rn_Namespace params in
  try_ CheckManagedNamespace ns else (fun err => Some (Err err)) ;;
  start ← call NowMilli;
  raw ← RunWorkflow (run_timeout (rn_TimeoutS params)) ns (rn_Name params) (rn_Input params);
  match raw with
  | None => Ret None
  | Some (Err err) => Ret (Some (Err err))
  | Some (Ok raw) =>
      now ← call NowMilli;
      Ret (Some (Ok {| rr_Output := run_output raw; rr_Name := rn_Name params; rr_Namespace := ns;
                       rr_DurationMs := now - start |}))
  end.

(** The check that [wf_run] and [wf_restart] share, up to the message: on a frozen
    enclave nobody may run anything. *)
Definition execute_authz (frozen : string) (eval : option Evaluator) (deployer : option DeployerInfo) (ns name : string) : prog (res ()) :=
  dep ← call (KGet "deployments" ns name);
  match dep with
  | Ok dep =>
      try nsAnn := fetchNamespaceAnnotations ns else Err ;;
      if is_frozen nsAnn
      then Ret (Err (Errorf frozen [AStr (ei_Enclave (ReadEnclaveInfo nsAnn))]))
      else
        let d := checkAuthz eval deployer nsAnn (o_annotations dep) Execute in
        Ret (if negb (dec_Allowed d) then Err (Errorf "permission denied: %s" [AStr (dec_Reason d)]) else Ok ())
  | Err err =>
      Ret (if negb (reason_is NotFound err) then Err (Errorf "check deployment %q: %w" [AStr name; AErr err]) else Ok ())
  end.

Definition run_authz : option Evaluator -> option DeployerInfo -> string -> string -> prog (res ()) :=
  execute_authz "enclave %q is frozen: workflow execution is blocked on frozen enclaves".

Definition wf_run (eval : option Evaluator) (deployer : option DeployerInfo) (params : WfRunParams) :
    prog (option (res WfRunResult)) :=
  let ns := rn_Namespace params in
  let name := rn_Name params in
  try_ guarded ns name deployer eval (run_authz eval deployer ns name) else (fun err => Some (Err err)) ;;
  handleWfRun params.

(** ** The cron trigger (scheduler.go) *)

(** What is logged of a run: the error, or the success the workflow reports. *)
Definition trigger_summary (output : string) : option bool :=
  match Unmarshal decode_object output with
  | Some (Some result) => match map_get "success" result with
                          | Some (VBool success) => Some success
                          | _ => None
                          end
  | _ => None
  end.
Definition trigger (namespace name : string) : prog (option (res (option bool))) :=
  output ← RunWorkflow 120 namespace name "";
  Ret match output with
      | None => None
      | Some (Err err) => Some (Err err)
      | Some (Ok output) => Some (Ok (trigger_summary output))
      end.
End run.

(** ** Specification *)

Section spec.
Context `{U : Unicode}.

(** The caller may run the Deployment that was fetched, in an enclave that is not
    frozen. *)
Definition may_execute (eval : option Evaluator) (deployer : option DeployerInfo) (ns name : string) (h : list event) : Prop :=
  exists dep nsAnn, Ev (KGet "deployments" ns name) (Ok dep) ∈ h /\ namespace_seen ns nsAnn h /\
    ~ frozen nsAnn /\ dec_Allowed (CheckTentacle eval deployer nsAnn (o_annotations dep) Execute) = true.
(** What the tools make sure of: that, or that there is no such Deployment. *)
Definition may_run (eval : option Evaluator) (deployer : option DeployerInfo) (ns name : string) (h : list event) : Prop :=
  may_execute eval deployer ns name h \/ missing "deployments" ns name h.

(** The service of the workflow accepted a run and answered. *)
Definition run_endpoint (ns name : string) : string := "http://" +:+ name +:+ "." +:+ ns +:+ ".svc.cluster.local:8080/run".
(** Nothing was changed so far; no service was reached either. *)
Definition undelivered (h : list event) : Prop :=
  Forall (fun e => is_write (asked e) = false \/ exists url payload err, e = Ev (HTTPDo "POST" url payload) (inl (true, err))) h.
Definition answered (url payload body : string) (h : list event) : Prop :=
  exists status text, Ev (HTTPDo "POST" url payload) (inr (status, Ok text)) ∈ h /\
    (200 <= status < 300)%Z /\ body = (if String.eqb text "" then "null" else text).

(** A clock that never runs backwards, and a context that is done by a deadline:
    a wait that ended otherwise took its time and ended before. *)
Record keeps_deadline {S} (handle : forall r, S -> resp r * S) (now : S -> Z) (deadline : Z) : Prop := {
  clock_mono r s : (now s <= now (handle r s).2)%Z;
  wait_bounded n s : (handle (WaitOrDone n) s).1 = None ->
    (now s + n <= now (handle (WaitOrDone n) s).2 <= deadline)%Z;
}.
End spec.

(** ** Lemmas *)

Section lemmas.
Context `{U : Unicode} `{UL : UrlLib}.

Lemma may_run_stable eval d ns name : stable (may_run eval d ns name).
Proof.
  intros h e [(dep & ann & Hd & Hs & H)|(err & He & Hr)]; [left|right; exists err; split; [by right|done]].
  exists dep, ann. split; [by right|]. split; [by apply namespace_seen_stable|done].
Qed.

Lemma answered_stable url payload body : stable (answered url payload body).
Proof. intros h e (st & t & H & Hr). exists st, t. split; [by right|done]. Qed.

Lemma execute_authz_holds message eval d ns name h :
  holds (every (fun r => is_write r = false))
    (fun h' r => match r with Ok _ => may_run eval d ns name h' | Err _ => True end)
    h (execute_authz message eval d ns name).
Proof.
  unfold execute_authz. apply holds_call_bind; [done|]. intros [dep|err].
  - hstep. pose proof (fetchNamespaceAnnotations_holds ns (Ev (KGet "deployments" ns name) (Ok dep) :: h)) as Hf.
    apply (holds_keep _ _ (fun h' => Ev (KGet "deployments" ns name) (Ok dep) ∈ h')) in Hf; [|by intros ? ? ?; right|by left].
    eapply holds_mono; [done| |exact Hf]. intros h' [ann|err] [Hs Hin]; [|done].
    destruct (is_frozen ann) eqn:Hz; [done|]. unfold checkAuthz. destruct (dec_Allowed _) eqn:Ha; [|done].
    left. exists dep, ann. split_and!; [done..|by apply not_frozen|done].
  - destruct (reason_is NotFound err) eqn:Hr; [|done]. right. exists err. split; [by left|done].
Qed.

Lemma run_url_endpoint ns name : run_url ns name = run_endpoint ns name.
Proof. reflexivity. Qed.
Lemma unwritten_undelivered h : unwritten h -> undelivered h.
Proof. intros H. eapply Forall_impl; [exact H|]. by left. Qed.
Lemma undelivered_read r x h : is_write r = false -> undelivered h -> undelivered (Ev r x :: h).
Proof. intros Hr Hh. constructor; [by left|done]. Qed.

Lemma tryRunOnce_holds url payload ns name h :
  undelivered h ->
  holds (fun h' r => undelivered h' /\ r = HTTPDo "POST" url payload)
    (fun h' r => match r with
                 | inr body => answered url payload body h'
                 | inl (true, _) => undelivered h'
                 | inl (false, _) => True
                 end)
    h (tryRunOnce url payload ns name).
Proof.
  intros Hh. unfold tryRunOnce. destruct (Parse url); [|done]. apply holds_call_bind; [done|].
  intros [[[] err]|[status [body|err]]]; cbn [holds]; [|done| |done].
  { constructor; [right; by eexists _, _, _|done]. }
  destruct (_ || _) eqn:Hst; [done|].
  apply orb_false_iff in Hst as [H1%Z.ltb_ge H2%Z.leb_gt].
  assert (answered url payload (if String.eqb body "" then "null" else body)
            (Ev (HTTPDo "POST" url payload) (inr (status, Ok body)) :: h)) as Ha.
  { exists status, body. split; [by left|]. done. }
  by destruct (String.eqb body "").
Qed.

Lemma run_loop_holds fuel url payload ns name h :
  undelivered h ->
  holds (fun h' r => is_write r = true -> undelivered h' /\ r = HTTPDo "POST" url payload)
    (fun h' r => match r with Some (Ok body) => answered url payload body h' | _ => True end)
    h (run_loop fuel url payload ns name).
Proof.
  revert h. induction fuel as [|fuel IH]; intros h Hh; [done|]. cbn [run_loop]. apply holds_bind.
  eapply holds_mono; [intros ? ? H _; exact H| |by apply tryRunOnce_holds].
  intros h' [[[] err]|body] Hb; [|done|done]. apply holds_call_bind; [done|]. intros [e|]; [done|]. by apply IH, undelivered_read.
Qed.

(** *** Termination *)

Section clock.
Context {S : Type} (handle : forall r, S -> resp r * S) (now : S -> Z) (deadline : Z)
  (Hclock : keeps_deadline handle now deadline).

Lemma run_mono {A} (p : prog A) s : (now s <= now (run handle p s).2)%Z.
Proof.
  revert s. induction p as [a|r k IH]; intros s; simpl; [lia|].
  pose proof (clock_mono _ _ _ Hclock r s) as H. destruct (handle r s) as [x s'] eqn:E. simpl in H.
  specialize (IH x s'). lia.
Qed.

(** With fuel for every interval before the deadline the loop ends, and more
    fuel changes nothing. *)
Lemma run_loop_enough fuel more url payload ns name s :
  (0 < fuel <= more)%nat -> (deadline < now s + runRetryInterval * Z.of_nat fuel)%Z ->
  is_Some (run handle (run_loop fuel url payload ns name) s).1 /\
  run handle (run_loop more url payload ns name) s = run handle (run_loop fuel url payload ns name) s.
Proof.
  revert more s. induction fuel as [|fuel IH]; intros [|more] s [Hpos Hle] Hd; try lia.
  cbn [run_loop]. rewrite !run_bind. pose proof (run_mono (tryRunOnce url payload ns name) s) as Hm.
  destruct (run handle (tryRunOnce url payload ns name) s) as [[[[] err]|body] s1]; [|by split..].
  cbn [run snd] in *. unfold call. cbn [mbind prog_mbind prog_bind run].
  pose proof (wait_bounded _ _ _ Hclock runRetryInterval s1) as Hw.
  destruct (handle (WaitOrDone runRetryInterval) s1) as [[e|] s2]; [by split|].
  specialize (Hw eq_refl). cbn [snd] in Hw. unfold runRetryInterval in *. apply IH; lia.
Qed.
End clock.
End lemmas.

(** ** Properties *)

(** C19: The retry loop ends.  Under any behaviour of the network and any clock
    that does not run backwards, in a context that is done by its deadline, a run
    comes to a result within one attempt per interval before the deadline: the
    loop with that much fuel returns, and the unbounded loop of the code, which
    any larger fuel approximates, does exactly the same. *)
Theorem RunWorkflow_terminates `{U : Unicode} `{UL : UrlLib} {S} (handle : forall r, S -> resp r * S) now deadline
    timeout ns name input s :
  keeps_deadline handle now deadline -> (deadline <= now s + timeout)%Z ->
  is_Some (run handle (RunWorkflow timeout ns name input) s).1 /\
  forall fuel, (attempts timeout <= fuel)%nat ->
    run handle (run_loop fuel (run_url ns name) (run_payload input) ns name) s =
    run handle (RunWorkflow timeout ns name input) s.
Proof.
  intros Hc Hd. unfold RunWorkflow.
  assert (deadline < now s + runRetryInterval * Z.of_nat (attempts timeout))%Z as Hf.
  { unfold attempts, runRetryInterval. pose proof (Z.div_mod timeout 3). pose proof (Z.mod_pos_bound timeout 3). lia. }
  assert (0 < attempts timeout)%nat as Hpos by (unfold attempts; lia). split.
  - eapply (run_loop_enough handle now deadline Hc (attempts timeout) (attempts timeout)); [lia|done].
  - intros fuel Hle. by eapply (run_loop_enough handle now deadline Hc).
Qed.

Section properties.
Context `{U : Unicode} `{UL : UrlLib}.

(** C15: A run is guarded and faithful: the only request of [wf_run] that changes
    anything is a POST to the workflow's own service with the caller's input, made
    after the namespace was seen to be managed and a get of the workflow's Deployment
    that either returned one which the caller may execute, in an enclave that is not
    frozen, or was answered with not-found; in that second case the code asks
    neither for a permission nor whether the enclave is frozen.  It is made again only
    where every earlier one failed to connect.  An output that is reported is what the
    service answered with success. *)
Theorem wf_run_authorized eval deployer params :
  let ns := rn_Namespace params in
  let name := rn_Name params in
  let payload := if String.eqb (rn_Input params) "" then "{}" else rn_Input params in
  holds (fun h' r => is_write r = true ->
           (may_execute eval deployer ns name h' \/ missing "deployments" ns name h') /\ seen_managed ns h' /\
           undelivered h' /\ r = HTTPDo "POST" (run_endpoint ns name) payload)
    (fun h' r => match r with
                 | Some (Ok out) => exists body, answered (run_endpoint ns name) payload body h' /\
                     rr_Output out = match Unmarshal decode_object body with
                                     | Some output => output
                                     | None => Some [("raw", VStr body)]
                                     end
                 | _ => True
                 end)
    [] (wf_run eval deployer params).
Proof.
  intros ns name payload. unfold wf_run. fold ns name. hstep.
  assert (forall {A} (p : prog A) R Q' h, (forall h r, is_write r = false -> R h r) -> unwritten h -> holds (every (fun r => is_write r = false)) Q' h p ->
    holds R (fun h' a => unwritten h' /\ Q' h' a) h p) as Hread.
  { intros A p R Q' h0 HR Hh Hp. eapply holds_mono; [|by intros ? ? H; exact H|by apply holds_unwritten, Hp]. intros h' r Hr. by apply HR. }
  apply guarded_holds; [done|]. eapply holds_mono; [by intros ? ? H; exact H| |apply Hread; [congruence|constructor|apply execute_authz_holds]].
  intros h1 [[]|err] [Hu1 Hrun]; [|done]. unfold handleWfRun. fold ns. hstep.
  pose proof (CheckManaged_holds ns h1 (every (fun r => is_write r = false)) (fun _ _ H => H)) as Hm.
  apply (holds_keep _ _ _ _ _ (may_run_stable eval deployer ns name) Hrun) in Hm.
  eapply holds_mono; [by intros ? ? H; exact H| |apply Hread; [congruence|exact Hu1|exact Hm]].
  intros h2 [[]|err] [Hu2 [[Hman _] Hrun2]]; [|done]. apply holds_call_bind; [done|]. intros start.
  assert (stable (fun h => may_run eval deployer ns name h /\ seen_managed ns h)) as Hst.
  { intros h' e [? ?]. split; [by apply may_run_stable|by apply seen_managed_stable]. }
  apply holds_bind. eapply holds_mono; [| |eapply holds_with; [exact Hst| |apply run_loop_holds]].
  - intros h' r [[H1 H2] Hr] Hw. destruct (Hr Hw) as [Hu ->]. split_and!; [exact H1|done|done|done].
  - intros h3 [[raw|err]|] [_ Hb]; [|done..]. apply holds_call_bind; [done|]. intros fin. cbn [holds].
    exists raw. split; [by apply answered_stable|]. cbn [rr_Output]. unfold run_output.
    destruct Hb as (st & text & _ & _ & ->). destruct (String.eqb_spec text "") as [|Hne]; [done|].
    by rewrite (proj2 (String.eqb_neq _ _) Hne).
  - by apply Hst.
  - by apply undelivered_read, unwritten_undelivered.
Qed.
End properties.

(** ** Witnesses *)

(** A service that comes up at a given second, in a context with a deadline. *)
Definition starting (ready deadline : Z) (r : req) (s : cluster * Z) : resp r * (cluster * Z) :=
  match r return resp r * (cluster * Z) with
  | WaitOrDone n =>
      if (0 <=? n)%Z && (s.2 + n <=? deadline)%Z then (None, (s.1, s.2 + n)%Z)
      else (Some (ErrorNew "context deadline exceeded"), s)
  | HTTPDo _ _ _ =>
      (if (ready <=? s.2)%Z then inr (200%Z, Ok "true") else inl (true, ErrorNew "connection refused"), s)
  | r => let (x, c) := cluster_handler r s.1 in (x, (c, s.2))
  end.

Lemma starting_clock ready deadline : keeps_deadline (starting ready deadline) snd deadline.
Proof.
  split.
  - intros r [c t].
    assert (forall x : resp r * cluster, (t <= (let (y, c') := x in (y, (c', t))).2.2)%Z) as Hsame by (by intros []).
    destruct r; try apply Hsame; simpl; [done|]. case_match eqn:H; simpl; [|done].
    apply andb_true_iff in H as [H _]. apply Z.leb_le in H. lia.
  - intros n [c t]. simpl. case_match eqn:H; [|done]. intros _. simpl.
    apply andb_true_iff in H as [_ H]. apply Z.leb_le in H. lia.
Qed.

(** A workflow that is up after five seconds is reached on the third attempt; one
    that needs longer than the time-out is given up at the deadline. *)
Lemma RunWorkflow_terminates_witness :
  let go := fun ready => (run (starting ready 120) (RunWorkflow (U := ascii_tables) (UL := no_brackets) 120 "team" "etl" "")
                            (empty_cluster, 0%Z)) in
  (go 5%Z).1 = Some (Ok "true") /\ (go 5%Z).2.2 = 6%Z /\
  is_Some (go 500%Z).1 /\ (go 500%Z).2.2 = 120%Z.
Proof.
  intros go. split; [by vm_compute|]. split; [by vm_compute|]. split; [|by vm_compute].
  apply (RunWorkflow_terminates (U := ascii_tables) (UL := no_brackets) (starting 500 120) snd 120 120 "team" "etl" ""
           (empty_cluster, 0%Z) (starting_clock 500 120)). simpl. lia.
Defined.

(** A result that is no object is kept as text. *)
Example run_output_text : run_output "[1]" = Some [("raw", VStr "[1]")] /\ run_output "null" = None.
Proof. by vm_compute. Qed.
