(* ===== verification/WfHealth.v ===== *)
(** * Workflow health (pkg/tools/wf_health.go)

    The traffic-light status of one workflow and of all workflows of an enclave
    that the caller may read: red if no replica is ready or the health endpoint
    cannot be reached, amber or green by what the endpoint reports. *)

From S2P Require Import Prelude GoStrings Guard Mode Annotations Auth Evaluator.
From S2P Require Import Effects K8sOps Json AuthzHelpers Unstructured Deploy Scheduler WfApply.
#[local] Open Scope string_scope.

(** ** Classification *)

Definition wfHealthPort : Z := 8080.
Definition wfHealthDefault : Z := 10.

(** The answer of a health endpoint. *)
Record wfHealthResponse := { hr_LastRunFailed : bool; hr_InFlight : Z }.
Definition health_fields : list (string * (wfHealthResponse -> value -> option wfHealthResponse)) :=
  [("lastRunFailed", fun x v => b ← decode_bool (hr_LastRunFailed x) v; Some {| hr_LastRunFailed := b; hr_InFlight := hr_InFlight x |});
   ("inFlight", fun x v => n ← decode_int (hr_InFlight x) v; Some {| hr_LastRunFailed := hr_LastRunFailed x; hr_InFlight := n |})].
Definition decode_health : value -> option wfHealthResponse :=
  decode_struct health_fields {| hr_LastRunFailed := false; hr_InFlight := 0 |}.

Definition classifyFromDetail (detail : string) : string * string :=
  match Unmarshal decode_health detail with
  | None => ("green", "")
  | Some resp =>
      if hr_LastRunFailed resp then ("amber", "last execution failed")
      else if (0 <? hr_InFlight resp)%Z then ("amber", "execution in flight")
      else ("green", "")
  end.

(** ** Probing *)

(** [io.LimitReader] *)
Fixpoint limit_reader (n : Z) (s : string) : string :=
  match s with
  | EmptyString => ""
  | String c s' => if (0 <? n)%Z then String c (limit_reader (n - 1) s') else ""
  end.
Definition maxBody : Z := Z.shiftl 1 20.

Definition probe_result (r : bool * error + Z * res string) : res string :=
  match r with
  | inl (_, err) => Err err
  | inr (status, body) =>
      if ((status <? 200) || (300 <=? status))%Z
      then Err (Errorf "health endpoint returned status %d" [AInt status])
      else match body with
           | Err err => Err (Errorf "read health response: %w" [AErr err])
           | Ok body => Ok (limit_reader maxBody body)
           end
  end.
Definition probeURL (url : string) : prog (res string) :=
  r ← call (HTTPDo "GET" url ""); Ret (probe_result r).

Record WfHealthParams := { wh_Namespace : string; wh_Name : string; wh_Detail : bool }.
Record WfHealthResult := {
  whr_Name : string;
  whr_Namespace : string;
  whr_Status : string;
  whr_Reason : string;
  whr_Detail : string;
  whr_PodReady : bool;
}.
Record WfHealthNsParams := { whn_Namespace : string; whn_Limit : Z }.
Record WfHealthNsSummary := { hs_Green : Z; hs_Amber : Z; hs_Red : Z }.
Record WfHealthNsEntry := { he_Name : string; he_Status : string; he_Reason : string }.
Record WfHealthNsResult := {
  hn_Namespace : string;
  hn_Workflows : list WfHealthNsEntry;
  hn_Summary : WfHealthNsSummary;
  hn_Total : Z;
  hn_Truncated : bool;
}.

Definition podReady (dep : object) : bool := (1 <=? default 0%Z (int_at dep ["status"; "readyReplicas"]))%Z.

Section health.
Context `{U : Unicode}.

Definition wfHealthURL (name namespace : string) (detail : bool) : string :=
  Sprintf "http://%s.%s.svc.cluster.local:%d/health" [name; namespace; pretty wfHealthPort] +:+
  (if detail then "?detail=1" else "").
Definition wfHealthProbe (name namespace : string) (detail : bool) : prog (res string) :=
  probeURL (wfHealthURL name namespace detail).

Definition not_ready_reason (dep : object) : string :=
  Sprintf "0/%d replicas ready" [pretty (replicaCount (int_at dep ["spec"; "replicas"]))].
Definition unreachable_reason (err : error) : string :=
  Sprintf "health endpoint unreachable: %v" [ErrorText err].

(** ** The handlers *)

Definition health_result (params : WfHealthParams) (status reason detail : string) (ready : bool) : WfHealthResult :=
  {| whr_Name := wh_Name params; whr_Namespace := wh_Namespace params; whr_Status := status; whr_Reason := reason;
     whr_Detail := detail; whr_PodReady := ready |}.

Definition handleWfHealth (params : WfHealthParams) (deployer : option DeployerInfo) (eval : option Evaluator) :
    prog (res WfHealthResult) :=
  let ns := wh_Namespace params in
  let name := wh_Name params in
  try_ CheckManagedNamespace ns else Err ;;
  try dep := call (KGet "deployments" ns name)
    else (fun err => Err (Errorf "get deployment %q in namespace %q: %w" [AStr name; AStr ns; AErr err])) ;;
  try nsAnn := fetchNamespaceAnnotations ns else Err ;;
  let d := checkAuthz eval deployer nsAnn (o_annotations dep) Read in
  if negb (dec_Allowed d) then Ret (Err (Errorf "permission denied: %s" [AStr (dec_Reason d)]))
  else if negb (podReady dep) then Ret (Ok (health_result params "red" (not_ready_reason dep) "" false))
  else
    probe ← wfHealthProbe name ns (wh_Detail params);
    Ret (Ok match probe with
            | Err probeErr => health_result params "red" (unreachable_reason probeErr) "" true
            | Ok detail =>
                let (status, reason) := classifyFromDetail detail in
                health_result params status reason (if wh_Detail params then detail else "") true
            end).

(** The status of one Deployment of the enclave. *)
Definition workflow_status (ns : string) (dep : object) : prog (string * string) :=
  if negb (podReady dep) then Ret ("red", not_ready_reason dep)
  else
    probe ← wfHealthProbe (o_name dep) ns false;
    Ret match probe with
        | Err probeErr => ("red", unreachable_reason probeErr)
        | Ok detail => classifyFromDetail detail
        end.

Definition count_status (summary : WfHealthNsSummary) (status : string) : WfHealthNsSummary :=
  if String.eqb status "green" then {| hs_Green := hs_Green summary + 1; hs_Amber := hs_Amber summary; hs_Red := hs_Red summary |}
  else if String.eqb status "amber" then {| hs_Green := hs_Green summary; hs_Amber := hs_Amber summary + 1; hs_Red := hs_Red summary |}
  else if String.eqb status "red" then {| hs_Green := hs_Green summary; hs_Amber := hs_Amber summary; hs_Red := hs_Red summary + 1 |}
  else summary.

Definition health_step (ns : string) (st : list WfHealthNsEntry * WfHealthNsSummary) (dep : object) :
    prog (list WfHealthNsEntry * WfHealthNsSummary) :=
  s ← workflow_status ns dep;
  Ret ((st.1 ++ [{| he_Name := o_name dep; he_Status := s.1; he_Reason := s.2 |}])%list, count_status st.2 s.1).

(** The Deployments the caller can read. *)
Definition readable (eval : option Evaluator) (deployer : option DeployerInfo) (nsAnn : annotations)
    (items : list object) : list object :=
  List.filter (fun dep => dec_Allowed (checkAuthz eval deployer nsAnn (o_annotations dep) Read)) items.

Definition health_limit (limit : Z) : Z := if (limit <=? 0)%Z then wfHealthDefault else limit.

Definition managed_selector : string := ManagedByLabel +:+ "=" +:+ ManagedByValue.

Definition handleWfHealthNs (params : WfHealthNsParams) (deployer : option DeployerInfo) (eval : option Evaluator) :
    prog (res WfHealthNsResult) :=
  let ns := whn_Namespace params in
  try_ CheckManagedNamespace ns else Err ;;
  try_ checkNamespaceAuthz ns deployer eval Read else Err ;;
  let limit := health_limit (whn_Limit params) in
  try depList := call (KList "deployments" ns managed_selector)
    else (fun err => Err (Errorf "list deployments in namespace %q: %w" [AStr ns; AErr err])) ;;
  try nsAnn := fetchNamespaceAnnotations ns else Err ;;
  let visible := readable eval deployer nsAnn depList in
  let total := Z.of_nat (length visible) in
  let truncated := (limit <? total)%Z in
  let items := if truncated then take (Z.to_nat limit) visible else visible in
  out ← foldM (health_step ns) items ([], {| hs_Green := 0; hs_Amber := 0; hs_Red := 0 |});
  Ret (Ok {| hn_Namespace := ns; hn_Workflows := out.1; hn_Summary := out.2; hn_Total := total; hn_Truncated := truncated |}).

(** ** The tools *)

(** The guards both start with: the namespace may be left to the caller's only
    enclave. *)
Definition resolved_guard {A} (namespace : string) (deployer : option DeployerInfo) (eval : option Evaluator)
    (body : string -> prog (res A)) : prog (res A) :=
  match requireDeployer deployer eval with
  | Err err => Ret (Err err)
  | Ok _ =>
      try ns := resolveNamespace namespace deployer else Err ;;
      match CheckNamespace ns with
      | Some err => Ret (Err err)
      | None => body ns
      end
  end.

Definition wf_health (eval : option Evaluator) (deployer : option DeployerInfo) (params : WfHealthParams) :
    prog (res WfHealthResult) :=
  resolved_guard (wh_Namespace params) deployer eval (fun ns =>
    handleWfHealth {| wh_Namespace := ns; wh_Name := wh_Name params; wh_Detail := wh_Detail params |} deployer eval).

Definition wf_health_enclave (eval : option Evaluator) (deployer : option DeployerInfo) (params : WfHealthNsParams) :
    prog (res WfHealthNsResult) :=
  resolved_guard (whn_Namespace params) deployer eval (fun ns =>
    handleWfHealthNs {| whn_Namespace := ns; whn_Limit := whn_Limit params |} deployer eval).
End health.

(** ** Specification *)

Section spec.
Context `{U : Unicode}.

(** What a probe that got no usable answer reports. *)
Definition probe_failure (x : bool * error + Z * res string) : option string :=
  match x with
  | inl (_, err) => Some (ErrorText err)
  | inr (code, body) =>
      if ((200 <=? code) && (code <=? 299))%Z
      then match body with
           | Ok _ => None
           | Err err => Some ("read health response: " +:+ ErrorText err)
           end
      else Some ("health endpoint returned status " +:+ pretty code)
  end.
(** What an answer says, of which the first mebibyte is read; an answer that cannot
    be decoded says nothing. *)
Definition answer_says (body status reason : string) : Prop :=
  match Unmarshal decode_health (str_take (Z.to_nat 1048576) body) with
  | Some answer =>
      (hr_LastRunFailed answer = true -> status = "amber" /\ reason = "last execution failed") /\
      (hr_LastRunFailed answer = false -> (0 < hr_InFlight answer)%Z -> status = "amber" /\ reason = "execution in flight") /\
      (hr_LastRunFailed answer = false -> (hr_InFlight answer <= 0)%Z -> status = "green" /\ reason = "")
  | None => status = "green" /\ reason = ""
  end.
(** The status of a workflow: red without a ready replica, or when its health
    endpoint, asked without details, does not answer; else what the answer says. *)
Definition observed (ns : string) (dep : object) (status reason : string) (h : list event) : Prop :=
  let ready := default 0%Z (int_at dep ["status"; "readyReplicas"]) in
  let replicas := default 1%Z (int_at dep ["spec"; "replicas"]) in
  ((ready < 1)%Z -> status = "red" /\ reason = "0/" +:+ pretty replicas +:+ " replicas ready") /\
  ((1 <= ready)%Z ->
   exists x, Ev (HTTPDo "GET" ("http://" +:+ o_name dep +:+ "." +:+ ns +:+ ".svc.cluster.local:8080/health") "") x ∈ h /\
     match probe_failure x with
     | Some cause => status = "red" /\ reason = "health endpoint unreachable: " +:+ cause
     | None => exists code body, x = inr (code, Ok body) /\ answer_says body status reason
     end).

Definition entry_of (ns : string) (h : list event) (dep : object) (e : WfHealthNsEntry) : Prop :=
  he_Name e = o_name dep /\ observed ns dep (he_Status e) (he_Reason e) h.

Definition tally (status : string) (es : list WfHealthNsEntry) : Z :=
  Z.of_nat (length (List.filter (fun e => String.eqb (he_Status e) status) es)).

(** The summary counts the entries, and every entry is counted. *)
Definition summarizes (s : WfHealthNsSummary) (es : list WfHealthNsEntry) : Prop :=
  hs_Green s = tally "green" es /\ hs_Amber s = tally "amber" es /\ hs_Red s = tally "red" es /\
  (hs_Green s + hs_Amber s + hs_Red s = Z.of_nat (length es))%Z.

(** The enclave of the report was seen to be managed and to let the caller read, and
    its listing is cut down to what the caller may read. *)
Definition report_of (eval : option Evaluator) (deployer : option DeployerInfo) (limit : Z) (h : list event)
    (out : WfHealthNsResult) : Prop :=
  let ns := hn_Namespace out in
  seen_managed ns h /\ namespace_checked eval deployer ns Read h /\
  exists items nsAnn visible, Ev (KList "deployments" ns managed_selector) (Ok items) ∈ h /\ namespace_seen ns nsAnn h /\
    selects (fun dep => dec_Allowed (CheckTentacle eval deployer nsAnn (o_annotations dep) Read) = true) eq items visible /\
    Forall2 (entry_of ns h) (take (Z.to_nat limit) visible) (hn_Workflows out) /\
    summarizes (hn_Summary out) (hn_Workflows out) /\
    hn_Total out = Z.of_nat (length visible) /\ (hn_Truncated out = true <-> (limit < hn_Total out)%Z).
End spec.

(** ** Lemmas *)

Section lemmas.
Context `{U : Unicode}.

Lemma classify_status detail : (classifyFromDetail detail).1 = "green" \/ (classifyFromDetail detail).1 = "amber".
Proof.
  unfold classifyFromDetail. destruct (Unmarshal _ _) as [r|]; [|by left].
  destruct (hr_LastRunFailed r); [by right|]. destruct (0 <? hr_InFlight r)%Z; [by right|by left].
Qed.

Lemma observed_stable ns dep status reason : stable (observed ns dep status reason).
Proof. intros h e [Hno Hyes]. split; [done|]. intros Hr. destruct (Hyes Hr) as (x & Hx & H). exists x. split; [by right|done]. Qed.

Lemma limit_reader_take n s : limit_reader n s = str_take (Z.to_nat n) s.
Proof.
  revert n. induction s as [|c s IH]; intros n; [by destruct (Z.to_nat n)|]. cbn [limit_reader]. destruct (Z.ltb_spec 0 n) as [Hn|Hn].
  - rewrite IH. replace (Z.to_nat n) with (S (Z.to_nat (n - 1))) by lia. done.
  - by replace (Z.to_nat n) with 0%nat by lia.
Qed.

Lemma probe_result_failure x :
  match probe_result x with
  | Err err => probe_failure x = Some (ErrorText err)
  | Ok text => probe_failure x = None /\ exists code body, x = inr (code, Ok body) /\ text = str_take (Z.to_nat 1048576) body
  end.
Proof.
  unfold probe_result, probe_failure. destruct x as [[? err]|[code body]]; [done|].
  replace ((code <? 200) || (300 <=? code))%Z with (negb ((200 <=? code) && (code <=? 299))%Z) by lia.
  destruct (_ && _); cbn [negb].
  - destruct body as [body|err]; [|cbn; by rewrite str_app_nil_r]. split; [done|]. exists code, body. split; [done|apply limit_reader_take].
  - cbn. by rewrite str_app_nil_r.
Qed.

Lemma classify_says body : let c := classifyFromDetail (str_take (Z.to_nat 1048576) body) in answer_says body c.1 c.2.
Proof.
  cbv zeta. unfold answer_says, classifyFromDetail. destruct (Unmarshal _ _) as [r|]; [|done].
  destruct (hr_LastRunFailed r); [by split_and!|]. destruct (Z.ltb_spec 0 (hr_InFlight r)); (split; [done|]); split; intros _ ?; try done; lia.
Qed.

Lemma wfHealthURL_plain name ns : wfHealthURL name ns false = "http://" +:+ name +:+ "." +:+ ns +:+ ".svc.cluster.local:8080/health".
Proof.
  unfold wfHealthURL. rewrite str_app_nil_r. cbn [Sprintf]. rewrite ?str_app_nil_r. reflexivity.
Qed.

Lemma readable_selects eval d nsAnn items :
  selects (fun dep => dec_Allowed (CheckTentacle eval d nsAnn (o_annotations dep) Read) = true) eq items (readable eval d nsAnn items).
Proof.
  unfold readable, checkAuthz. induction items as [|dep items IH]; [constructor|]. cbn [List.filter].
  destruct (dec_Allowed _) eqn:Ha; [by constructor|]. constructor; [congruence|done].
Qed.

Lemma entries_stable ns deps es : stable (fun h => Forall2 (entry_of ns h) deps es).
Proof.
  intros h e H. eapply Forall2_impl; [exact H|]. intros dep en [Hn Ho]. split; [done|by apply observed_stable].
Qed.

Lemma tally_snoc status es e :
  tally status (es ++ [e])%list = (tally status es + if String.eqb (he_Status e) status then 1 else 0)%Z.
Proof. unfold tally. rewrite List.filter_app, length_app. simpl. destruct (String.eqb _ _); simpl; lia. Qed.

Lemma summarizes_snoc s es name status reason :
  status ∈ ["green"; "amber"; "red"] -> summarizes s es ->
  summarizes (count_status s status) (es ++ [{| he_Name := name; he_Status := status; he_Reason := reason |}])%list.
Proof.
  intros Hst (Hg & Ha & Hr & Hn). unfold summarizes. rewrite !tally_snoc, length_app. simpl.
  in_cases Hst; simpl; lia.
Qed.

Lemma workflow_status_holds ns dep h :
  holds (every (fun r => is_write r = false))
    (fun h' s => observed ns dep s.1 s.2 h' /\ s.1 ∈ ["green"; "amber"; "red"]) h (workflow_status ns dep).
Proof.
  unfold workflow_status, observed, podReady. cbv zeta. destruct (Z.leb_spec 1 (default 0%Z (int_at dep ["status"; "readyReplicas"]))) as [Hr|Hr]; cbn [negb].
  2: { split; [split; [done|lia]|]. by do 2 right; left. }
  unfold wfHealthProbe, probeURL. do 2 apply holds_bind. split; [done|]. intros x. cbn [holds]. rewrite wfHealthURL_plain.
  pose proof (probe_result_failure x) as Hx. destruct (probe_result x) as [body|err].
  - destruct Hx as [Hf (code & body' & -> & ->)]. split.
    + split; [lia|]. intros _. eexists. split; [by left|]. rewrite Hf. exists code, body'. split; [done|apply classify_says].
    + destruct (classify_status (str_take (Z.to_nat 1048576) body')) as [-> | ->]; [by left|by right; left].
  - split; [|by do 2 right; left]. split; [lia|]. intros _. exists x. split; [by left|]. rewrite Hx. split; [done|]. cbn. by rewrite str_app_nil_r.
Qed.

Lemma health_loop_holds ns items h :
  holds (every (fun r => is_write r = false))
    (fun h' out => Forall2 (entry_of ns h') items out.1 /\ summarizes out.2 out.1) h
    (foldM (health_step ns) items ([], {| hs_Green := 0; hs_Amber := 0; hs_Red := 0 |})).
Proof.
  apply (holds_foldM_pre _ (fun pre h' out => Forall2 (entry_of ns h') pre out.1 /\ summarizes out.2 out.1))
    with (done := []); [|done|by split; [constructor|]].
  intros pre dep post h' [es s] _ [Hes Hs]. unfold health_step. apply holds_bind.
  pose proof (workflow_status_holds ns dep h') as Hw.
  apply (holds_keep _ _ _ _ _ (entries_stable ns pre es) Hes) in Hw.
  eapply holds_mono; [done| |exact Hw]. intros h2 [status reason] [[Ho Hst] Hpre]. cbn [holds fst snd]. split.
  - apply Forall2_app; [done|]. constructor; [by split|constructor].
  - by apply summarizes_snoc.
Qed.

(** A namespace the caller names is the one that is used. *)
Definition names (namespace ns : string) : Prop := namespace = "" \/ ns = namespace.

Lemma resolve_reads namespace deployer h :
  holds (every (fun r => is_write r = false)) (fun _ r => match r with Ok ns => names namespace ns | Err _ => True end) h
    (resolveNamespace namespace deployer).
Proof.
  unfold resolveNamespace, ListManagedNamespaces, names. destruct (String.eqb_spec namespace "") as [Hns|Hns]; cbn [negb]; [|by right].
  destruct deployer as [d|]; [|done].
  destruct (String.eqb (d_Email d) ""); [done|]. simpl. split; [done|]. intros [items|e]; simpl; [|done].
  destruct (enclaves_of _ _) as [|? [|? ?]]; [done|by left|done].
Qed.

Lemma resolved_guard_holds {A} (Q : list event -> res A -> Prop) namespace deployer eval body h :
  (forall h err, Q h (Err err)) ->
  (forall h ns, names namespace ns -> holds (every (fun r => is_write r = false)) Q h (body ns)) ->
  holds (every (fun r => is_write r = false)) Q h (resolved_guard namespace deployer eval body).
Proof.
  intros HQ Hb. unfold resolved_guard. destruct (requireDeployer _ _); [|apply HQ]. hstep.
  eapply holds_mono; [done| |apply resolve_reads]. intros h' [ns|err] Hn; [|apply HQ].
  destruct (CheckNamespace ns); [apply HQ|by apply Hb].
Qed.

Lemma handleWfHealthNs_holds params deployer eval h :
  holds (every (fun r => is_write r = false))
    (fun h' r => match r with
                 | Ok out => hn_Namespace out = whn_Namespace params /\
                             report_of eval deployer (if (0 <? whn_Limit params)%Z then whn_Limit params else 10%Z) h' out
                 | Err _ => True
                 end)
    h (handleWfHealthNs params deployer eval).
Proof.
  assert ((if (0 <? whn_Limit params)%Z then whn_Limit params else 10%Z) = health_limit (whn_Limit params)) as ->
    by (unfold health_limit; by destruct (Z.ltb_spec 0 (whn_Limit params)), (Z.leb_spec (whn_Limit params) 0); try lia).
  unfold handleWfHealthNs. set (ns := whn_Namespace params). set (limit := health_limit _). hstep.
  eapply holds_mono; [done| |apply (CheckManaged_holds ns h (every (fun r => is_write r = false)) (fun _ _ H => H))].
  intros h1 [[]|err] [Hm _]; [|done]. hstep.
  pose proof (checkNamespaceAuthz_holds ns deployer eval Read h1) as Ha.
  apply (holds_keep _ _ _ _ _ (seen_managed_stable ns) Hm) in Ha.
  eapply holds_mono; [done| |exact Ha]. intros h2 [[]|err] [Hc2 Hm2]; [|done]. hstep. hstep; [done|].
  intros [items|err]; [|done]. cbn [holds]. hstep.
  pose proof (fetchNamespaceAnnotations_holds ns (Ev (KList "deployments" ns managed_selector) (Ok items) :: h2)) as Hf.
  apply (holds_keep _ _ (fun h => seen_managed ns h /\ namespace_checked eval deployer ns Read h /\ Ev (KList "deployments" ns managed_selector) (Ok items) ∈ h)) in Hf;
    [|intros h' e (? & ? & ?); split_and!; [by apply seen_managed_stable|by apply namespace_checked_stable|by right]
     |split_and!; [by apply seen_managed_stable|by apply namespace_checked_stable|by left]].
  eapply holds_mono; [done| |exact Hf]. intros h3 [nsAnn|err] [Hs (Hm3 & Hc3 & Hl)]; [|done]. cbv zeta.
  set (visible := readable eval deployer nsAnn items). apply holds_bind.
  pose proof (health_loop_holds ns (if (limit <? Z.of_nat (length visible))%Z then take (Z.to_nat limit) visible else visible) h3) as Hloop.
  apply (holds_keep _ _ (fun h => seen_managed ns h /\ namespace_checked eval deployer ns Read h /\ namespace_seen ns nsAnn h /\
           Ev (KList "deployments" ns managed_selector) (Ok items) ∈ h)) in Hloop;
    [|intros h' e (? & ? & ? & ?); split_and!; [by apply seen_managed_stable|by apply namespace_checked_stable|by apply namespace_seen_stable|by right]|done].
  eapply holds_mono; [done| |exact Hloop]. intros h4 [es s] [[Hes Hsum] (Hm4 & Hc4 & Hs4 & Hl4)]. split; [done|]. split; [done|]. split; [done|].
  exists items, nsAnn, visible. split; [done|]. split; [done|]. split; [apply readable_selects|]. split; [|split; [done|]].
  - destruct (Z.ltb_spec limit (Z.of_nat (length visible))); [done|]. rewrite take_ge by lia. done.
  - split; [done|]. apply Z.ltb_lt.
Qed.
End lemmas.

(** ** Properties *)

Section properties.
Context `{U : Unicode}.

(** C25: The health report of an enclave is exact and tells only readers: the tool
    changes nothing, and what it reports of a managed enclave that lets the caller
    read is the Deployments of the listing that the caller may read, up to the limit
    (ten unless a positive one is given) and in order, each with the status that was
    observed - red without a ready replica or when the endpoint does not answer with
    a success, amber when the answer tells of a failed last run or of runs in flight,
    else green - with counts that add up to the entries, the number of readable
    workflows and whether some are left out.  The endpoint is asked without details,
    so what it tells only with them is not in the report. *)
Theorem wf_health_enclave_spec eval deployer params h :
  holds (every (fun r => is_write r = false))
    (fun h' r => match r with
                 | Ok out => names (whn_Namespace params) (hn_Namespace out) /\
                             report_of eval deployer (if (0 <? whn_Limit params)%Z then whn_Limit params else 10%Z) h' out
                 | Err _ => True
                 end)
    h (wf_health_enclave eval deployer params).
Proof.
  apply resolved_guard_holds; [done|]. intros h1 ns Hn.
  eapply holds_mono; [done| |apply (handleWfHealthNs_holds {| whn_Namespace := ns; whn_Limit := whn_Limit params |})].
  intros h2 [out|err]; [|done]. cbn [whn_Namespace whn_Limit]. by intros [-> H].
Qed.

(** The report on one workflow: only for a caller who may read its Deployment,
    and its status is the one observed; the answer of the endpoint is passed on
    only if asked for. *)
Theorem wf_health_spec eval deployer params h :
  holds (every (fun r => is_write r = false))
    (fun h' r => match r with
                 | Ok out =>
                     let ns := whr_Namespace out in
                     exists dep nsAnn, Ev (KGet "deployments" ns (wh_Name params)) (Ok dep) ∈ h' /\ namespace_seen ns nsAnn h' /\
                       dec_Allowed (CheckTentacle eval deployer nsAnn (o_annotations dep) Read) = true /\
                       whr_PodReady out = podReady dep /\
                       (whr_Status out <> "red" -> podReady dep = true) /\
                       (wh_Detail params = false -> whr_Detail out = "")
                 | Err _ => True
                 end)
    h (wf_health eval deployer params).
Proof.
  apply resolved_guard_holds; [done|]. intros h1 ns _. unfold handleWfHealth. cbn [wh_Namespace wh_Name wh_Detail]. hstep.
  eapply holds_mono; [done| |apply (CheckManaged_holds ns h1 (every (fun r => is_write r = false)) (fun _ _ H => H))].
  intros h2 [[]|err] _; [|done]. hstep. hstep; [done|]. intros [dep|err]; [|done]. cbn [holds]. hstep.
  pose proof (fetchNamespaceAnnotations_holds ns (Ev (KGet "deployments" ns (wh_Name params)) (Ok dep) :: h2)) as Hf.
  apply (holds_keep _ _ (fun h => Ev (KGet "deployments" ns (wh_Name params)) (Ok dep) ∈ h)) in Hf; [|by intros ? ? ?; right|by left].
  eapply holds_mono; [done| |exact Hf]. intros h3 [nsAnn|err] [Hs Hin]; [|done]. cbv zeta. unfold checkAuthz.
  destruct (dec_Allowed _) eqn:Ha; cbn [negb]; [|done]. destruct (podReady dep) eqn:Hr; cbn [negb].
  2: { exists dep, nsAnn. by rewrite Hr. }
  unfold wfHealthProbe, probeURL. do 2 apply holds_bind. split; [done|]. intros x. cbn [holds].
  destruct (probe_result x) as [body|err].
  - destruct (classifyFromDetail body) as [status reason] eqn:Hc. exists dep, nsAnn. rewrite Hr. split_and!; try done; [by right|by apply namespace_seen_stable|].
    by destruct (wh_Detail params).
  - exists dep, nsAnn. rewrite Hr. split_and!; try done; [by right|by apply namespace_seen_stable].
Qed.
End properties.

(** ** Examples *)

(** An engine that reports a failed last run, where the details are asked for. *)
Definition failed_run (r : req) (c : cluster) : resp r * cluster :=
  match r return resp r * cluster with
  | HTTPDo _ url _ =>
      (inr (200%Z, Ok ("{" +:+ if HasSuffix url "?detail=1" then encode_string "lastRunFailed" +:+ ":true}" else "}")), c)
  | r => cluster_handler r c
  end.
Definition ready_deployment : object :=
  {| o_name := "theirs"; o_namespace := "team"; o_labels := {[ ManagedByLabel := ManagedByValue ]}; o_annotations := ∅;
     o_resourceVersion := "7"; o_created := 0; o_body := [("status", VMap [("readyReplicas", VInt 1)])] |}.
Definition ready_cluster : cluster :=
  with_objects team_cluster (<[("deployments", "team", "theirs") := ready_deployment]> (cl_objects team_cluster)).

(** The failure is amber only where the details were asked for; the report on the
    enclave never asks. *)
Example failure_seen_with_details_only :
  let one := fun detail => (whr_Status <$> match (run failed_run (wf_health (U := ascii_tables) None None
                {| wh_Namespace := "team"; wh_Name := "theirs"; wh_Detail := detail |}) ready_cluster).1 with
                             | Ok out => Some out | Err _ => None end) in
  one true = Some "amber" /\ one false = Some "green" /\
  (hn_Summary <$> match (run failed_run (wf_health_enclave (U := ascii_tables) None None
                {| whn_Namespace := "team"; whn_Limit := 0 |}) ready_cluster).1 with
                  | Ok out => Some out | Err _ => None end) = Some {| hs_Green := 1; hs_Amber := 0; hs_Red := 0 |}.
Proof. by vm_compute. Qed.
