(* ===== verification/Workflow.v ===== *)
(** * Workflow introspection and restart (pkg/tools/workflow.go)

    The tools that list what runs in an enclave - pods, logs, events, jobs - and
    the restart of a Deployment.  A time inside an object is kept as seconds since
    the epoch; the server is taken to run in UTC. *)

From S2P Require Import Prelude GoStrings GoTime Guard Mode Annotations Auth Evaluator.
From S2P Require Import Effects K8sOps AuthzHelpers Unstructured Psa PsaDefaults Deploy Scheduler WfApply Run WfHealth.
#[local] Open Scope string_scope.

(** ** Data *)

Record WfPodsParams := { pp_Namespace : string }.
Record WfPodInfo := {
  pi_Name : string;
  pi_Phase : string;
  pi_Age : string;
  pi_Images : list string;
  pi_Restarts : Z;
  pi_Ready : bool;
}.
Record WfLogsParams := { lp_Namespace : string; lp_Pod : string; lp_Container : string; lp_TailLines : Z }.
Record WfLogsResult := { lr_Pod : string; lr_Container : string; lr_Lines : list string }.
Record WfEventsParams := { ep_Namespace : string; ep_Limit : Z }.
Record WfEventInfo := {
  ei_Type : string;
  ei_Reason : string;
  ei_Message : string;
  ei_Object : string;
  ei_LastSeen : string;
  ei_Count : Z;
}.
Record WfJobsParams := { jp_Namespace : string }.
Record WfJobInfo := {
  ji_Name : string;
  ji_Status : string;
  ji_Start : string;
  ji_Completion : string;
  ji_Duration : string;
}.
Record WfCronJobInfo := {
  ci_Name : string;
  ci_Schedule : string;
  ci_LastScheduled : string;
  ci_Active : Z;
  ci_Suspended : bool;
}.
Record WfJobsResult := { jr_Jobs : list WfJobInfo; jr_CronJobs : list WfCronJobInfo }.
Record WfRestartParams := { rp_Namespace : string; rp_Deployment : string }.
Record WfRestartResult := { rs_Namespace : string; rs_Deployment : string; rs_Restarted : bool }.

(** ** Fields of typed objects *)

Definition vint (v : value) (path : list string) : Z :=
  match at_path v path with
  | Some (VInt z) => z
  | _ => 0%Z
  end.
Definition vstring (v : value) (path : list string) : string :=
  match at_path v path with
  | Some (VStr s) => s
  | _ => ""
  end.
(** An [int32] sum. *)
Definition add32 (a b : Z) : Z := ((a + b + 2 ^ 31) mod 2 ^ 32 - 2 ^ 31)%Z.

(** ** Pods *)

Definition restarts (pod : object) : Z :=
  foldl (fun n cs => add32 n (vint cs ["restartCount"])) 0%Z (list_at (o_body pod) ["status"; "containerStatuses"]).
Definition pod_age (nowMilli : Z) (pod : object) : string := FormatSeconds (round_seconds (nowMilli - 1000 * o_created pod)).
Definition list_pod (nowMilli : Z) (pod : object) : WfPodInfo :=
  {| pi_Name := o_name pod; pi_Phase := string_at (o_body pod) ["status"; "phase"]; pi_Age := pod_age nowMilli pod;
     pi_Images := (fun c => vstring c ["image"]) <$> list_at (o_body pod) ["spec"; "containers"];
     pi_Restarts := restarts pod; pi_Ready := pod_ready pod |}.

(** The clock is read for every pod. *)
Definition handleWfPods (params : WfPodsParams) : prog (res (list WfPodInfo)) :=
  try podList := call (KList "pods" (pp_Namespace params) "")
    else (fun err => Err (Errorf "list pods in namespace %q: %w" [AStr (pp_Namespace params); AErr err])) ;;
  pods ← foldM (fun acc pod => now ← call NowMilli; Ret (acc ++ [list_pod now pod])%list) podList [];
  Ret (Ok pods).

(** ** Logs *)

Definition maxTailLines : Z := 10000.
Definition tail_lines (n : Z) : Z :=
  if (n <=? 0)%Z then 100 else if (maxTailLines <? n)%Z then maxTailLines else n.
Definition maxLogBytes : Z := Z.shiftl 1 20.

Definition log_lines (data : string) : list string :=
  match Split (TrimRightByte (ascii_of_nat 10) data) (ascii_of_nat 10) with
  | [line] => if String.eqb line "" then [] else [line]
  | lines => lines
  end.

Definition first_container (pod : object) : option string :=
  (fun c => vstring c ["name"]) <$> head (list_at (o_body pod) ["spec"; "containers"]).

Definition handleWfLogs (params : WfLogsParams) : prog (res WfLogsResult) :=
  let ns := lp_Namespace params in
  let pod := lp_Pod params in
  try stream := call (PodLogs ns pod (lp_Container params) (tail_lines (lp_TailLines params)))
    else (fun err => Err (Errorf "get logs for pod %q in namespace %q: %w" [AStr pod; AStr ns; AErr err])) ;;
  match stream with
  | Err err => Ret (Err (Errorf "read logs for pod %q: %w" [AStr pod; AErr err]))
  | Ok data =>
      let lines := log_lines (limit_reader maxLogBytes data) in
      container ← (if String.eqb (lp_Container params) "" then
                     r ← call (KGet "pods" ns pod);
                     Ret match r with
                         | Ok p => default "" (first_container p)
                         | Err _ => ""
                         end
                   else Ret (lp_Container params));
      Ret (Ok {| lr_Pod := pod; lr_Container := container; lr_Lines := lines |})
  end.

(** ** Events *)

(** A time stamp, empty if there is none. *)
Definition stamp_at (o : object) (path : list string) : string :=
  match int_at o path with
  | Some t => FormatRFC3339 t
  | None => ""
  end.
Definition list_event (e : object) : WfEventInfo :=
  {| ei_Type := string_at (o_body e) ["type"]; ei_Reason := string_at (o_body e) ["reason"];
     ei_Message := string_at (o_body e) ["message"];
     ei_Object := string_at (o_body e) ["involvedObject"; "kind"] +:+ "/" +:+ string_at (o_body e) ["involvedObject"; "name"];
     ei_LastSeen := stamp_at e ["lastTimestamp"]; ei_Count := default 0%Z (int_at e ["count"]) |}.

(** Newest first; entries with the same stamp keep their order here, the code's
    sort does not promise one. *)
Definition newer_first (a b : WfEventInfo) : bool := str_leb (ei_LastSeen b) (ei_LastSeen a).
Definition event_limit (limit : Z) : Z := if (limit <=? 0)%Z then 100 else limit.

Definition handleWfEvents (params : WfEventsParams) : prog (res (list WfEventInfo)) :=
  try eventList := call (KListLimit "events" (ep_Namespace params) (event_limit (ep_Limit params)))
    else (fun err => Err (Errorf "list events in namespace %q: %w" [AStr (ep_Namespace params); AErr err])) ;;
  Ret (Ok (isort newer_first (list_event <$> eventList))).

(** ** Jobs *)

Fixpoint finished_as (conditions : list value) : option string :=
  match conditions with
  | [] => None
  | c :: rest =>
      if key_is "type" "Complete" c && key_is "status" "True" c then Some "Complete"
      else if key_is "type" "Failed" c && key_is "status" "True" c then Some "Failed"
      else finished_as rest
  end.
Definition jobStatus (job : object) : string :=
  match finished_as (list_at (o_body job) ["status"; "conditions"]) with
  | Some s => s
  | None => if (0 <? default 0%Z (int_at job ["status"; "active"]))%Z then "Running" else "Pending"
  end.
Definition job_duration (job : object) : string :=
  match int_at job ["status"; "completionTime"], int_at job ["status"; "startTime"] with
  | Some e, Some s => FormatSeconds (e - s)
  | _, _ => ""
  end.
Definition list_job (job : object) : WfJobInfo :=
  {| ji_Name := o_name job; ji_Status := jobStatus job; ji_Start := stamp_at job ["status"; "startTime"];
     ji_Completion := stamp_at job ["status"; "completionTime"]; ji_Duration := job_duration job |}.
Definition list_cronjob (cj : object) : WfCronJobInfo :=
  {| ci_Name := o_name cj; ci_Schedule := string_at (o_body cj) ["spec"; "schedule"];
     ci_LastScheduled := stamp_at cj ["status"; "lastScheduleTime"];
     ci_Active := Z.of_nat (length (list_at (o_body cj) ["status"; "active"]));
     ci_Suspended := match at_path (VMap (o_body cj)) ["spec"; "suspend"] with
                     | Some (VBool b) => b
                     | _ => false
                     end |}.

Definition handleWfJobs (params : WfJobsParams) : prog (res WfJobsResult) :=
  let ns := jp_Namespace params in
  try jobList := call (KList "jobs" ns "")
    else (fun err => Err (Errorf "list jobs in namespace %q: %w" [AStr ns; AErr err])) ;;
  try cronJobList := call (KList "cronjobs" ns "")
    else (fun err => Err (Errorf "list cronjobs in namespace %q: %w" [AStr ns; AErr err])) ;;
  Ret (Ok {| jr_Jobs := list_job <$> jobList; jr_CronJobs := list_cronjob <$> cronJobList |}).

(** ** Restart *)

Definition restart_patch (now : Z) : value :=
  VMap [("spec", VMap [("template", VMap [("metadata", VMap [("annotations",
    VMap [("tentacular.io/restartedAt", VStr (FormatRFC3339 now))])])])])].

Definition handleWfRestart (params : WfRestartParams) : prog (res WfRestartResult) :=
  let ns := rp_Namespace params in
  let name := rp_Deployment params in
  try_ CheckManagedNamespace ns else Err ;;
  try_ call (KGet "deployments" ns name)
    else (fun err => Err (Errorf "get deployment %q in namespace %q: %w" [AStr name; AStr ns; AErr err])) ;;
  now ← call Now;
  try_ call (KPatch "deployments" ns name (restart_patch now))
    else (fun err => Err (Errorf "patch deployment %q for rollout restart: %w" [AStr name; AErr err])) ;;
  Ret (Ok {| rs_Namespace := ns; rs_Deployment := name; rs_Restarted := true |}).

(** ** The tools *)

Section tools.
Context `{U : Unicode}.

(** The guards the four listing tools share. *)
Definition enclave_reader {A} (namespace : string) (eval : option Evaluator) (deployer : option DeployerInfo)
    (body : string -> prog (res A)) : prog (res A) :=
  resolved_guard namespace deployer eval (fun ns =>
    try_ checkNamespaceAuthz ns deployer eval Read else Err ;;
    body ns).

Definition wf_pods eval deployer (params : WfPodsParams) : prog (res (list WfPodInfo)) :=
  enclave_reader (pp_Namespace params) eval deployer (fun ns => handleWfPods {| pp_Namespace := ns |}).

Definition wf_logs eval deployer (params : WfLogsParams) : prog (res WfLogsResult) :=
  match CheckName (lp_Pod params) with
  | Some err => Ret (Err err)
  | None =>
      enclave_reader (lp_Namespace params) eval deployer (fun ns =>
        handleWfLogs {| lp_Namespace := ns; lp_Pod := lp_Pod params; lp_Container := lp_Container params;
                        lp_TailLines := lp_TailLines params |})
  end.

Definition wf_events eval deployer (params : WfEventsParams) : prog (res (list WfEventInfo)) :=
  enclave_reader (ep_Namespace params) eval deployer (fun ns =>
    handleWfEvents {| ep_Namespace := ns; ep_Limit := ep_Limit params |}).

Definition wf_jobs eval deployer (params : WfJobsParams) : prog (res WfJobsResult) :=
  enclave_reader (jp_Namespace params) eval deployer (fun ns => handleWfJobs {| jp_Namespace := ns |}).

Definition restart_authz : option Evaluator -> option DeployerInfo -> string -> string -> prog (res ()) :=
  execute_authz "enclave %q is frozen: new deployments and updates are blocked".

Definition wf_restart (eval : option Evaluator) (deployer : option DeployerInfo) (params : WfRestartParams) :
    prog (res WfRestartResult) :=
  match CheckName (rp_Deployment params) with
  | Some err => Ret (Err err)
  | None =>
      resolved_guard (rp_Namespace params) deployer eval (fun ns =>
        try_ restart_authz eval deployer ns (rp_Deployment params) else Err ;;
        handleWfRestart {| rp_Namespace := ns; rp_Deployment := rp_Deployment params |})
  end.
End tools.

(** ** Specification *)

Section spec.
Context `{U : Unicode}.

(** The check the readers make. *)
Definition may_read (eval : option Evaluator) (deployer : option DeployerInfo) (ns : string) : list event -> Prop :=
  namespace_checked eval deployer ns Read.

(** Every request in the namespace comes after the check on it. *)
Definition cluster_scoped (kind : string) : bool := str_in kind ["namespaces"; "clusterrolebindings"].
Definition in_namespace (r : req) : option string :=
  match r with
  | KGet k ns _ => if cluster_scoped k then None else Some ns
  | KList k ns _ => if cluster_scoped k then None else Some ns
  | KListLimit _ ns _ | KListFields _ ns _ | PodLogs ns _ _ _ => Some ns
  | _ => None
  end.
Definition reader_gate (eval : option Evaluator) (deployer : option DeployerInfo) (h : list event) (r : req) : Prop :=
  is_write r = false /\ forall ns, in_namespace r = Some ns -> may_read eval deployer ns h.

(** One event is listed before another: it was seen no earlier. *)
Definition listed_before (a b : object) : Prop :=
  match int_at a ["lastTimestamp"], int_at b ["lastTimestamp"] with
  | Some s, Some t => (t <= s)%Z
  | None, Some _ => False
  | _, None => True
  end.
Definition dated (o : object) : Prop :=
  match int_at o ["lastTimestamp"] with
  | Some t => (0 <= t < 253402300800)%Z
  | None => True
  end.
End spec.

(** ** Lemmas *)

Section lemmas.
Context `{U : Unicode}.

Lemma may_read_stable eval d ns : stable (may_read eval d ns).
Proof. apply namespace_checked_stable. Qed.

Lemma checkNamespaceAuthz_read ns d eval h :
  holds (reader_gate eval d) (fun h' r => match r with Ok _ => may_read eval d ns h' | Err _ => True end)
    h (checkNamespaceAuthz ns d eval Read).
Proof.
  unfold checkNamespaceAuthz. destruct eval as [ev|]; [|by left].
  apply holds_call_bind; [done|]. intros [o|err].
  - destruct (dec_Allowed (CheckEnclave (Some ev) d (o_annotations o) Read)) eqn:Ha; [|done].
    right; left. exists o. split; [by left|done].
  - destruct (reason_is NotFound err) eqn:Hr; [|done]. do 2 right. by apply missing_now.
Qed.

Lemma resolve_gate namespace eval d h : holds (reader_gate eval d) whatever h (resolveNamespace namespace d).
Proof.
  unfold resolveNamespace, ListManagedNamespaces. destruct (negb _); [done|]. destruct d as [d|]; [|done].
  destruct (String.eqb (d_Email d) ""); [done|]. simpl. split; [done|]. intros [items|e]; simpl; [|done].
  by destruct (enclaves_of _ _) as [|? [|? ?]].
Qed.

(** A body that reads in its namespace only, behind the shared guards. *)
Lemma enclave_reader_holds {A} (Q : list event -> res A -> Prop) namespace eval d (body : string -> prog (res A)) h :
  (forall h err, Q h (Err err)) ->
  (forall h ns, holds (every (fun r => is_write r = false /\ (in_namespace r = None \/ in_namespace r = Some ns))) Q h (body ns)) ->
  holds (reader_gate eval d) Q h (enclave_reader namespace eval d body).
Proof.
  intros HQ Hb. unfold enclave_reader, resolved_guard. destruct (requireDeployer _ _); [|apply HQ]. hstep.
  eapply holds_mono; [done| |apply resolve_gate]. intros h1 [ns|err] _; [|apply HQ].
  destruct (CheckNamespace ns); [apply HQ|]. hstep. eapply holds_mono; [done| |apply checkNamespaceAuthz_read].
  intros h2 [[]|err] Hr; [|apply HQ].
  eapply holds_mono; [| |eapply (holds_with (may_read eval d ns)); [apply may_read_stable|exact Hr|apply Hb]].
  - intros h3 r [Hm [Hw Hin]]. split; [done|]. intros ns' Heq. destruct Hin as [Hn|Hn]; congruence.
  - by intros h3 r [_ H].
Qed.

Lemma handleWfPods_reads params h :
  holds (every (fun r => is_write r = false /\ (in_namespace r = None \/ in_namespace r = Some (pp_Namespace params))))
    whatever h (handleWfPods params).
Proof.
  unfold handleWfPods. hstep. hstep; [split; [done|by right]|]. intros [pods|err]; [|done]. cbn [holds]. apply holds_bind.
  apply (holds_foldM _ whatever); [|done|done]. intros h' acc pod _ _. apply holds_call_bind; [split; [done|by left]|done].
Qed.

Lemma handleWfLogs_reads params h :
  holds (every (fun r => is_write r = false /\ (in_namespace r = None \/ in_namespace r = Some (lp_Namespace params))))
    whatever h (handleWfLogs params).
Proof.
  unfold handleWfLogs. cbv zeta. hstep. hstep; [split; [done|by right]|]. intros [[data|err]|err]; [|done..]. cbn [holds].
  apply holds_bind. destruct (String.eqb (lp_Container params) ""); [|done].
  apply holds_call_bind; [split; [done|by right]|done].
Qed.

Lemma handleWfJobs_reads params h :
  holds (every (fun r => is_write r = false /\ (in_namespace r = None \/ in_namespace r = Some (jp_Namespace params))))
    whatever h (handleWfJobs params).
Proof.
  unfold handleWfJobs. cbv zeta. hstep. hstep; [split; [done|by right]|]. intros [jobs|err]; [|done]. cbn [holds].
  hstep. hstep; [split; [done|by right]|]. by intros [cron|err].
Qed.

(** *** Order of events *)

Lemma FormatRFC3339_some t : str_leb (FormatRFC3339 t) "" = false.
Proof. unfold FormatRFC3339. by destruct (civil _) as [[y m] d]. Qed.

Lemma newer_first_spec a b :
  dated a -> dated b -> newer_first (list_event a) (list_event b) = true <-> listed_before a b.
Proof.
  unfold newer_first, list_event, listed_before, dated, stamp_at. cbn [ei_LastSeen].
  destruct (int_at a _) as [s|], (int_at b _) as [t|]; intros Ha Hb; [by apply FormatRFC3339_order| |..].
  - done.
  - by rewrite FormatRFC3339_some.
  - done.
Qed.
End lemmas.

(** ** Properties *)

Section properties.
Context `{U : Unicode}.

(** The listing tools read, and only where the caller may: whatever the cluster
    answers, [wf_pods], [wf_logs], [wf_events] and [wf_jobs] change nothing, and
    every request they make inside a namespace - pods, logs, events, jobs - comes
    after that namespace was seen to admit the caller. *)
Theorem listing_tools_guarded eval deployer pods logs events jobs h :
  holds (reader_gate eval deployer) whatever h (wf_pods eval deployer pods) /\
  holds (reader_gate eval deployer) whatever h (wf_logs eval deployer logs) /\
  holds (reader_gate eval deployer) whatever h (wf_events eval deployer events) /\
  holds (reader_gate eval deployer) whatever h (wf_jobs eval deployer jobs).
Proof.
  split_and!.
  - unfold wf_pods. apply enclave_reader_holds; [done|]. intros h1 ns. exact (handleWfPods_reads {| pp_Namespace := ns |} h1).
  - unfold wf_logs. destruct (CheckName (lp_Pod logs)); [done|]. apply enclave_reader_holds; [done|]. intros h1 ns.
    exact (handleWfLogs_reads {| lp_Namespace := ns; lp_Pod := lp_Pod logs; lp_Container := lp_Container logs;
                                 lp_TailLines := lp_TailLines logs |} h1).
  - unfold wf_events. apply enclave_reader_holds; [done|]. intros h1 ns. unfold handleWfEvents. hstep. hstep; [split; [done|by right]|].
    by intros [items|err].
  - unfold wf_jobs. apply enclave_reader_holds; [done|]. intros h1 ns. exact (handleWfJobs_reads {| jp_Namespace := ns |} h1).
Qed.

(** Events are listed newest first: the result is the listing the cluster gave,
    each event rendered, in an order in which no event is followed by one that was
    seen later.  The code compares the formatted times, which is the same up to the
    year 9999. *)
Theorem handleWfEvents_sorted params h :
  holds any_request
    (fun h' r => match r with
                 | Ok events => exists items sorted,
                     Ev (KListLimit "events" (ep_Namespace params) (event_limit (ep_Limit params))) (Ok items) ∈ h' /\
                     sorted ≡ₚ items /\ events = list_event <$> sorted /\
                     (Forall dated items -> StronglySorted listed_before sorted)
                 | Err _ => True
                 end)
    h (handleWfEvents params).
Proof.
  unfold handleWfEvents. hstep. hstep; [done|]. intros [items|err]; [|done]. cbn [holds].
  set (le := fun a b => newer_first (list_event a) (list_event b)).
  exists items, (isort le items). split; [by left|]. split; [apply isort_perm|].
  split; [exact (isort_fmap list_event newer_first items)|]. intros Hd.
  assert (StronglySorted (fun a b => le a b = true) (isort le items)) as Hs.
  { apply isort_strongly.
    - intros a b. unfold le, newer_first. apply str_leb_total.
    - intros a b c Hab Hbc. unfold le, newer_first in *. by eapply str_leb_trans. }
  assert (Forall dated (isort le items)) as Hd2 by by rewrite isort_perm.
  clear -Hs Hd2. induction Hs as [|x l Hl IH Hx]; [constructor|]. inversion_clear Hd2 as [|? ? Hdx Hdl].
  constructor; [by apply IH|]. rewrite Forall_forall in Hx, Hdl |- *. intros y Hy.
  exact (proj1 (newer_first_spec x y Hdx (Hdl y Hy)) (Hx y Hy)).
Qed.

(** The patch of a restart: one annotation of the pods, the time. *)
Definition restart_at (now : Z) : value :=
  VMap [("spec", VMap [("template", VMap [("metadata", VMap [("annotations", VMap [("tentacular.io/restartedAt", VStr (FormatRFC3339 now))])])])])].

(** C32: A restart is guarded and minimal: [wf_restart] changes at most one thing, by
    one patch of the named Deployment that sets the restart annotation of its pods
    to the time the clock was just read at; before it the namespace was seen to be
    managed, the Deployment was found to exist, and a first get of it either
    returned one that the caller may execute, in an enclave that is not frozen, or
    was answered with not-found, in which case no permission is asked.  Success is
    reported only when the patch was accepted. *)
Theorem wf_restart_confined eval deployer params :
  let name := rp_Deployment params in
  holds (fun h r => is_write r = true ->
           unwritten h /\
           exists ns now, names (rp_Namespace params) ns /\ head h = Some (Ev Now now) /\ r = KPatch "deployments" ns name (restart_at now) /\
             (may_execute eval deployer ns name h \/ missing "deployments" ns name h) /\ seen_managed ns h /\
             happened (fun e => exists o, e = Ev (KGet "deployments" ns name) (Ok o)) h)
    (fun h r => match r with
                | Ok out => exists now o, rs_Restarted out = true /\ names (rp_Namespace params) (rs_Namespace out) /\
                    head h = Some (Ev (KPatch "deployments" (rs_Namespace out) name (restart_at now)) (Ok o))
                | Err _ => True
                end)
    [] (wf_restart eval deployer params).
Proof.
  intros name. unfold wf_restart. fold name. destruct (CheckName name); [done|].
  match goal with |- holds ?R ?Q _ _ => assert (forall {A} (p : prog A) Q' h, unwritten h -> holds (every (fun r => is_write r = false)) Q' h p ->
    holds R (fun h' a => unwritten h' /\ Q' h' a) h p) as Hread end.
  { intros A p Q h0 Hh Hp. eapply holds_mono; [|by intros ? ? H; exact H|by apply holds_unwritten, Hp].
    intros h' r Hr Hw. unfold every in Hr. congruence. }
  unfold resolved_guard. destruct (requireDeployer _ _); [|done]. hstep.
  eapply holds_mono; [by intros ? ? H; exact H| |apply Hread; [constructor|apply resolve_reads]]. intros h1 [ns|err] [Hu1 Hn]; [|done].
  destruct (CheckNamespace ns); [done|]. hstep.
  eapply holds_mono; [by intros ? ? H; exact H| |by apply Hread, execute_authz_holds]. intros h2 [[]|err] [Hu2 Hrun]; [|done].
  unfold handleWfRestart. cbn [rp_Namespace rp_Deployment]. fold name. hstep.
  pose proof (CheckManaged_holds ns h2 (every (fun r => is_write r = false)) (fun _ _ H => H)) as Hm.
  apply (holds_keep _ _ _ _ _ (may_run_stable eval deployer ns name) Hrun) in Hm.
  eapply holds_mono; [by intros ? ? H; exact H| |by apply Hread, Hm]. intros h3 [[]|err] (Hu3 & [Hman _] & Hrun3); [|done].
  hstep. hstep; [done|]. intros [o|err]; [|done]. cbn [holds]. hstep; [done|]. intros now. hstep. hstep.
  - intros _. split; [by repeat constructor|]. exists ns, now. split_and!; [done|done|done| | |].
    + by do 2 apply may_run_stable.
    + by do 2 apply seen_managed_stable.
    + eexists. split; [by right; left|]. by exists o.
  - intros [x|err]; [|done]. cbn [holds rs_Namespace rs_Restarted]. by exists now, x.
Qed.
End properties.

(** ** Examples *)

Example log_lines_examples :
  log_lines ("a" +:+ nl +:+ nl +:+ "b" +:+ nl +:+ nl) = ["a"; ""; "b"] /\ log_lines nl = [] /\ tail_lines 20000 = 10000%Z.
Proof. by vm_compute. Qed.

(** A restart of the workflow in a cluster: the pods are restarted, the labels and
    the rest of the object stay. *)
Example wf_restart_runs :
  let '(out, c) := exec (wf_restart (U := ascii_tables) None None {| rp_Namespace := "team"; rp_Deployment := "theirs" |}) ready_cluster in
  out = Ok {| rs_Namespace := "team"; rs_Deployment := "theirs"; rs_Restarted := true |} /\
  (fun o => (at_path (VMap (o_body o)) ["status"; "readyReplicas"],
             at_path (VMap (o_body o)) ["spec"; "template"; "metadata"; "annotations"; "tentacular.io/restartedAt"]))
    <$> cl_objects c !! ("deployments", "team", "theirs") = Some (Some (VInt 1), Some (VStr "1970-01-01T00:00:00Z")).
Proof. by vm_compute. Qed.
