(* ===== verification/Discover.v ===== *)
(** * Listing and describing workflows (pkg/tools/discover.go)

    [wf_list] lists the workflows the caller may read, in one enclave or in all;
    [wf_describe] gathers what is known of one: its annotations, the workflow file
    of its code ConfigMap, and the metadata ConfigMap of newer builds. *)

From S2P Require Import Prelude GoStrings GoTime Guard Mode Annotations Auth Evaluator.
From S2P Require Import Effects K8sOps AuthzHelpers Unstructured Json Deploy Scheduler WfApply Run WfHealth Workflow.
#[local] Open Scope string_scope.

(** ** Data *)

Record minimalTrigger := { mt_Type : string; mt_Schedule : string }.
Record minimalWorkflow := { mw_Nodes : list string; mw_Name : string; mw_Version : string; mw_Triggers : list minimalTrigger }.
Record SidecarMeta := { sm_Name : string; sm_Image : string; sm_Port : Z }.
Record DependencyMeta := { dm_Name : string; dm_Protocol : string; dm_Managed : bool }.
Record PromptTool := { pt_Name : string; pt_Description : string }.
Record PromptEntry := {
  pe_Node : string;
  pe_Name : string;
  pe_Description : string;
  pe_Model : string;
  pe_SystemPrompt : string;
  pe_UserPromptTemplate : string;
  pe_Tools : list PromptTool;
}.
Record TemplateEntry := {
  te_Node : string;
  te_Name : string;
  te_Description : string;
  te_Format : string;
  te_Template : string;
}.
Record GitProvenance := { gp_Commit : string; gp_Branch : string; gp_Repo : string; gp_Dirty : bool }.
Record WfListParams := { wl_Namespace : string; wl_Owner : string; wl_Tag : string }.
Record WfListEntry := {
  le_Name : string;
  le_Namespace : string;
  le_Version : string;
  le_Description : string;
  le_Owner : string;
  le_Group : string;
  le_Mode : string;
  le_Environment : string;
  le_DeployedBy : string;
  le_DeployedVia : string;
  le_Age : string;
  le_Ready : bool;
}.
Record WfDescribeParams := { wd_Namespace : string; wd_Name : string }.
Record WfDescribeResult := {
  wdr_Annotations : gmap string string;
  wdr_GitProvenance : option GitProvenance;
  wdr_DeployedBy : string;
  wdr_Image : string;
  wdr_OwnerName : string;
  wdr_Group : string;
  wdr_Mode : string;
  wdr_Preset : string;
  wdr_Namespace : string;
  wdr_Environment : string;
  wdr_TriggerType : string;
  wdr_Name : string;
  wdr_Version : string;
  wdr_Owner : string;
  wdr_DeployedAt : string;
  wdr_EnclaveOwner : string;
  wdr_Age : string;
  wdr_DeployedVia : string;
  wdr_ParamsSchema : string;
  wdr_ContractSummary : string;
  wdr_Readme : string;
  wdr_MetadataRef : string;
  wdr_ScaffoldName : string;
  wdr_Nodes : list string;
  wdr_NodeDescriptions : list NodeMeta;
  wdr_Sidecars : list SidecarMeta;
  wdr_Dependencies : list DependencyMeta;
  wdr_Prompts : list PromptEntry;
  wdr_Templates : list TemplateEntry;
  wdr_Edges : list (string * string);
  wdr_EnclaveMembers : list string;
  wdr_Tags : list string;
  wdr_Triggers : list string;
  wdr_Replicas : Z;
  wdr_ReadyReplicas : Z;
  wdr_Ready : bool;
}.

(** The YAML documents [wf_describe] decodes into typed values; the node names of
    a workflow come in the order of a Go map. *)
Class DescribeYaml := {
  yaml_minimalWorkflow : string -> option minimalWorkflow;
  yaml_prompts : string -> option (list PromptEntry * list TemplateEntry);
}.

(** ** Decoding of annotations *)

Definition sidecar_fields : list (string * (SidecarMeta -> value -> option SidecarMeta)) :=
  [("name", fun x v => s ← decode_string (sm_Name x) v; Some {| sm_Name := s; sm_Image := sm_Image x; sm_Port := sm_Port x |});
   ("image", fun x v => s ← decode_string (sm_Image x) v; Some {| sm_Name := sm_Name x; sm_Image := s; sm_Port := sm_Port x |});
   ("port", fun x v => n ← decode_int (sm_Port x) v; Some {| sm_Name := sm_Name x; sm_Image := sm_Image x; sm_Port := n |})].
Definition decode_sidecars : value -> option (list SidecarMeta) :=
  let zero := {| sm_Name := ""; sm_Image := ""; sm_Port := 0 |} in decode_list zero (decode_struct sidecar_fields).

Definition dependency_fields : list (string * (DependencyMeta -> value -> option DependencyMeta)) :=
  [("name", fun x v => s ← decode_string (dm_Name x) v; Some {| dm_Name := s; dm_Protocol := dm_Protocol x; dm_Managed := dm_Managed x |});
   ("protocol", fun x v => s ← decode_string (dm_Protocol x) v; Some {| dm_Name := dm_Name x; dm_Protocol := s; dm_Managed := dm_Managed x |});
   ("managed", fun x v => b ← decode_bool (dm_Managed x) v; Some {| dm_Name := dm_Name x; dm_Protocol := dm_Protocol x; dm_Managed := b |})].
Definition decode_dependencies : value -> option (list DependencyMeta) :=
  let zero := {| dm_Name := ""; dm_Protocol := ""; dm_Managed := false |} in decode_list zero (decode_struct dependency_fields).

Definition provenance_fields : list (string * (GitProvenance -> value -> option GitProvenance)) :=
  [("commit", fun x v => s ← decode_string (gp_Commit x) v;
      Some {| gp_Commit := s; gp_Branch := gp_Branch x; gp_Repo := gp_Repo x; gp_Dirty := gp_Dirty x |});
   ("branch", fun x v => s ← decode_string (gp_Branch x) v;
      Some {| gp_Commit := gp_Commit x; gp_Branch := s; gp_Repo := gp_Repo x; gp_Dirty := gp_Dirty x |});
   ("repo", fun x v => s ← decode_string (gp_Repo x) v;
      Some {| gp_Commit := gp_Commit x; gp_Branch := gp_Branch x; gp_Repo := s; gp_Dirty := gp_Dirty x |});
   ("dirty", fun x v => b ← decode_bool (gp_Dirty x) v;
      Some {| gp_Commit := gp_Commit x; gp_Branch := gp_Branch x; gp_Repo := gp_Repo x; gp_Dirty := b |})].
Definition decode_provenance : value -> option GitProvenance :=
  decode_struct provenance_fields {| gp_Commit := ""; gp_Branch := ""; gp_Repo := ""; gp_Dirty := false |}.

(** A two-element array: missing elements are empty, further ones are dropped. *)
Definition decode_edge (old : string * string) (v : value) : option (string * string) :=
  match v with
  | VNull => Some old
  | VList [] => Some ("", "")
  | VList [a] => x ← decode_string old.1 a; Some (x, "")
  | VList (a :: b :: _) => x ← decode_string old.1 a; y ← decode_string old.2 b; Some (x, y)
  | _ => None
  end.
Definition decode_edges : value -> option (list (string * string)) := decode_list ("", "") decode_edge.

(** A JSON annotation, decoded where it can be. *)
Definition annotation_json {A} (decode : value -> option (list A)) (ann : gmap string string) (key : string) : list A :=
  let raw := ann_get ann key in
  if String.eqb raw "" then [] else default [] (Unmarshal decode raw).

(** ** Listing *)

Definition isSystemNamespace (ns : string) (annotations : gmap string string) : bool :=
  IsSystemNamespace ns || String.eqb (ann_get annotations "tentacular.io/system") "true".

Section discover.
Context `{U : Unicode} `{Y : DescribeYaml}.

Definition deploymentToListEntry (nowMilli : Z) (dep : object) : WfListEntry :=
  let ann := o_annotations dep in
  let ownerInfo := ReadOwnerInfo ann in
  {| le_Name := o_name dep; le_Namespace := o_namespace dep;
     le_Version := default "" (o_labels dep !! VersionLabel);
     le_Description := GetAnnotation ann "tentacular.io/description";
     le_Owner := oi_OwnerEmail ownerInfo; le_Group := oi_Group ownerInfo; le_Mode := ModeString (oi_Mode ownerInfo);
     le_Environment := GetAnnotation ann "tentacular.io/environment";
     le_DeployedBy := GetAnnotation ann "tentacular.io/deployed-by";
     le_DeployedVia := GetAnnotation ann "tentacular.io/deployed-via";
     le_Age := pod_age nowMilli dep; le_Ready := podReady dep |}.

Definition containsTag (tagsCSV tag : string) : bool :=
  existsb (fun t => String.eqb (TrimSpace t) tag) (Split tagsCSV ",").

Definition wrapListError (namespace : string) (err : error) : error :=
  if String.eqb namespace "" then Errorf "list deployments across all namespaces: %w" [AErr err]
  else Errorf "list deployments in namespace %q: %w" [AStr namespace; AErr err].

(** The annotations of every namespace that was fetched or listed. *)
Definition namespace_cache (items : list object) : gmap string annotations :=
  foldl (fun m n => <[o_name n := o_annotations n]> m) ∅ items.
Definition cached (cache : gmap string annotations) (ns : string) : annotations := default ∅ (cache !! ns).

(** What keeps a Deployment off the list before its entry is made. *)
Definition may_list (eval : option Evaluator) (deployer : option DeployerInfo) (ns : string)
    (cache : gmap string annotations) (dep : object) : bool :=
  let depNsAnn := cached cache (o_namespace dep) in
  if String.eqb ns "" && isSystemNamespace (o_namespace dep) depNsAnn then false
  else if String.eqb ns "" && negb (dec_Allowed (CheckEnclave eval deployer depNsAnn Read)) then false
  else dec_Allowed (checkAuthz eval deployer depNsAnn (o_annotations dep) Read).

(** The filters the caller asked for. *)
Definition matches_filter (params : WfListParams) (dep : object) : bool :=
  (String.eqb (wl_Owner params) "" || String.eqb (oi_OwnerEmail (ReadOwnerInfo (o_annotations dep))) (wl_Owner params)) &&
  (String.eqb (wl_Tag params) "" || containsTag (GetAnnotation (o_annotations dep) "tentacular.io/tags") (wl_Tag params)).

(** The cache, after the check on a single namespace. *)
Definition list_cache (eval : option Evaluator) (deployer : option DeployerInfo) (ns : string) :
    prog (res (gmap string annotations)) :=
  if negb (String.eqb ns "") then
    try nsAnn := fetchNamespaceAnnotations ns else Err ;;
    let nsDecision := CheckEnclave eval deployer nsAnn Read in
    Ret (if negb (dec_Allowed nsDecision) then Err (Errorf "permission denied: %s" [AStr (dec_Reason nsDecision)])
         else Ok {[ ns := nsAnn ]})
  else
    nsList ← call (KList "namespaces" "" "");
    Ret (Ok match nsList with
            | Ok items => namespace_cache items
            | Err _ => ∅
            end).

(** The loop; the clock is read for every entry that is made. *)
Definition list_step (eval : option Evaluator) (deployer : option DeployerInfo) (params : WfListParams)
    (cache : gmap string annotations) (entries : list WfListEntry) (dep : object) : prog (list WfListEntry) :=
  if negb (may_list eval deployer (wl_Namespace params) cache dep) then Ret entries
  else
    now ← call NowMilli;
    Ret (if matches_filter params dep then (entries ++ [deploymentToListEntry now dep])%list else entries).

Definition handleWfList (params : WfListParams) (deployer : option DeployerInfo) (eval : option Evaluator) :
    prog (res (list WfListEntry)) :=
  let ns := wl_Namespace params in
  try cache := list_cache eval deployer ns else Err ;;
  try depList := call (KList "deployments" ns managed_selector) else (fun err => Err (wrapListError ns err)) ;;
  entries ← foldM (list_step eval deployer params cache) depList [];
  Ret (Ok entries).

Definition wf_list (eval : option Evaluator) (deployer : option DeployerInfo) (params : WfListParams) :
    prog (res (list WfListEntry)) :=
  match (if negb (String.eqb (wl_Namespace params) "") then CheckNamespace (wl_Namespace params) else None) with
  | Some err => Ret (Err err)
  | None =>
      match requireDeployer deployer eval with
      | Err err => Ret (Err err)
      | Ok _ => handleWfList params deployer eval
      end
  end.

(** ** Describing *)

Definition wrapGetError (name namespace : string) (err : error) : error :=
  Errorf "get deployment %q in namespace %q: %w" [AStr name; AStr namespace; AErr err].

(** A key of a ConfigMap. *)
Definition cm_key (cm : option object) (key : string) : option string :=
  cm ≫= fun o => get_string (o_body o) ["data"; key].

Definition tentacular_annotations (ann : gmap string string) : gmap string string :=
  filter (fun kv => HasPrefix kv.1 "tentacular.io/" = true) ann.

Definition tags_of (ann : gmap string string) : list string :=
  let raw := GetAnnotation ann "tentacular.io/tags" in
  if String.eqb raw "" then [] else Split raw ",".

Definition first_image (dep : object) : string :=
  match list_at (o_body dep) ["spec"; "template"; "spec"; "containers"] with
  | c :: _ => vstring c ["image"]
  | [] => ""
  end.

(** The workflow file of the code ConfigMap. *)
Definition code_workflow (code : option object) : option minimalWorkflow :=
  cm_key code "workflow.yaml" ≫= yaml_minimalWorkflow.

(** An annotation wins over the workflow file, which wins over the label. *)
Definition described_version (dep : object) (wf : option minimalWorkflow) : string :=
  let annotationVersion := ann_get (o_annotations dep) "tentacular.io/version" in
  if negb (String.eqb annotationVersion "") then annotationVersion
  else match wf with
       | Some w => if String.eqb (mw_Version w) "" then default "" (o_labels dep !! VersionLabel) else mw_Version w
       | None => default "" (o_labels dep !! VersionLabel)
       end.

Definition node_list (dep : object) (wf : option minimalWorkflow) : list string :=
  match annotation_json decode_names (o_annotations dep) "tentacular.io/nodes" with
  | [] => match wf with
          | Some w => SortStrings (mw_Nodes w)
          | None => []
          end
  | nodes => nodes
  end.

Definition trigger_desc (t : minimalTrigger) : string :=
  mt_Type t +:+ (if String.eqb (mt_Schedule t) "" then "" else " " +:+ mt_Schedule t).
Definition trigger_list (wf : option minimalWorkflow) : list string :=
  match wf with
  | Some w => trigger_desc <$> mw_Triggers w
  | None => []
  end.

(** Whether there is a metadata ConfigMap to look for, and its name. *)
Definition metadata_keys : list string :=
  ["tentacular.io/metadata-ref"; "tentacular.io/nodes"; "tentacular.io/edges"; "tentacular.io/sidecars";
   "tentacular.io/dependencies"; "tentacular.io/trigger-type"; "tentacular.io/scaffold-name"].
Definition has_metadata (ann : gmap string string) : bool :=
  existsb (fun k => negb (String.eqb (ann_get ann k) "")) metadata_keys.
Definition metadata_name (name : string) (ann : gmap string string) : string :=
  let ref := ann_get ann "tentacular.io/metadata-ref" in
  if String.eqb ref "" then name +:+ "-metadata" else ref.

Definition prompts_of (meta : option object) : list PromptEntry * list TemplateEntry :=
  default ([], []) (cm_key meta "prompts" ≫= yaml_prompts).

Definition describe_result (dep : object) (nsAnn : annotations) (nowMilli : Z) (code meta : option object) : WfDescribeResult :=
  let ann := o_annotations dep in
  let ownerInfo := ReadOwnerInfo ann in
  let enclaveInfo := ReadEnclaveInfo nsAnn in
  let wf := code_workflow code in
  {| wdr_Annotations := tentacular_annotations ann;
     wdr_GitProvenance := cm_key meta "git_provenance" ≫= Unmarshal decode_provenance;
     wdr_DeployedBy := GetAnnotation ann "tentacular.io/deployed-by";
     wdr_Image := first_image dep;
     wdr_OwnerName := oi_OwnerName ownerInfo;
     wdr_Group := oi_Group ownerInfo;
     wdr_Mode := ModeString (oi_Mode ownerInfo);
     wdr_Preset := oi_PresetName ownerInfo;
     wdr_Namespace := o_namespace dep;
     wdr_Environment := GetAnnotation ann "tentacular.io/environment";
     wdr_TriggerType := ann_get ann "tentacular.io/trigger-type";
     wdr_Name := o_name dep;
     wdr_Version := described_version dep wf;
     wdr_Owner := oi_OwnerEmail ownerInfo;
     wdr_DeployedAt := GetAnnotation ann "tentacular.io/deployed-at";
     wdr_EnclaveOwner := ei_Owner enclaveInfo;
     wdr_Age := pod_age nowMilli dep;
     wdr_DeployedVia := GetAnnotation ann "tentacular.io/deployed-via";
     wdr_ParamsSchema := default "" (cm_key meta "params_schema");
     wdr_ContractSummary := default "" (cm_key meta "contract");
     wdr_Readme := default "" (cm_key meta "readme");
     wdr_MetadataRef := ann_get ann "tentacular.io/metadata-ref";
     wdr_ScaffoldName := ann_get ann "tentacular.io/scaffold-name";
     wdr_Nodes := node_list dep wf;
     wdr_NodeDescriptions := default [] (cm_key meta "node_descriptions" ≫= Unmarshal decode_nodes);
     wdr_Sidecars := annotation_json decode_sidecars ann "tentacular.io/sidecars";
     wdr_Dependencies := annotation_json decode_dependencies ann "tentacular.io/dependencies";
     wdr_Prompts := (prompts_of meta).1;
     wdr_Templates := (prompts_of meta).2;
     wdr_Edges := annotation_json decode_edges ann "tentacular.io/edges";
     wdr_EnclaveMembers := ei_Members enclaveInfo;
     wdr_Tags := tags_of ann;
     wdr_Triggers := trigger_list wf;
     wdr_Replicas := replicaCount (int_at dep ["spec"; "replicas"]);
     wdr_ReadyReplicas := default 0%Z (int_at dep ["status"; "readyReplicas"]);
     wdr_Ready := podReady dep |}.

(** An optional lookup: any failure reads as absent. *)
Definition lookup_cm (ns name : string) : prog (option object) :=
  r ← call (KGet "configmaps" ns name);
  Ret match r with
      | Ok o => Some o
      | Err _ => None
      end.

Definition handleWfDescribe (params : WfDescribeParams) (deployer : option DeployerInfo) (eval : option Evaluator) :
    prog (res WfDescribeResult) :=
  let ns := wd_Namespace params in
  let name := wd_Name params in
  try dep := call (KGet "deployments" ns name) else (fun err => Err (wrapGetError name ns err)) ;;
  try nsAnn := fetchNamespaceAnnotations ns else Err ;;
  let d := checkAuthz eval deployer nsAnn (o_annotations dep) Read in
  if negb (dec_Allowed d) then Ret (Err (Errorf "permission denied: %s" [AStr (dec_Reason d)]))
  else
    now ← call NowMilli;
    code ← lookup_cm ns (name +:+ "-code");
    meta ← (if has_metadata (o_annotations dep) then lookup_cm ns (metadata_name name (o_annotations dep)) else Ret None);
    Ret (Ok (describe_result dep nsAnn now code meta)).

Definition wf_describe (eval : option Evaluator) (deployer : option DeployerInfo) (params : WfDescribeParams) :
    prog (res WfDescribeResult) :=
  match CheckName (wd_Name params) with
  | Some err => Ret (Err err)
  | None =>
      resolved_guard (wd_Namespace params) deployer eval (fun ns =>
        handleWfDescribe {| wd_Namespace := ns; wd_Name := wd_Name params |} deployer eval)
  end.
End discover.

(** ** Specification *)

Section spec.
Context `{U : Unicode} `{Y : DescribeYaml}.

(** The namespace of that name in a listing, the last if there were several. *)
Definition named (ns : string) (items : list object) : option object := last (List.filter (fun o => String.eqb (o_name o) ns) items).

(** The annotations a listing goes by, for every namespace.  For one enclave: those
    fetched of it, which must let the caller read.  Across all enclaves: those of the
    listed namespaces; if that listing fails, every namespace passes for one without
    annotations. *)
Definition annotations_seen (eval : option Evaluator) (deployer : option DeployerInfo) (ns : string)
    (ann_of : string -> annotations) (h : list event) : Prop :=
  if String.eqb ns "" then
    exists x, Ev (KList "namespaces" "" "") x ∈ h /\
      match x with
      | Ok items => forall n, ann_of n = default ∅ (o_annotations <$> named n items)
      | Err _ => forall n, ann_of n = ∅
      end
  else namespace_seen ns (ann_of ns) h /\ dec_Allowed (CheckEnclave eval deployer (ann_of ns) Read) = true /\
       forall n, n <> ns -> ann_of n = ∅.

(** The caller may see the Deployment and asked for it. *)
Definition readable_by (eval : option Evaluator) (deployer : option DeployerInfo) (ns : string) (nsAnn : annotations) (dep : object) : Prop :=
  dec_Allowed (CheckTentacle eval deployer nsAnn (o_annotations dep) Read) = true /\
  (ns = "" -> dec_Allowed (CheckEnclave eval deployer nsAnn Read) = true /\
              ~ (o_namespace dep ∈ systemNamespaces) /\ ann_get nsAnn "tentacular.io/system" <> "true").
Definition asked_for (params : WfListParams) (dep : object) : Prop :=
  (wl_Owner params = "" \/ ann_get (o_annotations dep) "tentacular.io/owner-email" = wl_Owner params) /\
  (wl_Tag params = "" \/
   exists t, t ∈ Split (GetAnnotation (o_annotations dep) "tentacular.io/tags") "," /\ TrimSpace t = wl_Tag params).

(** An entry tells of its Deployment. *)
Definition entry_of (dep : object) (e : WfListEntry) : Prop :=
  le_Name e = o_name dep /\ le_Namespace e = o_namespace dep /\
  le_Version e = default "" (o_labels dep !! "app.kubernetes.io/version") /\
  le_Owner e = ann_get (o_annotations dep) "tentacular.io/owner-email" /\
  le_Group e = ann_get (o_annotations dep) "tentacular.io/group" /\
  (le_Ready e = true <-> exists n, int_at dep ["status"; "readyReplicas"] = Some n /\ (1 <= n)%Z).

(** A listing fails only for a namespace the guard refuses, a caller without
    identity, an enclave that does not let the caller read, or a failed request. *)
Definition list_refused (eval : option Evaluator) (deployer : option DeployerInfo) (ns : string) (h : list event) : Prop :=
  (ns <> "" /\ CheckNamespace ns <> None) \/
  (exists err, requireDeployer deployer eval = Err err) \/
  (exists ann, namespace_seen ns ann h /\ dec_Allowed (CheckEnclave eval deployer ann Read) = false) \/
  (exists err, Ev (KGet "namespaces" "" ns) (Err err) ∈ h) \/
  (exists err, Ev (KList "deployments" ns managed_selector) (Err err) ∈ h).
End spec.

(** ** Lemmas *)

Section lemmas.
Context `{U : Unicode} `{Y : DescribeYaml}.

Lemma namespace_cache_named items n : cached (namespace_cache items) n = default ∅ (o_annotations <$> named n items).
Proof.
  unfold cached, namespace_cache, named. f_equal. induction items as [|o items IH] using rev_ind; [done|].
  rewrite foldl_snoc, List.filter_app. cbn [List.filter]. destruct (String.eqb_spec (o_name o) n) as [<-|Hn].
  - by rewrite last_snoc, lookup_insert_eq.
  - rewrite app_nil_r, lookup_insert_ne by done. exact IH.
Qed.

Lemma may_list_readable eval d ns cache dep :
  may_list eval d ns cache dep = true <-> readable_by eval d ns (cached cache (o_namespace dep)) dep.
Proof.
  unfold may_list, checkAuthz, isSystemNamespace, readable_by, IsSystemNamespace. cbv zeta. destruct (String.eqb_spec ns "") as [->|Hne]; simpl.
  - case_bool_decide as Hs; simpl; [split; [done|]; intros [_ H]; by destruct (H eq_refl) as (_ & ? & _)|].
    destruct (String.eqb_spec (ann_get (cached cache (o_namespace dep)) "tentacular.io/system") "true") as [Hy|Hy].
    { split; [done|]. intros [_ H]. by destruct (H eq_refl) as (_ & _ & ?). }
    destruct (dec_Allowed (CheckEnclave _ _ _ _)); simpl; [by split; [split|intros [? _]]|].
    split; [done|]. intros [_ H]. by destruct (H eq_refl).
  - by split; [split|intros [? _]].
Qed.

Lemma containsTag_spec csv tag : containsTag csv tag = true <-> exists t, t ∈ Split csv "," /\ TrimSpace t = tag.
Proof. unfold containsTag. rewrite existsb_In. by setoid_rewrite String.eqb_eq. Qed.

Lemma matches_filter_spec params dep : matches_filter params dep = true <-> asked_for params dep.
Proof.
  unfold matches_filter, asked_for. rewrite andb_true_iff, !orb_true_iff, !String.eqb_eq, containsTag_spec. done.
Qed.

Lemma deploymentToListEntry_of now dep : entry_of dep (deploymentToListEntry now dep).
Proof.
  split_and!; try done. cbn [le_Ready deploymentToListEntry]. unfold podReady. rewrite Z.leb_le.
  destruct (int_at _ _) as [n|]; cbn [default].
  - split; [by exists n|]. by intros (n' & [= <-] & ?).
  - split; [lia|]. by intros (n' & ? & _).
Qed.

Lemma list_cache_holds eval d ns h :
  holds (every (fun r => is_write r = false))
    (fun h' r => match r with
                 | Ok cache => annotations_seen eval d ns (cached cache) h'
                 | Err _ => list_refused eval d ns h'
                 end) h (list_cache eval d ns).
Proof.
  unfold list_cache, annotations_seen, list_refused. destruct (String.eqb_spec ns "") as [->|Hne]; cbn [negb].
  - apply holds_call_bind; [done|]. intros x. exists x. split; [by left|]. destruct x; [apply namespace_cache_named|done].
  - hstep. unfold fetchNamespaceAnnotations. apply holds_call_bind; [done|]. intros [o|err]; cbn [holds].
    + assert (namespace_seen ns (o_annotations o) (Ev (KGet "namespaces" "" ns) (Ok o) :: h)) as Hs by (left; exists o; split; [by left|done]).
      cbv zeta. destruct (dec_Allowed _) eqn:Ha; cbn [negb]; [|right; right; left; by eexists].
      unfold cached. rewrite lookup_singleton_eq. split_and!; [done..|]. intros n Hn. by rewrite lookup_singleton_ne.
    + destruct (reason_is NotFound err) eqn:Hr; cbn [holds]; [|do 3 right; left; exists err; by left].
      assert (namespace_seen ns ∅ (Ev (KGet "namespaces" "" ns) (Err err) :: h)) as Hs by (right; exists err; split_and!; [by left|done..]).
      cbv zeta. destruct (dec_Allowed _) eqn:Ha; cbn [negb]; [|right; right; left; by eexists].
      unfold cached. rewrite lookup_singleton_eq. split_and!; [done..|]. intros n Hn. by rewrite lookup_singleton_ne.
Qed.

Lemma annotations_seen_stable eval d ns ann_of : stable (annotations_seen eval d ns ann_of).
Proof.
  intros h e. unfold annotations_seen. destruct (String.eqb ns "").
  - intros (x & Hx & H). exists x. split; [by right|done].
  - intros (Hs & H). split; [by apply namespace_seen_stable|done].
Qed.

Lemma list_loop_holds eval d params cache items h :
  holds (every (fun r => is_write r = false))
    (ends (selects (fun dep => readable_by eval d (wl_Namespace params) (cached cache (o_namespace dep)) dep /\ asked_for params dep) entry_of items))
    h (foldM (list_step eval d params cache) items []).
Proof.
  apply (holds_foldM_pre _ (fun pre _ out => selects (fun dep => readable_by eval d (wl_Namespace params) (cached cache (o_namespace dep)) dep /\
    asked_for params dep) entry_of pre out)) with (done := []); [|done|constructor].
  intros pre dep post h' acc _ Hacc. unfold list_step.
  destruct (may_list eval d (wl_Namespace params) cache dep) eqn:Hm; cbn [negb].
  2: { apply selects_snoc_drop; [done|]. rewrite <- may_list_readable. by intros [? _]; congruence. }
  apply holds_call_bind; [done|]. intros now. cbn [holds]. destruct (matches_filter params dep) eqn:Hf.
  - apply selects_snoc_keep; [done|by rewrite <- may_list_readable, <- matches_filter_spec|apply deploymentToListEntry_of].
  - apply selects_snoc_drop; [done|]. rewrite <- matches_filter_spec. by intros [_ ?]; congruence.
Qed.

Lemma lookup_cm_reads ns name h : holds (every (fun r => is_write r = false)) whatever h (lookup_cm ns name).
Proof. unfold lookup_cm. by apply holds_call_bind. Qed.
End lemmas.

(** ** Properties *)

Section properties.
Context `{U : Unicode} `{Y : DescribeYaml}.

(** C16: The list of workflows is exact: [wf_list] changes nothing, and its entries are
    those of the listed Deployments - all of them, in order - that bear the owner and
    the tag the caller asked for and that the caller may read, in a namespace that
    lets the caller read; across all enclaves, none of a system namespace.  The
    permissions go by the annotations of the namespaces as fetched or listed; if the
    listing of namespaces failed, they count as empty.  It fails only when the
    namespace, the identity or the enclave refuses, or a request fails. *)
Theorem wf_list_exact eval deployer params h :
  let ns := wl_Namespace params in
  holds (every (fun r => is_write r = false))
    (fun h' r => match r with
                 | Err _ => list_refused eval deployer ns h'
                 | Ok out => exists ann_of items, annotations_seen eval deployer ns ann_of h' /\
                     Ev (KList "deployments" ns managed_selector) (Ok items) ∈ h' /\
                     selects (fun dep => readable_by eval deployer ns (ann_of (o_namespace dep)) dep /\ asked_for params dep) entry_of items out
                 end)
    h (wf_list eval deployer params).
Proof.
  intros ns. unfold wf_list. destruct (if negb _ then _ else _) eqn:Hg.
  { left. fold ns in Hg. destruct (String.eqb_spec ns ""); cbn [negb] in Hg; [done|]. split; [done|congruence]. }
  destruct (requireDeployer deployer eval) as [x|err] eqn:Hd; [|right; left; by exists err].
  unfold handleWfList. fold ns. hstep. eapply holds_mono; [done| |apply list_cache_holds].
  intros h1 [cache|err] Hc; [|exact Hc]. hstep. hstep; [done|]. intros [items|err]; [|do 4 right; exists err; by left]. cbn [holds]. apply holds_bind.
  pose proof (list_loop_holds eval deployer params cache items (Ev (KList "deployments" ns managed_selector) (Ok items) :: h1)) as Hl.
  apply (holds_keep _ _ (fun h => annotations_seen eval deployer ns (cached cache) h /\ Ev (KList "deployments" ns managed_selector) (Ok items) ∈ h)) in Hl;
    [|intros h' e [? ?]; split; [by apply annotations_seen_stable|by right]|split; [by apply annotations_seen_stable|by left]].
  eapply holds_mono; [done| |exact Hl]. intros h2 out [Hout [Hc2 Hin]]. by exists (cached cache), items.
Qed.

(** [wf_describe] tells only readers, and tells what is there: it changes nothing,
    answers only for a Deployment that the caller may read, passes on exactly its
    annotations under tentacular.io/, and takes the version from the annotation, else
    from the workflow file, else from the label. *)
Theorem wf_describe_spec eval deployer params h :
  holds (every (fun r => is_write r = false))
    (fun h' r => match r with
                 | Err _ => True
                 | Ok out => exists ns dep nsAnn, Ev (KGet "deployments" ns (wd_Name params)) (Ok dep) ∈ h' /\
                     namespace_seen ns nsAnn h' /\
                     dec_Allowed (CheckTentacle eval deployer nsAnn (o_annotations dep) Read) = true /\
                     (forall k v, wdr_Annotations out !! k = Some v <->
                        o_annotations dep !! k = Some v /\ HasPrefix k "tentacular.io/" = true) /\
                     let annotated := ann_get (o_annotations dep) "tentacular.io/version" in
                     let label := default "" (o_labels dep !! VersionLabel) in
                     (annotated <> "" -> wdr_Version out = annotated) /\
                     (annotated = "" -> exists x, Ev (KGet "configmaps" ns (wd_Name params +:+ "-code")) x ∈ h' /\
                        match x with
                        | Ok cm => match code_workflow (Some cm) with
                                   | Some wf => wdr_Version out = if String.eqb (mw_Version wf) "" then label else mw_Version wf
                                   | None => wdr_Version out = label
                                   end
                        | Err _ => wdr_Version out = label
                        end)
                 end)
    h (wf_describe eval deployer params).
Proof.
  unfold wf_describe. destruct (CheckName (wd_Name params)); [done|]. apply resolved_guard_holds; [done|]. intros h1 ns _.
  unfold handleWfDescribe. cbn [wd_Namespace wd_Name]. set (name := wd_Name params). hstep. hstep; [done|].
  intros [dep|err]; [|done]. cbn [holds]. hstep.
  pose proof (fetchNamespaceAnnotations_holds ns (Ev (KGet "deployments" ns name) (Ok dep) :: h1)) as Hf.
  apply (holds_keep _ _ (fun h => Ev (KGet "deployments" ns name) (Ok dep) ∈ h)) in Hf; [|by intros ? ? ?; right|by left].
  eapply holds_mono; [done| |exact Hf]. intros h2 [nsAnn|err] [Hs Hin]; [|done]. cbv zeta. unfold checkAuthz.
  destruct (dec_Allowed _) eqn:Ha; cbn [negb]; [|done]. apply holds_call_bind; [done|]. intros now.
  unfold lookup_cm at 1. do 2 apply holds_bind. split; [done|]. intros x. cbn [holds]. apply holds_bind.
  set (code := match x with Ok o => Some o | Err _ => None end).
  assert (holds (every (fun r => is_write r = false)) whatever (Ev (KGet "configmaps" ns (name +:+ "-code")) x :: Ev NowMilli now :: h2)
    (if has_metadata (o_annotations dep) then lookup_cm ns (metadata_name name (o_annotations dep)) else Ret None)) as Hmeta
    by (destruct (has_metadata _); [apply lookup_cm_reads|done]).
  apply (holds_keep _ _ (fun h => Ev (KGet "deployments" ns name) (Ok dep) ∈ h /\ namespace_seen ns nsAnn h /\
           Ev (KGet "configmaps" ns (name +:+ "-code")) x ∈ h)) in Hmeta;
    [|intros h' e (? & ? & ?); split_and!; [by right|by apply namespace_seen_stable|by right]
     |split_and!; [by do 2 right|by do 2 apply namespace_seen_stable|by left]].
  eapply holds_mono; [done| |exact Hmeta]. intros h3 meta [_ (Hin3 & Hs3 & Hx)]. cbn [holds].
  exists ns, dep, nsAnn. split_and!; try done.
  - intros k v. cbn [wdr_Annotations describe_result]. unfold tentacular_annotations. by rewrite map_lookup_filter_Some.
  - intros Hne. cbn [wdr_Version describe_result]. unfold described_version. by rewrite (proj2 (String.eqb_neq _ _) Hne).
  - intros He. exists x. split; [done|]. cbn [wdr_Version describe_result]. unfold described_version.
    rewrite He. cbn [String.eqb negb]. unfold code. destruct x as [cm|err]; [|done]. by destruct (code_workflow (Some cm)).
Qed.
End properties.

(** ** Examples *)

Example decode_edges_example :
  let q := encode_string in
  Unmarshal decode_edges ("[[" +:+ q "a" +:+ "," +:+ q "b" +:+ "],[" +:+ q "c" +:+ "],[" +:+ q "d" +:+ ",null,1]]")
    = Some [("a", "b"); ("c", ""); ("d", "")] /\
  Unmarshal decode_sidecars ("[{" +:+ q "Port" +:+ ":80}]") = Some [{| sm_Name := ""; sm_Image := ""; sm_Port := 80 |}].
Proof. by vm_compute. Qed.
