(* ===== verification/AuditTools.v ===== *)
(** * Security audits of an enclave (pkg/tools/audit.go)

    Three read-only tools: RBAC rules, network policies and Pod Security labels.
    Each scan is a function of the objects it lists; what it means that nothing is
    reported is stated against the content of the objects, and the objects the
    server itself creates for an enclave are shown to pass. *)

From S2P Require Import Prelude GoStrings Guard Annotations Auth Evaluator.
From S2P Require Import Effects K8sOps AuthzHelpers Unstructured Deploy Scheduler WfApply Workflow.
#[local] Set Warnings "-clear-no-such-hyp".
#[local] Open Scope string_scope.

(** ** Data *)

Record AuditFinding := {
  af_Role : string;
  af_Rule : string;
  af_Severity : string;
  af_Reason : string;
  af_Remediation : string;
}.
Record NetpolInfo := { np_Name : string; np_PodSelector : string; np_Types : list string }.
Record AuditNetpolFinding := { nf_Severity : string; nf_Message : string; nf_Remediation : string }.
Record AuditNetpolResult := {
  nr_Policies : list NetpolInfo;
  nr_Findings : list AuditNetpolFinding;
  nr_DefaultDeny : bool;
}.
Record AuditPsaFinding := { sf_Severity : string; sf_Message : string; sf_Remediation : string }.
Record AuditPsaResult := {
  sr_Enforce : string;
  sr_Audit : string;
  sr_Warn : string;
  sr_Findings : list AuditPsaFinding;
  sr_Compliant : bool;
}.

(** Lists of strings and list fields of values. *)
Definition vlist (v : value) (path : list string) : list value :=
  match at_path v path with
  | Some (VList l) => l
  | _ => []
  end.
Definition vmap (v : value) (path : list string) : list (string * value) :=
  match at_path v path with
  | Some (VMap m) => m
  | _ => []
  end.
Definition vstrings (v : value) (path : list string) : list string := (fun x => vstring x []) <$> vlist v path.
(** A pointer field that is not nil. *)
Definition vset (v : value) (path : list string) : bool :=
  match at_path v path with
  | None | Some VNull => false
  | Some _ => true
  end.

Section audit.
Context `{U : Unicode}.

(** ** RBAC *)

Definition sensitiveResources (res : string) : bool :=
  str_in res ["secrets"; "serviceaccounts/token"; "pods/exec"; "pods/attach"].
Definition escalationVerbs (verb : string) : bool := str_in verb ["bind"; "escalate"; "impersonate"].

Definition rule_of (v : value) : PolicyRule :=
  {| pr_APIGroups := vstrings v ["apiGroups"]; pr_Resources := vstrings v ["resources"]; pr_Verbs := vstrings v ["verbs"] |}.

Definition ruleDescription (rule : PolicyRule) : string :=
  let groups := Join (pr_APIGroups rule) "," in
  Sprintf "apiGroups=[%s] resources=[%s] verbs=[%s]"
    [if String.eqb groups "" then "core" else groups; Join (pr_Resources rule) ","; Join (pr_Verbs rule) ","].

Definition wildcard_verb (role rule verb : string) : list AuditFinding :=
  if String.eqb verb "*" then
    [{| af_Role := role; af_Rule := rule; af_Severity := "high"; af_Reason := "wildcard verb grants all permissions";
        af_Remediation := "Replace '*' with explicit verbs (e.g. get, list, watch, create, update, delete)." |}]
  else [].
Definition escalation_verb (role rule verb : string) : list AuditFinding :=
  if escalationVerbs verb then
    [{| af_Role := role; af_Rule := rule; af_Severity := "high"; af_Reason := Sprintf "%q verb enables privilege escalation" [verb];
        af_Remediation := Sprintf "Remove the %q verb unless this role explicitly needs to grant or assume other identities." [verb] |}]
  else [].
Definition resource_findings (role rule res : string) : list AuditFinding :=
  (if String.eqb res "*" then
     [{| af_Role := role; af_Rule := rule; af_Severity := "high"; af_Reason := "wildcard resource grants access to all resource types";
         af_Remediation := "Replace '*' with the specific resources this role needs access to." |}]
   else []) ++
  (if sensitiveResources res then
     [{| af_Role := role; af_Rule := rule; af_Severity := "medium"; af_Reason := Sprintf "access to sensitive resource %q" [res];
         af_Remediation := Sprintf "Restrict %q access to only the verbs required (e.g. get instead of list/watch)." [res] |}]
   else []).

Definition audit_rule (role : string) (rule : PolicyRule) : list AuditFinding :=
  let desc := ruleDescription rule in
  (mjoin (wildcard_verb role desc <$> pr_Verbs rule) ++ mjoin (escalation_verb role desc <$> pr_Verbs rule) ++
   mjoin (resource_findings role desc <$> pr_Resources rule))%list.
Definition auditRules (findings : list AuditFinding) (roleName : string) (rules : list PolicyRule) : list AuditFinding :=
  foldl (fun acc rule => (acc ++ audit_rule roleName rule)%list) findings rules.

Definition audit_role (findings : list AuditFinding) (role : object) : list AuditFinding :=
  auditRules findings ("Role/" +:+ o_name role) (rule_of <$> list_at (o_body role) ["rules"]).
Definition binding_findings (rb : object) : list AuditFinding :=
  let ref := VMap (o_body rb) in
  if String.eqb (vstring ref ["roleRef"; "kind"]) "ClusterRole" then
    [{| af_Role := "RoleBinding/" +:+ o_name rb; af_Rule := "binds ClusterRole/" +:+ vstring ref ["roleRef"; "name"];
        af_Severity := "low"; af_Reason := "RoleBinding references a ClusterRole; review cluster-level permissions";
        af_Remediation := "Replace with a namespaced Role if the required permissions are namespace-scoped." |}]
  else [].
Definition subject_findings (ns : string) (crb : object) (subj : value) : list AuditFinding :=
  if String.eqb (vstring subj ["kind"]) "ServiceAccount" && String.eqb (vstring subj ["namespace"]) ns then
    [{| af_Role := "ClusterRoleBinding/" +:+ o_name crb;
        af_Rule := Sprintf "binds ClusterRole/%s to SA %s/%s" [vstring (VMap (o_body crb)) ["roleRef"; "name"]; ns; vstring subj ["name"]];
        af_Severity := "medium"; af_Reason := "service account in namespace has cluster-wide permissions";
        af_Remediation := "Replace with a namespaced RoleBinding unless cluster-wide access is required." |}]
  else [].
Definition cluster_binding_findings (ns : string) (crb : object) : list AuditFinding :=
  mjoin (subject_findings ns crb <$> list_at (o_body crb) ["subjects"]).

Definition rbac_findings (ns : string) (roles rbs crbs : list object) : list AuditFinding :=
  (foldl audit_role [] roles ++ mjoin (binding_findings <$> rbs) ++ mjoin (cluster_binding_findings ns <$> crbs))%list.

Definition handleAuditRbac (ns : string) : prog (res (list AuditFinding)) :=
  try roles := call (KList "roles" ns "")
    else (fun err => Err (Errorf "list roles in namespace %q: %w" [AStr ns; AErr err])) ;;
  try rbs := call (KList "rolebindings" ns "")
    else (fun err => Err (Errorf "list rolebindings in namespace %q: %w" [AStr ns; AErr err])) ;;
  try crbs := call (KList "clusterrolebindings" "" "")
    else (fun err => Err (Errorf "list cluster role bindings: %w" [AErr err])) ;;
  Ret (Ok (rbac_findings ns roles rbs crbs)).

(** ** Network policies *)

Definition empty_selector (sel : value) : bool :=
  match vmap sel ["matchLabels"], vlist sel ["matchExpressions"] with
  | [], [] => true
  | _, _ => false
  end.
Definition pod_selector (p : object) : value := default VNull (at_path (VMap (o_body p)) ["spec"; "podSelector"]).
Definition policy_types (p : object) : list string := vstrings (VMap (o_body p)) ["spec"; "policyTypes"].

Definition is_default_deny (p : object) : bool :=
  match list_at (o_body p) ["spec"; "ingress"], list_at (o_body p) ["spec"; "egress"] with
  | [], [] => empty_selector (pod_selector p) && str_in "Ingress" (policy_types p) && str_in "Egress" (policy_types p)
  | _, _ => false
  end.

Definition isAllowAll (peer : value) : bool :=
  negb (vset peer ["podSelector"]) && negb (vset peer ["namespaceSelector"]) && negb (vset peer ["ipBlock"]).

Definition ingress_findings (name : string) (from : value) : list AuditNetpolFinding :=
  if isAllowAll from then
    [{| nf_Severity := "high";
        nf_Message := Sprintf "NetworkPolicy %q has an ingress rule that allows traffic from all sources, negating default-deny" [name];
        nf_Remediation := "Restrict the ingress rule to specific pod/namespace selectors or CIDR ranges." |}]
  else if vset from ["namespaceSelector"] &&
          empty_selector (default VNull (at_path from ["namespaceSelector"])) && negb (vset from ["podSelector"]) then
    [{| nf_Severity := "medium";
        nf_Message := Sprintf "NetworkPolicy %q allows ingress from all namespaces via empty namespaceSelector" [name];
        nf_Remediation := "Add matchLabels to the namespaceSelector to restrict which namespaces can send traffic." |}]
  else [].
Definition egress_findings (name : string) (to : value) : list AuditNetpolFinding :=
  if isAllowAll to then
    [{| nf_Severity := "high";
        nf_Message := Sprintf "NetworkPolicy %q has an egress rule that allows traffic to all destinations, negating default-deny" [name];
        nf_Remediation := "Restrict the egress rule to specific pod/namespace selectors or CIDR ranges." |}]
  else [].
Definition policy_findings (p : object) : list AuditNetpolFinding :=
  (mjoin ((fun ingress => mjoin (ingress_findings (o_name p) <$> vlist ingress ["from"])) <$> list_at (o_body p) ["spec"; "ingress"]) ++
   mjoin ((fun egress => mjoin (egress_findings (o_name p) <$> vlist egress ["to"])) <$> list_at (o_body p) ["spec"; "egress"]))%list.

(** The labels come in the order of a Go map. *)
Definition policy_info (p : object) : NetpolInfo :=
  {| np_Name := o_name p;
     np_PodSelector := match vmap (pod_selector p) ["matchLabels"] with
                       | [] => "all pods"
                       | labels => Join ((fun kv => kv.1 +:+ "=" +:+ vstring kv.2 []) <$> labels) ","
                       end;
     np_Types := policy_types p |}.

Definition netpol_audit (policies : list object) : AuditNetpolResult :=
  let defaultDeny := existsb is_default_deny policies in
  let hasEgressRestriction := existsb (fun p => str_in "Egress" (policy_types p)) policies in
  {| nr_Policies := policy_info <$> policies;
     nr_Findings :=
       (mjoin (policy_findings <$> policies) ++
        (if defaultDeny then [] else
           [{| nf_Severity := "high"; nf_Message := "no default-deny NetworkPolicy found; traffic is unrestricted by default";
               nf_Remediation := "Create a NetworkPolicy with empty podSelector and both Ingress+Egress policyTypes with no allow rules." |}]) ++
        (if hasEgressRestriction then [] else
           [{| nf_Severity := "medium"; nf_Message := "no egress NetworkPolicy found; pods may be able to reach external services";
               nf_Remediation := "Add a NetworkPolicy with policyType Egress to control outbound traffic." |}]))%list;
     nr_DefaultDeny := defaultDeny |}.

Definition handleAuditNetpol (ns : string) : prog (res AuditNetpolResult) :=
  try policies := call (KList "networkpolicies" ns "")
    else (fun err => Err (Errorf "list network policies in namespace %q: %w" [AStr ns; AErr err])) ;;
  Ret (Ok (netpol_audit policies)).

(** ** Pod Security labels *)

(** A level that is not known ranks as the weakest. *)
Definition psaLevelOrder (level : string) : Z :=
  if String.eqb level "baseline" then 1 else if String.eqb level "restricted" then 2 else 0.

Definition psa_finding (severity message remediation : string) : AuditPsaFinding :=
  {| sf_Severity := severity; sf_Message := message; sf_Remediation := remediation |}.

Definition enforce_findings (enforce : string) : list AuditPsaFinding :=
  if String.eqb enforce "" then
    [psa_finding "high" "pod-security.kubernetes.io/enforce label is missing; no PSA enforcement active"
       "Add the label pod-security.kubernetes.io/enforce=restricted to the namespace."]
  else if String.eqb enforce "privileged" then
    [psa_finding "high" (Sprintf "PSA enforce level is %q; all pod security checks are disabled" ["privileged"])
       (Sprintf "Set pod-security.kubernetes.io/enforce to %q (or %q as a first step)." ["restricted"; "baseline"])]
  else if negb (String.eqb enforce "restricted") then
    [psa_finding "medium" (Sprintf "PSA enforce level is %q; recommended level is %q" [enforce; "restricted"])
       (Sprintf "Set pod-security.kubernetes.io/enforce to %q for full pod security enforcement." ["restricted"])]
  else [].
Definition missing_label (level message remediation : string) : list AuditPsaFinding :=
  if String.eqb level "" then [psa_finding "low" message remediation] else [].
Definition weaker_level (level enforce message remediation : string) : list AuditPsaFinding :=
  if negb (String.eqb level "") && (psaLevelOrder level <? psaLevelOrder enforce)%Z
  then [psa_finding "medium" (Sprintf message [level; enforce]) (Sprintf remediation [enforce])] else [].

Definition psa_audit (labels : gmap string string) : AuditPsaResult :=
  let enforce := default "" (labels !! "pod-security.kubernetes.io/enforce") in
  let audit := default "" (labels !! "pod-security.kubernetes.io/audit") in
  let warn := default "" (labels !! "pod-security.kubernetes.io/warn") in
  {| sr_Enforce := enforce; sr_Audit := audit; sr_Warn := warn;
     sr_Findings :=
       (enforce_findings enforce ++
        missing_label audit "pod-security.kubernetes.io/audit label is missing"
          "Add pod-security.kubernetes.io/audit=restricted to log PSA violations in the audit log." ++
        missing_label warn "pod-security.kubernetes.io/warn label is missing"
          "Add pod-security.kubernetes.io/warn=restricted so users see warnings when deploying non-compliant pods." ++
        (if String.eqb enforce "" then [] else
           weaker_level audit enforce
             "audit level %q is weaker than enforce level %q; audit log will not capture all violations"
             "Set pod-security.kubernetes.io/audit to %q or stricter to match enforcement." ++
           weaker_level warn enforce
             "warn level %q is weaker than enforce level %q; users will not see warnings for all enforced restrictions"
             "Set pod-security.kubernetes.io/warn to %q or stricter to match enforcement."))%list;
     sr_Compliant := String.eqb enforce "restricted" |}.

Definition handleAuditPsa (ns : string) : prog (res AuditPsaResult) :=
  try obj := GetNamespace ns else Err ;;
  Ret (Ok (psa_audit (o_labels obj))).

(** ** The tools *)

(** The guards the three share: no deployer is required here, the check on the
    namespace decides. *)
Definition checked_reader {A} (namespace : string) (eval : option Evaluator) (deployer : option DeployerInfo)
    (body : prog (res A)) : prog (res A) :=
  match CheckNamespace namespace with
  | Some err => Ret (Err err)
  | None => try_ checkNamespaceAuthz namespace deployer eval Read else Err ;; body
  end.
Definition audit_rbac (eval : option Evaluator) (deployer : option DeployerInfo) (ns : string) : prog (res (list AuditFinding)) :=
  checked_reader ns eval deployer (handleAuditRbac ns).
Definition audit_netpol (eval : option Evaluator) (deployer : option DeployerInfo) (ns : string) : prog (res AuditNetpolResult) :=
  checked_reader ns eval deployer (handleAuditNetpol ns).
Definition audit_psa (eval : option Evaluator) (deployer : option DeployerInfo) (ns : string) : prog (res AuditPsaResult) :=
  checked_reader ns eval deployer (handleAuditPsa ns).
End audit.

(** ** What a report means *)

(** Reading the report by severity. *)
Definition reported (sev : string) (findings : list AuditFinding) : Prop := exists f, f ∈ findings /\ af_Severity f = sev.

(** What Kubernetes lets the holder of a rule do beyond the listed verbs: every
    verb, every resource, or granting and assuming other identities. *)
Definition escalating (rule : PolicyRule) : Prop :=
  "*" ∈ pr_Verbs rule \/ "*" ∈ pr_Resources rule \/
  exists verb, verb ∈ pr_Verbs rule /\ verb ∈ ["bind"; "escalate"; "impersonate"].
Definition sensitive (rule : PolicyRule) : Prop :=
  exists res, res ∈ pr_Resources rule /\ res ∈ ["secrets"; "serviceaccounts/token"; "pods/exec"; "pods/attach"].
Definition role_rules (role : object) : list PolicyRule := rule_of <$> list_at (o_body role) ["rules"].
Definition binds_cluster_role (rb : object) : Prop := vstring (VMap (o_body rb)) ["roleRef"; "kind"] = "ClusterRole".
(** A cluster-wide binding to a service account of the namespace. *)
Definition cluster_wide (ns : string) (crb : object) : Prop :=
  exists subj, subj ∈ list_at (o_body crb) ["subjects"] /\
    vstring subj ["kind"] = "ServiceAccount" /\ vstring subj ["namespace"] = ns.

(** By the Kubernetes documentation a rule without peers matches every peer. *)
Definition admits_everything (p : object) : bool :=
  empty_selector (pod_selector p) && str_in "Ingress" (policy_types p) &&
  existsb (fun rule => match vlist rule ["from"] with [] => true | _ => false end) (list_at (o_body p) ["spec"; "ingress"]).

(** *** Lemmas *)

Section lemmas.
Context `{U : Unicode}.

Lemma reported_app sev l1 l2 : reported sev (l1 ++ l2)%list <-> reported sev l1 \/ reported sev l2.
Proof. unfold reported. setoid_rewrite elem_of_app. naive_solver. Qed.

Lemma reported_mjoin {A} sev (f : A -> list AuditFinding) l :
  reported sev (mjoin (f <$> l)) <-> exists x, x ∈ l /\ reported sev (f x).
Proof.
  unfold reported. setoid_rewrite list_elem_of_join. setoid_rewrite list_elem_of_fmap. naive_solver.
Qed.

Lemma reported_if sev (b : bool) f : reported sev (if b then [f] else []) <-> b = true /\ af_Severity f = sev.
Proof. unfold reported. destruct b; [setoid_rewrite list_elem_of_singleton|setoid_rewrite elem_of_nil]; naive_solver. Qed.

Lemma auditRules_app name rules acc : auditRules acc name rules = (acc ++ mjoin (audit_rule name <$> rules))%list.
Proof.
  revert acc. induction rules as [|r rules IH]; intros acc; cbn; [by rewrite app_nil_r|].
  unfold auditRules in IH. by rewrite IH, (assoc_L (++)%list).
Qed.

Lemma audit_roles_app roles acc :
  foldl audit_role acc roles = (acc ++ mjoin ((fun role => mjoin (audit_rule ("Role/" +:+ o_name role) <$> role_rules role)) <$> roles))%list.
Proof.
  revert acc. induction roles as [|r roles IH]; intros acc; cbn; [by rewrite app_nil_r|].
  rewrite IH. unfold audit_role. by rewrite auditRules_app, (assoc_L (++)%list).
Qed.

Lemma reported_rule name rule :
  (reported "high" (audit_rule name rule) <-> escalating rule) /\
  (reported "medium" (audit_rule name rule) <-> sensitive rule) /\ ~ reported "low" (audit_rule name rule).
Proof.
  unfold audit_rule, wildcard_verb, escalation_verb, resource_findings, escalating, sensitive, sensitiveResources, escalationVerbs.
  repeat setoid_rewrite reported_app. repeat setoid_rewrite reported_mjoin. repeat setoid_rewrite reported_app.
  repeat setoid_rewrite reported_if. repeat setoid_rewrite String.eqb_eq. repeat setoid_rewrite str_in_spec. cbn [af_Severity].
  split_and!; naive_solver.
Qed.

Lemma reported_role sev (roles : list object) (P : PolicyRule -> Prop) :
  (forall name rule, reported sev (audit_rule name rule) <-> P rule) ->
  reported sev (foldl audit_role [] roles) <-> exists role rule, role ∈ roles /\ rule ∈ role_rules role /\ P rule.
Proof.
  intros HP. rewrite audit_roles_app. cbn [app]. rewrite reported_mjoin. setoid_rewrite reported_mjoin.
  setoid_rewrite HP. naive_solver.
Qed.

Lemma reported_binding sev rbs :
  reported sev (mjoin (binding_findings <$> rbs)) <-> "low" = sev /\ exists rb, rb ∈ rbs /\ binds_cluster_role rb.
Proof.
  unfold binding_findings, binds_cluster_role. rewrite reported_mjoin. setoid_rewrite reported_if.
  setoid_rewrite String.eqb_eq. cbn [af_Severity]. naive_solver.
Qed.

Lemma reported_cluster_binding sev ns crbs :
  reported sev (mjoin (cluster_binding_findings ns <$> crbs)) <-> "medium" = sev /\ exists crb, crb ∈ crbs /\ cluster_wide ns crb.
Proof.
  unfold cluster_binding_findings, subject_findings, cluster_wide. rewrite reported_mjoin. setoid_rewrite reported_mjoin.
  setoid_rewrite reported_if. setoid_rewrite andb_true_iff. setoid_rewrite String.eqb_eq. cbn [af_Severity]. naive_solver.
Qed.

(** The report by severity. *)
Lemma rbac_findings_spec ns roles rbs crbs :
  (reported "high" (rbac_findings ns roles rbs crbs) <->
   exists role rule, role ∈ roles /\ rule ∈ role_rules role /\ escalating rule) /\
  (reported "medium" (rbac_findings ns roles rbs crbs) <->
   (exists role rule, role ∈ roles /\ rule ∈ role_rules role /\ sensitive rule) \/
   (exists crb, crb ∈ crbs /\ cluster_wide ns crb)) /\
  (reported "low" (rbac_findings ns roles rbs crbs) <-> exists rb, rb ∈ rbs /\ binds_cluster_role rb).
Proof.
  unfold rbac_findings. repeat setoid_rewrite reported_app.
  repeat setoid_rewrite reported_binding. repeat setoid_rewrite reported_cluster_binding.
  rewrite (reported_role "high" roles escalating), (reported_role "medium" roles sensitive), (reported_role "low" roles (fun _ => False)).
  - naive_solver.
  - intros name rule. pose proof (reported_rule name rule). tauto.
  - intros name rule. apply reported_rule.
  - intros name rule. apply reported_rule.
Qed.

Lemma default_deny_found policies :
  nr_DefaultDeny (netpol_audit policies) = true <-> exists p, p ∈ policies /\ is_default_deny p = true.
Proof. cbn [netpol_audit nr_DefaultDeny]. rewrite existsb_exists. by setoid_rewrite list_elem_of_In. Qed.
(** Requests inside the namespace only, behind the check on the namespace. *)
Lemma checked_reader_holds {A} ns eval d (body : prog (res A)) h :
  (forall h, holds (every (fun r => is_write r = false /\ (in_namespace r = None \/ in_namespace r = Some ns))) whatever h body) ->
  holds (reader_gate eval d) whatever h (checked_reader ns eval d body).
Proof.
  intros Hb. unfold checked_reader. destruct (CheckNamespace ns); [done|]. hstep.
  eapply holds_mono; [done| |apply checkNamespaceAuthz_read]. intros h2 [[]|err] Hr; [|done].
  eapply holds_mono; [| |eapply (holds_with (may_read eval d ns)); [apply may_read_stable|exact Hr|apply Hb]].
  - intros h3 r [Hm [Hw Hin]]. split; [done|]. intros ns' Heq. destruct Hin as [Hn|Hn]; congruence.
  - done.
Qed.
End lemmas.

(** ** Properties *)

Section properties.
Context `{U : Unicode}.

(** [audit_rbac] reports by severity exactly what it says it looks for, in the
    objects the cluster listed: high when some rule of a Role gives every verb,
    every resource, or a verb that grants or assumes other identities; medium when
    a rule reaches a sensitive resource or a ClusterRoleBinding names a service
    account of the namespace; low when a RoleBinding refers to a ClusterRole. An
    empty report is therefore a proof that none of these is there. *)
Theorem handleAuditRbac_spec ns h :
  holds any_request
    (fun h' r => match r with
                 | Ok findings => exists roles rbs crbs,
                     Ev (KList "roles" ns "") (Ok roles) ∈ h' /\ Ev (KList "rolebindings" ns "") (Ok rbs) ∈ h' /\
                     Ev (KList "clusterrolebindings" "" "") (Ok crbs) ∈ h' /\
                     (reported "high" findings <->
                      exists role rule, role ∈ roles /\ rule ∈ role_rules role /\ escalating rule) /\
                     (reported "medium" findings <->
                      (exists role rule, role ∈ roles /\ rule ∈ role_rules role /\ sensitive rule) \/
                      (exists crb, crb ∈ crbs /\ cluster_wide ns crb)) /\
                     (reported "low" findings <-> exists rb, rb ∈ rbs /\ binds_cluster_role rb)
                 | Err _ => True
                 end) h (handleAuditRbac ns).
Proof.
  unfold handleAuditRbac. hstep. hstep; [done|]. intros [roles|err]; [|done]. hstep. hstep; [done|]. intros [rbs|err]; [|done].
  hstep. hstep; [done|]. intros [crbs|err]; [|done]. exists roles, rbs, crbs. split_and!; [set_solver..| | |]; apply rbac_findings_spec.
Qed.

(** C26: What the server itself creates for an enclave passes the audits: the
    namespace's labels are compliant and nothing above low is found, its two
    network policies give a default deny and no finding whatever their order, and
    its Role and RoleBinding give no high and no low finding - for every
    namespace.  The Role does reach secrets, and that is reported as medium. *)
Theorem provisioned_enclave_passes ns :
  exists nso deny dns role rb,
    creates (CreateNamespace ns) = Some ("namespaces", "", nso) /\
    creates (CreateDefaultDenyPolicy ns) = Some ("networkpolicies", ns, deny) /\
    creates (CreateDNSAllowPolicy ns) = Some ("networkpolicies", ns, dns) /\
    creates (CreateWorkflowRole ns) = Some ("roles", ns, role) /\
    creates (CreateWorkflowRoleBinding ns) = Some ("rolebindings", ns, rb) /\
    sr_Compliant (psa_audit (o_labels nso)) = true /\
    (forall f, f ∈ sr_Findings (psa_audit (o_labels nso)) -> sf_Severity f = "low") /\
    (forall policies, policies ≡ₚ [deny; dns] ->
       nr_DefaultDeny (netpol_audit policies) = true /\ nr_Findings (netpol_audit policies) = []) /\
    (let findings := rbac_findings ns [role] [rb] [] in
     findings <> [] /\ forall f, f ∈ findings -> af_Severity f = "medium").
Proof.
  do 5 eexists. do 5 (split; [reflexivity|]). split; [reflexivity|split; [|split]].
  - intros f Hf. cbn in Hf. set_solver.
  - intros policies Hp. symmetry in Hp. by destruct (Permutation_length_2_inv Hp) as [-> | ->].
  - split; [by vm_compute|]. intros f Hf. cbn in Hf. set_solver.
Qed.

(** A policy that lets everything in goes unnoticed when it is written the way
    the Kubernetes documentation writes it, a rule with no [from]: the audit looks at
    the peers of a rule, and there are none.  Next to the default deny nothing is
    reported. *)
Theorem allow_all_unreported ns name :
  exists open deny,
    creates (CreateDefaultDenyPolicy ns) = Some ("networkpolicies", ns, deny) /\ o_name open = name /\
    admits_everything open = true /\ netpol_audit [deny; open] = 
    {| nr_Policies := [policy_info deny; policy_info open]; nr_Findings := []; nr_DefaultDeny := true |}.
Proof.
  exists (new_object name ns [] [("spec", VMap [("podSelector", VMap []); ("policyTypes", strs ["Ingress"]);
                                               ("ingress", VList [VMap []])])]).
  eexists. split; [reflexivity|]. by split_and!.
Qed.

(** The audits read, and only where the caller may: they change nothing, and every
    request they make inside a namespace comes after that namespace was seen to
    admit the caller.  The listing of ClusterRoleBindings is not in a namespace and
    follows the same check. *)
Theorem audit_tools_guarded eval deployer ns h :
  holds (reader_gate eval deployer) whatever h (audit_rbac eval deployer ns) /\
  holds (reader_gate eval deployer) whatever h (audit_netpol eval deployer ns) /\
  holds (reader_gate eval deployer) whatever h (audit_psa eval deployer ns).
Proof.
  split_and!; apply checked_reader_holds; clear h; intros h.
  - unfold handleAuditRbac. hstep. hstep; [split; [done|by right]|]. intros [roles|err]; [|done]. hstep.
    hstep; [split; [done|by right]|]. intros [rbs|err]; [|done]. hstep. hstep; [split; [done|by left]|]. by intros [crbs|err].
  - unfold handleAuditNetpol. hstep. hstep; [split; [done|by right]|]. by intros [ps|err].
  - unfold handleAuditPsa, GetNamespace. hstep. hstep. hstep; [split; [done|by left]|]. by intros [o|err].
Qed.
End properties.
