(* ===== verification/Quantity.v ===== *)
(** * Resource quantities (k8s.io/apimachinery/pkg/api/resource)

    The quantity type of the Kubernetes library as the code uses it, a parameter
    of the components that read quantities, and a simple implementation the
    examples run against. *)

From S2P Require Import Prelude GoStrings Effects Json.
#[local] Open Scope string_scope.

(** ** Interface *)

(** [ParseQuantity] stands for the decoding of the JSON text; [zero_quantity] is
    the zero value, which a missing map entry gives. *)
Class QuantityLib := {
  Quantity : Type;
  ParseQuantity : string -> Quantity;
  zero_quantity : Quantity;
  quantity_String : Quantity -> string;
  IsZero : Quantity -> bool;
  Value : Quantity -> Z;
  MilliValue : Quantity -> Z;
  AsInt64 : Quantity -> Z * bool;
  NewMilliQuantity : Z -> string -> Quantity;
  quantity_Add : Quantity -> Quantity -> Quantity;
}.

(** What the library documents: the values are of type [int64], and the zero
    value is zero. *)
Class QuantityLaws `(Q : QuantityLib) : Prop := {
  IsZero_zero : IsZero zero_quantity = true;
  Value_int64 : forall q, (- 2 ^ 63 <= Value q < 2 ^ 63)%Z;
  MilliValue_int64 : forall q, (- 2 ^ 63 <= MilliValue q < 2 ^ 63)%Z;
}.

(** A quantity in an API map, under its resource name. *)
Definition quantity_at `{Q : QuantityLib} (m : list (string * value)) (key : string) : option Quantity :=
  match map_get key m with
  | Some (VStr s) => Some (ParseQuantity s)
  | _ => None
  end.
(** Reading a missing entry of a Go map. *)
Definition quantity_of `{Q : QuantityLib} (m : list (string * value)) (key : string) : Quantity :=
  default zero_quantity (quantity_at m key).

(** ** A simple implementation *)

(** A quantity is its thousandths; the texts are a decimal integer, thousandths
    with the suffix m, or a multiple of a power of 1024. *)
Definition suffix_milli (suffix : string) : option Z :=
  if String.eqb suffix "" then Some 1000%Z
  else if String.eqb suffix "m" then Some 1%Z
  else if String.eqb suffix "Ki" then Some (1000 * 2 ^ 10)%Z
  else if String.eqb suffix "Mi" then Some (1000 * 2 ^ 20)%Z
  else if String.eqb suffix "Gi" then Some (1000 * 2 ^ 30)%Z
  else None.
Fixpoint parse_milli (acc : Z) (s : string) : Z :=
  match s with
  | String c s' => if is_digit c then parse_milli (10 * acc + digit_val c) s' else acc * default 0 (suffix_milli s)
  | EmptyString => acc * 1000
  end%Z.
(** Values that do not fit are cut at the range of [int64]. *)
Definition saturate (z : Z) : Z := Z.max (- 2 ^ 63) (Z.min z (2 ^ 63 - 1)).
Definition milli_quantities : QuantityLib :=
  {| Quantity := Z; ParseQuantity := parse_milli 0; zero_quantity := 0%Z;
     quantity_String := fun z => if (z mod 1000 =? 0)%Z then pretty (z / 1000)%Z else pretty z +:+ "m";
     IsZero := fun z => (z =? 0)%Z; Value := fun z => saturate (- ((- z) / 1000)); MilliValue := saturate;
     AsInt64 := fun z => ((z / 1000)%Z, (z mod 1000 =? 0)%Z); NewMilliQuantity := fun z _ => z; quantity_Add := Z.add |}.

Lemma milli_quantities_laws : QuantityLaws milli_quantities.
Proof. constructor; [done|..]; intros q; cbn [Value MilliValue milli_quantities]; unfold saturate; lia. Qed.
