(* ===== verification/Float64.v ===== *)
(** * Double precision numbers

    Go's [float64] as the Standard Library specifies IEEE 754 arithmetic: the
    operations the program uses, computable, and the magnitudes they stay within. *)

From Stdlib Require Import SpecFloat.
From S2P Require Import Prelude.
#[local] Open Scope Z_scope.

(** ** Operations *)

Abbreviation float64 := spec_float (only parsing).
Definition float64_of (z : Z) : float64 := binary_normalize 53 1024 z 0 false.
Definition float64_div : float64 -> float64 -> float64 := SFdiv 53 1024.
Definition float64_mul : float64 -> float64 -> float64 := SFmul 53 1024.

(** Neither infinite nor NaN: what the JSON encoder accepts. *)
Definition finite (x : float64) : Prop :=
  match x with
  | S754_zero _ | S754_finite _ _ _ => True
  | _ => False
  end.

(** ** Magnitudes *)

(** [m * 2 ^ e < 2 ^ B]. *)
Definition fits (m e B : Z) : Prop := e <= B /\ 0 <= m < 2 ^ (B - e).
(** Zero, or of magnitude below 2 to the [B] with an exponent from [lo] on. *)
Definition bounded_by (lo B : Z) (x : float64) : Prop :=
  match x with
  | S754_zero _ => True
  | S754_finite _ m e => lo <= e /\ fits (Z.pos m) e B
  | _ => False
  end.
Definition nonzero (x : float64) : Prop :=
  match x with
  | S754_zero _ => False
  | _ => True
  end.

Lemma digits2_spec p : 2 ^ (Z.pos (digits2_pos p) - 1) <= Z.pos p < 2 ^ Z.pos (digits2_pos p).
Proof.
  assert (digits2_pos p = Pos.size p) as -> by (induction p; simpl; congruence).
  pose proof (Pos.size_gt p) as Hgt. pose proof (Pos.size_le p) as Hle.
  rewrite <- Pos2Z.inj_pow. split; [|lia].
  assert (2 * 2 ^ (Z.pos (Pos.size p) - 1) = 2 ^ Z.pos (Pos.size p)).
  { rewrite <- Z.pow_succ_r by lia. f_equal. lia. }
  rewrite <- Pos2Z.inj_pow in *. lia.
Qed.

Lemma shr_1_half r : 0 <= shr_m r -> shr_m (shr_1 r) = shr_m r / 2.
Proof.
  destruct r as [m r s]. cbn [shr_m]. intros Hm. destruct m as [|[q|q|]|]; cbn [shr_1 shr_m]; try done.
  - rewrite Pos2Z.inj_xI. apply Z.div_unique with 1; lia.
  - rewrite Pos2Z.inj_xO. apply Z.div_unique with 0; lia.
Qed.

Lemma div_pow_nonneg m k : 0 <= m -> 0 <= k -> 0 <= m / 2 ^ k.
Proof. intros. apply Z.div_pos; [lia|]. apply Z.pow_pos_nonneg; lia. Qed.

Lemma div_div_pow m a b : 0 <= a -> 0 <= b -> m / 2 ^ a / 2 ^ b = m / 2 ^ (a + b).
Proof. intros. rewrite Z.div_div by (try apply Z.neq_sym, Z.lt_neq; try apply Z.pow_pos_nonneg; lia). by rewrite Z.pow_add_r by lia. Qed.

Lemma iter_shr_1 p mrs : 0 <= shr_m mrs -> shr_m (SpecFloat.iter_pos shr_1 p mrs) = shr_m mrs / 2 ^ Z.pos p.
Proof.
  revert mrs. induction p as [p IH|p IH|]; intros mrs Hm; cbn [SpecFloat.iter_pos].
  - assert (E0 : shr_m (shr_1 mrs) = shr_m mrs / 2 ^ 1) by (by rewrite shr_1_half).
    assert (E1 : shr_m (SpecFloat.iter_pos shr_1 p (shr_1 mrs)) = shr_m mrs / 2 ^ (1 + Z.pos p)).
    { rewrite IH, E0; [|rewrite E0; apply div_pow_nonneg; lia]. apply div_div_pow; lia. }
    rewrite IH, E1; [|rewrite E1; apply div_pow_nonneg; lia]. rewrite div_div_pow by lia. do 2 f_equal. lia.
  - assert (E1 : shr_m (SpecFloat.iter_pos shr_1 p mrs) = shr_m mrs / 2 ^ Z.pos p) by (by apply IH).
    rewrite IH, E1; [|rewrite E1; apply div_pow_nonneg; lia]. rewrite div_div_pow by lia. do 2 f_equal. lia.
  - by rewrite shr_1_half.
Qed.

Lemma shr_spec mrs e n :
  0 <= shr_m mrs -> (shr mrs e n).2 = e + Z.max 0 n /\ shr_m (shr mrs e n).1 = shr_m mrs / 2 ^ Z.max 0 n.
Proof.
  intros Hm. destruct n as [|p|p]; cbn [shr fst snd].
  - rewrite Z.max_id, Z.pow_0_r, Z.div_1_r. split; [lia|done].
  - rewrite iter_shr_1 by done. split; [lia|]. do 2 f_equal.
  - rewrite Z.max_l, Z.pow_0_r, Z.div_1_r by lia. split; [lia|done].
Qed.

Lemma pow2_pos k : 0 <= k -> 0 < 2 ^ k.
Proof. intros. by apply Z.pow_pos_nonneg. Qed.

(** Shifting to the precision keeps the magnitude. *)
Lemma shr_fexp_fits m e l B :
  fits m e B -> -1074 <= B ->
  let (mrs, e') := shr_fexp 53 1024 m e l in fits (shr_m mrs) e' B /\ e <= e' <= Z.max e (Z.max (B - 53) (-1074)).
Proof.
  intros [He [Hm HmB]] HB. unfold shr_fexp.
  assert (Hrec : shr_m (shr_record_of_loc m l) = m) by (by destruct l as [|[]]).
  set (n := fexp 53 1024 (Zdigits2 m + e) - e).
  destruct (shr_spec (shr_record_of_loc m l) e n) as [H2 H1]; [by rewrite Hrec|].
  destruct (shr _ _ _) as [mrs e']. cbn [fst snd] in H1, H2. rewrite Hrec in H1.
  assert (Hd : m = 0 \/ Zdigits2 m <= B - e).
  { destruct m as [|p|p]; [by left| |lia]. right. pose proof (digits2_spec p) as [Hlo _]. cbn [Zdigits2].
    apply Z.nlt_ge. intros Hlt. assert (2 ^ (B - e) <= 2 ^ (Z.pos (digits2_pos p) - 1)) by (apply Z.pow_le_mono_r; lia). lia. }
  assert (Hdm : m = 0 -> Zdigits2 m = 0) by (by intros ->).
  assert (Hn : e <= e' <= Z.max e (Z.max (B - 53) (-1074))) by (unfold n, fexp, emin in *; lia).
  split; [|done]. split; [lia|]. rewrite H1. split; [apply div_pow_nonneg; lia|].
  apply Z.div_lt_upper_bound; [apply pow2_pos; lia|]. rewrite <- Z.pow_add_r by lia.
  replace (Z.max 0 n + (B - e')) with (B - e) by lia. done.
Qed.

(** A significand that is not zero stays so. *)
Lemma shr_fexp_pos m e l :
  1 <= m -> -1074 <= e -> 1 <= shr_m (shr_fexp 53 1024 m e l).1 /\ e <= (shr_fexp 53 1024 m e l).2.
Proof.
  intros Hm He. unfold shr_fexp.
  assert (Hrec : shr_m (shr_record_of_loc m l) = m) by (by destruct l as [|[]]).
  set (n := fexp 53 1024 (Zdigits2 m + e) - e).
  destruct (shr_spec (shr_record_of_loc m l) e n) as [-> ->]; [rewrite Hrec; lia|]. rewrite Hrec. split; [|lia].
  destruct m as [|p|p]; [lia| |lia]. pose proof (digits2_spec p) as [Hlo _].
  apply Z.div_le_lower_bound; [apply pow2_pos; lia|]. rewrite Z.mul_1_r.
  eapply Z.le_trans; [|exact Hlo]. apply Z.pow_le_mono_r; [lia|]. unfold n, fexp, emin. cbn [Zdigits2]. lia.
Qed.

Lemma fits_round m l e B : fits m e B -> fits (round_nearest_even m l) e (B + 1) /\ m <= round_nearest_even m l.
Proof.
  intros [He [Hm HmB]].
  assert (Hr : m <= round_nearest_even m l <= m + 1) by (destruct l as [|[]]; cbn; try case_match; lia).
  assert (H2 : 2 ^ (B + 1 - e) = 2 * 2 ^ (B - e)) by (rewrite <- Z.pow_succ_r by lia; f_equal; lia).
  unfold fits. split; [|lia]. split; [lia|]. assert (0 < 2 ^ (B - e)) by (apply pow2_pos; lia). lia.
Qed.

Lemma round_aux_bounded sx m e l lo B :
  fits m e B -> lo <= e -> -1074 <= B <= 960 -> bounded_by lo (B + 1) (binary_round_aux 53 1024 sx m e l).
Proof.
  intros Hf Hlo HB. unfold binary_round_aux. pose proof (shr_fexp_fits m e l B Hf) as H1.
  destruct (shr_fexp 53 1024 m e l) as [r1 e1]. destruct H1 as [H1 He1]; [lia|].
  destruct (fits_round _ (loc_of_shr_record r1) _ _ H1) as [H2 _].
  pose proof (shr_fexp_fits _ _ loc_Exact _ H2) as H3.
  destruct (shr_fexp 53 1024 (round_nearest_even _ _) e1 loc_Exact) as [r2 e2]. destruct H3 as [H3 He2]; [lia|].
  pose proof H3 as [Hle [Hnn _]]. destruct (shr_m r2) as [|p|p]; [done| |lia].
  destruct (Z.leb_spec e2 (1024 - 53)); [|lia]. split; [lia|done].
Qed.

Lemma round_aux_nonzero sx m e l : 1 <= m -> -1074 <= e -> nonzero (binary_round_aux 53 1024 sx m e l).
Proof.
  intros Hm He. unfold binary_round_aux. destruct (shr_fexp_pos m e l Hm He) as [Hp He1].
  destruct (shr_fexp 53 1024 m e l) as [r1 e1]. cbn [fst snd] in *.
  assert (Hr : shr_m r1 <= round_nearest_even (shr_m r1) (loc_of_shr_record r1)) by (destruct (loc_of_shr_record r1) as [|[]]; cbn; try case_match; lia).
  destruct (shr_fexp_pos (round_nearest_even (shr_m r1) (loc_of_shr_record r1)) e1 loc_Exact) as [Hp2 _]; [lia..|].
  destruct (shr_fexp 53 1024 _ e1 loc_Exact) as [r2 e2]. cbn [fst] in Hp2. destruct (shr_m r2); [lia| |lia].
  by case_match.
Qed.

Lemma shl_align_spec p ex :
  let k := Z.max 0 (- ex) in Z.pos (shl_align p 0 ex).1 = Z.pos p * 2 ^ k /\ (shl_align p 0 ex).2 = - k.
Proof.
  unfold shl_align. rewrite Z.sub_0_r. destruct ex as [|q|q]; cbn [fst snd Z.opp]; [by rewrite Z.mul_1_r|rewrite Z.max_l, Z.mul_1_r by lia; done|rewrite Z.max_r by lia].
  split; [|done]. pose proof (Zpower.shift_pos_correct q p) as H. unfold Zpower.shift_pos in H. rewrite H.
  rewrite Z.mul_comm. done.
Qed.

(** *** The operations *)

Lemma binary_round_bounded sx p :
  Z.pos p < 2 ^ 64 -> bounded_by (-52) 65 (binary_round 53 1024 sx p 0) /\ nonzero (binary_round 53 1024 sx p 0).
Proof.
  intros Hp. unfold binary_round. set (ex := fexp 53 1024 (Z.pos (digits2_pos p) + 0)).
  destruct (shl_align_spec p ex) as [H1 H2]. destruct (shl_align p 0 ex) as [mz ez]. cbn [fst snd] in *.
  assert (Hk : 0 <= Z.max 0 (- ex) <= 52) by (unfold ex, fexp, emin; lia).
  split; [|apply round_aux_nonzero; lia]. apply (round_aux_bounded _ _ _ _ _ 64); [|lia..].
  unfold fits. rewrite H1, H2. split; [lia|]. replace (64 - - Z.max 0 (- ex)) with (64 + Z.max 0 (- ex)) by lia.
  rewrite Z.pow_add_r by lia. assert (0 < 2 ^ Z.max 0 (- ex)) by (apply pow2_pos; lia). nia.
Qed.

Lemma float64_of_bounded z :
  - 2 ^ 63 <= z < 2 ^ 63 -> bounded_by (-52) 65 (float64_of z) /\ (z <> 0 -> nonzero (float64_of z)).
Proof.
  intros Hz. unfold float64_of, binary_normalize. destruct z as [|p|p]; [done|..];
    (destruct (binary_round_bounded false p); [lia|]); [done|].
  by destruct (binary_round_bounded true p); [lia|].
Qed.

Lemma float64_div_bounded x y : bounded_by (-52) 65 x -> bounded_by (-52) 65 y -> nonzero y -> bounded_by (-1074) 118 (float64_div x y).
Proof.
  intros Hx Hy Hn. destruct x as [sx|sx| |sx mx ex], y as [sy|sy| |sy my ey]; try done.
  destruct Hx as [Hlx [Hex [_ Hmx]]], Hy as [Hly [Hey [_ Hmy]]]. unfold float64_div, SFdiv, SFdiv_core_binary.
  cbv zeta. match goal with |- context [Z.min ?f (ex - ey)] => set (e' := Z.min f (ex - ey)) end. assert (He' : -1074 <= e' <= ex - ey) by (unfold e', fexp, emin; lia).
  set (m' := match ex - ey - e' with Z0 => Z.pos mx | Z.pos _ => Z.shiftl (Z.pos mx) (ex - ey - e') | Z.neg _ => 0 end).
  assert (Hm' : m' = Z.pos mx * 2 ^ (ex - ey - e')).
  { unfold m'. destruct (ex - ey - e') as [|s|s] eqn:Es; [lia|by rewrite Z.shiftl_mul_pow2|lia]. }
  pose proof (Z_div_mod m' (Z.pos my) eq_refl) as Hdm. destruct (Z.div_eucl m' (Z.pos my)) as [q r].
  apply (round_aux_bounded _ _ _ _ _ 117); [|lia..]. split; [lia|].
  assert (Hpow : 0 < 2 ^ (ex - ey - e')) by (apply pow2_pos; lia).
  assert (Hlt : m' < 2 ^ (65 - ey - e')).
  { rewrite Hm'. replace (65 - ey - e') with ((65 - ex) + (ex - ey - e')) by lia. rewrite Z.pow_add_r by lia. nia. }
  assert (2 ^ (65 - ey - e') <= 2 ^ (117 - e')) by (apply Z.pow_le_mono_r; lia). nia.
Qed.

Lemma float64_mul_bounded x y lx ly bx b :
  bounded_by lx bx x -> bounded_by ly b y -> -1074 <= bx + b <= 960 -> bounded_by (lx + ly) (bx + b + 1) (float64_mul x y).
Proof.
  intros Hx Hy HB. destruct x as [sx|sx| |sx mx ex], y as [sy|sy| |sy my ey]; try done.
  destruct Hx as [Hlx [Hex [_ Hmx]]], Hy as [Hly [Hey [_ Hmy]]]. cbn [float64_mul SFmul].
  apply (round_aux_bounded _ _ _ _ _ (bx + b)); [|lia..]. split; [lia|]. rewrite Pos2Z.inj_mul. split; [lia|].
  replace (bx + b - (ex + ey)) with ((bx - ex) + (b - ey)) by lia. rewrite Z.pow_add_r by lia. nia.
Qed.

Lemma bounded_finite lo B x : bounded_by lo B x -> finite x.
Proof. by destruct x. Qed.

(** A percentage of two 64-bit integers is a number. *)
Lemma percent_finite a b :
  - 2 ^ 63 <= a < 2 ^ 63 -> - 2 ^ 63 <= b < 2 ^ 63 -> b <> 0 ->
  finite (float64_mul (float64_div (float64_of a) (float64_of b)) (float64_of 100)).
Proof.
  intros Ha Hb Hne. destruct (float64_of_bounded a Ha) as [Ba _], (float64_of_bounded b Hb) as [Bb Nb].
  eapply bounded_finite, float64_mul_bounded; [apply float64_div_bounded; [done..|by apply Nb]| |].
  - apply float64_of_bounded. lia.
  - lia.
Qed.
