(* ===== verification/Profile.v ===== *)
(** * Cluster profile (pkg/k8s/profile.go)

    A snapshot of what the cluster offers: nodes, runtime classes, network plugin,
    storage, ingress controllers, extensions, the limits of one enclave and the
    observability stack.  Each scan is a program that returns its part of the
    profile with the warnings it adds. *)

From S2P Require Import Prelude GoStrings Guard Annotations Auth Evaluator.
From S2P Require Import Effects K8sOps Unstructured Json Quantity Controller Process AuthzHelpers Deploy Workflow AuditTools.
#[local] Set Warnings "-clear-no-such-hyp".
#[local] Open Scope string_scope.

(** ** Data *)

Record NodeInfo := {
  ni_Labels : gmap string string;
  ni_Allocatable : gmap string string;
  ni_Capacity : gmap string string;
  ni_Name : string;
  ni_OS : string;
  ni_Arch : string;
  ni_KubeletVersion : string;
  ni_KernelVersion : string;
  ni_ContainerRuntime : string;
  ni_Taints : list string;
  ni_Ready : bool;
}.
Record RuntimeClassInfo := { rt_Name : string; rt_Handler : string }.
(** The version is never set. *)
Record CNIInfo := { cni_Name : string; cni_NetworkPolicySupported : bool; cni_EgressSupported : bool }.
Record NetPolInfo := { npi_Supported : bool; npi_InUse : bool }.
Record StorageClassInfo := {
  sc_Name : string;
  sc_Provisioner : string;
  sc_ReclaimPolicy : string;
  sc_IsDefault : bool;
  sc_AllowVolumeExpansion : bool;
  sc_RWXCapable : bool;
}.
Record ExtensionSet := {
  ex_OtherCRDGroups : list string;
  ex_Istio : bool;
  ex_CertManager : bool;
  ex_PrometheusOp : bool;
  ex_ExternalSecrets : bool;
  ex_ArgoCD : bool;
  ex_GatewayAPI : bool;
  ex_MetricsServer : bool;
}.
Record QuotaSummary := {
  qs_CPURequest : string;
  qs_CPULimit : string;
  qs_MemoryRequest : string;
  qs_MemoryLimit : string;
  qs_MaxPods : Z;
}.
Record LimitRangeSummary := {
  lr_DefaultCPURequest : string;
  lr_DefaultCPULimit : string;
  lr_DefaultMemoryRequest : string;
  lr_DefaultMemoryLimit : string;
}.
Record ObservabilityInfo := {
  ob_CollectorEndpoint : string;
  ob_Namespace : string;
  ob_CollectorReady : bool;
  ob_SigNozAvailable : bool;
  ob_Available : bool;
}.
Record ClusterProfile := {
  cp_GeneratedAt : Z;
  cp_CNI : CNIInfo;
  cp_LimitRange : option LimitRangeSummary;
  cp_Quota : option QuotaSummary;
  cp_Exoskeleton : option ExoskeletonInfo;
  cp_Observability : option ObservabilityInfo;
  cp_K8sVersion : string;
  cp_Distribution : string;
  cp_PodSecurity : string;
  cp_Namespace : string;
  cp_RWXNote : string;
  cp_RuntimeClasses : list RuntimeClassInfo;
  cp_Ingress : list string;
  cp_CSIDrivers : list string;
  cp_StorageClasses : list StorageClassInfo;
  cp_Nodes : list NodeInfo;
  cp_Guidance : list string;
  cp_Warnings : list string;
  cp_Extensions : ExtensionSet;
  cp_NetworkPolicy : NetPolInfo;
  cp_GVisor : bool;
}.

Section profile.
Context `{U : Unicode} `{Q : QuantityLib}.

(** ** Version and nodes *)

Definition profileVersion : prog (res string) :=
  try version := call ServerVersion else (fun err => Err (Errorf "get server version: %w" [AErr err])) ;;
  Ret (Ok version).

(** A condition of a node that is ready and true. *)
Definition ready_condition (c : value) : bool :=
  String.eqb (vstring c ["type"]) "Ready" && String.eqb (vstring c ["status"]) "True".
Definition node_ready (n : object) : bool := existsb ready_condition (list_at (o_body n) ["status"; "conditions"]).
Definition quantity_texts (m : list (string * value)) : gmap string string :=
  foldl (fun acc kv => <[kv.1 := match kv.2 with VStr s => quantity_String (ParseQuantity s) | _ => quantity_String zero_quantity end]> acc) ∅ m.
Definition taint_text (t : value) : string :=
  Sprintf "%s=%s:%s" [vstring t ["key"]; vstring t ["value"]; vstring t ["effect"]].

Definition node_info (n : object) : NodeInfo :=
  let body := VMap (o_body n) in
  let info key := vstring body ["status"; "nodeInfo"; key] in
  {| ni_Labels := o_labels n;
     ni_Allocatable := quantity_texts (vmap body ["status"; "allocatable"]);
     ni_Capacity := quantity_texts (vmap body ["status"; "capacity"]);
     ni_Name := o_name n; ni_OS := info "operatingSystem"; ni_Arch := info "architecture";
     ni_KubeletVersion := info "kubeletVersion"; ni_KernelVersion := info "kernelVersion";
     ni_ContainerRuntime := info "containerRuntimeVersion";
     ni_Taints := taint_text <$> list_at (o_body n) ["spec"; "taints"];
     ni_Ready := node_ready n |}.

Definition has_label (labels : gmap string string) (key : string) : bool := bool_decide (is_Some (labels !! key)).
Definition node_distribution (labels : gmap string string) : option string :=
  if has_label labels "eks.amazonaws.com/nodegroup" then Some "eks"
  else if has_label labels "cloud.google.com/gke-nodepool" then Some "gke"
  else if has_label labels "kubernetes.azure.com/agentpool" then Some "aks"
  else if has_label labels "node.k0sproject.io/role" then Some "k0s"
  else match labels !! "node.kubernetes.io/instance-type" with
       | Some it => if Contains (ToLower it) "k3s" then Some "k3s" else None
       | None => None
       end.
Fixpoint detectDistribution (nodes : list object) : string :=
  match nodes with
  | [] => "vanilla"
  | n :: nodes' => match node_distribution (o_labels n) with
                   | Some d => d
                   | None => detectDistribution nodes'
                   end
  end.

Definition profileNodes : prog (res (list NodeInfo * string)) :=
  try nodes := call (KList "nodes" "" "") else (fun err => Err (Errorf "list nodes: %w" [AErr err])) ;;
  Ret (Ok (node_info <$> nodes, detectDistribution nodes)).

(** ** Runtime classes, network plugin and policies *)

Definition runtime_handler (rc : object) : string := vstring (VMap (o_body rc)) ["handler"].
Definition is_gvisor (rc : object) : bool := String.eqb (o_name rc) "gvisor" || Contains (runtime_handler rc) "runsc".
Definition profileRuntimeClasses : prog (res (list RuntimeClassInfo * bool)) :=
  try rcs := call (KList "runtimeclasses" "" "") else (fun err => Err (Errorf "list runtime classes: %w" [AErr err])) ;;
  Ret (Ok ((fun rc => {| rt_Name := o_name rc; rt_Handler := runtime_handler rc |}) <$> rcs, existsb is_gvisor rcs)).

Definition cni (name : string) (supported : bool) : CNIInfo :=
  {| cni_Name := name; cni_NetworkPolicySupported := supported; cni_EgressSupported := supported |}.
Definition pod_cni (pod : object) : option CNIInfo :=
  let app := default "" (o_labels pod !! "k8s-app") in
  let name := o_name pod in
  if String.eqb app "calico-node" then Some (cni "calico" true)
  else if String.eqb app "cilium" then Some (cni "cilium" true)
  else if String.eqb app "kube-router" then Some (cni "kube-router" true)
  else if Contains name "weave" then Some (cni "weave" true)
  else if Contains name "flannel" then Some (cni "flannel" false)
  else if Contains name "kindnet" then Some (cni "kindnet" false)
  else None.
Fixpoint first_cni (pods : list object) : CNIInfo :=
  match pods with
  | [] => cni "unknown" false
  | pod :: pods' => match pod_cni pod with
                    | Some c => c
                    | None => first_cni pods'
                    end
  end.
Definition profileCNI : prog (res CNIInfo) :=
  try pods := call (KList "pods" "kube-system" "") else (fun err => Err (Errorf "list kube-system pods: %w" [AErr err])) ;;
  Ret (Ok (first_cni pods)).

Definition profileNetworkPolicy (c : CNIInfo) : prog (NetPolInfo * list string) :=
  netpols ← call (KList "networkpolicies" "" "");
  Ret (match netpols with
       | Ok items => ({| npi_Supported := cni_NetworkPolicySupported c; npi_InUse := match items with [] => false | _ => true end |}, [])
       | Err err => ({| npi_Supported := cni_NetworkPolicySupported c; npi_InUse := false |},
                     [Sprintf "network policy inspection failed: %v — inUse may be inaccurate" [ErrorText err]])
       end).
(** ** Storage *)

Definition isRWXCapable (provisioner : string) : bool :=
  let lower := ToLower provisioner in
  existsb (Contains lower) ["efs"; "nfs"; "azurefile"; "azure-file"; "cephfs"; "glusterfs"; "rbd"].
Definition storage_class (sc : object) : StorageClassInfo :=
  let body := VMap (o_body sc) in
  let provisioner := vstring body ["provisioner"] in
  {| sc_Name := o_name sc; sc_Provisioner := provisioner;
     sc_ReclaimPolicy := match at_path body ["reclaimPolicy"] with
                         | Some (VStr policy) => policy
                         | _ => "Delete"
                         end;
     sc_IsDefault := String.eqb (ann_get (o_annotations sc) "storageclass.kubernetes.io/is-default-class") "true";
     sc_AllowVolumeExpansion := match at_path body ["allowVolumeExpansion"] with
                                | Some (VBool b) => b
                                | _ => false
                                end;
     sc_RWXCapable := isRWXCapable provisioner |}.
Definition profileStorageClasses : prog (res (list StorageClassInfo * string)) :=
  try scs := call (KList "storageclasses" "" "") else (fun err => Err (Errorf "list storage classes: %w" [AErr err])) ;;
  let infos := storage_class <$> scs in
  Ret (Ok (infos, match infos with
                  | [] => ""
                  | _ => "rwxCapable is inferred from provisioner name only — not verified. Actual RWX support depends on CSI driver version and cluster configuration."
                  end)).
Definition profileCSIDrivers : prog (res (list string)) :=
  try drivers := call (KList "csidrivers" "" "") else (fun err => Err (Errorf "list CSI drivers: %w" [AErr err])) ;;
  Ret (Ok (o_name <$> drivers)).

(** ** Ingress controllers *)

Definition pod_ingress (pod : object) : option string :=
  let label key := default "" (o_labels pod !! key) in
  let name := o_name pod in
  let appName := label "app.kubernetes.io/name" in
  let app := label "app" in
  if String.eqb appName "ingress-nginx" || Contains name "ingress-nginx" then Some "nginx"
  else if String.eqb appName "traefik" || String.eqb app "traefik" then Some "traefik"
  else if String.eqb app "istio-ingressgateway" || Contains name "istio-ingressgateway" then Some "istio"
  else if String.eqb appName "contour" || String.eqb app "contour" then Some "contour"
  else None.
(** The keys of the Go map [seen] come in any order and are sorted. *)
Definition ingress_of (pods : list object) : list string := SortStrings (remove_dups (omap pod_ingress pods)).
Definition profileIngress : prog (list string * list string) :=
  allPods ← call (KList "pods" "" "");
  Ret (match allPods with
       | Err err => ([], [Sprintf "ingress detection skipped: %v — ingress list may be incomplete" [ErrorText err]])
       | Ok pods => (ingress_of pods, [])
       end).

(** ** Extensions *)

(** The switch on the group of a custom resource definition. *)
Inductive crd_kind := Istio | CertManager | PrometheusOp | ExternalSecrets | ArgoCD | GatewayAPI | OtherGroup.
Definition classify_group (group : string) : crd_kind :=
  if HasSuffix group ".istio.io" || String.eqb group "networking.istio.io" || String.eqb group "security.istio.io" then Istio
  else if String.eqb group "cert-manager.io" || HasSuffix group ".cert-manager.io" then CertManager
  else if String.eqb group "monitoring.coreos.com" then PrometheusOp
  else if String.eqb group "external-secrets.io" || HasSuffix group ".external-secrets.io" then ExternalSecrets
  else if String.eqb group "argoproj.io" then ArgoCD
  else if String.eqb group "gateway.networking.k8s.io" then GatewayAPI
  else OtherGroup.
Definition no_extensions : ExtensionSet :=
  {| ex_OtherCRDGroups := []; ex_Istio := false; ex_CertManager := false; ex_PrometheusOp := false;
     ex_ExternalSecrets := false; ex_ArgoCD := false; ex_GatewayAPI := false; ex_MetricsServer := false |}.
(** The name of a definition is [plural.group]. *)
Definition crd_group (crd : object) : option string :=
  i ← IndexByte (o_name crd) ".";
  Some (str_drop (S i) (o_name crd)).
Definition with_kind (ext : ExtensionSet) (k : crd_kind) : ExtensionSet :=
  let on k' old := match k, k' with
                   | Istio, Istio | CertManager, CertManager | PrometheusOp, PrometheusOp
                   | ExternalSecrets, ExternalSecrets | ArgoCD, ArgoCD | GatewayAPI, GatewayAPI => true
                   | _, _ => old
                   end in
  {| ex_OtherCRDGroups := ex_OtherCRDGroups ext; ex_Istio := on Istio (ex_Istio ext);
     ex_CertManager := on CertManager (ex_CertManager ext); ex_PrometheusOp := on PrometheusOp (ex_PrometheusOp ext);
     ex_ExternalSecrets := on ExternalSecrets (ex_ExternalSecrets ext); ex_ArgoCD := on ArgoCD (ex_ArgoCD ext);
     ex_GatewayAPI := on GatewayAPI (ex_GatewayAPI ext); ex_MetricsServer := ex_MetricsServer ext |}.
Definition with_groups (ext : ExtensionSet) (groups : list string) : ExtensionSet :=
  {| ex_OtherCRDGroups := groups; ex_Istio := ex_Istio ext; ex_CertManager := ex_CertManager ext;
     ex_PrometheusOp := ex_PrometheusOp ext; ex_ExternalSecrets := ex_ExternalSecrets ext; ex_ArgoCD := ex_ArgoCD ext;
     ex_GatewayAPI := ex_GatewayAPI ext; ex_MetricsServer := ex_MetricsServer ext |}.
(** The groups in [knownGroups] are the ones listed so far. *)
Definition classify_crd (ext : ExtensionSet) (crd : object) : ExtensionSet :=
  match crd_group crd with
  | None => ext
  | Some group =>
      match classify_group group with
      | OtherGroup => if str_in group (ex_OtherCRDGroups ext) then ext
                      else with_groups ext (ex_OtherCRDGroups ext ++ [group])%list
      | k => with_kind ext k
      end
  end.
Definition maxOtherCRDGroups : nat := 20.
Definition truncate_groups (groups : list string) : list string :=
  if (maxOtherCRDGroups <? length groups)%nat
  then (take maxOtherCRDGroups groups ++ [Sprintf "... and %d more (truncated)" [pretty (length groups - maxOtherCRDGroups)%nat]])%list
  else groups.
Definition classifyExtensions (crds : list object) : ExtensionSet :=
  let ext := foldl classify_crd no_extensions crds in
  with_groups ext (truncate_groups (SortStrings (ex_OtherCRDGroups ext))).
Definition with_metrics (ext : ExtensionSet) : ExtensionSet :=
  {| ex_OtherCRDGroups := ex_OtherCRDGroups ext; ex_Istio := ex_Istio ext; ex_CertManager := ex_CertManager ext;
     ex_PrometheusOp := ex_PrometheusOp ext; ex_ExternalSecrets := ex_ExternalSecrets ext; ex_ArgoCD := ex_ArgoCD ext;
     ex_GatewayAPI := ex_GatewayAPI ext; ex_MetricsServer := true |}.
(** [dynamic]: whether the client has a dynamic interface. *)
Definition profileExtensions (dynamic : bool) : prog (ExtensionSet * list string) :=
  if negb dynamic then Ret (no_extensions, [])
  else
    crdList ← call (KList "customresourcedefinitions" "" "");
    match crdList with
    | Err err => Ret (no_extensions, [Sprintf "extension detection skipped: %v — extensions may be incomplete" [ErrorText err]])
    | Ok crds =>
        msPods ← call (KList "pods" "kube-system" "k8s-app=metrics-server");
        let ext := classifyExtensions crds in
        Ret (match msPods with
             | Ok (_ :: _) => with_metrics ext
             | _ => ext
             end, [])
    end.
(** ** One namespace *)

(** [if v, ok := hard[key]; ok { field = v.String() }] *)
Definition text_at (m : list (string * value)) (key old : string) : string :=
  match quantity_at m key with
  | Some v => quantity_String v
  | None => old
  end.
Definition no_quota : QuotaSummary :=
  {| qs_CPURequest := ""; qs_CPULimit := ""; qs_MemoryRequest := ""; qs_MemoryLimit := ""; qs_MaxPods := 0 |}.
Definition quota_summary (qs : QuotaSummary) (q : object) : QuotaSummary :=
  let hard := vmap (VMap (o_body q)) ["spec"; "hard"] in
  {| qs_CPURequest := text_at hard "requests.cpu" (qs_CPURequest qs); qs_CPULimit := text_at hard "limits.cpu" (qs_CPULimit qs);
     qs_MemoryRequest := text_at hard "requests.memory" (qs_MemoryRequest qs);
     qs_MemoryLimit := text_at hard "limits.memory" (qs_MemoryLimit qs);
     qs_MaxPods := match quantity_at hard "pods" with
                   | Some v => (AsInt64 v).1
                   | None => qs_MaxPods qs
                   end |}.
Definition no_limits : LimitRangeSummary :=
  {| lr_DefaultCPURequest := ""; lr_DefaultCPULimit := ""; lr_DefaultMemoryRequest := ""; lr_DefaultMemoryLimit := "" |}.
Definition limit_item (lr : LimitRangeSummary) (item : value) : LimitRangeSummary :=
  if String.eqb (vstring item ["type"]) "Container" then
    {| lr_DefaultCPURequest := text_at (vmap item ["defaultRequest"]) "cpu" (lr_DefaultCPURequest lr);
       lr_DefaultCPULimit := text_at (vmap item ["default"]) "cpu" (lr_DefaultCPULimit lr);
       lr_DefaultMemoryRequest := text_at (vmap item ["defaultRequest"]) "memory" (lr_DefaultMemoryRequest lr);
       lr_DefaultMemoryLimit := text_at (vmap item ["default"]) "memory" (lr_DefaultMemoryLimit lr) |}
  else lr.
Definition limit_summary (lr : LimitRangeSummary) (r : object) : LimitRangeSummary :=
  foldl limit_item lr (list_at (o_body r) ["spec"; "limits"]).
(** A summary where there is something to summarize. *)
Definition summarize {A} (step : A -> object -> A) (start : A) (x : res (list object)) : option A :=
  match x with
  | Ok (o :: items) => Some (foldl step start (o :: items))
  | _ => None
  end.

Definition profileNamespaceDetails (namespace : string) :
    prog (res (string * option QuotaSummary * option LimitRangeSummary)) :=
  if String.eqb namespace "" then Ret (Ok ("", None, None))
  else
    try ns := call (KGet "namespaces" "" namespace)
      else (fun err => Err (Errorf "get namespace %q: %w" [AStr namespace; AErr err])) ;;
    let podSecurity := default "" (o_labels ns !! "pod-security.kubernetes.io/enforce") in
    quotas ← call (KList "resourcequotas" namespace "");
    lrs ← call (KList "limitranges" namespace "");
    Ret (Ok (podSecurity, summarize quota_summary no_quota quotas, summarize limit_summary no_limits lrs)).

(** ** Observability *)

Definition observabilityNamespace : string := "tentacular-observability".
Definition observabilityCollectorEndpoint : string := "otel-collector.tentacular-observability.svc.cluster.local:4318".
Definition observability (ready signoz : bool) : ObservabilityInfo :=
  {| ob_CollectorEndpoint := observabilityCollectorEndpoint; ob_Namespace := observabilityNamespace;
     ob_CollectorReady := ready; ob_SigNozAvailable := signoz; ob_Available := ready |}.
Definition has_cluster_ip (svc : object) : bool :=
  let ip := vstring (VMap (o_body svc)) ["spec"; "clusterIP"] in
  negb (String.eqb ip "") && negb (String.eqb ip "None").
Definition is_signoz (s : object) : bool := Contains (o_name s) "signoz" || Contains (o_name s) "query-service".
Definition profileObservability : prog (option ObservabilityInfo * list string) :=
  ns ← call (KGet "namespaces" "" observabilityNamespace);
  match ns with
  | Err _ => Ret (None, [])
  | Ok _ =>
      svc ← call (KGet "services" observabilityNamespace "otel-collector");
      match svc with
      | Err err =>
          Ret (Some (observability false false),
               [Sprintf "observability: otel-collector Service not found in %s: %v" [observabilityNamespace; ErrorText err]])
      | Ok svc =>
          let ready := has_cluster_ip svc in
          svcs ← call (KList "services" observabilityNamespace "");
          Ret (Some (observability ready (match svcs with Ok items => existsb is_signoz items | Err _ => false end)),
               if ready then []
               else ["observability: otel-collector Service exists but has no ClusterIP — collector may not be ready"])
      end
  end.

(** ** Guidance *)

Definition rwx_guidance (sc : StorageClassInfo) : list string :=
  if sc_RWXCapable sc
  then [Sprintf "RWX storage (inferred) via StorageClass %q — verify actual RWX support with the CSI driver before use" [sc_Name sc]]
  else [].
Definition deriveGuidance (p : ClusterProfile) : list string :=
  ([if cp_GVisor p then "Use runtime_class: gvisor for untrusted workflow steps"
    else "gVisor not available — omit runtime_class or set it to " +:+ String dquote (String dquote "")] ++
   (if String.eqb (cp_Distribution p) "kind"
    then ["kind cluster detected: set runtime_class: " +:+ String dquote (String dquote "") +:+ " and imagePullPolicy: IfNotPresent"] else []) ++
   (if String.eqb (cni_Name (cp_CNI p)) "unknown"
    then ["WARNING: CNI plugin could not be detected — NetworkPolicy support is unknown; verify manually before relying on egress controls"] else []) ++
   (if ex_Istio (cp_Extensions p)
    then ["Istio detected: NetworkPolicy egress rules must include namespaceSelector for istio-system; mTLS available between pods"] else []) ++
   (if npi_Supported (cp_NetworkPolicy p) && negb (npi_InUse (cp_NetworkPolicy p))
    then ["NetworkPolicy is supported but none exist yet — generated policies will be the first; test egress rules carefully"] else []) ++
   mjoin (rwx_guidance <$> cp_StorageClasses p) ++
   (if existsb sc_RWXCapable (cp_StorageClasses p) then []
    else ["No RWX-capable StorageClass inferred — avoid shared volume mounts across replicas (verify with cluster admin)"]) ++
   match cp_Quota p with
   | Some q => [Sprintf "ResourceQuota active in namespace %q: CPU limit %s, memory limit %s" [cp_Namespace p; qs_CPULimit q; qs_MemoryLimit q]]
   | None => []
   end ++
   (if String.eqb (cp_PodSecurity p) "restricted"
    then ["Namespace enforces restricted PodSecurity — containers must run as non-root with no privilege escalation"] else []) ++
   (if ex_CertManager (cp_Extensions p)
    then ["cert-manager available — TLS certificates can be provisioned automatically"] else []))%list.
Definition with_guidance (p : ClusterProfile) (guidance : list string) : ClusterProfile :=
  {| cp_GeneratedAt := cp_GeneratedAt p; cp_CNI := cp_CNI p; cp_LimitRange := cp_LimitRange p; cp_Quota := cp_Quota p;
     cp_Exoskeleton := cp_Exoskeleton p; cp_Observability := cp_Observability p; cp_K8sVersion := cp_K8sVersion p;
     cp_Distribution := cp_Distribution p; cp_PodSecurity := cp_PodSecurity p; cp_Namespace := cp_Namespace p;
     cp_RWXNote := cp_RWXNote p; cp_RuntimeClasses := cp_RuntimeClasses p; cp_Ingress := cp_Ingress p;
     cp_CSIDrivers := cp_CSIDrivers p; cp_StorageClasses := cp_StorageClasses p; cp_Nodes := cp_Nodes p;
     cp_Guidance := guidance; cp_Warnings := cp_Warnings p; cp_Extensions := cp_Extensions p;
     cp_NetworkPolicy := cp_NetworkPolicy p; cp_GVisor := cp_GVisor p |}.

(** ** The scan *)

Definition ProfileCluster (dynamic : bool) (namespace : string) : prog (res ClusterProfile) :=
  now ← call NowMilli;
  try version := profileVersion else Err ;;
  try nodes := profileNodes else Err ;;
  try rcs := profileRuntimeClasses else Err ;;
  try c := profileCNI else Err ;;
  netpol ← profileNetworkPolicy c;
  try scs := profileStorageClasses else Err ;;
  try drivers := profileCSIDrivers else Err ;;
  ingress ← profileIngress;
  ext ← profileExtensions dynamic;
  try details := profileNamespaceDetails namespace else Err ;;
  obs ← profileObservability;
  let profile :=
    {| cp_GeneratedAt := now; cp_CNI := c; cp_LimitRange := details.2; cp_Quota := details.1.2; cp_Exoskeleton := None;
       cp_Observability := obs.1; cp_K8sVersion := version; cp_Distribution := nodes.2; cp_PodSecurity := details.1.1;
       cp_Namespace := namespace; cp_RWXNote := scs.2; cp_RuntimeClasses := rcs.1; cp_Ingress := ingress.1;
       cp_CSIDrivers := drivers; cp_StorageClasses := scs.1; cp_Nodes := nodes.1; cp_Guidance := [];
       cp_Warnings := (netpol.2 ++ ingress.2 ++ ext.2 ++ obs.2)%list; cp_Extensions := ext.1;
       cp_NetworkPolicy := netpol.1; cp_GVisor := rcs.2 |} in
  Ret (Ok (with_guidance profile (deriveGuidance profile))).
End profile.

(** ** Specification *)

(** The flag of a kind of extension. *)
Definition flag (k : crd_kind) (ext : ExtensionSet) : bool :=
  match k with
  | Istio => ex_Istio ext
  | CertManager => ex_CertManager ext
  | PrometheusOp => ex_PrometheusOp ext
  | ExternalSecrets => ex_ExternalSecrets ext
  | ArgoCD => ex_ArgoCD ext
  | GatewayAPI => ex_GatewayAPI ext
  | OtherGroup => false
  end.
(** Some definition is in a group of the kind. *)
Definition has_group (crds : list object) (k : crd_kind) (group : string) : Prop :=
  exists crd, crd ∈ crds /\ crd_group crd = Some group /\ classify_group group = k.

(** The error a request ended in. *)
Definition failure_of (e : event) : option error :=
  match e with
  | Ev (KGet _ _ _) (Err err) | Ev (KList _ _ _) (Err err) | Ev ServerVersion (Err err) => Some err
  | _ => None
  end.
Definition req_of (e : event) : req :=
  match e with
  | Ev r _ => r
  end.
(** What a profile warns about: the text before and after the error. *)
Definition warning (r : req) : option (string * string) :=
  match r with
  | KList "networkpolicies" "" "" => Some ("network policy inspection failed: ", " — inUse may be inaccurate")
  | KList "pods" "" "" => Some ("ingress detection skipped: ", " — ingress list may be incomplete")
  | KList "customresourcedefinitions" "" "" => Some ("extension detection skipped: ", " — extensions may be incomplete")
  | KGet "services" _ _ => Some ("observability: otel-collector Service not found in tentacular-observability: ", "")
  | _ => None
  end.
(** What it does without silently. *)
Definition silent (r : req) : bool :=
  match r with
  | KList "resourcequotas" _ _ | KList "limitranges" _ _ | KList "services" _ _ => true
  | KList "pods" "kube-system" "k8s-app=metrics-server" => true
  | KGet "namespaces" _ "tentacular-observability" => true
  | _ => false
  end.

Section spec.
Context `{U : Unicode} `{Q : QuantityLib}.

(** The failure of a request is told: in a warning that says what failed and cites
    the error; or the profile does without what was asked for. *)
Definition told (ws : list string) (r : req) (err : error) : Prop :=
  match warning r with
  | Some (before, after) => (before +:+ ErrorText err +:+ after) ∈ ws
  | None => silent r = true
  end.
Definition accounted (ws : list string) (h : list event) : Prop :=
  Forall (fun e => forall err, failure_of e = Some err -> told ws (req_of e) err) h.
(** A scan that keeps the account. *)
Definition accounts {A} (p : prog (A * list string)) : Prop :=
  forall ws h, accounted ws h -> holds (every (fun r => is_write r = false)) (fun h' x => accounted (ws ++ x.2)%list h') h p.
(** A scan that passes on the error of the request that failed. *)
Definition failed_with (err : error) (h : list event) : Prop :=
  exists e cause before args, e ∈ h /\ failure_of e = Some cause /\ err = Errorf (before +:+ ": %w") (args ++ [AErr cause])%list.
Definition demands {A} (p : prog (res A)) : Prop :=
  forall ws h, accounted ws h ->
    holds (every (fun r => is_write r = false))
      (fun h' x => match x with Ok _ => accounted ws h' | Err err => failed_with err h' end) h p.
End spec.

(** ** Lemmas *)

Section lemmas.
Context `{U : Unicode} `{Q : QuantityLib}.

Lemma has_group_one crd k g : has_group [crd] k g <-> crd_group crd = Some g /\ classify_group g = k.
Proof. unfold has_group. setoid_rewrite list_elem_of_singleton. naive_solver. Qed.

Lemma flag_with_kind k k' ext : k <> OtherGroup -> flag k (with_kind ext k') = true <-> flag k ext = true \/ k' = k.
Proof. destruct k, k'; cbn; naive_solver. Qed.

Lemma classify_step ext crd :
  let ext' := classify_crd ext crd in
  (NoDup (ex_OtherCRDGroups ext) -> NoDup (ex_OtherCRDGroups ext')) /\
  (forall g, g ∈ ex_OtherCRDGroups ext' <-> g ∈ ex_OtherCRDGroups ext \/ has_group [crd] OtherGroup g) /\
  (forall k, k <> OtherGroup -> flag k ext' = true <-> flag k ext = true \/ exists g, has_group [crd] k g).
Proof.
  unfold classify_crd. cbv zeta. setoid_rewrite has_group_one.
  destruct (crd_group crd) as [group|] eqn:Hg; [|naive_solver].
  assert (Hkind : forall kind, kind <> OtherGroup -> classify_group group = kind ->
    (NoDup (ex_OtherCRDGroups ext) -> NoDup (ex_OtherCRDGroups (with_kind ext kind))) /\
    (forall g, g ∈ ex_OtherCRDGroups (with_kind ext kind) <->
               g ∈ ex_OtherCRDGroups ext \/ (Some group = Some g /\ classify_group g = OtherGroup)) /\
    (forall k, k <> OtherGroup -> flag k (with_kind ext kind) = true <->
               flag k ext = true \/ exists g, Some group = Some g /\ classify_group g = k)).
  { intros kind Hne Hk. split_and!; [done| |].
    - intros g. cbn. split; [by left|]. intros [H|[[= <-] H]]; congruence.
    - intros k Hk'. rewrite flag_with_kind by done. naive_solver. }
  destruct (classify_group group) eqn:Hk; try by apply Hkind. clear Hkind.
  destruct (str_in group _) eqn:Hin.
  - apply str_in_spec in Hin. split_and!; [done| |].
    + intros g. split; [by left|]. by intros [H|[[= <-] _]].
    + intros k Hne. split; [by left|]. intros [H|(g & [= <-] & H)]; congruence.
  - assert (Hni : ~ group ∈ ex_OtherCRDGroups ext) by (rewrite <- str_in_spec, Hin; done). split_and!.
    + intros HN. cbn. apply NoDup_app. split_and!; [done| |apply NoDup_singleton]. set_solver.
    + intros g. cbn. rewrite elem_of_app, list_elem_of_singleton. naive_solver.
    + intros k Hne. transitivity (flag k ext = true); [by destruct k|]. split; [by left|].
      intros [H|(g & [= <-] & H)]; congruence.
Qed.

Lemma classify_fold crds ext :
  NoDup (ex_OtherCRDGroups ext) ->
  let ext' := foldl classify_crd ext crds in
  NoDup (ex_OtherCRDGroups ext') /\
  (forall g, g ∈ ex_OtherCRDGroups ext' <-> g ∈ ex_OtherCRDGroups ext \/ has_group crds OtherGroup g) /\
  (forall k, k <> OtherGroup -> flag k ext' = true <-> flag k ext = true \/ exists g, has_group crds k g).
Proof.
  revert ext. induction crds as [|crd crds IH]; intros ext HN; cbn.
  - unfold has_group. setoid_rewrite elem_of_nil. naive_solver.
  - destruct (classify_step ext crd) as (HN' & Ho & Hf). destruct (IH _ (HN' HN)) as (IHn & IHo & IHf).
    assert (Hcons : forall k g, has_group (crd :: crds) k g <-> has_group [crd] k g \/ has_group crds k g).
    { intros k g. unfold has_group. setoid_rewrite elem_of_cons. setoid_rewrite elem_of_nil. naive_solver. }
    split_and!; [done| |].
    + intros g. rewrite IHo, Ho, Hcons. tauto.
    + intros k Hne. rewrite (IHf k Hne), (Hf k Hne). setoid_rewrite Hcons. naive_solver.
Qed.

Lemma truncate_groups_length groups : (length (truncate_groups groups) <= S maxOtherCRDGroups)%nat.
Proof.
  unfold truncate_groups. destruct (maxOtherCRDGroups <? length groups)%nat eqn:E.
  - rewrite length_app, length_take. cbn [length]. apply Nat.ltb_lt in E. lia.
  - apply Nat.ltb_ge in E. lia.
Qed.

Lemma flag_with_groups k ext groups : flag k (with_groups ext groups) = flag k ext.
Proof. by destruct k. Qed.

Lemma detectDistribution_values nodes : detectDistribution nodes ∈ ["eks"; "gke"; "aks"; "k0s"; "k3s"; "vanilla"].
Proof.
  induction nodes as [|n nodes IH]; cbn [detectDistribution]; [set_solver|]. unfold node_distribution.
  repeat (case_match; simplify_eq; [set_solver|]). repeat case_match; simplify_eq; set_solver.
Qed.

Lemma told_mono ws ws' r err : ws ⊆ ws' -> told ws r err -> told ws' r err.
Proof. unfold told. intros Hs. destruct (warning r) as [[? ?]|]; [apply Hs|done]. Qed.
Lemma accounted_mono ws ws' h : ws ⊆ ws' -> accounted ws h -> accounted ws' h.
Proof. intros Hs Hh. eapply Forall_impl; [exact Hh|]. cbn. intros e He err Hf. eapply told_mono; [exact Hs|auto]. Qed.

Lemma accounted_cons ws r x h :
  (forall err, failure_of (Ev r x) = Some err -> told ws r err) -> accounted ws h -> accounted ws (Ev r x :: h).
Proof. intros H Hh. by constructor. Qed.

Lemma demand_list {A} k ns sel before args (f : list object -> A) :
  demands (try items := call (KList k ns sel) else (fun err => Err (Errorf (before +:+ ": %w") (args ++ [AErr err])%list)) ;; Ret (Ok (f items))).
Proof.
  intros ws h Hh. hstep. hstep; [done|]. intros [items|err]; cbn [holds].
  - by apply accounted_cons.
  - eexists _, err, before, args. split; [by left|]. done.
Qed.

Lemma profileVersion_demands : demands profileVersion.
Proof.
  intros ws h Hh. unfold profileVersion. hstep. hstep; [done|]. intros [v|err]; cbn [holds].
  - by apply accounted_cons.
  - eexists _, err, "get server version", []. split; [by left|]. done.
Qed.

Lemma accounts_call {A} r (f : resp r -> A * list string) :
  is_write r = false ->
  (forall x err, failure_of (Ev r x) = Some err -> told (f x).2 r err) ->
  accounts (x ← call r; Ret (f x)).
Proof.
  intros Hr Hf ws h Hh. apply holds_call_bind; [done|]. intros x. cbn [holds]. apply accounted_cons.
  - intros err He. eapply told_mono; [|by apply Hf]. set_solver.
  - eapply accounted_mono; [|exact Hh]. set_solver.
Qed.

Lemma told_last ws w r err before after :
  warning r = Some (before, after) -> w = before +:+ ErrorText err +:+ after -> told (ws ++ [w]) r err.
Proof. unfold told. intros -> ->. apply elem_of_app. right. by left. Qed.

Lemma profileNetworkPolicy_accounts c : accounts (profileNetworkPolicy c).
Proof.
  apply (accounts_call _ (fun x => _)); [done|]. intros [items|e] err Hf; [done|]. injection Hf as <-. by eapply (told_last []).
Qed.

Lemma profileIngress_accounts : accounts profileIngress.
Proof.
  apply (accounts_call _ (fun x => _)); [done|]. intros [items|e] err Hf; [done|]. injection Hf as <-. by eapply (told_last []).
Qed.

Lemma profileExtensions_accounts dynamic : accounts (profileExtensions dynamic).
Proof.
  intros ws h Hh. unfold profileExtensions. destruct (negb dynamic); [by cbn; rewrite app_nil_r|].
  apply holds_call_bind; [done|]. intros [crds|e]; cbn [holds snd].
  - apply holds_call_bind; [done|]. intros x. cbn [holds snd]. rewrite app_nil_r.
    apply accounted_cons; [done|]. by apply accounted_cons.
  - apply accounted_cons.
    + intros err [= <-]. by eapply told_last.
    + eapply accounted_mono; [|exact Hh]. set_solver.
Qed.

Lemma profileNamespaceDetails_demands namespace : demands (profileNamespaceDetails namespace).
Proof.
  intros ws h Hh. unfold profileNamespaceDetails. destruct (String.eqb namespace ""); [done|]. hstep. hstep; [done|].
  intros [ns|err]; cbn [holds].
  - apply holds_call_bind; [done|]. intros qs. apply holds_call_bind; [done|]. intros lrs. cbn [holds].
    repeat (apply accounted_cons; [done|]). done.
  - eexists _, err, "get namespace %q", [_]. split; [by left|]. done.
Qed.

Lemma profileObservability_accounts : accounts profileObservability.
Proof.
  intros ws h Hh. unfold profileObservability. apply holds_call_bind; [done|]. intros [ns|e]; cbn [holds snd].
  - apply holds_call_bind; [done|]. intros [svc|e]; cbn [holds snd].
    + apply holds_call_bind; [done|]. intros x. cbn [holds snd]. repeat (apply accounted_cons; [done|]).
      eapply accounted_mono; [|exact Hh]. set_solver.
    + apply accounted_cons; [|apply accounted_cons; [done|eapply accounted_mono; [|exact Hh]; set_solver]].
      intros err [= <-]. eapply told_last; [done|]. cbn. by rewrite str_app_nil_r.
  - rewrite app_nil_r. by apply accounted_cons.
Qed.
End lemmas.

(** ** Properties *)

Section properties.
Context `{U : Unicode} `{Q : QuantityLib}.

(** The extensions of a cluster are exactly the groups its custom resource
    definitions are in: an extension is reported when some definition is in one of
    its groups, and the other groups are listed once each in alphabetical order, as
    far as twenty of them go, with a line that counts the rest.  Nothing depends on
    the order in which the cluster lists the definitions. *)
Theorem classifyExtensions_spec crds :
  let ext := classifyExtensions crds in
  (forall k, k <> OtherGroup -> flag k ext = true <-> exists g, has_group crds k g) /\
  (length (ex_OtherCRDGroups ext) <= 21)%nat /\
  exists groups, ex_OtherCRDGroups ext = truncate_groups groups /\ NoDup groups /\
    StronglySorted (fun a b => str_leb a b = true) groups /\ (forall g, g ∈ groups <-> has_group crds OtherGroup g) /\
    (forall crds', crds' ≡ₚ crds -> classifyExtensions crds' = ext).
Proof.
  cbv zeta. destruct (classify_fold crds no_extensions) as (HN & Ho & Hf); [constructor|].
  assert (Hmem : forall g, g ∈ SortStrings (ex_OtherCRDGroups (foldl classify_crd no_extensions crds)) <-> has_group crds OtherGroup g).
  { intros g. rewrite (SortStrings_perm _), Ho. cbn. rewrite elem_of_nil. tauto. }
  split_and!.
  - intros k Hne. unfold classifyExtensions. rewrite flag_with_groups, Hf by done. destruct k; cbn; naive_solver.
  - apply truncate_groups_length.
  - eexists. split_and!; [reflexivity|by rewrite SortStrings_perm|apply SortStrings_sorted|exact Hmem|].
    intros crds' Hp. destruct (classify_fold crds' no_extensions) as (HN' & Ho' & Hf'); [constructor|].
    assert (Hg : forall k g, has_group crds' k g <-> has_group crds k g).
    { intros k g. unfold has_group. by setoid_rewrite Hp. }
    assert (Hflag : forall k, k <> OtherGroup -> flag k (foldl classify_crd no_extensions crds') = flag k (foldl classify_crd no_extensions crds)).
    { intros k Hne. apply Bool.eq_iff_eq_true. rewrite Hf, Hf' by done. by setoid_rewrite Hg. }
    assert (Hms : forall l ext, ex_MetricsServer (foldl classify_crd ext l) = ex_MetricsServer ext).
    { clear. induction l as [|crd l IH]; intros ext; cbn; [done|]. rewrite IH. unfold classify_crd. by repeat case_match. }
    unfold classifyExtensions, with_groups. f_equal; [|by apply (Hflag Istio)|by apply (Hflag CertManager)|by apply (Hflag PrometheusOp)
      |by apply (Hflag ExternalSecrets)|by apply (Hflag ArgoCD)|by apply (Hflag GatewayAPI)|by rewrite !Hms].
    f_equal. apply SortStrings_ext, NoDup_Permutation; [done..|]. intros g. rewrite Ho, Ho'. by rewrite Hg.
Qed.

(** C27: A profile reads only, and it never hides a failure it should tell: when it is
    returned, a failed listing of network policies, of pods for the ingress or of
    custom resource definitions and a failed fetch of the collector service have each
    left the warning that names it and cites its error, and nothing else failed but
    quotas, limit ranges, the observability namespace and its services and the search
    for the metrics server, which it does without; when none is returned, the error
    wraps the one of a request that failed. *)
Theorem ProfileCluster_accounted dynamic namespace :
  holds (every (fun r => is_write r = false))
    (fun h x => match x with
                | Ok p => accounted (cp_Warnings p) h
                | Err err => failed_with err h
                end) [] (ProfileCluster dynamic namespace).
Proof.
  unfold ProfileCluster. apply holds_call_bind; [done|]. intros now.
  assert (H0 : accounted [] [Ev NowMilli now]) by (by apply accounted_cons; [|constructor]).
  hstep. eapply holds_mono; [done| |exact (profileVersion_demands _ _ H0)]. clear. intros h1 [version|err] H1; [|exact H1].
  hstep. eapply holds_mono; [done| |exact (demand_list _ _ _ "list nodes" [] _ _ _ H1)]. clear. intros h2 [nodes|err] H2; [|exact H2].
  hstep. eapply holds_mono; [done| |exact (demand_list _ _ _ "list runtime classes" [] _ _ _ H2)]. clear. intros h3 [rcs|err] H3; [|exact H3].
  hstep. eapply holds_mono; [done| |exact (demand_list _ _ _ "list kube-system pods" [] _ _ _ H3)]. clear. intros h4 [c|err] H4; [|exact H4].
  apply holds_bind. eapply holds_mono; [done| |exact (profileNetworkPolicy_accounts c _ _ H4)]. clear. intros h5 netpol H5.
  hstep. eapply holds_mono; [done| |exact (demand_list _ _ _ "list storage classes" [] _ _ _ H5)]. clear. intros h6 [scs|err] H6; [|exact H6].
  hstep. eapply holds_mono; [done| |exact (demand_list _ _ _ "list CSI drivers" [] _ _ _ H6)]. clear. intros h7 [drivers|err] H7; [|exact H7].
  apply holds_bind. eapply holds_mono; [done| |exact (profileIngress_accounts _ _ H7)]. clear. intros h8 ingress H8.
  apply holds_bind. eapply holds_mono; [done| |exact (profileExtensions_accounts dynamic _ _ H8)]. clear. intros h9 ext H9.
  hstep. eapply holds_mono; [done| |exact (profileNamespaceDetails_demands namespace _ _ H9)]. clear.
  intros h10 [details|err] H10; [|exact H10].
  apply holds_bind. eapply holds_mono; [done| |exact (profileObservability_accounts _ _ H10)]. clear. intros h11 obs H11.
  cbn [holds cp_Warnings with_guidance]. cbn [app] in H11. by rewrite <- !(assoc_L (++)%list) in H11.
Qed.

(** The guidance for kind clusters can never be given: no node makes the
    distribution kind. *)
Theorem kind_never_detected nodes : detectDistribution nodes <> "kind".
Proof. intros H. pose proof (detectDistribution_values nodes) as Hv. rewrite H in Hv. set_solver. Qed.

(** The quota that provisioning creates sets requests; the guidance reads the
    limits and so tells a workflow author of an empty CPU and memory limit. *)
Theorem quota_guidance_blank ns preset q p :
  creates (CreateResourceQuota ns preset) = Some ("resourcequotas", ns, q) ->
  cp_Namespace p = ns -> cp_Quota p = summarize quota_summary no_quota (Ok [q]) ->
  Sprintf "ResourceQuota active in namespace %q: CPU limit %s, memory limit %s" [ns; ""; ""] ∈ deriveGuidance p.
Proof.
  unfold CreateResourceQuota. destruct (quotaPresets !! preset) as [qp|]; [|done]. intros [= <-] Hns Hq.
  unfold deriveGuidance. rewrite Hq, Hns. do 7 (apply elem_of_app; right). apply elem_of_app; left. by left.
Qed.
End properties.
