(* ===== verification/Health.v ===== *)
(** * Health of nodes and quotas (pkg/tools/health.go)

    The three read-only health tools.  Percentages are IEEE 754 double precision
    numbers, computed here with the Standard Library's specification of
    floating-point arithmetic. *)

From Stdlib Require Import SpecFloat.
From S2P Require Import Prelude GoStrings Guard Annotations Auth Evaluator.
From S2P Require Import Effects K8sOps Unstructured Json Quantity Float64 AuthzHelpers Deploy Workflow AuditTools Profile.
#[local] Set Warnings "-clear-no-such-hyp".
#[local] Open Scope string_scope.

(** ** Data *)

Record NodeConditionInfo := { nc_Type : string; nc_Status : string }.
Record HealthNodeInfo := {
  hn_Name : string;
  hn_CPUCapacity : string;
  hn_MemCapacity : string;
  hn_CPUAllocatable : string;
  hn_MemAllocatable : string;
  hn_KubeletVersion : string;
  hn_Conditions : list NodeConditionInfo;
  hn_Ready : bool;
}.

Record HealthNsUsageResult := {
  hu_Namespace : string;
  hu_CPUUsed : string;
  hu_CPULimit : string;
  hu_MemUsed : string;
  hu_MemLimit : string;
  hu_PodCount : Z;
  hu_PodLimit : Z;
  hu_CPUPct : float64;
  hu_MemPct : float64;
  hu_PodPct : float64;
}.
Record HealthClusterSummaryResult := {
  hs_CPUCapacity : string;
  hs_CPUAllocatable : string;
  hs_CPURequested : string;
  hs_MemCapacity : string;
  hs_MemAllocatable : string;
  hs_MemRequested : string;
  hs_TotalNodes : nat;
  hs_ReadyNodes : nat;
  hs_TotalPods : nat;
}.

Section health.
Context `{U : Unicode} `{Q : QuantityLib}.

(** ** Nodes *)

(** The conditions other than Ready that are not false. *)
Definition unhealthy (c : value) : bool :=
  negb (String.eqb (vstring c ["type"]) "Ready") && negb (String.eqb (vstring c ["status"]) "False").
Definition condition_info (c : value) : NodeConditionInfo := {| nc_Type := vstring c ["type"]; nc_Status := vstring c ["status"] |}.
Definition conditions (n : object) : list value := list_at (o_body n) ["status"; "conditions"].
Definition health_node (n : object) : HealthNodeInfo :=
  let capacity := vmap (VMap (o_body n)) ["status"; "capacity"] in
  let allocatable := vmap (VMap (o_body n)) ["status"; "allocatable"] in
  {| hn_Name := o_name n; hn_CPUCapacity := text_at capacity "cpu" ""; hn_MemCapacity := text_at capacity "memory" "";
     hn_CPUAllocatable := text_at allocatable "cpu" ""; hn_MemAllocatable := text_at allocatable "memory" "";
     hn_KubeletVersion := vstring (VMap (o_body n)) ["status"; "nodeInfo"; "kubeletVersion"];
     hn_Conditions := condition_info <$> List.filter unhealthy (conditions n); hn_Ready := node_ready n |}.
Definition handleHealthNodes : prog (res (list HealthNodeInfo)) :=
  try nodeList := call (KList "nodes" "" "") else (fun err => Err (Errorf "list nodes: %w" [AErr err])) ;;
  Ret (Ok (health_node <$> nodeList)).

(** ** Usage of a quota *)

Definition pctOf (used limit : Quantity) : float64 :=
  if (MilliValue limit =? 0)%Z then S754_zero false
  else float64_mul (float64_div (float64_of (MilliValue used)) (float64_of (MilliValue limit))) (float64_of 100).
Definition pod_pct (used limit : Z) : float64 :=
  if (0 <? limit)%Z then float64_mul (float64_div (float64_of used) (float64_of limit)) (float64_of 100) else S754_zero false.
(** The used and hard amounts of a resource. *)
Definition quota_pair (quota : object) (key : string) : Quantity * Quantity :=
  (quantity_of (vmap (VMap (o_body quota)) ["status"; "used"]) key,
   quantity_of (vmap (VMap (o_body quota)) ["status"; "hard"]) key).
(** The requests, or the limits where there is no request for CPU. *)
Definition quota_amounts (quota : object) : (Quantity * Quantity) * (Quantity * Quantity) :=
  if IsZero (quota_pair quota "requests.cpu").2
  then (quota_pair quota "limits.cpu", quota_pair quota "limits.memory")
  else (quota_pair quota "requests.cpu", quota_pair quota "requests.memory").
Definition usage (namespace : string) (quota : object) : HealthNsUsageResult :=
  let (cpu, mem) := quota_amounts quota in
  let pods := quota_pair quota "pods" in
  {| hu_Namespace := namespace; hu_CPUUsed := quantity_String cpu.1; hu_CPULimit := quantity_String cpu.2;
     hu_MemUsed := quantity_String mem.1; hu_MemLimit := quantity_String mem.2;
     hu_PodCount := Value pods.1; hu_PodLimit := Value pods.2;
     hu_CPUPct := pctOf cpu.1 cpu.2; hu_MemPct := pctOf mem.1 mem.2; hu_PodPct := pod_pct (Value pods.1) (Value pods.2) |}.
Definition no_quota_usage (namespace : string) (pods : nat) : HealthNsUsageResult :=
  {| hu_Namespace := namespace; hu_CPUUsed := ""; hu_CPULimit := "unlimited"; hu_MemUsed := ""; hu_MemLimit := "unlimited";
     hu_PodCount := Z.of_nat pods; hu_PodLimit := -1; hu_CPUPct := S754_zero false; hu_MemPct := S754_zero false;
     hu_PodPct := S754_zero false |}.
Definition handleHealthNsUsage (namespace : string) : prog (res HealthNsUsageResult) :=
  try quotaList := call (KList "resourcequotas" namespace "")
    else (fun err => Err (Errorf "list resource quotas in namespace %q: %w" [AStr namespace; AErr err])) ;;
  match quotaList with
  | [] =>
      try pods := call (KList "pods" namespace "")
        else (fun err => Err (Errorf "list pods in namespace %q: %w" [AStr namespace; AErr err])) ;;
      Ret (Ok (no_quota_usage namespace (length pods)))
  | quota :: _ => Ret (Ok (usage namespace quota))
  end.

(** ** Cluster summary *)

(** Adding the entry of a resource, if there is one. *)
Definition add_at (total : Quantity) (m : list (string * value)) (key : string) : Quantity :=
  match quantity_at m key with
  | Some v => quantity_Add total v
  | None => total
  end.
Definition total_of (format key : string) (ms : list (list (string * value))) : Quantity :=
  foldl (fun total m => add_at total m key) (NewMilliQuantity 0 format) ms.
Definition node_amounts (field : string) (n : object) : list (string * value) := vmap (VMap (o_body n)) ["status"; field].
Definition container_requests (pod : object) : list (list (string * value)) :=
  (fun c => vmap c ["resources"; "requests"]) <$> list_at (o_body pod) ["spec"; "containers"].
Definition DecimalSI : string := "DecimalSI".
Definition BinarySI : string := "BinarySI".
Definition summary (nodes pods : list object) : HealthClusterSummaryResult :=
  let cap := node_amounts "capacity" <$> nodes in
  let alloc := node_amounts "allocatable" <$> nodes in
  let req := mjoin (container_requests <$> pods) in
  {| hs_CPUCapacity := quantity_String (total_of DecimalSI "cpu" cap); hs_CPUAllocatable := quantity_String (total_of DecimalSI "cpu" alloc);
     hs_CPURequested := quantity_String (total_of DecimalSI "cpu" req);
     hs_MemCapacity := quantity_String (total_of BinarySI "memory" cap); hs_MemAllocatable := quantity_String (total_of BinarySI "memory" alloc);
     hs_MemRequested := quantity_String (total_of BinarySI "memory" req);
     hs_TotalNodes := length nodes; hs_ReadyNodes := length (List.filter node_ready nodes); hs_TotalPods := length pods |}.
Definition handleHealthClusterSummary : prog (res HealthClusterSummaryResult) :=
  try nodes := call (KList "nodes" "" "") else (fun err => Err (Errorf "list nodes: %w" [AErr err])) ;;
  try pods := call (KListFields "pods" "" "status.phase=Running") else (fun err => Err (Errorf "list pods: %w" [AErr err])) ;;
  Ret (Ok (summary nodes pods)).

(** ** The tools *)

(** Only the usage of an enclave is behind a check. *)
Definition health_nodes : prog (res (list HealthNodeInfo)) := handleHealthNodes.
Definition health_enclave_usage (eval : option Evaluator) (deployer : option DeployerInfo) (ns : string) :
    prog (res HealthNsUsageResult) :=
  checked_reader ns eval deployer (handleHealthNsUsage ns).
Definition health_cluster_summary : prog (res HealthClusterSummaryResult) := handleHealthClusterSummary.
End health.

(** ** Specification *)

(** The quota [CreateResourceQuota] creates, and the one [UpdateResourceQuota]
    makes of a quota it found. *)
Definition created_quota (ns preset : string) : option object := (fun x => x.2) <$> creates (CreateResourceQuota ns preset).
Definition updated_quota (ns preset : string) (found : object) : option object :=
  match UpdateResourceQuota ns preset with
  | Call (KGet _ _ _) k => match k (Ok found) with
                           | Call (KUpdate _ _ o) _ => Some o
                           | _ => None
                           end
  | _ => None
  end.
(** The quota controller of the cluster copies the wanted amounts to the status. *)
Definition settled (quota spec : object) : Prop := vmap (VMap (o_body quota)) ["status"; "hard"] = hard spec.

(** ** Lemmas *)

Section lemmas.
Context `{U : Unicode} `{Q : QuantityLib}.

Lemma pctOf_finite `{!QuantityLaws Q} used limit : finite (pctOf used limit).
Proof.
  unfold pctOf. destruct (Z.eqb_spec (MilliValue limit) 0); [done|]. apply percent_finite; [apply MilliValue_int64..|done].
Qed.

Lemma pod_pct_finite used limit :
  (- 2 ^ 63 <= used < 2 ^ 63)%Z -> (- 2 ^ 63 <= limit < 2 ^ 63)%Z -> finite (pod_pct used limit).
Proof. intros Hu Hl. unfold pod_pct. destruct (Z.ltb_spec 0 limit); [|done]. apply percent_finite; [done..|lia]. Qed.

Lemma hard_set_spec o v : hard (set_spec o "hard" (VMap v)) = v.
Proof. unfold hard, set_spec, with_body. cbn [o_body]. rewrite map_get_set. cbn [as_map]. by rewrite map_get_set. Qed.
End lemmas.

(** ** Properties *)

Section properties.
Context `{U : Unicode} `{Q : QuantityLib}.

(** C36: Whatever quota the cluster reports, zero and huge amounts included, the
    percentages of [health_enclave_usage] are finite: no NaN or infinity, which the
    JSON encoder of the answer would refuse, comes out of the divisions. *)
Theorem handleHealthNsUsage_finite `{!QuantityLaws Q} ns h :
  holds any_request
    (fun _ r => match r with
                | Ok u => finite (hu_CPUPct u) /\ finite (hu_MemPct u) /\ finite (hu_PodPct u)
                | Err _ => True
                end) h (handleHealthNsUsage ns).
Proof.
  unfold handleHealthNsUsage. hstep. hstep; [done|]. intros [[|quota quotas]|err]; cbn [holds]; [| |done].
  - hstep. hstep; [done|]. by intros [pods|err].
  - unfold usage. destruct (quota_amounts quota) as [cpu mem].
    cbn [holds hu_CPUPct hu_MemPct hu_PodPct]. split_and!; [apply pctOf_finite..|apply pod_pct_finite; apply Value_int64].
Qed.

(** The usage tool reads back what the server set, although provisioning sets the
    quota as requests and a later change by [enclave_sync] as limits: once the cluster has
    settled, both show the CPU, memory and pods of the preset. *)
Theorem usage_reads_presets `{!QuantityLaws Q} ns preset p quota spec found :
  quotaPresets !! preset = Some p -> IsZero (ParseQuantity (qp_CPU p)) = false ->
  created_quota ns preset = Some spec \/ updated_quota ns preset found = Some spec -> settled quota spec ->
  let u := usage ns quota in
  hu_CPULimit u = quantity_String (ParseQuantity (qp_CPU p)) /\ hu_MemLimit u = quantity_String (ParseQuantity (qp_Mem p)) /\
  hu_PodLimit u = Value (ParseQuantity (pretty (qp_Pods p))).
Proof.
  intros Hp Hz Hspec Hs. unfold usage, quota_amounts, quota_pair. rewrite Hs.
  unfold created_quota, updated_quota, CreateResourceQuota, UpdateResourceQuota in Hspec. rewrite Hp in Hspec.
  destruct Hspec as [[= <-]|[= <-]].
  - unfold quantity_of, quantity_at. cbn -[pretty quantity_String ParseQuantity Value]. rewrite Hz. by split_and!.
  - rewrite hard_set_spec. unfold quantity_of, quantity_at.
    cbn -[pretty quantity_String ParseQuantity Value]. rewrite IsZero_zero. by split_and!.
Qed.
End properties.

(** ** Witnesses *)

Lemma handleHealthNsUsage_finite_witness :
  holds any_request
    (fun _ r => match r with
                | Ok u => finite (hu_CPUPct u) /\ finite (hu_MemPct u) /\ finite (hu_PodPct u)
                | Err _ => True
                end) [] (handleHealthNsUsage (Q := milli_quantities) "team").
Proof. apply (handleHealthNsUsage_finite (Q := milli_quantities) (QuantityLaws0 := milli_quantities_laws)). Defined.

(** A settled quota of the preset medium with a quarter of its CPU in use. *)
Definition settled_quota : object :=
  new_object "tentacular-quota" "team" managed
    [("status", VMap [("hard", VMap [("requests.cpu", VStr "16"); ("requests.memory", VStr "16Gi"); ("pods", VStr "50")]);
                      ("used", VMap [("requests.cpu", VStr "4"); ("requests.memory", VStr "512Mi"); ("pods", VStr "5")])])].

Lemma usage_reads_presets_witness :
  let u := usage (Q := milli_quantities) "team" settled_quota in
  hu_CPULimit u = "16" /\ hu_MemLimit u = "17179869184" /\ hu_PodLimit u = 50%Z.
Proof.
  exact (usage_reads_presets (Q := milli_quantities) (QuantityLaws0 := milli_quantities_laws) "team" "medium"
           {| qp_CPU := "16"; qp_Mem := "16Gi"; qp_Pods := 50 |} settled_quota
           (new_object "tentacular-quota" "team" managed
              [("spec", VMap [("hard", VMap [("requests.cpu", VStr "16"); ("requests.memory", VStr "16Gi");
                                             ("pods", VStr "50")])])])
           settled_quota eq_refl eq_refl (or_introl eq_refl) eq_refl).
Defined.

(** A quarter of the CPU is exactly 25 percent; a third of the pods is rounded. *)
Example usage_percentages :
  hu_CPUPct (usage (Q := milli_quantities) "team" settled_quota) = S754_finite false 7036874417766400 (-48) /\
  pod_pct 1 3 = S754_finite false 4691249611844266 (-47) /\ pod_pct 1 0 = S754_zero false.
Proof. by vm_compute. Qed.
