(* ===== verification/ClusterOps.v ===== *)
(** * Preflight checks and the cluster tools (pkg/k8s/preflight.go, pkg/tools/clusterops.go)

    The checks an enclave passes before work starts, the tools [enclave_preflight]
    and [cluster_profile], and the status of the module proxy (pkg/tools/proxy.go). *)

From S2P Require Import Prelude GoStrings Guard Mode Annotations Auth Evaluator.
From S2P Require Import Effects K8sOps Unstructured Json GoUrl Quantity Proxy Controller Process AuthzHelpers Deploy Workflow AuditTools Profile Health.
#[local] Set Warnings "-clear-no-such-hyp".
#[local] Open Scope string_scope.

(** ** Preflight checks *)

Record CheckResult := { ck_Name : string; ck_Warning : string; ck_Remediation : string; ck_Passed : bool }.
Definition passed (name : string) : CheckResult :=
  {| ck_Name := name; ck_Warning := ""; ck_Remediation := ""; ck_Passed := true |}.

Record rbac_check := { rk_name : string; rk_group : string; rk_resource : string; rk_verb : string }.
Definition rbac_checks : list rbac_check :=
  let check name group resource verb := {| rk_name := name; rk_group := group; rk_resource := resource; rk_verb := verb |} in
  [check "rbac-create-deployments" "apps" "deployments" "create"; check "rbac-create-services" "" "services" "create";
   check "rbac-create-configmaps" "" "configmaps" "create"; check "rbac-create-secrets" "" "secrets" "create";
   check "rbac-create-cronjobs" "batch" "cronjobs" "create"; check "rbac-list-jobs" "batch" "jobs" "list"].

Section preflight.
Context `{U : Unicode}.

Definition checkAPIReachability : prog CheckResult :=
  version ← call ServerVersion;
  Ret (match version with
       | Err err => {| ck_Name := "api-reachability"; ck_Warning := Sprintf "cannot reach API server: %v" [ErrorText err];
                       ck_Remediation := "Verify the cluster is running and the kubeconfig is correct."; ck_Passed := false |}
       | Ok _ => passed "api-reachability"
       end).
Definition checkNamespaceExists (namespace : string) : prog CheckResult :=
  ns ← call (KGet "namespaces" "" namespace);
  Ret (match ns with
       | Err err => {| ck_Name := "namespace-exists"; ck_Warning := Sprintf "namespace %q not found: %v" [namespace; ErrorText err];
                       ck_Remediation := "Create the namespace with: kubectl create namespace " +:+ namespace; ck_Passed := false |}
       | Ok _ => passed "namespace-exists"
       end).
Definition rbac_result (namespace : string) (c : rbac_check) (review : res bool) : CheckResult :=
  match review with
  | Err err => {| ck_Name := rk_name c;
                  ck_Warning := Sprintf "failed to check RBAC for %s/%s: %v" [rk_group c; rk_resource c; ErrorText err];
                  ck_Remediation := "Ensure the service account has the tentacular-workflow role bound."; ck_Passed := false |}
  | Ok false => {| ck_Name := rk_name c;
                   ck_Warning := Sprintf "not allowed to %s %s/%s in namespace %s" [rk_verb c; rk_group c; rk_resource c; namespace];
                   ck_Remediation := "Bind the tentacular-workflow role to the service account."; ck_Passed := false |}
  | Ok true => passed (rk_name c)
  end.
Definition checkRBAC (namespace : string) : prog (list CheckResult) :=
  foldM (fun results c =>
    review ← call (AccessReview namespace (rk_verb c) (rk_group c) (rk_resource c));
    Ret (results ++ [rbac_result namespace c review])%list) rbac_checks [].
Definition has_gvisor_handler (rc : object) : bool :=
  str_in (runtime_handler rc) ["gvisor"; "runsc"].
Definition gvisor_result (rcs : res (list object)) : CheckResult :=
  match rcs with
  | Err _ => {| ck_Name := "gvisor-runtime"; ck_Warning := "Could not list RuntimeClasses; gVisor check skipped.";
                ck_Remediation := ""; ck_Passed := true |}
  | Ok items =>
      if existsb has_gvisor_handler items then passed "gvisor-runtime"
      else {| ck_Name := "gvisor-runtime";
              ck_Warning := "gVisor RuntimeClass not found. Workloads will run without sandbox isolation.";
              ck_Remediation := "Install gVisor and create a RuntimeClass with handler 'runsc' for enhanced isolation.";
              ck_Passed := true |}
  end.
Definition checkGVisor : prog CheckResult :=
  rcs ← call (KList "runtimeclasses" "" "");
  Ret (gvisor_result rcs).

(** The error it returns is always nil. *)
Definition RunPreflightChecks (namespace : string) : prog (res (list CheckResult)) :=
  reachable ← checkAPIReachability;
  exists_ ← checkNamespaceExists namespace;
  rbac ← checkRBAC namespace;
  gvisor ← checkGVisor;
  Ret (Ok ([reachable; exists_] ++ rbac ++ [gvisor])%list).

(** ** The tools *)

Record ClusterPreflightResult := { pf_Checks : list CheckResult; pf_AllPass : bool }.
Definition handleClusterPreflight (namespace : string) : prog (res ClusterPreflightResult) :=
  try checks := RunPreflightChecks namespace else Err ;;
  Ret (Ok {| pf_Checks := checks; pf_AllPass := forallb ck_Passed checks |}).
Definition enclave_preflight (eval : option Evaluator) (deployer : option DeployerInfo) (ns : string) :
    prog (res ClusterPreflightResult) :=
  checked_reader ns eval deployer (handleClusterPreflight ns).

Definition with_exoskeleton (p : ClusterProfile) (info : option ExoskeletonInfo) : ClusterProfile :=
  {| cp_GeneratedAt := cp_GeneratedAt p; cp_CNI := cp_CNI p; cp_LimitRange := cp_LimitRange p; cp_Quota := cp_Quota p;
     cp_Exoskeleton := info; cp_Observability := cp_Observability p; cp_K8sVersion := cp_K8sVersion p;
     cp_Distribution := cp_Distribution p; cp_PodSecurity := cp_PodSecurity p; cp_Namespace := cp_Namespace p;
     cp_RWXNote := cp_RWXNote p; cp_RuntimeClasses := cp_RuntimeClasses p; cp_Ingress := cp_Ingress p;
     cp_CSIDrivers := cp_CSIDrivers p; cp_StorageClasses := cp_StorageClasses p; cp_Nodes := cp_Nodes p;
     cp_Guidance := cp_Guidance p; cp_Warnings := cp_Warnings p; cp_Extensions := cp_Extensions p;
     cp_NetworkPolicy := cp_NetworkPolicy p; cp_GVisor := cp_GVisor p |}.
End preflight.

Section tools.
Context `{U : Unicode} `{Q : QuantityLib} `{UL : GoUrl.UrlLib}.

Definition handleClusterProfile (dynamic : bool) (exoCtrl : option Controller) (namespace : string) :
    prog (res ClusterProfile) :=
  try profile := ProfileCluster dynamic namespace else Err ;;
  Ret (Ok (match exoCtrl with
           | Some ctrl => with_exoskeleton profile (ServiceInfo ctrl)
           | None => profile
           end)).
(** The tool looks at neither the deployer nor the evaluator. *)
Definition cluster_profile (dynamic : bool) (exoCtrl : option Controller) (namespace : string) : prog (res ClusterProfile) :=
  match (if negb (String.eqb namespace "") then CheckNamespace namespace else None) with
  | Some err => Ret (Err err)
  | None => handleClusterProfile dynamic exoCtrl namespace
  end.

Record ProxyStatusResult := {
  ps_Namespace : string;
  ps_Image : string;
  ps_Storage : string;
  ps_Installed : bool;
  ps_Ready : bool;
}.
Definition proxy_status (reconciler : Options) : prog ProxyStatusResult :=
  st ← GetStatus reconciler;
  Ret {| ps_Namespace := op_Namespace reconciler; ps_Image := st_Image st; ps_Storage := st_Storage st;
         ps_Installed := st_Installed st; ps_Ready := st_Ready st |}.
End tools.

(** ** Specification *)

(** What the checks vouch for, read off the history. *)
Definition reachable (h : list event) : Prop := exists v, Ev ServerVersion (Ok v) ∈ h.
Definition exists_ns (ns : string) (h : list event) : Prop := exists o, Ev (KGet "namespaces" "" ns) (Ok o) ∈ h.
Definition granted (ns : string) (c : rbac_check) (h : list event) : Prop :=
  Ev (AccessReview ns (rk_verb c) (rk_group c) (rk_resource c)) (Ok true) ∈ h.
(** Some answer was an error or a refusal. *)
Definition let_down (h : list event) : Prop :=
  (exists e err, e ∈ h /\ failure_of e = Some err) \/
  (exists ns verb group resource x, Ev (AccessReview ns verb group resource) x ∈ h /\ x <> Ok true).

(** ** Lemmas *)

Section lemmas.
Context `{U : Unicode}.

Lemma let_down_app h h' : let_down h -> let_down (h' ++ h)%list.
Proof.
  intros [(e & err & He & Hf)|(ns & verb & group & resource & x & He & Hx)].
  - left. exists e, err. split; [apply elem_of_app; by right|done].
  - right. exists ns, verb, group, resource, x. split; [apply elem_of_app; by right|done].
Qed.

Lemma checkRBAC_holds ns h :
  holds (every (fun r => is_write r = false /\ (in_namespace r = None \/ in_namespace r = Some ns)))
    (fun h' results => (exists new, h' = (new ++ h)%list) /\
       if forallb ck_Passed results then Forall (fun c => granted ns c h') rbac_checks else let_down h') h (checkRBAC ns).
Proof.
  unfold checkRBAC.
  apply (holds_foldM_pre _ (fun pre h' results => (exists new, h' = (new ++ h)%list) /\
           if forallb ck_Passed results then Forall (fun c => granted ns c h') pre else let_down h') _ _ _ []).
  - intros pre c post h1 acc _ [[new ->] Hacc]. apply holds_call_bind; [split; [done|by left]|]. intros x. cbn [holds].
    split; [by exists (Ev (AccessReview ns (rk_verb c) (rk_group c) (rk_resource c)) x :: new)|].
    rewrite forallb_app. cbn [forallb]. rewrite andb_true_r. destruct (forallb ck_Passed acc); cbn [andb].
    + destruct x as [[|]|err]; cbn [ck_Passed rbac_result passed].
      * apply Forall_app. split; [|apply Forall_singleton; by left]. eapply Forall_impl; [exact Hacc|]. intros c' H. by right.
      * right. eexists ns, _, _, _, _. split; [by left|done].
      * right. eexists ns, _, _, _, _. split; [by left|done].
    + by apply (let_down_app _ [_]).
  - done.
  - split; [by exists []|]. by constructor.
Qed.
End lemmas.

(** ** Properties *)

Section properties.
Context `{U : Unicode}.

(** The preflight verdict is right in both directions: the tool never fails, it
    says that everything passes only after the API server gave its version, the
    namespace was found and every permission it lists was granted to the server in
    that namespace; and it says that something does not pass only when some answer
    was an error or a refusal. *)
Theorem handleClusterPreflight_spec ns :
  holds (every (fun r => is_write r = false))
    (fun h r => exists result, r = Ok result /\
       if pf_AllPass result then reachable h /\ exists_ns ns h /\ Forall (fun c => granted ns c h) rbac_checks
       else let_down h) [] (handleClusterPreflight ns).
Proof.
  unfold handleClusterPreflight. apply holds_try. unfold RunPreflightChecks, checkAPIReachability, checkNamespaceExists, checkGVisor.
  apply holds_bind, holds_call_bind; [done|]. intros v. apply holds_bind, holds_call_bind; [done|]. intros o. apply holds_bind.
  eapply holds_mono; [| |apply checkRBAC_holds]; [by intros h r [Hr _]|]. intros h rbac [[new ->] Hrbac].
  apply holds_bind, holds_call_bind; [done|]. intros rcs. cbn [holds]. eexists. split; [reflexivity|]. cbn [pf_AllPass].
  rewrite !forallb_app. cbn [forallb].
  assert (Hg : ck_Passed (gvisor_result rcs) = true) by (destruct rcs as [items|]; cbn; [by destruct (existsb _ items)|done]).
  rewrite Hg, !andb_true_r. destruct v as [v|err]; cbn [ck_Passed passed andb].
  - destruct o as [o|err]; cbn [ck_Passed passed andb].
    + destruct (forallb ck_Passed rbac); [|by apply (let_down_app _ [_])]. split_and!.
      * exists v. set_solver.
      * exists o. set_solver.
      * eapply Forall_impl; [exact Hrbac|]. intros c Hc. by right.
    + left. exists (Ev (KGet "namespaces" "" ns) (Err err)), err. split; [set_solver|done].
  - left. exists (Ev ServerVersion (Err err)), err. split; [set_solver|done].
Qed.
End properties.

(** ** Examples *)

(** Somebody else's enclave, closed to other callers, with a quota. *)
Definition closed_enclave : object :=
  {| o_name := "team"; o_namespace := ""; o_labels := {[ ManagedByLabel := ManagedByValue ]}; o_annotations := ann_example;
     o_resourceVersion := "1"; o_created := 0; o_body := [] |}.
Definition enclave_quota : object :=
  new_object "tentacular-quota" "team" managed
    [("spec", VMap [("hard", VMap [("requests.cpu", VStr "16"); ("requests.memory", VStr "16Gi"); ("pods", VStr "50")])])].
Definition closed_cluster : cluster :=
  with_objects empty_cluster {[ ("namespaces", "", "team") := closed_enclave; ("resourcequotas", "team", "tentacular-quota") := enclave_quota ]}.

Definition outsider : DeployerInfo :=
  {| d_Email := "mallory@y.org"; d_DisplayName := ""; d_Subject := "mallory"; d_Provider := "google"; d_AgentType := "";
     d_SessionID := "" |}.

(** [cluster_profile] checks nobody: a caller that [health_enclave_usage] refuses
    reads the quota of the enclave from the profile. *)
Example profile_without_check :
  (exec (health_enclave_usage (U := ascii_tables) (Q := milli_quantities) (Some (NewEvaluator DefaultMode)) (Some outsider) "team")
     closed_cluster).1 = Err (Errorf "permission denied: %s" [AStr "permission denied: other lacks read access"]) /\
  (cp_Quota <$> match (exec (cluster_profile (U := ascii_tables) (Q := milli_quantities) (UL := no_brackets) true None "team")
                         closed_cluster).1 with Ok p => Some p | Err _ => None end)
  = Some (Some {| qs_CPURequest := "16"; qs_CPULimit := ""; qs_MemoryRequest := "17179869184"; qs_MemoryLimit := ""; qs_MaxPods := 50 |}).
Proof. by vm_compute. Qed.

(** The profile and the preflight disagree on a runtime class named gvisor with a
    handler of its own. *)
Example gvisor_disagreement :
  let rc := new_object "gvisor" "" [] [("handler", VStr "runsc-kvm")] in
  is_gvisor rc = true /\ ck_Warning (gvisor_result (Ok [rc])) <> "".
Proof. by vm_compute. Qed.
