(* ===== verification/Concurrent.v ===== *)
(** * Calls that overlap

    Several programs work on one object of the cluster at the same time, each
    suspended between its requests while the others go on.  The API server numbers
    the versions of the object and refuses an update of another version than the
    current one; an update that takes effect may still be answered with an error,
    and any request may fail.  A program that sends back what it read, changed,
    under the version it read, then acts as one atomic change of the object, however
    the requests interleave. *)

From S2P Require Import Prelude GoStrings Effects.
#[local] Open Scope string_scope.

(** A version number is never the empty text, which stands for any version. *)
Lemma pretty_N_go_nonempty x s : s <> "" -> pretty_N_go x s <> "".
Proof.
  revert s. induction (N.lt_wf_0 x) as [x _ IH]; intros s Hs.
  destruct (decide (x = 0)%N) as [->|Hx]; [done|]. rewrite pretty_N_go_step by lia.
  apply IH; [|done]. apply N.div_lt; lia.
Qed.
Lemma pretty_nat_nonempty (n : nat) : pretty n <> "".
Proof.
  unfold pretty, pretty_nat, pretty, pretty_N. destruct (decide _) as [|Hx]; [done|].
  rewrite pretty_N_go_step by lia. by apply pretty_N_go_nonempty.
Qed.

(** The object a get was answered with. *)
Definition got (e : event) : option object :=
  match e with
  | Ev r x => match r return resp r -> option object with
              | KGet _ _ _ => fun x => match x with Ok o => Some o | Err _ => None end
              | _ => fun _ => None
              end x
  end.

Section object.
Context (k ns name : string).

(** ** The object and its server *)

Record store := { st_object : option object; st_version : nat }.
Definition committed (s : store) (o : object) : store :=
  {| st_object := Some (stamp o (st_version s) ns); st_version := S (st_version s) |}.

(** A request about the object. *)
Definition about (k' ns' name' : string) : bool := String.eqb k' k && String.eqb ns' ns && String.eqb name' name.
Definition concerns (r : req) : bool :=
  match r with
  | KGet k' ns' n | KDelete k' ns' n | KPatch k' ns' n _ => about k' ns' n
  | KCreate k' ns' o | KUpdate k' ns' o => about k' ns' (o_name o)
  | _ => false
  end.

(** How the server answers a request; about anything else than the object, nothing is
    known of the answer. *)
Inductive answers (s : store) : forall r, resp r -> store -> Prop :=
  | answers_other r x : concerns r = false -> answers s r x s
  | answers_get o : st_object s = Some o -> answers s (KGet k ns name) (Ok o) s
  | answers_get_err err : (reason_is NotFound err = true -> st_object s = None) -> answers s (KGet k ns name) (Err err) s
  | answers_create o x : o_name o = name -> st_object s = None -> answers s (KCreate k ns o) x (committed s o)
  | answers_create_err o err : o_name o = name -> answers s (KCreate k ns o) (Err err) s
  | answers_update o cur x :
      o_name o = name -> st_object s = Some cur -> o_resourceVersion o = "" \/ o_resourceVersion o = o_resourceVersion cur ->
      answers s (KUpdate k ns o) x (committed s o)
  | answers_update_err o err : o_name o = name -> answers s (KUpdate k ns o) (Err err) s
  | answers_delete x : answers s (KDelete k ns name) x {| st_object := None; st_version := st_version s |}
  | answers_delete_err err : answers s (KDelete k ns name) (Err err) s
  | answers_patch v o x : st_object s <> None -> answers s (KPatch k ns name v) x (committed s o)
  | answers_patch_err v err : answers s (KPatch k ns name v) (Err err) s.

(** ** Threads *)

(** What a call has asked and got, and what is left of it. *)
Abbreviation thread A := (list event * prog A)%type.
Inductive step {A} : list (thread A) * store -> list (thread A) * store -> Prop :=
  | step_thread ts s i h r kont x s' :
      ts !! i = Some (h, Call r kont) -> answers s r x s' ->
      step (ts, s) (<[i := (Ev r x :: h, kont x)]> ts, s').
Definition started {A} (p : prog A) : thread A := ([], p).

(** ** Atomic changes *)

(** What each thread may make of the object, or create where there is none. *)
Context (change : nat -> object -> object -> Prop) (make : nat -> object -> Prop).

(** The requests of a thread that reads, changes and writes back. *)
Definition rmw (i : nat) (h : list event) (r : req) : Prop :=
  concerns r = true ->
  match r with
  | KGet _ _ _ => True
  | KCreate _ _ o => make i o
  | KUpdate _ _ o =>
      exists o0, Ev (KGet k ns name) (Ok o0) ∈ h /\ o_resourceVersion o = o_resourceVersion o0 /\ change i o0 o
  | _ => False
  end.

(** The abstract system: one thread changes the object, at once. *)
Inductive atomic (i : nat) (s : store) : store -> Prop :=
  | atomic_change cur o : st_object s = Some cur -> o_name o = name -> change i cur o -> atomic i s (committed s o)
  | atomic_make o : st_object s = None -> o_name o = name -> make i o -> atomic i s (committed s o).
Definition atomically (s s' : store) : Prop := exists i, atomic i s s'.

(** ** The simulation *)

Definition versioned (n : nat) (o : object) : Prop :=
  o_name o = name /\ exists m, (m < n)%nat /\ o_resourceVersion o = pretty m.

(** Versions identify contents, and every thread still reads, changes and writes back. *)
Record consistent {A} (Q : nat -> list event -> A -> Prop) (ts : list (thread A)) (s : store) : Prop := {
  con_current cur : st_object s = Some cur -> versioned (st_version s) cur;
  con_thread i h p : ts !! i = Some (h, p) -> holds (rmw i) (Q i) h p;
  con_seen i h p o : ts !! i = Some (h, p) -> Ev (KGet k ns name) (Ok o) ∈ h ->
    versioned (st_version s) o /\
    forall cur, st_object s = Some cur -> o_resourceVersion cur = o_resourceVersion o -> cur = o;
}.

Lemma versioned_mono n n' o : (n <= n')%nat -> versioned n o -> versioned n' o.
Proof. intros Hn (Hname & m & Hm & Ho). split; [done|]. exists m. split; [lia|done]. Qed.
Lemma versioned_stamp o n : o_name o = name -> versioned (S n) (stamp o n ns).
Proof. intros Ho. split; [done|]. exists n. split; [lia|done]. Qed.
Lemma versioned_old o o' n : versioned n o -> o_resourceVersion (stamp o' n ns) <> o_resourceVersion o.
Proof. intros (_ & m & Hm & ->). cbn. intros H%(inj pretty). lia. Qed.

(** One request: the object stays, or changes atomically. *)
Lemma answers_atomic i h r x s s' :
  rmw i h r ->
  (forall o, Ev (KGet k ns name) (Ok o) ∈ h -> versioned (st_version s) o /\
     forall cur, st_object s = Some cur -> o_resourceVersion cur = o_resourceVersion o -> cur = o) ->
  answers s r x s' -> s' = s \/ atomic i s s'.
Proof.
  intros Hr Hseen Ha.
  assert (forall n, about k ns n = true <-> n = name) as Hab.
  { intros n. unfold about. rewrite !String.eqb_refl. cbn [andb]. apply String.eqb_eq. }
  destruct Ha as [r x Hc|o Ho|err _|o x Hn Ho|o err Hn|o cur x Hn Ho Hv|o err Hn|x|err|v o x Ho|v err]; try by left.
  - right. apply atomic_make; [done|done|]. apply Hr. cbn. by apply Hab.
  - right. apply atomic_change with cur; [done|done|].
    destruct Hr as (o0 & Hin & Hrv & Hch); [cbn; by apply Hab|].
    destruct (Hseen o0 Hin) as [(_ & m & _ & Hm) Hsame].
    rewrite (Hsame cur Ho); [done|]. destruct Hv as [Hv|Hv]; [|congruence].
    by destruct (pretty_nat_nonempty m); rewrite <- Hm, <- Hrv.
  - destruct (Hr ltac:(cbn; by apply Hab)).
  - destruct (Hr ltac:(cbn; by apply Hab)).
Qed.

Lemma concerns_get : concerns (KGet k ns name) = true.
Proof. cbn. unfold about. by rewrite !String.eqb_refl. Qed.

(** A get that succeeds shows the object as it is. *)
Lemma answers_get_current s r x s' o :
  answers s r x s' -> Ev r x = Ev (KGet k ns name) (Ok o) -> s' = s /\ st_object s = Some o.
Proof.
  intros Ha. destruct Ha as [r x Hc|o' Ho| | | | | | | | |]; intros He; try (by apply (f_equal got) in He).
  - assert (concerns r = true) as Hc' by (by injection He as -> _; apply concerns_get). congruence.
  - apply (f_equal got) in He. injection He as ->. done.
Qed.

Lemma step_consistent {A} (Q : nat -> list event -> A -> Prop) ts s ts' s' :
  consistent Q ts s -> step (ts, s) (ts', s') ->
  consistent Q ts' s' /\ (s' = s \/ atomically s s').
Proof.
  intros Hc Hstep. inversion Hstep as [ts0 s0 i h r kont x s1 Hi Ha]; subst. clear Hstep.
  pose proof (con_thread _ _ _ Hc i h _ Hi) as [Hr Hk].
  destruct (answers_atomic i h r x s s' Hr (fun o => con_seen _ _ _ Hc i h _ o Hi) Ha) as [->|Hat].
  - split; [|by left]. split.
    + apply Hc.
    + intros j h' p. rewrite list_lookup_insert_Some. intros [(-> & [= <- <-] & _)|[_ Hj]]; [apply Hk|by eapply Hc].
    + intros j h' p o. rewrite list_lookup_insert_Some. intros [(-> & [= <- <-] & _)|[_ Hj]]; [|by eapply Hc].
      rewrite elem_of_cons. intros [He|He]; [|by eapply Hc].
      destruct (answers_get_current _ _ _ _ o Ha (eq_sym He)) as [_ Ho]. split; [exact (con_current _ _ _ Hc _ Ho)|]. intros cur Hcur _. congruence.
  - split; [|right; by exists i].
    assert (exists o, s' = committed s o /\ o_name o = name) as (o & -> & Hname) by (destruct Hat; by eexists).
    split.
    + intros cur [= <-]. by apply versioned_stamp.
    + intros j h' p. rewrite list_lookup_insert_Some. intros [(-> & [= <- <-] & _)|[_ Hj]]; [apply Hk|by eapply Hc].
    + intros j h' p o'. rewrite list_lookup_insert_Some. intros Hj Hin.
      assert (versioned (st_version s) o') as Hv.
      { destruct Hj as [(-> & [= <- <-] & _)|[_ Hj]]; [|by eapply (con_seen _ _ _ Hc)].
        apply elem_of_cons in Hin as [He|Hin]; [|by eapply (con_seen _ _ _ Hc)].
        destruct (answers_get_current _ _ _ _ o' Ha (eq_sym He)) as [_ Ho]. exact (con_current _ _ _ Hc _ Ho). }
      split; [by eapply versioned_mono, Hv; cbn; lia|].
      intros cur [= <-] Hrv. by destruct (versioned_old o' o (st_version s) Hv).
Qed.

Lemma started_consistent {A} (Q : nat -> list event -> A -> Prop) (ps : list (prog A)) s :
  (forall cur, st_object s = Some cur -> versioned (st_version s) cur) ->
  (forall i p, ps !! i = Some p -> holds (rmw i) (Q i) [] p) ->
  consistent Q (started <$> ps) s.
Proof.
  intros Hs Hp. split; [done| |].
  - intros i h p. rewrite list_lookup_fmap_Some. intros (p' & [= -> ->] & Hi). by apply Hp.
  - intros i h p o. rewrite list_lookup_fmap_Some. intros (p' & [= -> ->] & _). by intros ?%elem_of_nil.
Qed.

(** Overlapping threads refine the abstract system. *)
Lemma steps_atomic {A} (Q : nat -> list event -> A -> Prop) c c' :
  consistent Q c.1 c.2 -> rtc step c c' -> consistent Q c'.1 c'.2 /\ rtc atomically c.2 c'.2.
Proof.
  intros Hc Hs. revert Hc. induction Hs as [c|c1 c2 c3 H12 _ IH]; intros Hc; [by split|].
  destruct c1 as [ts1 s1], c2 as [ts2 s2]. destruct (step_consistent Q _ _ _ _ Hc H12) as [Hc2 Hat].
  destruct (IH Hc2) as [Hc3 Hr]. split; [done|]. destruct Hat as [Heq|Hat]; [by rewrite <- Heq|]. by eapply rtc_l.
Qed.

(** ** What a thread wrote *)

(** The server accepted a write of the object. *)
Definition wrote (e : event) : Prop :=
  match e with
  | Ev r x => match r return resp r -> Prop with
              | KCreate k' ns' o | KUpdate k' ns' o => fun x => about k' ns' (o_name o) = true /\ is_ok x = true
              | _ => fun _ => False
              end x
  end.

(** A change of thread [i] is among those that lead from [s] to [s']. *)
Definition took_place (i : nat) (s s' : store) : Prop :=
  exists s1 s2, rtc atomically s s1 /\ atomic i s1 s2 /\ rtc atomically s2 s'.

Lemma took_place_mono i s s1 s2 : took_place i s s1 -> s2 = s1 \/ atomically s1 s2 -> took_place i s s2.
Proof.
  intros (a & b & Ha & Hi & Hb) [->|H]; exists a, b; [done|]. split; [done|]. split; [done|]. by eapply rtc_r.
Qed.
Lemma answers_wrote r x s s' : answers s r x s' -> wrote (Ev r x) -> s' <> s.
Proof.
  assert (forall o, committed s o <> s) as Hnew by (intros o H%(f_equal st_version); cbn in H; lia).
  intros Ha. destruct Ha as [r x Hc| | | | | | | | | |]; cbn; intros Hw; try done; try (by apply Hnew); try by destruct Hw.
  destruct r; cbn in Hc, Hw; try done; destruct Hw; congruence.
Qed.

(** What the server accepted is one of the atomic changes. *)
Lemma steps_took_place {A} (Q : nat -> list event -> A -> Prop) c c' i h p :
  consistent Q c.1 c.2 -> (forall j h' p', c.1 !! j = Some (h', p') -> h' = []) -> rtc step c c' ->
  c'.1 !! i = Some (h, p) -> happened wrote h -> took_place i c.2 c'.2.
Proof.
  intros Hc Hfresh Hs. revert c' Hs i h p.
  refine (rtc_ind_r (fun c' => forall i h p, c'.1 !! i = Some (h, p) -> happened wrote h -> took_place i c.2 c'.2) c _ _);
    [intros i h p Hi Hw|intros c1 c2 H01 H12 IH i h p Hi Hw].
  - rewrite (Hfresh i h p Hi) in Hw. by destruct Hw as (e & ?%elem_of_nil & _).
  - destruct (steps_atomic Q c c1 Hc H01) as [Hc1 H01a].
    inversion H12 as [ts s j h0 r kont x s' Hj Ha]; subst. cbn [fst snd] in *.
    pose proof (con_thread _ _ _ Hc1 j h0 _ Hj) as [Hr _].
    pose proof (answers_atomic j h0 r x s s' Hr (fun o => con_seen _ _ _ Hc1 j h0 _ o Hj) Ha) as Hat.
    assert (s' = s \/ atomically s s') as Hat' by (destruct Hat as [?|?]; [by left|right; by exists j]).
    apply list_lookup_insert_Some in Hi as [(-> & [= <- <-] & _)|[_ Hi]]; [|exact (took_place_mono _ _ _ _ (IH i h p Hi Hw) Hat')].
    destruct Hw as (e & [->|He]%elem_of_cons & Hw).
    + destruct Hat as [Heq|Hat]; [by destruct (answers_wrote r x s s' Ha Hw)|]. by exists s, s'.
    + apply (took_place_mono _ _ s); [|exact Hat']. apply (IH i h0 _ Hj). by exists e.
Qed.

(** ** What lasts *)

Section lasting.
Context {A : Type} (Q : nat -> list event -> A -> Prop) (G : option object -> Prop) (P : nat -> option object -> Prop).

(** A thread's part is done: it saw the object as it wants it, or its write succeeded. *)
Definition evidence (i : nat) (e : event) : Prop :=
  match e with
  | Ev r x => match r return resp r -> Prop with
              | KGet k' ns' n => fun x => about k' ns' n = true /\
                                  match x with Ok o => P i (Some o) | Err err => reason_is NotFound err = true /\ P i None end
              | KCreate k' ns' o | KUpdate k' ns' o => fun x => about k' ns' (o_name o) = true /\ is_ok x = true
              | _ => fun _ => False
              end x
  end.

Context (G_kept : forall i s s', G (st_object s) -> atomic i s s' -> G (st_object s'))
  (P_made : forall i s s', G (st_object s) -> atomic i s s' -> P i (st_object s'))
  (P_kept : forall i j s s', G (st_object s) -> i <> j -> P i (st_object s) -> atomic j s s' -> P i (st_object s')).

Definition settled (c : list (thread A) * store) : Prop :=
  forall i h p, c.1 !! i = Some (h, p) -> happened (evidence i) h -> P i (st_object c.2).

Lemma answers_evidence i r x s s' :
  answers s r x s' -> (s' = s \/ atomic i s s') -> G (st_object s) -> evidence i (Ev r x) -> P i (st_object s').
Proof using P_made.
  intros Ha Hat HG He.
  assert (s' <> s -> P i (st_object s')) as Hch by (intros Hne; destruct Hat as [->|Hat]; [done|exact (P_made _ _ _ HG Hat)]).
  assert (forall o, committed s o <> s) as Hnew.
  { intros o H%(f_equal st_version). cbn in H. lia. }
  destruct Ha as [r x Hc|o Ho|err Herr|o x Hn Ho|o err Hn|o cur x Hn Ho Hv|o err Hn|x|err|v o x Ho|v err]; cbn in He; try done.
  - destruct r; cbn in Hc, He; try done; destruct He; congruence.
  - rewrite Ho. apply He.
  - destruct He as [_ [Hnf HP]]. by rewrite Herr.
  - by apply Hch.
  - by destruct He.
  - by apply Hch.
  - by destruct He.
Qed.

Lemma settled_step c c' :
  consistent Q c.1 c.2 -> G (st_object c.2) -> settled c -> step c c' -> G (st_object c'.2) /\ settled c'.
Proof using G_kept P_made P_kept.
  intros Hc HG Hset Hstep. inversion Hstep as [ts s i h r kont x s' Hi Ha]; subst. cbn [fst snd] in *.
  pose proof (con_thread _ _ _ Hc i h _ Hi) as [Hr _].
  pose proof (answers_atomic i h r x s s' Hr (fun o => con_seen _ _ _ Hc i h _ o Hi) Ha) as Hat.
  assert (G (st_object s')) as HG' by (destruct Hat as [->|Hat]; [done|exact (G_kept _ _ _ HG Hat)]).
  split; [done|]. intros j h' p. cbn [fst snd]. rewrite list_lookup_insert_Some. intros [(-> & [= <- <-] & _)|[Hne Hj]].
  - intros (e & He & Hev). apply elem_of_cons in He as [->|He].
    + by eapply answers_evidence.
    + assert (P j (st_object s)) as HP by (eapply Hset; [exact Hi|by exists e]).
      destruct Hat as [->|Hat]; [done|exact (P_made _ _ _ HG Hat)].
  - intros Hhap. assert (P j (st_object s)) as HP by by eapply Hset.
    destruct Hat as [->|Hat]; [done|]. exact (P_kept j i _ _ HG (not_eq_sym Hne) HP Hat).
Qed.

(** What a thread established is there at the end, whatever the others do. *)
Lemma settled_steps c c' :
  consistent Q c.1 c.2 -> G (st_object c.2) -> settled c -> rtc step c c' -> settled c' /\ consistent Q c'.1 c'.2.
Proof using G_kept P_made P_kept.
  intros Hc HG Hset Hs. revert Hc HG Hset. induction Hs as [c|c1 c2 c3 H12 _ IH]; intros Hc HG Hset; [done|].
  destruct (settled_step c1 c2 Hc HG Hset H12) as [HG2 Hset2].
  apply IH; [|done|done]. destruct c1, c2. by eapply step_consistent.
Qed.
End lasting.
End object.
