(* ===== verification/Overlap.v ===== *)
(** * Registrations and synchronisations that overlap

    The two objects the program changes by reading, editing and writing back - the
    authorization file of NATS and the namespace of an enclave - under any number
    of overlapping calls ([Concurrent]). *)

From S2P Require Import Prelude GoStrings GoTime Guard Annotations ExoConfig Auth Evaluator Identity Effects K8sOps AuthzHelpers NatsRegistrar EnclaveTools Concurrent.
#[local] Open Scope string_scope.

(** ** The NATS authorization file *)

Section nats.
Context `{U : Unicode} (cfg : NATSConfig).

(** A registration or its removal, as the registrar makes it in SPIFFE mode. *)
Inductive nats_op :=
  | AddEntry (id : Identity)
  | RemoveEntry (id : Identity).
Definition op_id (op : nats_op) : Identity := match op with AddEntry id | RemoveEntry id => id end.
Definition nats_call (op : nats_op) : prog (res ()) :=
  match op with
  | AddEntry id => upsertAuthzEntry cfg id
  | RemoveEntry id => unregisterSPIFFE cfg id
  end.

(** What it makes of the entries. *)
Definition not_of (id : Identity) (e : natsAuthzEntry) : bool := negb (String.eqb (ae_User e) (id_Principal id)).
Definition edit (op : nats_op) (es : list natsAuthzEntry) : list natsAuthzEntry :=
  match op with
  | AddEntry id => replace_entry (buildAuthzEntry id) es
  | RemoveEntry id => List.filter (not_of id) es
  end.
Definition nats_change (ops : list nats_op) (i : nat) (cm o : object) : Prop :=
  exists op, ops !! i = Some op /\ o = cm_set cm authz_key (renderAuthzConfig (edit op (parseAuthzConfig (cm_data cm authz_key)))).
Definition nats_make (ops : list nats_op) (i : nat) (o : object) : Prop :=
  exists id, ops !! i = Some (AddEntry id) /\ cm_data o authz_key = renderAuthzConfig [buildAuthzEntry id].

(** The file as a list of entries. *)
Definition entries (cm : option object) : list natsAuthzEntry :=
  match cm with
  | Some cm => parseAuthzConfig (cm_data cm authz_key)
  | None => []
  end.
Definition well_formed (cm : option object) : Prop :=
  match cm with
  | Some cm => exists es, holds_entries cm es
  | None => True
  end.
(** What the call wants of the file. *)
Definition in_effect (ops : list nats_op) (i : nat) (cm : option object) : Prop :=
  match ops !! i with
  | Some (AddEntry id) => buildAuthzEntry id ∈ entries cm
  | Some (RemoveEntry id) => id_Principal id ∉ (ae_User <$> entries cm)
  | None => True
  end.

Context (ops : list nats_op)
  (Htame : forall i op, ops !! i = Some op -> tame_entry (buildAuthzEntry (op_id op)) = true)
  (Hapart : forall i j a b, ops !! i = Some a -> ops !! j = Some b -> i <> j -> id_Principal (op_id a) <> id_Principal (op_id b)).

Lemma not_of_elem id es e : e ∈ List.filter (not_of id) es <-> e ∈ es /\ ae_User e <> id_Principal id.
Proof. unfold not_of. by rewrite !list_elem_of_In, filter_In, negb_true_iff, String.eqb_neq. Qed.
Lemma not_of_users id es : NoDup (ae_User <$> es) -> NoDup (ae_User <$> List.filter (not_of id) es).
Proof.
  induction es as [|e es IH]; [done|]. cbn. intros [He Hes]%NoDup_cons. destruct (not_of id e); [|by apply IH].
  cbn. apply NoDup_cons. split; [|by apply IH]. intros (x & Hx & [Hin _]%not_of_elem)%list_elem_of_fmap.
  destruct He. apply list_elem_of_fmap. by exists x.
Qed.

(** The entries of a well-formed file, read back. *)
Lemma well_formed_entries cm :
  well_formed (Some cm) -> forallb tame_entry (entries (Some cm)) = true /\ NoDup (ae_User <$> entries (Some cm)).
Proof.
  intros (es & Hes & Hnd & Hcm). cbn. rewrite Hcm, parse_render by done. split; [by apply sort_entries_tame|].
  unfold sort_entries. by rewrite isort_perm.
Qed.

Lemma edit_tame op es : tame_entry (buildAuthzEntry (op_id op)) = true -> forallb tame_entry es = true -> forallb tame_entry (edit op es) = true.
Proof.
  intros Hop Hes. destruct op as [id|id]; [by apply replace_entry_tame|]. apply forallb_True. apply forallb_True in Hes.
  rewrite Forall_forall in Hes |- *. intros x [Hx _]%not_of_elem. by apply Hes.
Qed.
Lemma edit_users op es : NoDup (ae_User <$> es) -> NoDup (ae_User <$> edit op es).
Proof. intros Hes. destruct op as [id|id]; [by apply replace_entry_users|by apply not_of_users]. Qed.

(** A change of the file edits its entries and keeps it well-formed. *)
Lemma change_edits cm o n ns op :
  well_formed (Some cm) -> tame_entry (buildAuthzEntry (op_id op)) = true ->
  o = cm_set cm authz_key (renderAuthzConfig (edit op (parseAuthzConfig (cm_data cm authz_key)))) ->
  well_formed (Some (stamp o n ns)) /\ entries (Some (stamp o n ns)) ≡ₚ edit op (entries (Some cm)).
Proof.
  intros Hcm Hop ->. destruct (well_formed_entries cm Hcm) as [Ht Hnd].
  pose proof (edit_tame op _ Hop Ht) as Het. cbn [entries] in *. set (es := edit op _) in *.
  assert (cm_data (stamp (cm_set cm authz_key (renderAuthzConfig es)) n ns) authz_key = renderAuthzConfig es) as Hd
    by exact (cm_data_set cm authz_key _).
  split; [|rewrite Hd, parse_render by done; apply isort_perm].
  exists es. split_and!; [done|by apply edit_users|exact Hd].
Qed.

Lemma make_entry o n ns id :
  tame_entry (buildAuthzEntry id) = true -> cm_data o authz_key = renderAuthzConfig [buildAuthzEntry id] ->
  well_formed (Some (stamp o n ns)) /\ entries (Some (stamp o n ns)) = [buildAuthzEntry id].
Proof.
  intros Hid Ho. assert (forallb tame_entry [buildAuthzEntry id] = true) as Ht by (cbn; by rewrite Hid). split.
  - eexists. split; [exact Ht|]. split; [|exact Ho]. apply NoDup_singleton.
  - cbn [entries]. change (cm_data (stamp o n ns) authz_key) with (cm_data o authz_key). by rewrite Ho, parse_render.
Qed.

Abbreviation nats_atomic := (atomic (nats_AuthzNamespace cfg) (nats_AuthzConfigMap cfg) (nats_change ops) (nats_make ops)) (only parsing).

(** One atomic step of the file, in terms of its entries. *)
Lemma nats_step i s s' :
  well_formed (st_object s) -> nats_atomic i s s' ->
  well_formed (st_object s') /\ exists op, ops !! i = Some op /\ entries (st_object s') ≡ₚ edit op (entries (st_object s)).
Proof using Htame.
  intros Hs [cm o Hcm _ (op & Hop & ->)|o Hnone _ (id & Hop & Ho)]; rewrite ?Hcm, ?Hnone in *; cbn [st_object committed].
  - destruct (change_edits cm _ (st_version s) (nats_AuthzNamespace cfg) op Hs (Htame i op Hop) eq_refl) as [Hw He].
    split; [exact Hw|]. by exists op.
  - destruct (make_entry o (st_version s) (nats_AuthzNamespace cfg) id (Htame i _ Hop) Ho) as [Hw He].
    split; [exact Hw|]. exists (AddEntry id). split; [done|]. by rewrite He.
Qed.

Lemma nats_made i s s' : well_formed (st_object s) -> nats_atomic i s s' -> in_effect ops i (st_object s').
Proof using Htame.
  intros Hs Hat. destruct (nats_step i s s' Hs Hat) as (_ & op & Hop & He). unfold in_effect. rewrite Hop. destruct op as [id|id].
  - rewrite He. apply replace_entry_in.
  - rewrite He. intros (e & Heq & [_ Hne]%not_of_elem)%list_elem_of_fmap. by rewrite Heq in Hne.
Qed.
Lemma nats_kept i j s s' :
  well_formed (st_object s) -> i <> j -> in_effect ops i (st_object s) -> nats_atomic j s s' -> in_effect ops i (st_object s').
Proof using Htame Hapart.
  intros Hs Hij Hi Hat. destruct (nats_step j s s' Hs Hat) as (_ & op & Hop & He). unfold in_effect in *.
  destruct (ops !! i) as [mine|] eqn:Hm; [|done]. pose proof (Hapart i j mine op Hm Hop Hij) as Hne.
  assert (forall e, ae_User e = id_Principal (op_id mine) -> e ∈ entries (st_object s') <-> e ∈ entries (st_object s)) as Hsame.
  { intros e Hu. rewrite He. destruct op as [id|id]; cbn [op_id edit] in *.
    - apply replace_entry_other. cbn. congruence.
    - rewrite not_of_elem. split; [by intros []|]. intros ?. split; [done|congruence]. }
  destruct mine as [id|id]; cbn [op_id] in *.
  - by apply Hsame.
  - intros (e & Hu & Hin)%list_elem_of_fmap. apply Hi, list_elem_of_fmap. exists e. split; [done|]. by apply Hsame.
Qed.

(** What a call that reported success has seen to. *)
Definition seen_to (i : nat) (h : list event) (r : res ()) : Prop :=
  (forall o, Ev (KGet "configmaps" (nats_AuthzNamespace cfg) (nats_AuthzConfigMap cfg)) (Ok o) ∈ h -> o_name o = nats_AuthzConfigMap cfg) ->
  r = Ok () -> happened (evidence "configmaps" (nats_AuthzNamespace cfg) (nats_AuthzConfigMap cfg) (in_effect ops) i) h.

Lemma about_refl k ns name : about k ns name k ns name = true.
Proof. unfold about. by rewrite !String.eqb_refl. Qed.
Lemma same_length_filter {A} (f : A -> bool) l : length (List.filter f l) = length l -> forall x, x ∈ l -> f x = true.
Proof.
  induction l as [|y l IH]; cbn; [by intros _ x ?%elem_of_nil|].
  pose proof (List.filter_length_le f l). destruct (f y) eqn:Hy; cbn; [|lia].
  intros Hl x [->|Hx]%elem_of_cons; [done|]. apply IH; [lia|done].
Qed.

Abbreviation nats_rmw := (rmw "configmaps" (nats_AuthzNamespace cfg) (nats_AuthzConfigMap cfg) (nats_change ops) (nats_make ops)) (only parsing).

Lemma upsert_thread i id :
  ops !! i = Some (AddEntry id) -> holds (nats_rmw i) (seen_to i) [] (upsertAuthzEntry cfg id).
Proof.
  intros Hi. unfold upsertAuthzEntry. cbv zeta. apply holds_call_bind; [done|]. intros [cm|err].
  - apply holds_try. split.
    + intros _. exists cm. split; [by left|]. split; [done|]. by exists (AddEntry id).
    + intros [o|err]; [|by intros _ [=]]. intros Hnamed _. apply happened_now. split; [|done].
      rewrite <- (Hnamed cm) by (right; left). apply about_refl.
  - destruct (reason_is NotFound err); [|by intros _ [=]]. cbn [negb]. apply holds_try. split.
    + intros _. exists id. split; [done|]. reflexivity.
    + intros [o|err']; [|by intros _ [=]]. intros _ _. apply happened_now. split; [apply about_refl|done].
Qed.
Lemma unregister_thread i id :
  ops !! i = Some (RemoveEntry id) -> holds (nats_rmw i) (seen_to i) [] (unregisterSPIFFE cfg id).
Proof.
  intros Hi. unfold unregisterSPIFFE. cbv zeta. apply holds_call_bind; [done|]. intros [cm|err].
  - destruct (Nat.eqb_spec (length (List.filter (not_of id) (parseAuthzConfig (cm_data cm authz_key)))) (length (parseAuthzConfig (cm_data cm authz_key)))) as [Hl|Hl];
      unfold not_of in Hl.
    + rewrite (proj2 (Nat.eqb_eq _ _) Hl). intros _ _. apply happened_now. split; [apply about_refl|].
      unfold in_effect. rewrite Hi. intros (e & Heq & Hin)%list_elem_of_fmap.
      pose proof (same_length_filter _ _ Hl e Hin) as Hne. cbn in Hne. by rewrite <- Heq, String.eqb_refl in Hne.
    + rewrite (proj2 (Nat.eqb_neq _ _) Hl). apply holds_try. split.
      * intros _. exists cm. split; [by left|]. split; [done|]. by exists (RemoveEntry id).
      * intros [o|err]; [|by intros _ [=]]. intros Hnamed _. apply happened_now. split; [|done].
        rewrite <- (Hnamed cm) by (right; left). apply about_refl.
  - destruct (reason_is NotFound err) eqn:Hnf; [|by intros _ [=]]. intros _ _. apply happened_now.
    split; [apply about_refl|]. split; [done|]. unfold in_effect. rewrite Hi. apply not_elem_of_nil.
Qed.

Lemma nats_threads i p : (nats_call <$> ops) !! i = Some p -> holds (nats_rmw i) (seen_to i) [] p.
Proof. rewrite list_lookup_fmap_Some. intros ([id|id] & -> & Hi); [by apply upsert_thread|by apply unregister_thread]. Qed.


(** Entries of principals nobody works on. *)
Definition bystander (e : natsAuthzEntry) : Prop := forall op, op ∈ ops -> ae_User e <> id_Principal (op_id op).

Lemma nats_steps s s' :
  well_formed (st_object s) ->
  rtc (atomically (nats_AuthzNamespace cfg) (nats_AuthzConfigMap cfg) (nats_change ops) (nats_make ops)) s s' ->
  well_formed (st_object s') /\ forall e, bystander e -> e ∈ entries (st_object s') <-> e ∈ entries (st_object s).
Proof using Htame.
  intros Hs Hr. revert Hs. induction Hr as [s|s1 s2 s3 [i Hat] _ IH]; intros Hs; [done|].
  destruct (nats_step i s1 s2 Hs Hat) as (Hs2 & op & Hop & He). destruct (IH Hs2) as [Hs3 Hb]. split; [done|].
  intros e Hby. rewrite (Hb e Hby), He. pose proof (Hby op (list_elem_of_lookup_2 _ _ _ Hop)) as Hne.
  destruct op as [id|id]; cbn [edit op_id] in *; [by apply replace_entry_other|].
  rewrite not_of_elem. split; [by intros []|done].
Qed.
End nats.

(** ** The namespace of an enclave *)

Section sync.
Context `{U : Unicode} (eval : option Evaluator) (name : string).

(** A caller and what it asks of [enclave_sync]. *)
Abbreviation sync_call := (option DeployerInfo * EnclaveSyncParams)%type.
Definition sync_run (c : sync_call) : prog (res EnclaveSyncResult) := enclave_sync eval c.1 c.2.

(** The change one call is: the owner check and the sections in order, all on the
    object that is replaced. *)
Definition sync_change (calls : list sync_call) (i : nat) (cur o : object) : Prop :=
  exists d p st t, calls !! i = Some (d, p) /\ IsEnclave (o_annotations cur) = true /\
    sync_authorized p (ReadEnclaveInfo (o_annotations cur)) d = Ok () /\
    outcome (sync_sections p {| ss_info := ReadEnclaveInfo (o_annotations cur); ss_ann := o_annotations cur; ss_updated := []; ss_transfers := [] |}) (Ok st) /\
    ss_updated st <> [] /\
    o = with_annotations cur (WriteEnclaveAnnotations (set_updated_at (ss_info st) (FormatRFC3339 t)) ∪ ss_ann st).
Definition sync_make (i : nat) (o : object) : Prop := False.

Context (calls : list sync_call) (Hname : forall c, c ∈ calls -> sp_Name c.2 = name).

(** A call that succeeds wrote. *)
Definition synced (i : nat) (h : list event) (r : res EnclaveSyncResult) : Prop :=
  (forall o, Ev (KGet "namespaces" "" name) (Ok o) ∈ h -> o_name o = name) ->
  is_ok r = true -> happened (wrote "namespaces" "" name) h.

Abbreviation sync_rmw := (rmw "namespaces" "" name (sync_change calls) sync_make) (only parsing).

Lemma elsewhere i h r : concerns "namespaces" "" name r = false -> sync_rmw i h r.
Proof. unfold rmw. by intros ->. Qed.

Lemma sync_sections_elsewhere i p st : only (sync_rmw i) (sync_sections p st).
Proof.
  unfold sync_sections, sync_remove, transferOrphanedTentacles, transfer_one, sync_quota, UpdateResourceQuota.
  repeat only_step ltac:(intros; by apply elsewhere).
Qed.

(** One cycle; the flag asks for another. *)
Lemma attempt_thread i d p h :
  calls !! i = Some (d, p) ->
  holds (sync_rmw i) (fun h' out => out.1 = true /\ is_ok out.2 = false \/ synced i h' out.2) h (attemptEnclaveSync p d).
Proof using Hname.
  intros Hi. pose proof (Hname _ (list_elem_of_lookup_2 _ _ _ Hi)) as Hp. cbn in Hp.
  unfold attemptEnclaveSync. cbv zeta. apply holds_try. split; [done|]. rewrite Hp.
  intros [ns|err]; cbn [holds]; [|right; by intros _ [=]].
  destruct (IsEnclave (o_annotations ns)) eqn:Hen; [|right; by intros _ [=]].
  destruct (sync_authorized _ _ _) as [[]|err] eqn:Hauth; [|right; by intros _ [=]].
  set (read := Ev (KGet "namespaces" "" name) (Ok ns)). cbn [negb]. apply holds_try.
  eapply (holds_mono (fun h' r => happened (eq read) h' /\ sync_rmw i h' r)); [by intros h' r [_ Hr]| |apply holds_with;
    [apply happened_stable|by apply happened_now|apply only_outcome, sync_sections_elsewhere]].
  intros h' [st|err] [(e & Hin & <-) Hout]; [|right; by intros _ [=]].
  unfold sync_write. destruct (ss_updated st) as [|u us] eqn:Hu; [right; by intros _ [=]|].
  apply holds_call_bind; [by apply elsewhere|]. intros t. apply holds_call_bind.
  - intros _. exists ns. split; [by right|]. split; [done|]. exists d, p, st, t. split_and!; try done. by rewrite Hu.
  - intros [o|err].
    + right. intros Hnamed _. apply happened_now. split; [|done].
      rewrite <- (Hnamed ns) by by right; right. apply about_refl.
    + destruct (reason_is Conflict err); [by left|right; by intros _ [=]].
Qed.

Lemma sync_thread i p : (sync_run <$> calls) !! i = Some p -> holds (sync_rmw i) (synced i) [] p.
Proof using Hname.
  rewrite list_lookup_fmap_Some. intros ([d q] & -> & Hi). unfold sync_run, enclave_sync. cbn [fst snd].
  destruct (CheckNamespace _); [by intros _ [=]|]. destruct (requireDeployer _ _); [|by intros _ [=]].
  unfold handleEnclaveSync. generalize (@nil event). generalize maxSyncRetries as n. induction n as [|n IH]; intros h; [by intros _ [=]|].
  cbn [sync_retries]. apply holds_bind. eapply holds_mono; [done| |by apply attempt_thread].
  intros h' [[] [r|err]] Hout; cbn in Hout; try (by apply IH); destruct Hout as [[? ?]|Hout]; done.
Qed.
End sync.

(** ** Properties *)

Section properties.
Context `{U : Unicode}.

(** C10: Overlapping registrations lose nothing: however the requests of any number of
    registrations and removals of different workflows interleave, and whichever
    fail, the file stays well-formed, every call that reported success is in effect
    at the end - its entry is there, or gone - and the entries of all other
    principals are what they were. *)
Theorem registrations_not_lost cfg ops s ts s' :
  (forall i op, ops !! i = Some op -> tame_entry (buildAuthzEntry (op_id op)) = true) ->
  (forall i j a b, ops !! i = Some a -> ops !! j = Some b -> i <> j -> id_Principal (op_id a) <> id_Principal (op_id b)) ->
  well_formed (st_object s) ->
  (forall cm, st_object s = Some cm -> versioned (nats_AuthzConfigMap cfg) (st_version s) cm) ->
  rtc (step "configmaps" (nats_AuthzNamespace cfg) (nats_AuthzConfigMap cfg)) (started <$> (nats_call cfg <$> ops), s) (ts, s') ->
  well_formed (st_object s') /\
  (forall i h, ts !! i = Some (h, Ret (Ok ())) -> in_effect ops i (st_object s')) /\
  (forall e, bystander ops e -> e ∈ entries (st_object s') <-> e ∈ entries (st_object s)).
Proof.
  intros Htame Hapart Hs Hv Hsteps.
  pose proof (started_consistent _ _ _ _ _ (seen_to cfg ops) _ s Hv (nats_threads cfg ops)) as Hc.
  destruct (steps_atomic _ _ _ _ _ _ (_, s) (ts, s') Hc Hsteps) as [Hc' Hat].
  destruct (nats_steps cfg ops Htame s s' Hs Hat) as [Hs' Hb]. split; [done|]. split; [|done].
  intros i h Hi.
  destruct (settled_steps _ _ _ _ _ _ (fun o => well_formed o) (in_effect ops) (fun i s s' Hg Ha => proj1 (nats_step cfg ops Htame i s s' Hg Ha))
    (nats_made cfg ops Htame) (nats_kept cfg ops Htame Hapart) (_, s) (ts, s') Hc Hs) as [Hset _]; [|exact Hsteps|].
  - intros j h' p. cbn. rewrite list_lookup_fmap_Some. intros (p' & [= -> ->] & _) (e & ?%elem_of_nil & _). done.
  - apply (Hset i h (Ret (Ok ()))); [exact Hi|].
    pose proof (con_thread _ _ _ _ _ _ _ _ Hc' i h _ Hi) as Hq. apply Hq; [|done].
    intros o Ho. by destruct (con_seen _ _ _ _ _ _ _ _ Hc' i h _ o Hi Ho) as [[? _] _].
Qed.
(** C11: Overlapping synchronisations of one enclave change its Namespace object
    atomically, one after the other: what a call writes there is computed from the
    very object it replaces, and the owner check it passed was made on the
    annotations of that object, so a replaced owner no longer changes the object;
    every call that reported success is among the changes.  Nothing is said of
    other objects: transferred tentacles and the quota are written before the
    Namespace and stay when its update is refused. *)
Theorem enclave_sync_atomic eval calls name s ts s' :
  (forall c, c ∈ calls -> sp_Name c.2 = name) ->
  (forall cur, st_object s = Some cur -> versioned name (st_version s) cur) ->
  rtc (step "namespaces" "" name) (started <$> (sync_run eval <$> calls), s) (ts, s') ->
  rtc (atomically "" name (sync_change calls) sync_make) s s' /\
  forall i h r, ts !! i = Some (h, Ret (Ok r)) -> took_place "" name (sync_change calls) sync_make i s s'.
Proof.
  intros Hname Hv Hsteps.
  pose proof (started_consistent _ _ _ _ _ (synced name) _ s Hv (sync_thread eval name calls Hname)) as Hc.
  destruct (steps_atomic _ _ _ _ _ _ (_, s) (ts, s') Hc Hsteps) as [Hc' Hat]. split; [exact Hat|].
  intros i h r Hi. eapply (steps_took_place _ _ _ _ _ _ (_, s) (ts, s') i h (Ret (Ok r)) Hc); [|exact Hsteps|exact Hi|].
  - intros j h' p. cbn [fst]. rewrite list_lookup_fmap_Some. by intros (p' & [= -> ->] & _).
  - pose proof (con_thread _ _ _ _ _ _ _ _ Hc' i h _ Hi) as Hq. apply Hq; [|done].
    intros o Ho. by destruct (con_seen _ _ _ _ _ _ _ _ Hc' i h _ o Hi Ho) as [[? _] _].
Qed.
End properties.

(** ** Witnesses *)

(** Two registrations read the same version; the first to write wins, the second
    is refused. *)
Definition id_of (wf : string) : Identity :=
  match CompileIdentity (U := ascii_tables) "team" wf with
  | Ok id => id
  | Err _ => {| id_Namespace := ""; id_Workflow := ""; id_Principal := ""; id_PgRole := ""; id_PgSchema := ""; id_NATSUser := "";
                id_NATSPrefix := ""; id_S3Prefix := ""; id_S3User := ""; id_S3Policy := "" |}
  end.
Definition two_registrations : list nats_op := [AddEntry (id_of "etl"); AddEntry (id_of "report")].
Definition nats_start : store := {| st_object := Some (stamp cm_example 0 "exo"); st_version := 1 |}.
(** The update both threads prepare from what they read. *)
Definition prepared (op : nats_op) : object :=
  let cm := stamp cm_example 0 "exo" in
  cm_set cm authz_key (renderAuthzConfig (U := ascii_tables) (edit op (parseAuthzConfig (cm_data cm authz_key)))).

Lemma two_registrations_tame i op :
  two_registrations !! i = Some op -> tame_entry (buildAuthzEntry (op_id op)) = true.
Proof. destruct i as [|[|i]]; intros H; try (injection H as <-; vm_compute; reflexivity); destruct i; discriminate H. Qed.
Lemma two_registrations_apart i j a b :
  two_registrations !! i = Some a -> two_registrations !! j = Some b -> i <> j -> id_Principal (op_id a) <> id_Principal (op_id b).
Proof.
  intros Ha Hb Hij Heq.
  set (f op := id_Principal (op_id op)) in *. assert (NoDup (f <$> two_registrations)) as Hnd.
  { apply (bool_decide_unpack _). vm_compute. exact I. }
  apply Hij, (NoDup_lookup _ _ _ (f a) Hnd); rewrite list_lookup_fmap; [by rewrite Ha|].
  rewrite Hb. cbn. by unfold f; rewrite Heq.
Qed.
(** One of the two runs the interleaving allows. *)
Lemma two_run : exists ts s h,
  rtc (step "configmaps" "exo" "authz") (started <$> (nats_call (U := ascii_tables) nats_example <$> two_registrations), nats_start) (ts, s) /\
  ts !! 0%nat = Some (h, Ret (Ok ())) /\ (exists h' e, ts !! 1%nat = Some (h', Ret (Err e))) .
Proof.
  do 3 eexists. split; [|split].
  - eapply rtc_l; [eapply (step_thread _ _ _ _ _ 0%nat); [reflexivity|apply answers_get; reflexivity]|].
    eapply rtc_l; [eapply (step_thread _ _ _ _ _ 1%nat); [reflexivity|apply answers_get; reflexivity]|].
    eapply rtc_l.
    + eapply (step_thread _ _ _ _ _ 0%nat); [reflexivity|].
      eapply (answers_update _ _ _ _ _ _ (Ok (prepared (AddEntry (id_of "etl"))))); [reflexivity|reflexivity|by right].
    + eapply rtc_l; [|apply rtc_refl]. eapply (step_thread _ _ _ _ _ 1%nat); [reflexivity|].
      by eapply (answers_update_err _ _ _ _ _ (APIError Conflict "")).
  - reflexivity.
  - do 2 eexists. reflexivity.
Qed.

Lemma registrations_not_lost_witness :
  exists ts s', rtc (step "configmaps" "exo" "authz") (started <$> (nats_call (U := ascii_tables) nats_example <$> two_registrations), nats_start) (ts, s') /\
    (exists h e, ts !! 1%nat = Some (h, Ret (Err e))) /\
    well_formed (U := ascii_tables) (st_object s') /\ in_effect two_registrations 0 (st_object s').
Proof.
  destruct two_run as (ts & s' & h & Hrun & H0 & H1). exists ts, s'.
  destruct (registrations_not_lost (U := ascii_tables) nats_example two_registrations nats_start ts s') as (Hw & Hd & _).
  - exact two_registrations_tame.
  - exact two_registrations_apart.
  - exists [entry_a; entry_b]. exact example_holds.
  - intros cm [= <-]. by apply versioned_stamp.
  - exact Hrun.
  - split; [exact Hrun|]. split; [exact H1|]. split; [exact Hw|exact (Hd 0%nat h H0)].
Defined.

(** Two owners-to-be: the owner hands the enclave over twice. *)
Definition ada : DeployerInfo :=
  {| d_Email := "Ada@x.org"; d_DisplayName := ""; d_Subject := "s"; d_Provider := "keycloak"; d_AgentType := ""; d_SessionID := "" |}.
Definition hand_to (owner : string) : EnclaveSyncParams :=
  {| sp_Name := "team"; sp_NewOwner := owner; sp_NewChannelName := ""; sp_NewStatus := "";
     sp_NewMode := ""; sp_NewQuotaPreset := ""; sp_AddMembers := []; sp_RemoveMembers := [] |}.
Definition handovers : list (option DeployerInfo * EnclaveSyncParams) := [(Some ada, hand_to "bob@x.org"); (Some ada, hand_to "eve@x.org")].
Definition team_ns : object := stamp (with_annotations (new_object "team" "" [] []) ann_example) 0 "".
Definition sync_start : store := {| st_object := Some team_ns; st_version := 1 |}.
(** What the sections make of it. *)
Definition read_state : sync_state :=
  {| ss_info := ReadEnclaveInfo (U := ascii_tables) (o_annotations team_ns); ss_ann := o_annotations team_ns; ss_updated := []; ss_transfers := [] |}.
Definition handed (owner : string) : sync_state :=
  match sync_sections (U := ascii_tables) (hand_to owner) read_state with Ret (Ok st) => st | _ => read_state end.

Lemma handover_runs owner :
  owner ∈ ["bob@x.org"; "eve@x.org"] ->
  IsEnclave (o_annotations team_ns) = true /\
  sync_authorized (hand_to owner) (ReadEnclaveInfo (U := ascii_tables) (o_annotations team_ns)) (Some ada) = Ok () /\
  sync_sections (U := ascii_tables) (hand_to owner) read_state = Ret (Ok (handed owner)) /\ ss_updated (handed owner) = ["owner"].
Proof. intros H. apply elem_of_cons in H as [->|H%list_elem_of_singleton]; [|subst owner]; vm_compute; done. Qed.

Definition written (owner : string) (t : Z) : object :=
  with_annotations team_ns (WriteEnclaveAnnotations (set_updated_at (ss_info (handed owner)) (FormatRFC3339 t)) ∪ ss_ann (handed owner)).

(** The program up to its write. *)
Lemma handover_writes owner :
  owner ∈ ["bob@x.org"; "eve@x.org"] ->
  exists k kw, sync_run (U := ascii_tables) None (Some ada, hand_to owner) = Call (KGet "namespaces" "" "team") k /\
    k (Ok team_ns) = Call Now kw /\
    forall t, exists kr r, kw t = Call (KUpdate "namespaces" "" (written owner t)) kr /\ kr (Ok (written owner t)) = Ret (Ok r).
Proof.
  intros Ho. destruct (handover_runs owner Ho) as (Hen & Hauth & Hsec & Hup).
  assert (exists f, sync_run (U := ascii_tables) None (Some ada, hand_to owner) = attemptEnclaveSync (U := ascii_tables) (hand_to owner) (Some ada) ≫= f /\
    forall r, f (false, Ok r) = Ret (Ok r)) as (f & Hrun & Hf) by (eexists; split; reflexivity).
  rewrite Hrun. unfold attemptEnclaveSync. eexists _, _. split; [reflexivity|]. cbv beta iota zeta. cbn [prog_bind call try_with].
  rewrite Hen, Hauth. cbn [negb]. change (sync_sections _ _) with (sync_sections (U := ascii_tables) (hand_to owner) read_state).
  rewrite Hsec.
  change (try_with _ (Ret (Ok _)) _) with (sync_write (hand_to owner) team_ns (handed owner)). unfold sync_write. rewrite Hup.
  split; [reflexivity|]. intros t. eexists _, _. split; [reflexivity|]. apply Hf.
Qed.

Lemma read_step {A} ts s i h (k : _ -> prog A) o :
  ts !! i = Some (h, Call (KGet "namespaces" "" "team") k) -> st_object s = Some o ->
  step "namespaces" "" "team" (ts, s) (<[i := (Ev (KGet "namespaces" "" "team") (Ok o) :: h, k (Ok o))]> ts, s).
Proof. intros Hi Ho. by eapply step_thread, answers_get. Qed.
Lemma other_step {A} ts s i h r (k : _ -> prog A) x :
  concerns "namespaces" "" "team" r = false -> ts !! i = Some (h, Call r k) ->
  step "namespaces" "" "team" (ts, s) (<[i := (Ev r x :: h, k x)]> ts, s).
Proof. intros Hr Hi. by eapply step_thread, answers_other. Qed.
Lemma write_step {A} ts s i h (k : _ -> prog A) o cur :
  ts !! i = Some (h, Call (KUpdate "namespaces" "" o) k) -> st_object s = Some cur -> o_name o = "team" ->
  o_resourceVersion o = o_resourceVersion cur ->
  step "namespaces" "" "team" (ts, s) (<[i := (Ev (KUpdate "namespaces" "" o) (Ok o) :: h, k (Ok o))]> ts, committed "" s o).
Proof. intros Hi Ho Hn Hv. eapply step_thread; [exact Hi|]. eapply answers_update; [done|exact Ho|by right]. Qed.

Lemma handover_run : exists ts s h r,
  rtc (step "namespaces" "" "team") (started <$> (sync_run (U := ascii_tables) None <$> handovers), sync_start) (ts, s) /\
  ts !! 0%nat = Some (h, Ret (Ok r)) /\ (exists h' o k, ts !! 1%nat = Some (h', Call (KUpdate "namespaces" "" o) k)).
Proof.
  destruct (handover_writes "bob@x.org") as (ka & kwa & Ha & Hga & Hwa); [apply (bool_decide_unpack _); vm_compute; exact I|].
  destruct (handover_writes "eve@x.org") as (kb & kwb & Hb & Hgb & Hwb); [apply (bool_decide_unpack _); vm_compute; exact I|].
  destruct (Hwa 0%Z) as (kra & ra & Hua & Hra), (Hwb 0%Z) as (krb & rb & Hub & Hrb).
  change (started <$> _) with (started <$> [sync_run (U := ascii_tables) None (Some ada, hand_to "bob@x.org"); sync_run (U := ascii_tables) None (Some ada, hand_to "eve@x.org")]).
  rewrite Ha, Hb. do 4 eexists. split; [|split].
  - eapply rtc_l; [eapply (read_step _ _ 0%nat _ _ team_ns); reflexivity|]. eapply rtc_l; [eapply (read_step _ _ 1%nat _ _ team_ns); reflexivity|].
    cbn [insert list_insert fmap list_fmap started]. rewrite Hga, Hgb.
    eapply rtc_l; [eapply (other_step _ _ 0%nat _ Now _ 0%Z); reflexivity|]. eapply rtc_l; [eapply (other_step _ _ 1%nat _ Now _ 0%Z); reflexivity|].
    cbn [insert list_insert]. rewrite Hua, Hub.
    eapply rtc_l; [|apply rtc_refl]. eapply (write_step _ _ 0%nat _ _ (written "bob@x.org" 0) team_ns); reflexivity.
  - cbn. rewrite Hra. reflexivity.
  - do 3 eexists. reflexivity.
Qed.

Lemma enclave_sync_atomic_witness :
  exists s', rtc (atomically "" "team" (sync_change (U := ascii_tables) handovers) sync_make) sync_start s' /\
    took_place "" "team" (sync_change (U := ascii_tables) handovers) sync_make 0 sync_start s'.
Proof.
  destruct handover_run as (ts & s' & h & r & Hrun & H0 & _). exists s'.
  destruct (enclave_sync_atomic (U := ascii_tables) None handovers "team" sync_start ts s') as [Hat Htook].
  - intros c [->|[->|[]%elem_of_nil]%elem_of_cons]%elem_of_cons; reflexivity.
  - intros cur [= <-]. by apply versioned_stamp.
  - exact Hrun.
  - split; [exact Hat|exact (Htook 0%nat h r H0)].
Defined.

(** ** A check that does not last *)

Definition forget {A} (p : prog A) : prog () := p ≫= fun _ => Ret ().

Lemma deprovision_deletes :
  exists k kl kd, enclave_deprovision (U := ascii_tables) None None (Some ada) "team" = Call (KGet "namespaces" "" "team") k /\
    k (Ok team_ns) = Call (KList "deployments" "team" "") kl /\ kl (Ok []) = Call (KDelete "namespaces" "" "team") kd /\
    exists r, kd (Ok ()) = Ret (Ok r).
Proof.
  assert (IsEnclave (o_annotations team_ns) = true) as Hen by (vm_compute; reflexivity).
  assert (deprovision_authorized "team" (ReadEnclaveInfo (U := ascii_tables) (o_annotations team_ns)) (Some ada) = Ok ()) as Hauth
    by (vm_compute; reflexivity).
  eexists _, _, _. split; [reflexivity|]. cbv beta iota zeta. rewrite Hen, Hauth. cbn [negb].
  split; [reflexivity|]. split; [reflexivity|]. eexists. reflexivity.
Qed.

(** [enclave_deprovision] deletes whatever is there at the end: an enclave handed
    over between the owner check and the delete is deleted by its former owner. *)
Lemma deprovision_stale_owner :
  exists ts1 s1 ts2 s2 cur,
    rtc (step "namespaces" "" "team")
      (started <$> [forget (sync_run (U := ascii_tables) None (Some ada, hand_to "bob@x.org"));
                    forget (enclave_deprovision (U := ascii_tables) None None (Some ada) "team")], sync_start) (ts1, s1) /\
    st_object s1 = Some cur /\ ei_Owner (ReadEnclaveInfo (U := ascii_tables) (o_annotations cur)) = "bob@x.org" /\
    rtc (step "namespaces" "" "team") (ts1, s1) (ts2, s2) /\ st_object s2 = None.
Proof.
  destruct (handover_writes "bob@x.org") as (ka & kwa & Ha & Hga & Hwa); [apply (bool_decide_unpack _); vm_compute; exact I|].
  destruct (Hwa 0%Z) as (kra & ra & Hua & Hra), deprovision_deletes as (kd & kdl & kdd & Hd & Hgd & Hld & rd & Hrd).
  rewrite Ha, Hd. do 5 eexists. split; [|split; [|split; [|split]]].
  - eapply rtc_l; [eapply (read_step _ _ 0%nat _ _ team_ns); reflexivity|]. eapply rtc_l; [eapply (read_step _ _ 1%nat _ _ team_ns); reflexivity|].
    cbn [insert list_insert fmap list_fmap started forget prog_bind]. rewrite Hga, Hgd.
    eapply rtc_l; [eapply (other_step _ _ 0%nat _ Now _ 0%Z); reflexivity|]. cbn [insert list_insert]. rewrite Hua.
    eapply rtc_l; [|apply rtc_refl]. eapply (write_step _ _ 0%nat _ _ (written "bob@x.org" 0) team_ns); reflexivity.
  - reflexivity.
  - vm_compute. reflexivity.
  - cbn [insert list_insert].
    eapply rtc_l; [eapply (other_step _ _ 1%nat _ (KList "deployments" "team" "") _ (Ok [])); reflexivity|]. cbn [insert list_insert]. rewrite Hld.
    eapply rtc_l; [|apply rtc_refl].
    eapply (step_thread _ _ _ _ _ 1%nat _ (KDelete "namespaces" "" "team") _ (Ok ())); [reflexivity|apply answers_delete].
  - reflexivity.
Qed.
