(* ===== verification/Server.v ===== *)
(** * The server (pkg/server/server.go, pkg/tools/register.go, cmd/tentacular-mcp/main.go)

    The HTTP handler around the MCP endpoint, the tools registered with it, and the
    settings the command reads from its environment.  What the MCP library makes
    of a request to its endpoint, and what [ServeMux] answers where no pattern
    matches (a 404, or a redirect to the cleaned path), are arguments. *)

From S2P Require Import Prelude GoStrings Guard Mode Annotations ExoConfig Auth Evaluator.
From S2P Require Import Effects K8sOps Unstructured Json GoUrl Quantity Proxy Contract Controller Scheduler AuthzHelpers EnclaveTools.
From S2P Require Import Deploy WfApply Run WfHealth Workflow Discover AuditTools Profile Health ClusterOps.
#[local] Set Warnings "-clear-no-such-hyp".
#[local] Open Scope string_scope.

(** ** URLs, beyond the scheme and the host *)

(** The parts of a URL that [main] refuses and that [String] prints, read off its
    text the way [url.Parse] does, for a text it accepts. *)
Definition after_scheme (rawURL : string) : string * string :=
  let u := (Cut rawURL "#").1 in
  match getScheme u with
  | SchemeIs scheme rest => (str_map lower_char scheme, rest)
  | _ => ("", u)
  end.
Definition url_RawQuery (rawURL : string) : string := (Cut (after_scheme rawURL).2 "?").2.
Definition url_Fragment (rawURL : string) : string := (Cut rawURL "#").2.
Definition url_ForceQuery (rawURL : string) : bool :=
  has_byte (after_scheme rawURL).2 "?" && String.eqb (url_RawQuery rawURL) "".
(** What stands between the scheme and the query. *)
Definition hier_part (rawURL : string) : string := (Cut (after_scheme rawURL).2 "?").1.
Definition url_Opaque (rawURL : string) : string :=
  if HasPrefix (hier_part rawURL) "/" || String.eqb (after_scheme rawURL).1 "" then "" else hier_part rawURL.
Definition has_authority (rawURL : string) : bool :=
  (negb (String.eqb (after_scheme rawURL).1 "") || negb (HasPrefix (hier_part rawURL) "///")) && HasPrefix (hier_part rawURL) "//".
Definition url_OmitHost (rawURL : string) : bool :=
  negb (has_authority rawURL) && negb (String.eqb (after_scheme rawURL).1 "") && HasPrefix (hier_part rawURL) "/".

(** [unescape] of user information, where every percent sign starts an escape. *)
Fixpoint unescape_user (s : string) : string :=
  match s with
  | String c s' =>
      match c, s' with
      | "%"%char, String h1 (String h2 s'') => String (ascii_of_nat (16 * unhex h1 + unhex h2)) (unescape_user s'')
      | _, _ => String c (unescape_user s')
      end
  | EmptyString => ""
  end.
(** [escape]: the bytes not [kept] as two upper-case hexadecimal digits. *)
Definition upperhex (n : nat) : ascii := ascii_of_nat (if (n <? 10)%nat then 48 + n else 55 + n).
Fixpoint url_escape (kept : ascii -> bool) (s : string) : string :=
  match s with
  | String c s' =>
      if kept c then String c (url_escape kept s')
      else String "%" (String (upperhex (code c / 16)) (String (upperhex (code c mod 16)) (url_escape kept s')))
  | EmptyString => ""
  end.
Definition user_kept (c : ascii) : bool := is_alnum c || Contains "-_.~$&+,;=" (String c "").

(** The user name and the password, when the authority has any. *)
Definition url_User (rawURL : string) : option (string * option string) :=
  if has_authority rawURL then
    let authority := (Cut (str_drop 2 (hier_part rawURL)) "/").1 in
    match LastIndexByte authority "@" with
    | None => None
    | Some i =>
        let userinfo := str_take i authority in
        let (username, password) := Cut userinfo ":" in
        Some (unescape_user username, if has_byte userinfo ":" then Some (unescape_user password) else None)
    end
  else None.
Definition Userinfo_String (ui : string * option string) : string :=
  url_escape user_kept ui.1 +:+
  match ui.2 with Some password => ":" +:+ url_escape user_kept password | None => "" end.

Definition well_known_path : string := "/.well-known/oauth-protected-resource".

(** [deriveWellKnownURL]: [String] of the URL with another path and without query
    and fragment. *)
Definition deriveWellKnownURL `{UL : UrlLib} (resourceURL : string) : string :=
  match Parse resourceURL with
  | None => resourceURL +:+ well_known_path
  | Some u =>
      (if String.eqb (u_Scheme u) "" then "" else u_Scheme u +:+ ":") +:+
      (if negb (String.eqb (url_Opaque resourceURL) "") then url_Opaque resourceURL
       else
         let user := url_User resourceURL in
         let has_user := bool_decide (is_Some user) in
         let noHost := String.eqb (u_Host u) "" in
         (if (negb (String.eqb (u_Scheme u) "") || negb noHost || has_user) &&
             negb (url_OmitHost resourceURL && noHost && negb has_user)
          then "//" +:+ match user with Some ui => Userinfo_String ui +:+ "@" | None => "" end +:+ url_escape host_char (u_Host u)
          else "") +:+ well_known_path) +:+
      (if url_ForceQuery resourceURL then "?" else "")
  end.

Example deriveWellKnownURL_examples :
  let derive := deriveWellKnownURL (UL := no_brackets) in
  derive "https://mcp.example.com/mcp" = "https://mcp.example.com/.well-known/oauth-protected-resource" /\
  derive "HTTP://u%40x:p!@h:8080/x?y#z" = "http://u%40x:p%21@h:8080/.well-known/oauth-protected-resource" /\
  derive "//h?" = "//h/.well-known/oauth-protected-resource?" /\ derive "http:/x" = "http:/.well-known/oauth-protected-resource" /\
  derive "http:///x" = "http:///.well-known/oauth-protected-resource" /\ derive "mailto:a@b" = "mailto:a@b" /\
  derive "https://h%zz" = "https://h%zz/.well-known/oauth-protected-resource".
Proof. repeat split; reflexivity. Qed.

(** ** The HTTP handler *)

Record ResourceMetadataConfig := {
  rm_Resource : string;
  rm_ResourceName : string;
  rm_AuthorizationServers : list string;
  rm_ScopesSupported : list string;
  rm_BearerMethodsSupported : list string;
}.

Definition json_header : gmap string string := {[ "Content-Type" := "application/json" ]}.
Definition quoted_list (l : list string) : string := "[" +:+ Join (encode_string <$> l) "," +:+ "]".
(** The encoder ends the document with a newline and leaves out what is empty. *)
Definition field_json (key text : string) : list string := [encode_string key +:+ ":" +:+ text].
Definition metadata_json (m : ResourceMetadataConfig) : string :=
  "{" +:+ Join
    (field_json "resource" (encode_string (rm_Resource m)) ++
     (if String.eqb (rm_ResourceName m) "" then [] else field_json "resource_name" (encode_string (rm_ResourceName m))) ++
     field_json "authorization_servers" (quoted_list (rm_AuthorizationServers m)) ++
     match rm_ScopesSupported m with [] => [] | l => field_json "scopes_supported" (quoted_list l) end ++
     match rm_BearerMethodsSupported m with [] => [] | l => field_json "bearer_methods_supported" (quoted_list l) end)%list ","
  +:+ "}" +:+ nl.
Definition resourceMetadataHandler (m : ResourceMetadataConfig) (r : request) : http_response :=
  if negb (String.eqb (rq_Method r) "GET")
  then {| rs_status := 405;
          rs_headers := {[ "Content-Type" := "text/plain; charset=utf-8"; "X-Content-Type-Options" := "nosniff" ]};
          rs_body := "method not allowed" +:+ nl |}
  else {| rs_status := 200; rs_headers := <[ "Access-Control-Allow-Origin" := "*" ]> json_header; rs_body := metadata_json m |}.
Definition healthHandler : http_response :=
  {| rs_status := 200; rs_headers := json_header; rs_body := MarshalStringMap [("status", "ok")] +:+ nl |}.

(** The patterns are exact paths. *)
Definition mux (mcpHandler fallback : request -> http_response) (resourceMeta : option ResourceMetadataConfig) (r : request) :
    http_response :=
  if String.eqb (rq_Path r) "/mcp" then mcpHandler r
  else if String.eqb (rq_Path r) "/healthz" then healthHandler
  else match resourceMeta with
       | Some m => if String.eqb (rq_Path r) well_known_path then resourceMetadataHandler m r else fallback r
       | None => fallback r
       end.

Definition meta_url `{UL : UrlLib} (resourceMeta : option ResourceMetadataConfig) : string :=
  match resourceMeta with
  | Some m => deriveWellKnownURL (rm_Resource m)
  | None => ""
  end.
Definition Handler `{U : Unicode} `{L : OidcLib} `{UL : UrlLib} (token : string)
    (oidcValidator : option OIDCValidator) (resourceMeta : option ResourceMetadataConfig)
    (mcpHandler fallback : request -> http_response) : request -> http_response :=
  DualAuthMiddleware token oidcValidator (meta_url resourceMeta) (mux mcpHandler fallback resourceMeta).

(** ** Start-up (main.go) *)

Section main.
Context `{U : Unicode} `{UL : UrlLib} (getenv : string -> string).

(** What [main] logs before it exits. *)
Definition exit_with {A} (msg : string) : res A := Err (ErrorNew msg).
Definition resource_meta (cfg : Config) : res (option ResourceMetadataConfig) :=
  let extURL := getenv "TENTACULAR_EXTERNAL_URL" in
  if negb (AuthEnabled cfg) || String.eqb extURL "" then Ok None
  else
    match Parse extURL with
    | None => exit_with "TENTACULAR_EXTERNAL_URL is not a valid URL"
    | Some u =>
        if negb (String.eqb (u_Scheme u) "https") && negb (String.eqb (u_Scheme u) "http")
        then exit_with "TENTACULAR_EXTERNAL_URL must have scheme https (or http)"
        else if String.eqb (u_Host u) "" then exit_with "TENTACULAR_EXTERNAL_URL must include a host"
        else if bool_decide (is_Some (url_User extURL)) || negb (String.eqb (url_RawQuery extURL) "") || negb (String.eqb (url_Fragment extURL) "")
        then exit_with "TENTACULAR_EXTERNAL_URL must not contain userinfo, query, or fragment"
        else Ok (Some {| rm_Resource := extURL +:+ "/mcp"; rm_ResourceName := "Tentacular MCP Server";
                         rm_AuthorizationServers := [auth_IssuerURL (c_Auth cfg)];
                         rm_ScopesSupported := ["openid"; "email"; "profile"]; rm_BearerMethodsSupported := ["header"] |})
    end.
Definition main_evaluator : Evaluator :=
  let eval := NewEvaluator DefaultMode in
  if String.eqb (getenv "TENTACULAR_AUTHZ_ENABLED") "false"
  then {| ev_DefaultMode := ev_DefaultMode eval; ev_Enabled := false |} else eval.
Definition main_reconciler : Options :=
  let namespace := getenv "PROXY_NAMESPACE" in
  NewReconciler {| op_Namespace := if String.eqb namespace "" then "tentacular-support" else namespace;
                   op_Image := getenv "PROXY_IMAGE"; op_StorageSize := getenv "PROXY_STORAGE_SIZE" |}.
Definition token_path : string :=
  let tokenPath := getenv "TOKEN_PATH" in if String.eqb tokenPath "" then "/etc/tentacular-mcp/token" else tokenPath.
Definition listen_addr : string :=
  let addr := getenv "LISTEN_ADDR" in if String.eqb addr "" then ":8080" else addr.
Definition reconciler_disabled : bool := String.eqb (getenv "TENTACULAR_PROXY_RECONCILER_DISABLED") "true".
End main.

(** ** The tools *)

(** A decoded call of one of the registered tools. *)
Inductive tool_call :=
  | EnclaveProvision (p : EnclaveProvisionParams)
  | EnclaveInfo (name : string)
  | EnclaveList (callerEmail : string)
  | EnclaveSync (p : EnclaveSyncParams)
  | EnclaveDeprovision (name : string)
  | WfApply (p : WorkflowApplyParams)
  | WfRemove (p : WorkflowRemoveParams)
  | WfStatus (p : WorkflowStatusParams)
  | WfRun (p : WfRunParams)
  | WfList (p : WfListParams)
  | WfDescribe (p : WfDescribeParams)
  | WfPods (p : WfPodsParams)
  | WfLogs (p : WfLogsParams)
  | WfEvents (p : WfEventsParams)
  | WfJobs (p : WfJobsParams)
  | WfRestart (p : WfRestartParams)
  | WfHealth (p : WfHealthParams)
  | WfHealthEnclave (p : WfHealthNsParams)
  | AuditRbac (ns : string)
  | AuditNetpol (ns : string)
  | AuditPsa (ns : string)
  | HealthNodes
  | HealthEnclaveUsage (ns : string)
  | HealthClusterSummary
  | EnclavePreflight (ns : string)
  | ClusterProfile (ns : string)
  | ProxyStatus
  | PlatformConfig.

(** The annotation each tool is registered with. *)
Definition ReadOnlyHint (c : tool_call) : bool :=
  match c with
  | EnclaveProvision _ | EnclaveSync _ | EnclaveDeprovision _ | WfApply _ | WfRemove _ | WfRun _ | WfRestart _ => false
  | _ => true
  end.
Definition IdempotentHint (c : tool_call) : bool :=
  match c with
  | EnclaveProvision _ | EnclaveDeprovision _ | WfRun _ => false
  | _ => true
  end.
Definition DestructiveHint (c : tool_call) : bool :=
  match c with
  | EnclaveDeprovision _ | WfRemove _ => true
  | _ => false
  end.

Record PlatformConfigResult := { pc_ChromaURL : string; pc_DocsURL : string }.
Definition platform_config (getenv : string -> string) : PlatformConfigResult :=
  {| pc_ChromaURL := getenv "TENTACULAR_CHROMA_URL"; pc_DocsURL := getenv "TENTACULAR_DOCS_URL" |}.

Section tools.
Context `{U : Unicode} `{L : UnstructuredLib} `{Y : YamlLib} `{DY : DescribeYaml} `{UL : UrlLib} `{C : CronLib} `{Q : QuantityLib}
  `{M : RustfsRegistrar.MinioLib} `{O : OidcLib}.

Record Server := {
  srv_getenv : string -> string;
  srv_dynamic : bool;
  srv_reconciler : Options;
  srv_scheduler : option Scheduler;
  srv_exoCtrl : option Controller;
  srv_eval : option Evaluator;
}.

(** [main] up to the point where it serves, given what reading the token file,
    making the cluster client and connecting to the services gave; [Err] is an
    exit with the error it logs. *)
Record running := {
  run_server : Server;
  run_token : string;
  run_oidc : option OIDCValidator;
  run_meta : option ResourceMetadataConfig;
  run_addr : string;
  run_reconciles : bool;
}.
Definition check (err : option error) : prog (res ()) :=
  Ret (match err with Some e => Err e | None => Ok () end).
Definition oidc_validator (cfg : Config) : res (option OIDCValidator) :=
  if AuthEnabled cfg then match NewOIDCValidator (c_Auth cfg) with Ok v => Ok (Some v) | Err e => Err e end
  else Ok None.
Definition start (getenv : string -> string) (ReadFile : string -> res string) (client : res ()) (cn : connections) :
    prog (res running) :=
  try token := Ret (LoadToken (token_path getenv) ReadFile) else Err ;;
  try_ Ret client else Err ;;
  let exoCfg := LoadFromEnv getenv in
  try_ check (Validate exoCfg) else Err ;;
  try exoCtrl := NewController cn exoCfg true else Err ;;
  try oidcValidator := Ret (oidc_validator exoCfg) else Err ;;
  try resourceMeta := Ret (resource_meta getenv exoCfg) else Err ;;
  Ret (Ok {| run_server := {| srv_getenv := getenv; srv_dynamic := true; srv_reconciler := main_reconciler getenv;
                              srv_scheduler := Some New; srv_exoCtrl := Some exoCtrl; srv_eval := Some (main_evaluator getenv) |};
             run_token := token; run_oidc := oidcValidator; run_meta := resourceMeta; run_addr := listen_addr getenv;
             run_reconciles := negb (reconciler_disabled getenv) |}).

(** What a call does and the server it leaves, whose schedules may have changed;
    the answer to the caller is left out.  Prewarming follows a successful wf_apply. *)
Definition answer {A B} (b : B) (p : prog A) : prog B := _ ← p; Ret b.
Definition with_scheduler (s : Server) (sched : option Scheduler) : Server :=
  {| srv_getenv := srv_getenv s; srv_dynamic := srv_dynamic s; srv_reconciler := srv_reconciler s;
     srv_scheduler := sched; srv_exoCtrl := srv_exoCtrl s; srv_eval := srv_eval s |}.
Definition invoke (s : Server) (deployer : option DeployerInfo) (c : tool_call) : prog Server :=
  let eval := srv_eval s in
  match c with
  | EnclaveProvision p => answer s (enclave_provision (srv_exoCtrl s) eval deployer p)
  | EnclaveInfo name => answer s (enclave_info (srv_exoCtrl s) eval deployer name)
  | EnclaveList email => answer s (enclave_list eval deployer email)
  | EnclaveSync p => answer s (enclave_sync eval deployer p)
  | EnclaveDeprovision name => answer s (enclave_deprovision (srv_exoCtrl s) eval deployer name)
  | WfApply p =>
      a ← wf_apply (srv_getenv s) (srv_scheduler s) (srv_exoCtrl s) eval deployer p;
      match ap_prewarm a with
      | Some (proxyNS, deps) => answer (with_scheduler s (ap_sched a)) (PrewarmModules proxyNS deps)
      | None => Ret (with_scheduler s (ap_sched a))
      end
  | WfRemove p => r ← wf_remove (srv_scheduler s) (srv_exoCtrl s) eval deployer p; Ret (with_scheduler s r.1)
  | WfStatus p => answer s (wf_status eval deployer p)
  | WfRun p => answer s (wf_run eval deployer p)
  | WfList p => answer s (wf_list eval deployer p)
  | WfDescribe p => answer s (wf_describe eval deployer p)
  | WfPods p => answer s (wf_pods eval deployer p)
  | WfLogs p => answer s (wf_logs eval deployer p)
  | WfEvents p => answer s (wf_events eval deployer p)
  | WfJobs p => answer s (wf_jobs eval deployer p)
  | WfRestart p => answer s (wf_restart eval deployer p)
  | WfHealth p => answer s (wf_health eval deployer p)
  | WfHealthEnclave p => answer s (wf_health_enclave eval deployer p)
  | AuditRbac ns => answer s (audit_rbac eval deployer ns)
  | AuditNetpol ns => answer s (audit_netpol eval deployer ns)
  | AuditPsa ns => answer s (audit_psa eval deployer ns)
  | HealthNodes => answer s health_nodes
  | HealthEnclaveUsage ns => answer s (health_enclave_usage eval deployer ns)
  | HealthClusterSummary => answer s health_cluster_summary
  | EnclavePreflight ns => answer s (enclave_preflight eval deployer ns)
  | ClusterProfile ns => answer s (cluster_profile (srv_dynamic s) (srv_exoCtrl s) ns)
  | ProxyStatus => answer s (proxy_status (srv_reconciler s))
  | PlatformConfig => Ret s
  end.
End tools.

(** ** Specification *)

(** A program that changes nothing outside. *)
Abbreviation reads := (only (every (fun r => is_write r = false))) (only parsing).

(** ** Lemmas *)

Lemma only_answer {A B} R (b : B) (p : prog A) : only R p -> only R (answer b p).
Proof. intros Hp. apply only_bind; [done|]. intros. apply only_ret. Qed.
#[export] Hint Resolve only_answer : only.

Ltac reads_tac := repeat only_step ltac:(intros; reflexivity).

Section reads.
Context `{U : Unicode} `{L : UnstructuredLib} `{DY : DescribeYaml} `{UL : UrlLib} `{Q : QuantityLib} `{M : RustfsRegistrar.MinioLib}.

Lemma checkNamespaceAuthz_readonly ns d eval a : reads (checkNamespaceAuthz ns d eval a).
Proof. unfold checkNamespaceAuthz. reads_tac. Qed.
Lemma fetchNamespaceAnnotations_readonly ns : reads (fetchNamespaceAnnotations ns).
Proof. unfold fetchNamespaceAnnotations. reads_tac. Qed.
Lemma resolveNamespace_readonly ns d : reads (resolveNamespace ns d).
Proof. unfold resolveNamespace, ListManagedNamespaces. reads_tac. Qed.
Lemma CheckManagedNamespace_readonly ns : reads (CheckManagedNamespace ns).
Proof. unfold CheckManagedNamespace, GetNamespace. reads_tac. Qed.
End reads.
#[export] Hint Resolve CheckManagedNamespace_readonly checkNamespaceAuthz_readonly fetchNamespaceAnnotations_readonly resolveNamespace_readonly : only.

Section readonly.
Context `{U : Unicode} `{L : UnstructuredLib} `{DY : DescribeYaml} `{UL : UrlLib} `{Q : QuantityLib} `{M : RustfsRegistrar.MinioLib}.

Lemma checked_reader_readonly {A} ns eval d (p : prog (res A)) : reads p -> reads (checked_reader ns eval d p).
Proof. intros Hp. unfold checked_reader. reads_tac. Qed.
Lemma resolved_guard_readonly {A} ns d eval (body : string -> prog (res A)) : (forall ns, reads (body ns)) -> reads (resolved_guard ns d eval body).
Proof. intros Hb. unfold resolved_guard. reads_tac. Qed.
Lemma enclave_reader_readonly {A} ns eval d (body : string -> prog (res A)) : (forall ns, reads (body ns)) -> reads (enclave_reader ns eval d body).
Proof. intros Hb. apply resolved_guard_readonly. intros ns'. reads_tac. Qed.

Lemma audit_rbac_readonly eval d ns : reads (audit_rbac eval d ns).
Proof. apply checked_reader_readonly. unfold handleAuditRbac. reads_tac. Qed.
Lemma audit_netpol_readonly eval d ns : reads (audit_netpol eval d ns).
Proof. apply checked_reader_readonly. unfold handleAuditNetpol. reads_tac. Qed.
Lemma audit_psa_readonly eval d ns : reads (audit_psa eval d ns).
Proof. apply checked_reader_readonly. unfold handleAuditPsa, GetNamespace. reads_tac. Qed.
Lemma health_nodes_readonly : reads health_nodes.
Proof. unfold health_nodes, handleHealthNodes. reads_tac. Qed.
Lemma health_enclave_usage_readonly eval d ns : reads (health_enclave_usage eval d ns).
Proof. apply checked_reader_readonly. unfold handleHealthNsUsage. reads_tac. Qed.
Lemma health_cluster_summary_readonly : reads health_cluster_summary.
Proof. unfold health_cluster_summary, handleHealthClusterSummary. reads_tac. Qed.
Lemma enclave_preflight_readonly eval d ns : reads (enclave_preflight eval d ns).
Proof.
  apply checked_reader_readonly. unfold handleClusterPreflight, RunPreflightChecks, checkAPIReachability, checkNamespaceExists, checkRBAC, checkGVisor.
  reads_tac.
Qed.

Lemma enclave_info_readonly exoCtrl eval d name : reads (enclave_info exoCtrl eval d name).
Proof. unfold enclave_info, handleEnclaveInfo. reads_tac. Qed.
Lemma enclave_list_readonly eval d email : reads (enclave_list eval d email).
Proof. unfold enclave_list, handleEnclaveList, ListManagedNamespaces. reads_tac. Qed.
Lemma wf_status_readonly eval d p : reads (wf_status eval d p).
Proof. unfold wf_status, guarded, check_deployment, handleWorkflowStatus, status_detail, release_status, deployment_status. reads_tac. Qed.
Lemma wf_list_readonly eval d p : reads (wf_list eval d p).
Proof. unfold wf_list, handleWfList, list_cache, list_step. reads_tac. Qed.
Lemma wf_describe_readonly eval d p : reads (wf_describe eval d p).
Proof. unfold wf_describe, handleWfDescribe, lookup_cm. reads_tac. apply resolved_guard_readonly. reads_tac. Qed.
Lemma wf_pods_readonly eval d p : reads (wf_pods eval d p).
Proof. unfold wf_pods. apply enclave_reader_readonly. intros ns. unfold handleWfPods. reads_tac. Qed.
Lemma wf_logs_readonly eval d p : reads (wf_logs eval d p).
Proof. unfold wf_logs. reads_tac. apply enclave_reader_readonly. intros ns. unfold handleWfLogs. reads_tac. Qed.
Lemma wf_events_readonly eval d p : reads (wf_events eval d p).
Proof. unfold wf_events. apply enclave_reader_readonly. intros ns. unfold handleWfEvents. reads_tac. Qed.
Lemma wf_jobs_readonly eval d p : reads (wf_jobs eval d p).
Proof. unfold wf_jobs. apply enclave_reader_readonly. intros ns. unfold handleWfJobs. reads_tac. Qed.
Lemma wf_health_readonly eval d p : reads (wf_health eval d p).
Proof. apply resolved_guard_readonly. intros ns. unfold handleWfHealth, wfHealthProbe, probeURL. reads_tac. Qed.
Lemma wf_health_enclave_readonly eval d p : reads (wf_health_enclave eval d p).
Proof.
  apply resolved_guard_readonly. intros ns. unfold handleWfHealthNs, health_step, workflow_status, wfHealthProbe, probeURL. reads_tac.
Qed.

Lemma ProfileCluster_readonly dynamic ns : reads (ProfileCluster dynamic ns).
Proof.
  unfold ProfileCluster, profileVersion, profileNodes, profileRuntimeClasses, profileCNI, profileNetworkPolicy, profileStorageClasses,
    profileCSIDrivers, profileIngress, profileExtensions, profileNamespaceDetails, profileObservability. reads_tac.
Qed.
Lemma cluster_profile_readonly dynamic exoCtrl ns : reads (cluster_profile dynamic exoCtrl ns).
Proof.
  unfold cluster_profile, handleClusterProfile. pose proof (ProfileCluster_readonly dynamic ns) as Hp.
  destruct (if negb _ then _ else _); reads_tac.
Qed.
Lemma proxy_status_readonly o : reads (proxy_status o).
Proof. unfold proxy_status, GetStatus. reads_tac. Qed.
End readonly.
#[export] Hint Resolve audit_rbac_readonly audit_netpol_readonly audit_psa_readonly health_nodes_readonly health_enclave_usage_readonly
  health_cluster_summary_readonly enclave_preflight_readonly enclave_info_readonly enclave_list_readonly wf_status_readonly
  wf_list_readonly wf_describe_readonly wf_pods_readonly wf_logs_readonly wf_events_readonly
  wf_jobs_readonly wf_health_readonly wf_health_enclave_readonly cluster_profile_readonly proxy_status_readonly : only.

Section calls.
Context `{U : Unicode} `{L : UnstructuredLib} `{Y : YamlLib} `{DY : DescribeYaml} `{UL : UrlLib} `{C : CronLib} `{Q : QuantityLib}
  `{M : RustfsRegistrar.MinioLib}.

Lemma invoke_readonly s d c : ReadOnlyHint c = true -> reads (invoke s d c).
Proof. intros Hr. destruct c; try discriminate Hr; unfold invoke; first [apply only_answer; auto with only|apply only_ret]. Qed.
End calls.

(** Start-up. *)
Section startup.
Context `{U : Unicode} `{UL : UrlLib}.

Lemma returns_try_ret {A B} (Q : res B -> Prop) (r : res A) (k : A -> prog (res B)) :
  (forall x, r = Ok x -> returns Q (k x)) -> (forall err, Q (Err err)) -> returns Q (try_with Err (Ret r) k).
Proof. intros Hk He. destruct r as [x|err]; [by apply Hk|by apply returns_Ret]. Qed.
Lemma LoadToken_nonempty path ReadFile token : LoadToken path ReadFile = Ok token -> token <> "".
Proof.
  unfold LoadToken. destruct (ReadFile path) as [data|]; [|done]. cbv zeta.
  destruct (String.eqb_spec (TrimSpace data) ""); [done|]. by intros [= <-].
Qed.
Lemma resource_meta_spec getenv cfg m :
  resource_meta getenv cfg = Ok (Some m) -> AuthEnabled cfg = true /\
  exists extURL u, rm_Resource m = extURL +:+ "/mcp" /\ Parse extURL = Some u /\
    (u_Scheme u = "https" \/ u_Scheme u = "http") /\ u_Host u <> "" /\
    url_User extURL = None /\ url_RawQuery extURL = "" /\ url_Fragment extURL = "".
Proof.
  unfold resource_meta. set (ext := getenv "TENTACULAR_EXTERNAL_URL"). destruct (AuthEnabled cfg); [|done]. cbn [negb orb].
  destruct (String.eqb ext ""); [done|]. destruct (Parse ext) as [u|] eqn:HP; [|done].
  destruct (String.eqb_spec (u_Scheme u) "https") as [Hs|Hs], (String.eqb_spec (u_Scheme u) "http") as [Hs'|Hs'];
    cbn [negb andb]; try done;
    (destruct (String.eqb_spec (u_Host u) "") as [|Hh]; [done|]);
    (destruct (url_User ext) eqn:Hu; [done|]); (destruct (String.eqb_spec (url_RawQuery ext) "") as [Hq|]; [|done]);
    (destruct (String.eqb_spec (url_Fragment ext) "") as [Hf|]; [|done]); cbn;
    intros [= <-]; (split; [done|]); exists ext, u; auto 10.
Qed.
End startup.

(** Without an identity, where authorization is on. *)
Section unidentified.
Context `{U : Unicode} (ev : Evaluator) (Hev : ev_Enabled ev = true).

Lemma requireDeployer_none : requireDeployer None (Some ev) = Err errNoDeployer.
Proof. cbn. by rewrite Hev. Qed.
Lemma guarded_none {A} ns name (p : prog (res A)) : exists err, guarded ns name None (Some ev) p = Ret (Err err).
Proof. unfold guarded. rewrite requireDeployer_none. destruct (CheckNamespace ns), (CheckName name); by eexists. Qed.
Lemma resolved_guard_none {A} ns (body : string -> prog (res A)) : resolved_guard ns None (Some ev) body = Ret (Err errNoDeployer).
Proof. unfold resolved_guard. by rewrite requireDeployer_none. Qed.
End unidentified.

Section unidentified_calls.
Context `{U : Unicode} `{L : UnstructuredLib} `{Y : YamlLib} `{DY : DescribeYaml} `{UL : UrlLib} `{C : CronLib} `{Q : QuantityLib}.

Lemma unidentified_reads s ev c : srv_eval s = Some ev -> ev_Enabled ev = true -> reads (invoke s None c).
Proof.
  intros He Hev.
  destruct (ReadOnlyHint c) eqn:Hr; [by apply invoke_readonly|]. unfold invoke. rewrite He.
  destruct c; try discriminate Hr; try apply only_answer.
  - unfold enclave_provision. rewrite requireDeployer_none by done. reads_tac.
  - unfold enclave_sync. rewrite requireDeployer_none by done. reads_tac.
  - unfold enclave_deprovision. rewrite requireDeployer_none by done. reads_tac.
  - destruct (guarded_none ev Hev (wa_Namespace p) (wa_Name p) (fetchNamespaceAnnotations (wa_Namespace p))) as [err E].
    unfold wf_apply. cbv zeta. rewrite E. apply only_ret.
  - destruct (guarded_none ev Hev (wr_Namespace p) (wr_Name p) (check_deployment (Some ev) None (wr_Namespace p) (wr_Name p) Write)) as [err E].
    unfold wf_remove. cbv zeta. rewrite E. apply only_ret.
  - destruct (guarded_none ev Hev (rn_Namespace p) (rn_Name p) (run_authz (Some ev) None (rn_Namespace p) (rn_Name p))) as [err E].
    unfold wf_run. cbv zeta. rewrite E. apply only_ret.
  - unfold wf_restart. destruct (CheckName _); [apply only_ret|]. rewrite resolved_guard_none by done. apply only_ret.
Qed.
End unidentified_calls.

(** ** URLs of endpoints *)

Lemma url_escape_kept kept s : str_forallb kept s = true -> url_escape kept s = s.
Proof. induction s as [|c s IH]; simpl; [done|]. intros [-> H]%andb_true_iff. by rewrite IH. Qed.

Section endpoint_urls.
Context `{UL : UrlLib} (scheme host pp path : string) (Hs : scheme_name scheme = true) (Hh : dns_host host = true)
  (Hp : validOptionalPort pp = true) (Hpath : url_path path = true).
Let rest : string := "//" +:+ (host +:+ pp) +:+ path.
Let url : string := scheme +:+ "://" +:+ (host +:+ pp) +:+ path.

Lemma endpoint_no_byte c : url_byte c = false -> no_byte c rest = true.
Proof using Hh Hp Hpath. apply str_forallb_no_byte. exact (plain_rest_bytes "" host pp path eq_refl Hh Hp Hpath). Qed.
Lemma endpoint_after_scheme : after_scheme url = (str_map lower_char scheme, rest).
Proof using Hs Hh Hp Hpath.
  change url with (scheme +:+ String ":" rest). unfold after_scheme. rewrite Cut_none.
  - cbn [fst]. by rewrite getScheme_app.
  - rewrite no_byte_app, andb_true_iff. split.
    + destruct scheme; [done|]. apply andb_true_iff in Hs as [_ H]. by eapply str_forallb_no_byte.
    + by apply (endpoint_no_byte "#").
Qed.
Lemma endpoint_hier : hier_part url = rest.
Proof using Hs Hh Hp Hpath.
  unfold hier_part. rewrite endpoint_after_scheme. cbn [fst snd]. by rewrite Cut_none by by apply endpoint_no_byte.
Qed.
Lemma endpoint_no_user : url_User url = None.
Proof using Hs Hh Hp Hpath.
  unfold url_User. destruct (has_authority url); [|done]. rewrite endpoint_hier.
  assert (no_byte "@" (Cut (str_drop 2 rest) "/").1 = true) as Hat; [|by rewrite LastIndexByte_none].
  change (str_drop 2 rest) with ((host +:+ pp) +:+ path).
  assert (no_byte "/" (host +:+ pp) = true) as Hsl by by rewrite no_byte_app, dns_host_no_byte, port_part_no_byte.
  assert (no_byte "@" (host +:+ pp) = true) as Hat by by rewrite no_byte_app, dns_host_no_byte, port_part_no_byte.
  unfold url_path in Hpath. apply orb_true_iff in Hpath as [->%String.eqb_eq|[[r ->]%HasPrefix_true _]%andb_true_iff].
  - by rewrite str_app_nil_r, Cut_none.
  - change ("/" +:+ r) with (String "/" r). by rewrite Cut_app.
Qed.
Lemma endpoint_host_kept : url_escape host_char (host +:+ pp) = host +:+ pp.
Proof using Hh Hp host path pp scheme.
  apply url_escape_kept. rewrite str_forallb_app, andb_true_iff. apply andb_true_iff in Hh as [_ Hc]. split.
  - by eapply str_forallb_sub, Hc.
  - apply validOptionalPort_cases in Hp as [->|(d & -> & Hd)]; [done|]. cbn. by eapply str_forallb_sub, Hd.
Qed.
End endpoint_urls.

(** ** Properties *)

Section properties.
Context `{U : Unicode} `{L : UnstructuredLib} `{Y : YamlLib} `{DY : DescribeYaml} `{UL : UrlLib} `{C : CronLib} `{Q : QuantityLib}
  `{M : RustfsRegistrar.MinioLib} `{O : OidcLib}.

(** The metadata of a resource is advertised on the host the resource is on: the
    URL derived from one without credentials, query and fragment keeps its
    scheme, host and port, whatever its path. *)
Theorem deriveWellKnownURL_origin scheme host pp path :
  scheme_name scheme = true -> dns_host host = true -> validOptionalPort pp = true -> url_path path = true ->
  deriveWellKnownURL (scheme +:+ "://" +:+ (host +:+ pp) +:+ path) =
  str_map lower_char scheme +:+ "://" +:+ (host +:+ pp) +:+ "/.well-known/oauth-protected-resource".
Proof.
  intros Hs Hh Hp Hpath. unfold deriveWellKnownURL.
  pose proof (Parse_plain scheme "" host pp path Hs eq_refl Hh Hp Hpath) as HP.
  change (user_part "" +:+ host +:+ pp) with (host +:+ pp) in HP. rewrite HP. cbn [u_Scheme u_Host].
  unfold url_Opaque, url_OmitHost, has_authority, url_ForceQuery. rewrite endpoint_no_user, endpoint_hier, endpoint_after_scheme by done.
  cbn [fst snd]. rewrite endpoint_host_kept by done.
  assert (String.eqb (str_map lower_char scheme) "" = false) as -> by by destruct scheme.
  assert (has_byte ("//" +:+ (host +:+ pp) +:+ path) "?" = false) as -> by (unfold has_byte; by rewrite endpoint_no_byte).
  set (rest := "//" +:+ _ +:+ path).
  assert (HasPrefix rest "/" = true /\ HasPrefix rest "//" = true) as [-> ->] by done.
  rewrite andb_false_l. cbn [orb andb negb String.eqb].
  by rewrite str_app_nil_r, !str_app_assoc.
Qed.

(** C5: With OIDC configured, what the MCP endpoint is handed is identified: the answer
    to a request is a 401, or has nothing to do with the endpoint, or is the endpoint's
    answer to that request on the path [/mcp] carrying the identity of the shared
    token, presented as it is configured, or the one validation gives for the token
    presented. *)
Theorem Handler_identifies token v meta mcp fallback r :
  let serve mcp := Handler token (Some v) meta mcp fallback r in
  rs_status (serve mcp) = 401%Z \/
  (rq_Path r <> "/mcp" /\ forall mcp', serve mcp' = serve mcp) \/
  (rq_Path r = "/mcp" /\ exists d, serve mcp = mcp (WithDeployer r d) /\
     (d = BearerDeployer /\ rq_Authorization r = "Bearer " +:+ token \/
      exists jwt, rq_Authorization r = "Bearer " +:+ jwt /\ ValidateToken v jwt = Ok d)).
Proof.
  intros serve. destruct (String.eqb_spec (rq_Path r) "/mcp") as [Hp|Hp].
  - destruct (DualAuthMiddleware_cases token (Some v) (meta_url meta) (mux mcp fallback meta) r) as [[msg H]|(r' & Ha & H)].
    + left. unfold serve, Handler. by rewrite H.
    + right. right. split; [done|]. assert (rq_Path r' = rq_Path r) as Hp' by by destruct Ha.
      assert (serve mcp = mcp r') as -> by (unfold serve, Handler; rewrite H; unfold mux; by rewrite Hp', Hp).
      destruct Ha as [Hb| |o jwt d [= <-] Hauth _ Hv|o [= <-] Hauth]; [by rewrite Hp in Hb|done| |]; eexists; (split; [done|]).
      * right. by exists jwt.
      * by left.
  - right. left. split; [done|]. intros mcp'. unfold serve, Handler. apply DualAuthMiddleware_ext. intros r' Hr'.
    unfold mux. by rewrite Hr', (proj2 (String.eqb_neq _ _) Hp).
Qed.

(** Liveness probes and the metadata of the resource need no credentials. *)
Theorem Handler_public token v meta mcp fallback r :
  (rq_Path r = "/healthz" -> Handler token v meta mcp fallback r = healthHandler) /\
  (rq_Path r = well_known_path -> forall m, meta = Some m -> Handler token v meta mcp fallback r = resourceMetadataHandler m r).
Proof.
  split.
  - intros Hp. unfold Handler. rewrite DualAuthMiddleware_exempt by by rewrite Hp. unfold mux. by rewrite Hp.
  - intros Hp m ->. unfold Handler. rewrite DualAuthMiddleware_exempt by by rewrite Hp. unfold mux. by rewrite Hp.
Qed.

(** A server that comes up has a token, a valid configuration, and OIDC exactly
    when that enables it; authorization is on unless it was switched off; what
    it advertises, with OIDC only, is an http or https URL with a host and
    without credentials, query or fragment. *)
Theorem start_settings getenv ReadFile client cn :
  let cfg := LoadFromEnv getenv in
  returns (fun out => forall run, out = Ok run ->
    run_token run <> "" /\ client = Ok () /\ Validate cfg = None /\
    bool_decide (is_Some (run_oidc run)) = AuthEnabled cfg /\
    (exists ev, srv_eval (run_server run) = Some ev /\
       ev_Enabled ev = negb (String.eqb (getenv "TENTACULAR_AUTHZ_ENABLED") "false")) /\
    (forall m, run_meta run = Some m -> AuthEnabled cfg = true /\
       exists extURL u, rm_Resource m = extURL +:+ "/mcp" /\ Parse extURL = Some u /\
         (u_Scheme u = "https" \/ u_Scheme u = "http") /\ u_Host u <> "" /\
         url_User extURL = None /\ url_RawQuery extURL = "" /\ url_Fragment extURL = ""))
    (start getenv ReadFile client cn).
Proof.
  intros cfg. unfold start. fold cfg. apply returns_try_ret; [intros token Htoken|done].
  apply returns_try_ret; [intros [] Hclient|done]. apply returns_try_ret; [intros [] Hvalid|done].
  apply returns_bind. intros [c|err]; [|by apply returns_Ret].
  apply returns_try_ret; [intros o Ho|done]. apply returns_try_ret; [intros m Hm|done]. apply returns_Ret. intros r [= <-].
  cbn [run_server run_token run_oidc run_meta srv_eval]. split_and!.
  - by eapply LoadToken_nonempty.
  - done.
  - by destruct (Validate cfg).
  - unfold oidc_validator in Ho. destruct (AuthEnabled cfg), (NewOIDCValidator (c_Auth cfg)); by simplify_eq.
  - eexists. split; [done|]. unfold main_evaluator. by destruct (String.eqb _ "false").
  - intros x ->. by eapply resource_meta_spec.
Qed.

(** C7: The tools are what they are registered as: a call of a tool annotated
    read-only changes nothing - no write to the cluster, the databases or the
    object store, no HTTP request other than GET - whoever calls it and whatever the
    cluster answers. *)
Theorem ReadOnlyHint_honest s deployer c h :
  ReadOnlyHint c = true -> holds (every (fun r => is_write r = false)) whatever h (invoke s deployer c).
Proof. intros Hr. by apply invoke_readonly. Qed.

(** C6: Nobody is nobody: where authorization is on, a call that carries no identity
    changes nothing, whatever the tool. *)
Theorem identity_required s ev c h :
  srv_eval s = Some ev -> ev_Enabled ev = true -> holds (every (fun r => is_write r = false)) whatever h (invoke s None c).
Proof. intros He Hev. by eapply unidentified_reads. Qed.
End properties.

(** ** Witnesses *)

Definition no_documents : DescribeYaml := {| yaml_minimalWorkflow := fun _ => None; yaml_prompts := fun _ => None |}.
Definition toy_minio : RustfsRegistrar.MinioLib := {| RustfsRegistrar.minio_Code := fun _ => "" |}.
(** Everything off but authorization, on the bearer token alone. *)
Definition toy_env (key : string) : string :=
  if String.eqb key "TOKEN_PATH" then "/token" else "".
Definition toy_files (path : string) : res string :=
  if String.eqb path "/token" then Ok ("s3cret" +:+ nl) else Err (ErrorNew "no such file").
Definition toy_connections : connections := {| cn_postgres := Ok (); cn_nats := Ok (); cn_minio := Ok () |}.
Definition toy_start : prog (res (running (C := toy_cron) (O := toy_oidc))) :=
  start (U := ascii_tables) (UL := no_brackets) (C := toy_cron) (M := toy_minio) (O := toy_oidc) toy_env toy_files (Ok ()) toy_connections.
Definition toy_server : Server (C := toy_cron) :=
  {| srv_getenv := toy_env; srv_dynamic := true; srv_reconciler := main_reconciler toy_env; srv_scheduler := Some (New (C := toy_cron));
     srv_exoCtrl := None; srv_eval := Some (main_evaluator toy_env) |}.

Example toy_start_comes_up :
  match toy_start with
  | Ret (Ok r) => run_token r = "s3cret" /\ run_oidc r = None /\ run_addr r = ":8080" /\ run_reconciles r = true
  | _ => False
  end.
Proof. by vm_compute. Qed.

(** wf_restart is registered as idempotent; every call rolls the pods out again. *)
Example restarts_differ : restart_patch 0 <> restart_patch 1.
Proof. by vm_compute. Qed.

Lemma deriveWellKnownURL_origin_witness :
  deriveWellKnownURL (UL := no_brackets) "https://mcp.example.com:8443/mcp" =
  "https://mcp.example.com:8443/.well-known/oauth-protected-resource".
Proof. by apply (deriveWellKnownURL_origin (UL := no_brackets) "https" "mcp.example.com" ":8443" "/mcp"). Defined.

Abbreviation toy_invoke := (invoke (U := ascii_tables) (L := path_lib) (Y := toy_yaml []) (DY := no_documents) (UL := no_brackets)
  (C := toy_cron) (Q := milli_quantities)) (only parsing).

Lemma ReadOnlyHint_honest_witness :
  ReadOnlyHint (EnclaveList "ada@x") = true /\
  holds (every (fun r => is_write r = false)) whatever [] (toy_invoke toy_server (Some BearerDeployer) (EnclaveList "ada@x")) /\
  match toy_invoke toy_server (Some BearerDeployer) (EnclaveList "ada@x") with Call _ _ => True | Ret _ => False end.
Proof.
  split_and!; [done| |by vm_compute].
  by apply (ReadOnlyHint_honest (U := ascii_tables) (L := path_lib) (Y := toy_yaml []) (DY := no_documents) (UL := no_brackets)
    (C := toy_cron) (Q := milli_quantities)).
Defined.

Lemma identity_required_witness :
  srv_eval toy_server = Some (main_evaluator toy_env) /\ ev_Enabled (main_evaluator toy_env) = true /\
  holds (every (fun r => is_write r = false)) whatever [] (toy_invoke toy_server None (EnclaveDeprovision "team")).
Proof.
  split_and!; [done|done|].
  by apply (identity_required (U := ascii_tables) (L := path_lib) (Y := toy_yaml []) (DY := no_documents) (UL := no_brackets)
    (C := toy_cron) (Q := milli_quantities) toy_server (main_evaluator toy_env)).
Defined.
