(* ===== verification/System.v ===== *)
(** * The running system

    What holds of a server from its start on, whoever calls it and whatever the
    cluster and the backing services answer: which namespaces its calls can change,
    and that its schedules stay in order.  [serving] is the step relation: a
    registration of the scan that runs beside the server, or a tool call. *)

From S2P Require Import Prelude GoStrings Guard Annotations ExoConfig Identity Evaluator Auth Psa.
From S2P Require Import Effects K8sOps Unstructured GoUrl Quantity Contract Controller Scheduler AuthzHelpers EnclaveTools.
From S2P Require Import Egress Enrich Process Deploy WfApply Run WfHealth Workflow Discover Server.
From S2P Require PgRegistrar NatsRegistrar RustfsRegistrar SpireRegistrar.
#[local] Open Scope string_scope.

(** ** Where requests go *)

(** The namespace whose objects a request to the cluster changes; for the
    namespace object itself, that namespace. *)
Definition scope (k ns name : string) : option string :=
  if String.eqb ns "" then if String.eqb k "namespaces" then Some name else None else Some ns.
Definition target (r : req) : option string :=
  match r with
  | KCreate k ns o | KUpdate k ns o => scope k ns (o_name o)
  | KDelete k ns name | KPatch k ns name _ => scope k ns name
  | _ => None
  end.

(** The API server answers a get with the object of that name. *)
Definition honest (h : list event) : Prop :=
  forall k ns name o, Ev (KGet k ns name) (Ok o) ∈ h -> o_name o = name.

(** The NATS registrar keeps the subjects of all workflows in one ConfigMap, the one
    its configuration names. *)
Definition nats_write (cfg : Config) (r : req) : Prop :=
  exists o, o_name o = nats_AuthzConfigMap (c_NATS cfg) /\
           (r = KCreate "configmaps" (nats_AuthzNamespace (c_NATS cfg)) o \/
            r = KUpdate "configmaps" (nats_AuthzNamespace (c_NATS cfg)) o).
Definition spares_system (cfg : Config) (h : list event) (r : req) : Prop :=
  honest h -> (forall ns, target r = Some ns -> IsSystemNamespace ns = false) \/ nats_write cfg r.

(** ** Steps *)

(** The workflow whose schedule a call may change. *)
Definition scheduled_workflow (c : tool_call) : option (string * string) :=
  match c with
  | WfApply p => Some (wa_Namespace p, wa_Name p)
  | WfRemove p => Some (wr_Namespace p, wr_Name p)
  | _ => None
  end.

Section steps.
Context `{U : Unicode} `{L : UnstructuredLib} `{Y : YamlLib} `{DY : DescribeYaml} `{UL : UrlLib} `{C : CronLib} `{Q : QuantityLib}.

(** At most one registration or one removal; the scheduler's mutex makes each
    atomic, so calls that overlap interleave as such moves. *)
Inductive moved (c : tool_call) (t : Scheduler) : Scheduler -> Prop :=
  | moved_not : moved c t t
  | moved_on ns name schedule : scheduled_workflow c = Some (ns, name) -> moved c t (Register t ns name schedule).1
  | moved_off ns name : scheduled_workflow c = Some (ns, name) -> moved c t (Deregister t ns name).

(** A server and what it becomes: by one Deployment of the scan at startup, which
    runs beside the calls, or by a call. *)
Inductive serving (s0 : Server) : Server -> Prop :=
  | serving_started : serving s0 s0
  | serving_scan s t ns deploy n :
      serving s0 s -> srv_scheduler s = Some t ->
      serving s0 (with_scheduler s (Some (scan_deploy ns (t, n) deploy).1))
  | serving_call s deployer c s' : serving s0 s -> outcome (invoke s deployer c) s' -> serving s0 s'.
End steps.

(** ** Lemmas *)

Lemma CheckNamespace_spared ns : CheckNamespace ns = None -> IsSystemNamespace ns = false.
Proof. by intros [_ H]%CheckNamespace_None. Qed.

Lemma read_spared cfg h r : is_write r = false -> spares_system cfg h r.
Proof. intros Hr _. left. intros ns. destruct r; cbn in *; congruence. Qed.
Lemma reads_spare {A} cfg (p : prog A) : reads p -> only (spares_system cfg) p.
Proof. apply only_mono. intros h r. apply read_spared. Qed.

(** A get, and what is done with its answer: an object of another name than asked
    for is no honest answer. *)
Lemma only_get {A} cfg k ns name (f : res object -> prog A) :
  (forall o, o_name o = name -> only (spares_system cfg) (f (Ok o))) -> (forall err, only (spares_system cfg) (f (Err err))) ->
  only (spares_system cfg) (call (KGet k ns name) ≫= f).
Proof.
  intros Hok Herr h. apply holds_call_bind; [by apply read_spared|]. intros [o|err]; [|apply Herr].
  destruct (decide (o_name o = name)) as [Ho|Ho]; [by apply Hok|].
  set (lied := fun h' : list event => Ev (KGet k ns name) (Ok o) ∈ h').
  eapply holds_mono; [| |apply (holds_stable lied)].
  - intros h' r Hl Hh. destruct Ho. exact (Hh _ _ _ _ Hl).
  - done.
  - intros h' e Hl. by right.
  - by left.
Qed.

(** *** Requests in a guarded namespace *)

Lemma scope_spared k ns name ns' : CheckNamespace ns = None -> scope k ns name = Some ns' -> IsSystemNamespace ns' = false.
Proof. intros [Hne Hns]%CheckNamespace_None. unfold scope. rewrite (proj2 (String.eqb_neq _ _) Hne). by intros [= <-]. Qed.

Section spared.
Context (cfg : Config).

Lemma create_spared k ns o : CheckNamespace ns = None -> only (spares_system cfg) (call (KCreate k ns o)).
Proof. intros Hns. apply only_call. intros h _. left. intros ns'. by apply scope_spared. Qed.
Lemma update_spared k ns o : CheckNamespace ns = None -> only (spares_system cfg) (call (KUpdate k ns o)).
Proof. intros Hns. apply only_call. intros h _. left. intros ns'. by apply scope_spared. Qed.
Lemma delete_spared k ns name : CheckNamespace ns = None -> only (spares_system cfg) (call (KDelete k ns name)).
Proof. intros Hns. apply only_call. intros h _. left. intros ns'. by apply scope_spared. Qed.
Lemma patch_spared k ns name v : CheckNamespace ns = None -> only (spares_system cfg) (call (KPatch k ns name v)).
Proof. intros Hns. apply only_call. intros h _. left. intros ns'. by apply scope_spared. Qed.
Lemma namespace_spared o : IsSystemNamespace (o_name o) = false ->
  only (spares_system cfg) (call (KCreate "namespaces" "" o)) /\ only (spares_system cfg) (call (KUpdate "namespaces" "" o)) /\
  only (spares_system cfg) (call (KDelete "namespaces" "" (o_name o))).
Proof. intros Hns. split_and!; apply only_call; intros h _; left; by intros ns' [= <-]. Qed.
(** No namespace at all: a cluster resource other than a namespace, or another service. *)
Lemma elsewhere_spared r : target r = None -> only (spares_system cfg) (call r).
Proof. intros Hr. apply only_call. intros h _. left. congruence. Qed.
End spared.

Ltac spare_leaf :=
  first [ apply elsewhere_spared; reflexivity
        | apply create_spared; assumption
        | apply update_spared; assumption
        | apply delete_spared; assumption
        | apply patch_spared; assumption ].
Ltac spare_tac :=
  repeat first [ match goal with |- only _ (call _) => spare_leaf end | only_step fail ].

Section k8s.
Context (cfg : Config) (ns : string) (Hns : CheckNamespace ns = None).

Lemma CreateNamespace_spared : only (spares_system cfg) (CreateNamespace ns).
Proof using Hns. apply only_try; [|intros; apply only_ret]. by apply namespace_spared, CheckNamespace_spared. Qed.
Lemma DeleteNamespace_spared : only (spares_system cfg) (DeleteNamespace ns).
Proof using Hns. apply only_try; [|intros; apply only_ret]. by apply (namespace_spared cfg (new_object ns "" [] [])), CheckNamespace_spared. Qed.
Lemma CreateDefaultDenyPolicy_spared : only (spares_system cfg) (CreateDefaultDenyPolicy ns).
Proof using Hns. unfold CreateDefaultDenyPolicy, create_or. spare_tac. Qed.
Lemma CreateDNSAllowPolicy_spared : only (spares_system cfg) (CreateDNSAllowPolicy ns).
Proof using Hns. unfold CreateDNSAllowPolicy, create_or. spare_tac. Qed.
Lemma CreateResourceQuota_spared preset : only (spares_system cfg) (CreateResourceQuota ns preset).
Proof using Hns. unfold CreateResourceQuota, create_or. spare_tac. Qed.
Lemma UpdateResourceQuota_spared preset : only (spares_system cfg) (UpdateResourceQuota ns preset).
Proof using Hns. unfold UpdateResourceQuota, create_or. spare_tac. Qed.
Lemma CreateLimitRange_spared : only (spares_system cfg) (CreateLimitRange ns).
Proof using Hns. unfold CreateLimitRange, create_or. spare_tac. Qed.
Lemma CreateWorkflowServiceAccount_spared : only (spares_system cfg) (CreateWorkflowServiceAccount ns).
Proof using Hns. unfold CreateWorkflowServiceAccount, create_or. spare_tac. Qed.
Lemma CreateWorkflowRole_spared : only (spares_system cfg) (CreateWorkflowRole ns).
Proof using Hns. unfold CreateWorkflowRole, create_or. spare_tac. Qed.
Lemma CreateWorkflowRoleBinding_spared : only (spares_system cfg) (CreateWorkflowRoleBinding ns).
Proof using Hns. unfold CreateWorkflowRoleBinding, create_or. spare_tac. Qed.
End k8s.
#[export] Hint Resolve CreateNamespace_spared DeleteNamespace_spared CreateDefaultDenyPolicy_spared CreateDNSAllowPolicy_spared
  CreateResourceQuota_spared UpdateResourceQuota_spared CreateLimitRange_spared CreateWorkflowServiceAccount_spared
  CreateWorkflowRole_spared CreateWorkflowRoleBinding_spared : only.

(** *** The registrars and the controller *)

(** What the controller asks of its registrars, whichever services are enabled. *)
Record registrars_spare (cfg : Config) (c : Controller) : Prop := {
  pg_spares pg : ctl_pg c = Some pg ->
    (forall id, only (spares_system cfg) (pgr_Register pg id)) /\ (forall id, only (spares_system cfg) (pgr_Unregister pg id)) /\
    (forall id, only (spares_system cfg) (pgr_EnsureEnclave pg id)) /\ (forall id, only (spares_system cfg) (pgr_CleanupEnclave pg id));
  nats_spares n : ctl_nats c = Some n ->
    (forall id, only (spares_system cfg) (natsr_Register n id)) /\ (forall id, only (spares_system cfg) (natsr_Unregister n id)) /\
    (forall id, only (spares_system cfg) (natsr_EnsureEnclave n id)) /\ (forall id, only (spares_system cfg) (natsr_CleanupEnclave n id));
  rustfs_spares r : ctl_rustfs c = Some r ->
    (forall id, only (spares_system cfg) (rfsr_Register r id)) /\ (forall id, only (spares_system cfg) (rfsr_Unregister r id)) /\
    (forall id, only (spares_system cfg) (rfsr_EnsureEnclave r id)) /\ (forall id, only (spares_system cfg) (rfsr_CleanupEnclave r id));
  spire_spares s : ctl_spire c = Some s ->
    (forall id ns, only (spares_system cfg) (spr_Register s id ns)) /\ (forall id ns, only (spares_system cfg) (spr_Unregister s id ns));
}.

Section registrars.
Context `{U : Unicode} `{M : RustfsRegistrar.MinioLib} (cfg : Config).

(** Both edits of the file send back the ConfigMap they fetched by name. *)
Lemma edit_spared h cm (o : object) :
  Ev (KGet "configmaps" (nats_AuthzNamespace (c_NATS cfg)) (nats_AuthzConfigMap (c_NATS cfg))) (Ok cm) ∈ h -> o_name o = o_name cm ->
  spares_system cfg h (KUpdate "configmaps" (nats_AuthzNamespace (c_NATS cfg)) o).
Proof. intros Hin Ho Hh. right. exists o. split; [by rewrite Ho, (Hh _ _ _ _ Hin)|by right]. Qed.
Lemma upsertAuthzEntry_spared id : only (spares_system cfg) (NatsRegistrar.upsertAuthzEntry (c_NATS cfg) id).
Proof.
  intros h. unfold NatsRegistrar.upsertAuthzEntry. cbv zeta. apply holds_call_bind; [by apply read_spared|]. intros [cm|err].
  - apply holds_try. split; [|by intros []]. apply edit_spared with cm; [by left|done].
  - destruct (negb _); [done|]. apply holds_try. split; [|by intros []]. intros _. right. eexists. split; [|by left]. done.
Qed.
Lemma unregisterSPIFFE_spared id : only (spares_system cfg) (NatsRegistrar.unregisterSPIFFE (c_NATS cfg) id).
Proof.
  intros h. unfold NatsRegistrar.unregisterSPIFFE. cbv zeta. apply holds_call_bind; [by apply read_spared|]. intros [cm|err].
  - case_match; [done|]. apply holds_try. split; [|by intros []]. apply edit_spared with cm; [by left|done].
  - by case_match.
Qed.
Lemma pg_registrar_spared pgc :
  (forall id, only (spares_system cfg) (pgr_Register (pg_registrar pgc) id)) /\
  (forall id, only (spares_system cfg) (pgr_Unregister (pg_registrar pgc) id)).
Proof.
  split; intros id; cbn [pgr_Register pgr_Unregister pg_registrar]; cbv zeta; unfold PgRegistrar.Register, PgRegistrar.Unregister, PgRegistrar.with_rollback, PgRegistrar.generateHexPassword;
    spare_tac.
Qed.
Lemma rustfs_registrar_spared rfc :
  (forall id, only (spares_system cfg) (rfsr_Register (rustfs_registrar rfc) id)) /\
  (forall id, only (spares_system cfg) (rfsr_Unregister (rustfs_registrar rfc) id)).
Proof.
  split; intros id; cbn [rfsr_Register rfsr_Unregister rustfs_registrar]; cbv zeta; unfold RustfsRegistrar.Register, RustfsRegistrar.Unregister, RustfsRegistrar.collect, RustfsRegistrar.ensure_bucket,
    RustfsRegistrar.AddUser, RustfsRegistrar.RemoveUser, RustfsRegistrar.AddCannedPolicy, RustfsRegistrar.SetPolicy,
    RustfsRegistrar.RemoveCannedPolicy, RustfsRegistrar.doNoBody, RustfsRegistrar.do_, PgRegistrar.generateHexPassword; spare_tac.
Qed.
Lemma spire_registrar_spared cn :
  (forall id ns, only (spares_system cfg) (spr_Register (spire_registrar cn) id ns)) /\
  (forall id ns, only (spares_system cfg) (spr_Unregister (spire_registrar cn) id ns)).
Proof. split; intros id ns; cbn [spr_Register spr_Unregister spire_registrar]; cbv zeta; unfold SpireRegistrar.Register, SpireRegistrar.Unregister; spare_tac. Qed.
Lemma nats_registrar_spared :
  (forall id, only (spares_system cfg) (natsr_Register (nats_registrar (c_NATS cfg)) id)) /\
  (forall id, only (spares_system cfg) (natsr_Unregister (nats_registrar (c_NATS cfg)) id)).
Proof.
  split; intros id; cbn [natsr_Register natsr_Unregister nats_registrar]; cbv zeta; unfold NatsRegistrar.Register, NatsRegistrar.Unregister, NatsRegistrar.registerSPIFFE, NatsRegistrar.registerToken;
    repeat first [apply upsertAuthzEntry_spared|apply unregisterSPIFFE_spared|progress spare_tac].
Qed.
End registrars.

Section controllers.
Context `{U : Unicode} `{M : RustfsRegistrar.MinioLib} (cfg : Config).

(** The registrars [NewController] makes. *)
Definition built (c : Controller) : Prop :=
  ctl_cfg c = cfg /\
  (forall pg, ctl_pg c = Some pg -> exists k, pg = pg_registrar k) /\
  (forall n, ctl_nats c = Some n -> n = nats_registrar (c_NATS cfg)) /\
  (forall r, ctl_rustfs c = Some r -> exists k, r = rustfs_registrar k) /\
  (forall s, ctl_spire c = Some s -> exists cn, s = spire_registrar cn).

Lemma built_spares c : built c -> registrars_spare cfg c.
Proof.
  intros (_ & Hpg & Hn & Hr & Hs). split.
  - intros pg [k ->]%Hpg. destruct (pg_registrar_spared cfg k). split_and!; [done|done|intros; apply only_ret..].
  - intros n ->%Hn. destruct (nats_registrar_spared cfg). split_and!; [done|done|intros; apply only_ret..].
  - intros r [k ->]%Hr. destruct (rustfs_registrar_spared cfg k). split_and!; [done|done|intros; apply only_ret..].
  - intros s [cn ->]%Hs. apply spire_registrar_spared.
Qed.

Lemma init_service_built {A} enabled label (r : res A) (Q : A -> Prop) o :
  (forall x, r = Ok x -> Q x) -> init_service enabled label r = Ok o -> forall x, o = Some x -> Q x.
Proof. intros Hr. unfold init_service. destruct enabled, r as [y|]; intros H x ->; simplify_eq; by apply Hr. Qed.

Lemma NewController_built cn : returns (fun out => forall c, out = Ok c -> built c) (NewController cn cfg true).
Proof.
  unfold NewController. destruct (negb (c_Enabled cfg)); [apply returns_Ret; by intros c [= <-]|]. cbv zeta.
  destruct (init_service (PostgresEnabled cfg) _ _) as [pg|] eqn:Hpg; [|by apply returns_Ret].
  destruct (init_service (NATSEnabled cfg) _ _) as [nats|] eqn:Hnats; [|by apply returns_Ret].
  destruct (init_service (RustFSEnabled cfg) _ _) as [rfs|] eqn:Hrfs; [|by apply returns_Ret].
  assert (forall spire, (forall s, spire = Some s -> exists cn, s = spire_registrar cn) ->
            built (NewControllerWithDeps cfg pg nats rfs spire)) as Hb.
  { intros spire Hs. split_and!; [done| | | |exact Hs]; cbn; eapply init_service_built; [|done| |done| |done].
    - intros x. unfold connected. destruct (cn_postgres cn); [|done]. intros [= <-]. by eexists.
    - intros x. unfold NewNATSRegistrar. repeat case_match; by intros [= <-].
    - intros x. unfold connected. destruct (cn_minio cn); [|done]. intros [= <-]. by eexists. }
  cbn [mbind res_bind]. destruct (SPIREEnabled cfg && true).
  - apply returns_bind. intros hasCRD. apply returns_Ret. intros c [= <-]. apply Hb. intros s.
    destruct hasCRD; [|done]. intros [= <-]. by eexists.
  - apply returns_Ret. intros c [= <-]. by apply Hb.
Qed.
End controllers.

(** *** What the controller does *)

Section controller.
Context `{U : Unicode} (cfg : Config) (c : Controller) (Hc : registrars_spare cfg c).

Lemma collect_opt_spared {A} errs label (r : option A) f :
  (forall x, r = Some x -> only (spares_system cfg) (f x)) -> only (spares_system cfg) (collect_opt errs label r f).
Proof. intros Hf. unfold collect_opt. destruct r as [x|]; [|apply only_ret]. apply only_bind; [by apply Hf|]. intros. apply only_ret. Qed.
Lemma ensure_service_spared enclave id svc : only (spares_system cfg) (ensure_service c enclave id svc).
Proof using Hc.
  unfold ensure_service. cbv zeta.
  repeat case_match; try apply only_ret; (apply only_try; [|intros; apply only_ret]); by eapply Hc.
Qed.
Lemma EnsureEnclaveServices_spared enclave svcs : only (spares_system cfg) (EnsureEnclaveServices c enclave svcs).
Proof using Hc.
  assert (forall id l, only (spares_system cfg) (ensure_services c enclave id l)) as H.
  { intros id l. induction l as [|x l IH]; [apply only_ret|]. apply only_try; [apply ensure_service_spared|done]. }
  unfold EnsureEnclaveServices. repeat case_match; try apply only_ret. apply H.
Qed.
Lemma CleanupEnclave_spared name : only (spares_system cfg) (CleanupEnclave c name).
Proof using Hc.
  unfold CleanupEnclave. destruct (negb _); [apply only_ret|]. destruct (CompileEnclaveIdentity name); [|apply only_ret].
  repeat (apply only_bind; [apply collect_opt_spared; intros x Hx; by eapply Hc|intros ?]).
  case_match; apply only_ret.
Qed.
Lemma CleanupWithReport_spared ns name : only (spares_system cfg) (CleanupWithReport c ns name).
Proof using Hc.
  unfold CleanupWithReport. destruct (_ || _); [apply only_ret|]. destruct (CompileIdentity ns name); [|apply only_ret]. cbv zeta.
  repeat (apply only_bind; [apply collect_opt_spared; intros x Hx; by eapply Hc|intros ?]).
  case_match; apply only_ret.
Qed.
Lemma Cleanup_spared ns name : only (spares_system cfg) (Cleanup c ns name).
Proof using Hc. apply only_bind; [apply CleanupWithReport_spared|]. intros. apply only_ret. Qed.
End controller.
#[export] Hint Resolve EnsureEnclaveServices_spared CleanupEnclave_spared CleanupWithReport_spared Cleanup_spared : only.

(** *** The tools that write *)

Section tools.
Context `{U : Unicode} `{L : UnstructuredLib} `{Y : YamlLib} `{UL : UrlLib} (cfg : Config) (c : Controller)
  (Hc : registrars_spare cfg c).

Lemma register_dep_spared id cs dep : only (spares_system cfg) (register_dep c id cs dep).
Proof using Hc.
  unfold register_dep, register_with.
  repeat case_match; try apply only_ret; (apply only_try; [|intros; apply only_ret]); by eapply Hc.
Qed.
Lemma inject_spared ns name ms cs : only (spares_system cfg) (inject ns name ms cs).
Proof.
  assert (forall l w, only (spares_system cfg) (patchNetworkPolicyExoEgress l cs w)) as H.
  { intros l w. unfold patchNetworkPolicyExoEgress. destruct cs as [|x cs]; [apply only_ret|].
    induction l as [|m l IH]; [apply only_ret|]. cbn [patch_netpol].
    unfold open_egress, add_rule, egress_rule. spare_tac; exact IH. }
  unfold inject. repeat case_match; try apply only_ret. apply only_bind; [apply H|]. intros. apply only_ret.
Qed.
Lemma ProcessManifests_spared ns name ms : only (spares_system cfg) (ProcessManifests c ns name ms).
Proof using Hc.
  unfold ProcessManifests. destruct (negb _); [apply only_ret|]. cbv zeta. destruct (detectExoDeps _); [apply only_ret|].
  destruct (CompileIdentity ns name); [|apply only_ret].
  apply only_try; [apply only_foldE; intros; apply register_dep_spared|]. intros cs.
  apply only_try; [apply inject_spared|]. intros ms'. apply only_bind; [|intros; apply only_ret].
  unfold spire_step. destruct (ctl_spire c) eqn:Hs; [|apply only_ret]. apply only_bind; [by eapply Hc|]. intros. apply only_ret.
Qed.
Lemma exo_manifests_spared d p mode existing : only (spares_system cfg) (exo_manifests (Some c) d p mode existing).
Proof using Hc.
  unfold exo_manifests. pose proof ProcessManifests_spared as Hp. unfold ensureEnclaveServicesIfNeeded, AnnotateDeployer.
  spare_tac.
Qed.

(** The handlers, on a namespace the guard lets through. *)
Section guarded.
Context (ns : string) (Hns : CheckNamespace ns = None).

Lemma apply_manifest_spared release st m : only (spares_system cfg) (apply_manifest ns release st m).
Proof using Hns. unfold apply_manifest, resolveGVR. spare_tac. Qed.
Lemma delete_released_spared release keep : only (spares_system cfg) (delete_released ns release keep).
Proof using Hns. unfold delete_released, delete_items. spare_tac. Qed.
End guarded.

Lemma handleWorkflowApply_spared p : CheckNamespace (wa_Namespace p) = None -> only (spares_system cfg) (handleWorkflowApply p).
Proof.
  intros Hns. unfold handleWorkflowApply, NamespacePSALevel. pose proof (apply_manifest_spared _ Hns) as Ha. pose proof (delete_released_spared _ Hns) as Hd.
  pose proof (reads_spare cfg _ (CheckManagedNamespace_readonly (wa_Namespace p))) as Hm. spare_tac.
Qed.

(** A namespace the guard refuses: the tools it guards do nothing. *)
Lemma guarded_refused {A} ns name d eval (p : prog (res A)) err :
  CheckNamespace ns = Some err -> guarded ns name d eval p = Ret (Err err).
Proof. intros H. unfold guarded. by rewrite H. Qed.
Lemma guarded_spared {A} ns name d eval (p : prog (res A)) : only (spares_system cfg) p -> only (spares_system cfg) (guarded ns name d eval p).
Proof. intros Hp. unfold guarded. spare_tac. Qed.

Context `{C : CronLib}.

Lemma wf_apply_spared getenv sched eval d p : only (spares_system cfg) (wf_apply getenv sched (Some c) eval d p).
Proof using Hc.
  unfold wf_apply. cbv zeta. destruct (CheckNamespace (wa_Namespace p)) eqn:Hns.
  { erewrite guarded_refused by done. apply only_ret. }
  apply only_try; [apply guarded_spared, reads_spare, fetchNamespaceAnnotations_readonly|]. intros nsAnn.
  destruct (is_frozen nsAnn); [apply only_ret|]. destruct (apply_mode p nsAnn eval); [|apply only_ret].
  apply only_try; [apply reads_spare; unfold apply_authz; reads_tac|]. intros existing.
  pose proof (fun ms => handleWorkflowApply_spared (with_manifests p ms) Hns) as Ha.
  pose proof exo_manifests_spared as He.
  unfold apply_rest, sync_opt, syncCronSchedule. spare_tac.
Qed.
Lemma wf_remove_spared sched eval d p : only (spares_system cfg) (wf_remove sched (Some c) eval d p).
Proof using Hc.
  unfold wf_remove. cbv zeta. destruct (CheckNamespace (wr_Namespace p)) eqn:Hns.
  { erewrite guarded_refused by done. apply only_ret. }
  apply only_bind; [apply guarded_spared, reads_spare; unfold check_deployment; reads_tac|]. intros allowed.
  pose proof (delete_released_spared _ Hns) as Hd. pose proof (reads_spare cfg _ (CheckManagedNamespace_readonly (wr_Namespace p))) as Hm.
  unfold handleWorkflowRemove. spare_tac.
Qed.
Lemma wf_run_spared eval d p : only (spares_system cfg) (wf_run eval d p).
Proof.
  assert (forall fuel url payload ns name, only (spares_system cfg) (run_loop fuel url payload ns name)) as Hl.
  { induction fuel as [|fuel IH]; intros; [apply only_ret|]. cbn [run_loop]. unfold tryRunOnce. spare_tac. }
  unfold wf_run. cbv zeta. apply only_try.
  - apply guarded_spared, reads_spare. unfold run_authz, execute_authz. reads_tac.
  - intros _. pose proof (reads_spare cfg _ (CheckManagedNamespace_readonly (rn_Namespace p))) as Hm.
    unfold handleWfRun, RunWorkflow. spare_tac.
Qed.
Lemma wf_restart_spared eval d p : only (spares_system cfg) (wf_restart eval d p).
Proof.
  unfold wf_restart. destruct (CheckName _); [apply only_ret|]. unfold resolved_guard.
  destruct (requireDeployer d eval); [|apply only_ret].
  apply only_try; [apply reads_spare, resolveNamespace_readonly|]. intros ns. destruct (CheckNamespace ns) eqn:Hns; [apply only_ret|].
  pose proof (reads_spare cfg _ (CheckManagedNamespace_readonly ns)) as Hm.
  apply only_try; [apply reads_spare; unfold restart_authz, execute_authz; reads_tac|]. intros _.
  unfold handleWfRestart. cbv zeta. cbn [rp_Namespace]. spare_tac.
Qed.
End tools.

(** *** Enclaves *)

(** Like [only_get], where an error ends the handler. *)
Lemma only_try_get {A} cfg k ns name f (kont : object -> prog A) :
  (forall o, o_name o = name -> only (spares_system cfg) (kont o)) -> only (spares_system cfg) (try_with f (call (KGet k ns name)) kont).
Proof. intros Hk. apply only_get; [exact Hk|]. intros. apply only_ret. Qed.

Section enclaves.
Context `{U : Unicode} (cfg : Config) (c : Controller) (Hc : registrars_spare cfg c).

Lemma update_namespace_spared o ann : IsSystemNamespace (o_name o) = false ->
  only (spares_system cfg) (call (KUpdate "namespaces" "" (with_annotations o ann))).
Proof. intros Ho. by apply (namespace_spared cfg (with_annotations o ann)). Qed.

Lemma provision_spared p : CheckNamespace (pp_Name p) = None -> only (spares_system cfg) (handleEnclaveProvision (Some c) p).
Proof using Hc.
  intros Hns. pose proof (CheckNamespace_spared _ Hns) as Hsys.
  assert (forall preset, only (spares_system cfg) (provision_body (Some c) p preset)) as Hb.
  { intros preset. unfold provision_body. cbv zeta. apply only_bind; [by apply elsewhere_spared|]. intros t.
    destruct (ValidateEnclaveInfo _); [apply only_ret|]. apply only_try_get. intros o Ho.
    apply only_try; [apply update_namespace_spared; by rewrite Ho|]. intros _. spare_tac. }
  unfold handleEnclaveProvision, provision_rollback, countEnclavesOwnedBy, ListManagedNamespaces. spare_tac.
Qed.

Lemma sync_sections_spared p st : CheckNamespace (sp_Name p) = None -> only (spares_system cfg) (sync_sections p st).
Proof. intros Hns. unfold sync_sections, sync_remove, sync_quota, transferOrphanedTentacles, transfer_one. spare_tac. Qed.
Lemma sync_spared p d : CheckNamespace (sp_Name p) = None -> only (spares_system cfg) (handleEnclaveSync p d).
Proof.
  intros Hns. pose proof (CheckNamespace_spared _ Hns) as Hsys.
  assert (only (spares_system cfg) (attemptEnclaveSync p d)) as Ha.
  { unfold attemptEnclaveSync. cbv zeta. apply only_try_get. intros o Ho.
    destruct (negb _); [apply only_ret|]. destruct (sync_authorized _ _ _); [|apply only_ret].
    apply only_try; [by apply sync_sections_spared|]. intros st. unfold sync_write. destruct (ss_updated st); [apply only_ret|].
    apply only_bind; [by apply elsewhere_spared|]. intros t. cbv zeta.
    apply only_bind; [apply update_namespace_spared; by rewrite Ho|]. intros r. spare_tac. }
  unfold handleEnclaveSync. induction maxSyncRetries as [|n IH]; [apply only_ret|]. cbn [sync_retries]. spare_tac.
Qed.
Lemma deprovision_spared name d : CheckNamespace name = None -> only (spares_system cfg) (handleEnclaveDeprovision (Some c) name d).
Proof using Hc. intros Hns. unfold handleEnclaveDeprovision. spare_tac. Qed.
End enclaves.

(** *** Any call *)

Section calls.
Context `{U : Unicode} `{L : UnstructuredLib} `{Y : YamlLib} `{DY : DescribeYaml} `{UL : UrlLib} `{C : CronLib} `{Q : QuantityLib}.

Lemma invoke_spared cfg s c d call : srv_exoCtrl s = Some c -> registrars_spare cfg c -> only (spares_system cfg) (invoke s d call).
Proof.
  intros Hs Hc. destruct (ReadOnlyHint call) eqn:Hr; [by apply reads_spare, invoke_readonly|].
  unfold invoke. rewrite Hs. destruct call; try discriminate Hr; try apply only_answer.
  - unfold enclave_provision. destruct (CheckNamespace (pp_Name p)) eqn:Hns; [apply only_ret|].
    repeat case_match; first [apply only_ret|by apply provision_spared].
  - unfold enclave_sync. destruct (CheckNamespace (sp_Name p)) eqn:Hns; [apply only_ret|].
    destruct (requireDeployer _ _); [by apply sync_spared|apply only_ret].
  - unfold enclave_deprovision. destruct (CheckNamespace name) eqn:Hns; [apply only_ret|].
    destruct (requireDeployer _ _); [by apply deprovision_spared|apply only_ret].
  - cbv zeta. apply only_bind; [by apply wf_apply_spared|]. intros a.
    destruct (ap_prewarm a) as [[proxyNS deps]|]; [|apply only_ret]. apply only_answer. unfold PrewarmModules, prewarm_one. spare_tac.
  - apply only_bind; [by apply wf_remove_spared|]. intros. apply only_ret.
  - by apply wf_run_spared.
  - by apply wf_restart_spared.
Qed.
End calls.

(** *** Schedules *)

Lemma returns_outcome {A} (Q : A -> Prop) (p : prog A) a : returns Q p -> outcome p a -> Q a.
Proof.
  intros Hp Ho. specialize (Hp []). revert Hp. generalize (@nil event). induction Ho as [a|r k x a Ho IH]; intros h Hp; [exact Hp|].
  destruct Hp as [_ Hp]. exact (IH _ (Hp x)).
Qed.

Section schedules.
Context `{U : Unicode} `{L : UnstructuredLib} `{Y : YamlLib} `{DY : DescribeYaml} `{UL : UrlLib} `{C : CronLib} `{Q : QuantityLib}.

Lemma answer_returns {A B} (P : B -> Prop) (b : B) (p : prog A) : P b -> returns P (answer b p).
Proof. intros Hb. apply returns_bind. intros. by apply returns_Ret. Qed.

Lemma wf_apply_moves getenv t exoCtrl eval d p :
  returns (fun a => exists t', ap_sched a = Some t' /\ moved (WfApply p) t t') (wf_apply getenv (Some t) exoCtrl eval d p).
Proof.
  assert (forall err, exists t', ap_sched (refused (Some t) err) = Some t' /\ moved (WfApply p) t t') as Hno
    by (intros; eexists; split; [done|constructor]).
  unfold wf_apply. cbv zeta. apply returns_bind. intros [nsAnn|]; [|by apply returns_Ret].
  destruct (is_frozen nsAnn); [by apply returns_Ret|]. destruct (apply_mode p nsAnn eval) as [mode|]; [|by apply returns_Ret].
  apply returns_bind. intros [existing|]; [|by apply returns_Ret]. unfold apply_rest. cbv zeta.
  apply returns_bind. intros [ms|]; [|by apply returns_Ret]. destruct (validateNodeDescriptions ms); [|by apply returns_Ret].
  apply returns_bind. intros [r|]; [|by apply returns_Ret].
  eapply returns_bind_post with (P := fun sched => exists t', sched = Some t' /\ moved (WfApply p) t t').
  - unfold sync_opt, syncCronSchedule. apply returns_bind_post with (P := moved (WfApply p) t).
    + apply returns_bind. intros deploy. apply returns_Ret. destruct deploy; [|constructor]. cbv zeta.
      destruct (String.eqb _ ""); by constructor.
    + intros t' Ht. apply returns_Ret. by eexists.
  - intros sched (t' & -> & Ht). apply returns_Ret. by eexists.
Qed.
Lemma wf_remove_moves t exoCtrl eval d p :
  returns (fun r => exists t', r.1 = Some t' /\ moved (WfRemove p) t t') (wf_remove (Some t) exoCtrl eval d p).
Proof.
  unfold wf_remove. cbv zeta. apply returns_bind. intros [[]|]; [|apply returns_Ret; eexists; split; [done|constructor]].
  apply returns_bind. intros result.
  assert (exists t', fmap (M := option) (fun s => Deregister s (wr_Namespace p) (wr_Name p)) (Some t) = Some t' /\ moved (WfRemove p) t t') as Ht
    by (eexists; split; [done|by constructor]).
  repeat case_match; try apply returns_bind; intros; by apply returns_Ret.
Qed.

(** A call leaves the server as it is, up to one move of the scheduler. *)
Lemma invoke_moves s t d c :
  srv_scheduler s = Some t ->
  returns (fun s' => exists t', s' = with_scheduler s (Some t') /\ moved c t t') (invoke s d c).
Proof.
  intros Ht. assert (exists t', s = with_scheduler s (Some t') /\ moved c t t') as Hs.
  { exists t. split; [|constructor]. destruct s. cbn in Ht. by subst. }
  unfold invoke. cbv zeta. rewrite Ht. destruct c; try (by apply answer_returns); try (by apply returns_Ret).
  - eapply returns_bind_post; [apply wf_apply_moves|]. intros a (t' & Ha & Hm). rewrite Ha.
    destruct (ap_prewarm a) as [[]|]; [apply answer_returns|apply returns_Ret]; by eexists.
  - eapply returns_bind_post; [apply wf_remove_moves|]. intros r (t' & -> & Hm). apply returns_Ret. by eexists.
Qed.

Context `{!CronLaws C}.

Lemma Deregister_no_stray t ns name : no_stray t -> no_stray (Deregister t ns name).
Proof.
  intros Hs. unfold Deregister. destruct (s_entries t !! key_of ns name) as [e|] eqn:He; [|done].
  intros id sch wf. cbn. rewrite job_Remove. destruct (decide (id = e_cronID e)) as [|Hne]; [done|].
  intros (e' & He' & Hid & Hsch)%Hs. exists e'. split; [|done]. rewrite lookup_delete_ne; [done|].
  intros Hk. rewrite Hk, He' in He. congruence.
Qed.
Lemma moved_no_stray c t t' : no_stray t -> moved c t t' -> no_stray t'.
Proof. intros Ht [|ns name sch _|ns name _]; [done|by apply Register_no_stray|by apply Deregister_no_stray]. Qed.
Lemma scan_no_stray ns t n deploy : no_stray t -> no_stray (scan_deploy ns (t, n) deploy).1.
Proof.
  intros Ht. unfold scan_deploy. cbv zeta. destruct (String.eqb _ ""); [done|]. cbn [fst snd].
  match goal with |- context [Register ?a ?b ?c ?d] => destruct (Register_no_stray a b c d Ht) as [H _];
    destruct (Register a b c d) as [s' [err|]] end; exact H.
Qed.

Lemma serving_invariant s0 s :
  (exists t, srv_scheduler s0 = Some t /\ no_stray t) -> serving s0 s ->
  exists t, s = with_scheduler s0 (Some t) /\ no_stray t.
Proof.
  intros (t0 & H0 & Hn0). induction 1 as [|s t ns deploy n Hs (t1 & -> & Hn1) Ht|s d c s' Hs (t1 & -> & Hn1) Ho].
  - exists t0. split; [|done]. destruct s0. cbn in H0. by subst.
  - injection Ht as <-. eexists. split; [done|]. by apply scan_no_stray.
  - destruct (returns_outcome _ _ _ (invoke_moves (with_scheduler s0 (Some t1)) t1 d c eq_refl) Ho) as (t2 & -> & Hm).
    exists t2. split; [done|]. by eapply moved_no_stray.
Qed.
End schedules.

(** ** Properties *)

Section properties.
Context `{U : Unicode} `{L : UnstructuredLib} `{Y : YamlLib} `{DY : DescribeYaml} `{UL : UrlLib} `{C : CronLib} `{Q : QuantityLib}
  `{M : RustfsRegistrar.MinioLib} `{O : OidcLib}.

Lemma start_server getenv ReadFile client cn :
  returns (fun out => forall run, out = Ok run ->
    srv_scheduler (run_server run) = Some New /\ srv_eval (run_server run) = Some (main_evaluator getenv) /\
    exists c, srv_exoCtrl (run_server run) = Some c /\ built (LoadFromEnv getenv) c)
    (start getenv ReadFile client cn).
Proof.
  unfold start. cbv zeta. apply returns_try_ret; [intros token _|done]. apply returns_try_ret; [intros _ _|done].
  apply returns_try_ret; [intros _ _|done].
  eapply returns_bind_post; [apply NewController_built|]. intros [c|] Hc; [|by apply returns_Ret].
  apply returns_try_ret; [intros o _|done]. apply returns_try_ret; [intros m _|done]. apply returns_Ret. intros r [= <-].
  split_and!; [done|done|]. exists c. split; [done|]. by apply Hc.
Qed.

(** C4: The protected namespaces are out of reach: whatever the environment a server
    is started from, whatever it has been asked before and whoever asks now, no call
    of a tool changes anything in a system namespace - a control-plane namespace or
    one of the platform's own - nor such a namespace itself, apart from creating or
    updating the one ConfigMap, of the configured name, in which the NATS registrar
    keeps the subjects of the workflows.  Gets are assumed to be answered with the
    object they name. *)
Theorem system_namespaces_spared `{!CronLaws C} getenv ReadFile client cn :
  returns (fun out => forall run, out = Ok run ->
    forall s deployer c, serving (run_server run) s -> only (spares_system (LoadFromEnv getenv)) (invoke s deployer c))
    (start getenv ReadFile client cn).
Proof.
  intros h. eapply holds_mono; [done| |apply start_server]. intros h' out Hout run Hrun s d c Hs.
  destruct (Hout run Hrun) as (Hsched & _ & ctl & Hctl & Hb).
  destruct (serving_invariant _ _ (ex_intro _ New (conj Hsched no_stray_New)) Hs) as (t & -> & _).
  by eapply invoke_spared, built_spares.
Qed.

(** C8: The schedules stay in order: in every state a started server reaches, through
    the scan at startup and any calls, every job its scheduler runs is that of a
    workflow in its table, on the schedule the table shows. *)
Theorem schedules_in_order `{!CronLaws C} getenv ReadFile client cn :
  returns (fun out => forall run, out = Ok run ->
    forall s, serving (run_server run) s -> exists t, srv_scheduler s = Some t /\ no_stray t)
    (start getenv ReadFile client cn).
Proof.
  intros h. eapply holds_mono; [done| |apply start_server]. intros h' out Hout run Hrun s Hs.
  destruct (Hout run Hrun) as (Hsched & _).
  destruct (serving_invariant _ _ (ex_intro _ New (conj Hsched no_stray_New)) Hs) as (t & -> & Ht).
  by exists t.
Qed.

(** C9: A server with neither OIDC nor the switch that turns authorization off changes
    nothing for anybody: the endpoint gets every request as it came, without an
    identity, and without one no tool writes. *)
Theorem bearer_only_powerless `{!CronLaws C} getenv ReadFile client cn :
  AuthEnabled (LoadFromEnv getenv) = false -> getenv "TENTACULAR_AUTHZ_ENABLED" <> "false" ->
  returns (fun out => forall run, out = Ok run ->
    (forall mcp fallback r, rq_Path r = "/mcp" ->
       rs_status (Handler (run_token run) (run_oidc run) (run_meta run) mcp fallback r) = 401%Z \/
       Handler (run_token run) (run_oidc run) (run_meta run) mcp fallback r = mcp r) /\
    forall s c, serving (run_server run) s -> reads (invoke s None c))
    (start getenv ReadFile client cn).
Proof.
  intros Hauth Hz h. eapply holds_mono; [done| |apply holds_and; [apply start_server|apply start_settings]].
  intros h' out [Hout Hset] run Hrun. destruct (Hout run Hrun) as (Hsched & Hev & _).
  destruct (Hset run Hrun) as (_ & _ & _ & Ho & _). rewrite Hauth in Ho. apply bool_decide_eq_false in Ho.
  split.
  - intros mcp fallback r Hp. destruct (run_oidc run) eqn:Hv; [by destruct Ho|].
    destruct (DualAuthMiddleware_cases (run_token run) None (meta_url (run_meta run)) (mux mcp fallback (run_meta run)) r)
      as [[msg H]|(r' & Ha & H)]; [left; unfold Handler; by rewrite H|right]. unfold Handler. rewrite H.
    destruct Ha as [Hb| |? ? ? ?|? ?]; [by rewrite Hp in Hb| |done|done]. unfold mux. by rewrite Hp.
  - intros s c Hs.
    destruct (serving_invariant _ _ (ex_intro _ New (conj Hsched no_stray_New)) Hs) as (t & -> & _).
    eapply unidentified_reads; [exact Hev|]. unfold main_evaluator.
    by rewrite (proj2 (String.eqb_neq _ _) Hz).
Qed.
End properties.

(** ** Witnesses *)

Abbreviation toy_reaches := (serving (U := ascii_tables) (L := path_lib) (Y := toy_yaml []) (DY := no_documents) (UL := no_brackets)
  (C := toy_cron) (Q := milli_quantities)) (only parsing).

Lemma toy_start_runs : exists run, toy_start = Ret (Ok run).
Proof. eexists. vm_compute. reflexivity. Qed.

Lemma system_namespaces_spared_witness :
  exists run, toy_start = Ret (Ok run) /\
    only (spares_system (LoadFromEnv (U := ascii_tables) toy_env)) (toy_invoke (run_server run) (Some BearerDeployer) (EnclaveDeprovision "team")).
Proof.
  destruct toy_start_runs as [run E]. exists run. split; [exact E|].
  pose proof (system_namespaces_spared (U := ascii_tables) (L := path_lib) (Y := toy_yaml []) (DY := no_documents) (UL := no_brackets)
    (C := toy_cron) (Q := milli_quantities) (M := toy_minio) (O := toy_oidc) (CronLaws0 := toy_laws)
    toy_env toy_files (Ok ()) toy_connections []) as H.
  match type of H with holds ?R ?Q [] _ => change (holds R Q [] toy_start) in H end.
  rewrite E in H. apply (H run eq_refl). constructor.
Defined.

Lemma schedules_in_order_witness :
  exists run, toy_start = Ret (Ok run) /\ exists t, srv_scheduler (run_server run) = Some t /\ no_stray (C := toy_cron) t.
Proof.
  destruct toy_start_runs as [run E]. exists run. split; [exact E|].
  pose proof (schedules_in_order (U := ascii_tables) (L := path_lib) (Y := toy_yaml []) (DY := no_documents) (UL := no_brackets)
    (C := toy_cron) (Q := milli_quantities) (M := toy_minio) (O := toy_oidc) (CronLaws0 := toy_laws)
    toy_env toy_files (Ok ()) toy_connections []) as H.
  match type of H with holds ?R ?Q [] _ => change (holds R Q [] toy_start) in H end.
  rewrite E in H. apply (H run eq_refl). constructor.
Defined.

Lemma bearer_only_powerless_witness :
  AuthEnabled (LoadFromEnv (U := ascii_tables) toy_env) = false /\ toy_env "TENTACULAR_AUTHZ_ENABLED" <> "false" /\
  exists run, toy_start = Ret (Ok run) /\
    only (every (fun r => is_write r = false)) (toy_invoke (run_server run) None (EnclaveDeprovision "team")).
Proof.
  split; [reflexivity|]. split; [discriminate|].
  destruct toy_start_runs as [run E]. exists run. split; [exact E|].
  pose proof (bearer_only_powerless (U := ascii_tables) (L := path_lib) (Y := toy_yaml []) (DY := no_documents) (UL := no_brackets)
    (C := toy_cron) (Q := milli_quantities) (M := toy_minio) (O := toy_oidc) (CronLaws0 := toy_laws)
    toy_env toy_files (Ok ()) toy_connections eq_refl ltac:(discriminate) []) as H.
  match type of H with holds ?R ?Q [] _ => change (holds R Q [] toy_start) in H end.
  rewrite E in H. apply (H run eq_refl). constructor.
Defined.

(** A call that does change something. *)
Example provision_writes :
  let after := (exec (toy_invoke toy_server (Some BearerDeployer) (EnclaveProvision provision_example)) empty_cluster).2 in
  match cl_objects after !! ("namespaces", "", "team") with
  | Some ns => ann_get (o_annotations ns) AnnotationEnclaveOwner = "ada@x.org"
  | None => False
  end.
Proof. by vm_compute. Qed.
